(** * Hot-page tracking and promotion: IBS sample ring, kpromoted, CXL HMU

    A shallow embedding of four pieces of the tree:
    - the IBS access profiling: the per-CPU sample ring ([ibs_push_sample],
      [ibs_pop_sample]), the NMI handler, the work handler and the set-up;
    - [mm/kpromoted.c]: the page hotness hash table, [kpromoted_record_access],
      the per-node sweep [kpromoted_migrate] and the node threads;
    - [drivers/cxl/hmu_perf.c]: [cxl_hmu_event_init], [__cxl_hmu_start], the
      hotlist drain [cxl_hmu_update_aux], the PMU callbacks, the interrupt
      handler and the CPU hotplug callbacks;
    - [tools/perf/util/cxl-hmu.c]: the dump of the AUX data.

    C integers are [Z] with the wrap-around of their width written out,
    arrays are lists indexed with stdpp's lookup, and code that touches
    shared state is written in a small state-and-fault monad. *)

From Stdlib Require Import ZArith Lia List.
From stdpp Require Import base tactics option list gmap.

Local Open Scope Z_scope.

(** ** Machine integers *)

Module Mach.

Definition u8 (x : Z) : Z := x mod 2 ^ 8.
Definition u16 (x : Z) : Z := x mod 2 ^ 16.
Definition u32 (x : Z) : Z := x mod 2 ^ 32.
Definition u64 (x : Z) : Z := x mod 2 ^ 64.

(** [int]: two's complement on 32 bits (the kernel builds with wrapping
    signed arithmetic). *)
Definition s32 (x : Z) : Z := (x + 2 ^ 31) mod 2 ^ 32 - 2 ^ 31.

End Mach.

(** ** Computations over a state that can stop in a fault *)

Module Fault.

(** A computation returns a value, or stops at an access or operation the
    machine does not define (a kernel oops, undefined behaviour); both
    carry the state reached. *)
Inductive result (S A : Type) :=
  | Ret (a : A) (s : S)
  | Oops (s : S).
Arguments Ret {S A} a s.
Arguments Oops {S A} s.

Definition M (S A : Type) : Type := S -> result S A.

Definition ret {S A} (a : A) : M S A := fun s => Ret a s.
Definition bind {S A B} (m : M S A) (f : A -> M S B) : M S B :=
  fun s => match m s with Ret a s' => f a s' | Oops s' => Oops s' end.
Definition oops {S A} : M S A := fun s => Oops s.
Definition get {S} : M S S := fun s => Ret s s.
Definition modify {S} (f : S -> S) : M S unit := fun s => Ret tt (f s).

Definition state_of {S A} (r : result S A) : S :=
  match r with Ret _ s => s | Oops s => s end.

(** The weakest precondition of [m] for [Q] on return and [F] on a fault. *)
Definition wp {S A} (m : M S A) (Q : A -> S -> Prop) (F : S -> Prop) (s : S)
  : Prop :=
  match m s with Ret a s' => Q a s' | Oops s' => F s' end.

End Fault.

Notation "'do' X <- A ; B" := (Fault.bind A (fun X => B))
  (at level 10, X name, A at level 100, B at level 200).

(** ** Outcomes *)

Module Outcome.
Import Fault.

(** The computation came back. *)
Definition returned {S A} (r : result S A) : bool :=
  match r with Ret _ _ => true | Oops _ => false end.

(** What it came back with. *)
Definition value_of {S A} (r : result S A) : option A :=
  match r with Ret a _ => Some a | Oops _ => None end.

End Outcome.
(** ** The IBS sample ring *)

Module Ibs.

Definition IBS_NR_SAMPLES : Z := 50.

(** [struct ibs_sample] *)
Record ibs_sample := mk_sample {
  pfn : Z;   (* unsigned long *)
  time : Z;  (* unsigned long, jiffies when accessed *)
  nid : Z    (* int, accessing node if known *)
}.

Global Instance ibs_sample_inhabited : Inhabited ibs_sample :=
  populate (mk_sample 0 0 0).

Definition set_pfn (v : Z) (s : ibs_sample) : ibs_sample :=
  mk_sample v (time s) (nid s).
Definition set_time (v : Z) (s : ibs_sample) : ibs_sample :=
  mk_sample (pfn s) v (nid s).

(** [struct ibs_sample_pcpu] *)
Record ibs_sample_pcpu := mk_pcpu {
  samples : list ibs_sample;
  head : Z;
  tail : Z
}.

(** [alloc_percpu_gfp(struct ibs_sample_pcpu, __GFP_ZERO)] *)
Definition ibs_s_init : ibs_sample_pcpu :=
  mk_pcpu (replicate (Z.to_nat IBS_NR_SAMPLES) (mk_sample 0 0 0)) 0 0.

(** [ibs_push_sample]: the two stores go to [samples[head].pfn] and
    [samples[head].time]; the function has no store to [.nid]. *)
Definition ibs_push_sample (pfn_ nid_ time_ : Z) (r : ibs_sample_pcpu)
  : Z * ibs_sample_pcpu :=
  let next := head r + 1 in
  let next := if IBS_NR_SAMPLES <=? next then 0 else next in
  if next =? tail r then (0, r)
  else
    let i := Z.to_nat (head r) in
    let s1 := alter (set_pfn pfn_) i (samples r) in
    let s2 := alter (set_time time_) i s1 in
    (1, mk_pcpu s2 next (tail r)).

(** [ibs_pop_sample]: [None] is the return value 0 (nothing stored through
    [s]); [Some x] is the return value 1 with [*s = x]. *)
Definition ibs_pop_sample (r : ibs_sample_pcpu)
  : option ibs_sample * ibs_sample_pcpu :=
  let next := tail r + 1 in
  if head r =? tail r then (None, r)
  else
    let next := if IBS_NR_SAMPLES <=? next then 0 else next in
    (Some (samples r !!! Z.to_nat (tail r)), mk_pcpu (samples r) (head r) next).

(** The end of [ibs_overflow_handler], after the sample has been validated:
    push it, and count [HWHINT_BUFFER_FULL] when the push is refused and
    [HWHINT_USEFUL_SAMPLES] otherwise. *)
Record ibs_cpu := mk_cpu {
  ring : ibs_sample_pcpu;
  hwhint_buffer_full : Z;
  hwhint_useful_samples : Z
}.

Definition ibs_cpu_init : ibs_cpu := mk_cpu ibs_s_init 0 0.

Definition ibs_overflow_handler (s : ibs_sample) (c : ibs_cpu) : ibs_cpu :=
  let '(ret, r') := ibs_push_sample (pfn s) (nid s) (time s) (ring c) in
  if ret =? 0
  then mk_cpu r' (hwhint_buffer_full c + 1) (hwhint_useful_samples c)
  else mk_cpu r' (hwhint_buffer_full c) (hwhint_useful_samples c + 1).

(** The NMI handler run once per sample of [l], with no pop in between. *)
Definition push_all (l : list ibs_sample) (c : ibs_cpu) : ibs_cpu :=
  foldl (fun c s => ibs_overflow_handler s c) c l.

(** [ibs_work_handler]: [while (ibs_pop_sample(&s)) kpromoted_record_access(..)].
    The result lists the samples handed to [kpromoted_record_access], in
    order.  [fuel] bounds the number of loop iterations. *)
Fixpoint ibs_work_handler (fuel : nat) (r : ibs_sample_pcpu)
  : option (list ibs_sample * ibs_sample_pcpu) :=
  match fuel with
  | O => None
  | S fuel' =>
      match ibs_pop_sample r with
      | (None, r') => Some ([], r')
      | (Some s, r') =>
          match ibs_work_handler fuel' r' with
          | Some (l, r'') => Some (s :: l, r'')
          | None => None
          end
      end
  end.

(** What a sample carries through the ring: [ibs_push_sample] stores these
    two fields only. *)
Definition payload (s : ibs_sample) : Z * Z := (pfn s, time s).

(** Slot index [j] places after [t], wrapping at the end of the array. *)
Definition slot (t j : Z) : Z :=
  if t + j <? IBS_NR_SAMPLES then t + j else t + j - IBS_NR_SAMPLES.

(** [holds r q]: the ring [r] stores the queue [q] (oldest first) between
    [tail] and [head]. *)
Definition holds (r : ibs_sample_pcpu) (q : list (Z * Z)) : Prop :=
  length (samples r) = Z.to_nat IBS_NR_SAMPLES /\
  0 <= tail r < IBS_NR_SAMPLES /\
  Z.of_nat (length q) < IBS_NR_SAMPLES /\
  head r = slot (tail r) (Z.of_nat (length q)) /\
  forall (j : nat) (x : Z * Z), q !! j = Some x ->
    payload (samples r !!! Z.to_nat (slot (tail r) (Z.of_nat j))) = x.

(** A burst of [n] samples of distinct pages, all observed on [node]. *)
Definition burst (n : nat) (node : Z) : list ibs_sample :=
  (fun i : nat => mk_sample (4096 + Z.of_nat i) (1000 + Z.of_nat i) node)
    <$> seq 0 n.

End Ibs.

(** ** The sample ring under any interleaving of pushes and pops *)

Module IbsOps.
Import Ibs.

(** One call on the ring of a CPU: [ibs_push_sample(pfn, nid, time)] from
    the NMI handler, or [ibs_pop_sample(&s)] from the work handler. *)
Inductive ring_op :=
  | Push (pfn_ nid_ time_ : Z)
  | Pop.

(** What a call gave back: the return value of a push; for a pop, the
    sample stored through [s], or nothing when it returned 0. *)
Inductive ring_ret :=
  | Pushed (ret : Z)
  | Popped (s : option ibs_sample).

Definition ring_step (o : ring_op) (r : ibs_sample_pcpu)
  : ring_ret * ibs_sample_pcpu :=
  match o with
  | Push p n t =>
      let '(ret, r') := ibs_push_sample p n t r in (Pushed ret, r')
  | Pop =>
      let '(s, r') := ibs_pop_sample r in (Popped s, r')
  end.

Fixpoint ring_run (ops : list ring_op) (r : ibs_sample_pcpu)
  : list ring_ret * ibs_sample_pcpu :=
  match ops with
  | [] => ([], r)
  | o :: ops' =>
      let '(x, r1) := ring_step o r in
      let '(xs, r2) := ring_run ops' r1 in
      (x :: xs, r2)
  end.

(** The same calls on a queue of (pfn, time) pairs that takes at most
    [IBS_NR_SAMPLES - 1] entries. *)
Inductive queue_ret :=
  | QPushed (ret : Z)
  | QPopped (x : option (Z * Z)).

Definition queue_step (o : ring_op) (q : list (Z * Z))
  : queue_ret * list (Z * Z) :=
  match o with
  | Push p _ t =>
      if Z.of_nat (length q) <? IBS_NR_SAMPLES - 1
      then (QPushed 1, q ++ [(p, t)])
      else (QPushed 0, q)
  | Pop =>
      match q with
      | [] => (QPopped None, [])
      | x :: q' => (QPopped (Some x), q')
      end
  end.

Fixpoint queue_run (ops : list ring_op) (q : list (Z * Z))
  : list queue_ret * list (Z * Z) :=
  match ops with
  | [] => ([], q)
  | o :: ops' =>
      let '(x, q1) := queue_step o q in
      let '(xs, q2) := queue_run ops' q1 in
      (x :: xs, q2)
  end.

(** What the caller of the ring can see of a result. *)
Definition seen (x : ring_ret) : queue_ret :=
  match x with
  | Pushed ret => QPushed ret
  | Popped s => QPopped (payload <$> s)
  end.

(** The samples the pops of a run handed out. *)
Definition popped_of (xs : list ring_ret) : list ibs_sample :=
  flat_map (fun x => match x with Popped (Some s) => [s] | _ => [] end) xs.

(** The indices are inside the array. *)
Definition in_bounds (r : ibs_sample_pcpu) : Prop :=
  length (samples r) = Z.to_nat IBS_NR_SAMPLES /\
  0 <= head r < IBS_NR_SAMPLES /\
  0 <= tail r < IBS_NR_SAMPLES.

(** No slot has a node stored in it. *)
Definition no_node (r : ibs_sample_pcpu) : Prop :=
  Forall (fun s => nid s = 0) (samples r).

End IbsOps.
(** ** IBS access profiling: the MSRs, the NMI handler, start and stop *)

Module IbsNmi.
Import Mach Fault.

(** The counters [count_vm_event] is called with in the IBS code. *)
Inductive hwhint_event :=
  | HWHINT_NR_EVENTS
  | HWHINT_KERNEL
  | HWHINT_KTHREAD
  | HWHINT_NON_LOAD_STORES
  | HWHINT_DC_L2_HITS
  | HWHINT_LOCAL_L3L1L2
  | HWHINT_LOCAL_PEER_CACHE_NEAR
  | HWHINT_FAR_CACHE_HITS
  | HWHINT_DRAM_ACCESSES
  | HWHINT_CXL_ACCESSES
  | HWHINT_REMOTE_NODE
  | HWHINT_LADDR_INVALID
  | HWHINT_KERNEL_ADDR
  | HWHINT_PADDR_INVALID
  | HWHINT_NON_LRU
  | HWHINT_BUFFER_FULL
  | HWHINT_USEFUL_SAMPLES.

Global Instance hwhint_event_eq_dec : EqDecision hwhint_event.
Proof. solve_decision. Defined.

(** The MSR numbers, bit masks and other constants the file takes from
    the x86 headers. *)
Record ibs_hw := mk_ibs_hw {
  MSR_AMD64_IBSOPCTL : Z;
  MSR_AMD64_IBSOPDATA2 : Z;
  MSR_AMD64_IBSOPDATA3 : Z;
  MSR_AMD64_IBSDCLINAD : Z;
  MSR_AMD64_IBSDCPHYSAD : Z;
  MSR_AMD64_IBSCTL : Z;
  IBS_OP_ENABLE : Z;
  IBS_OP_VAL : Z;
  IBS_OP_CNT_CTL : Z;
  IBS_OP_L3MISSONLY : Z;
  IBS_OP_MAX_CNT : Z;
  IBS_OP_MAX_CNT_EXT_MASK : Z;
  IBS_CAPS_ZEN4 : Z;
  MSR_AMD64_IBSOPDATA3_LDOP : Z;
  MSR_AMD64_IBSOPDATA3_STOP : Z;
  MSR_AMD64_IBSOPDATA3_DCMISS : Z;
  MSR_AMD64_IBSOPDATA3_L2MISS : Z;
  MSR_AMD64_IBSOPDATA3_LADDR_VALID : Z;
  MSR_AMD64_IBSOPDATA3_PADDR_VALID : Z;
  MSR_AMD64_IBSOPDATA2_DATASRC : Z;
  MSR_AMD64_IBSOPDATA2_RMTNODE : Z;
  MSR_AMD64_IBSOPDATA2_DATASRC_LCL_CACHE : Z;
  MSR_AMD64_IBSOPDATA2_DATASRC_PEER_CACHE_NEAR : Z;
  MSR_AMD64_IBSOPDATA2_DATASRC_DRAM : Z;
  MSR_AMD64_IBSOPDATA2_DATASRC_EXT_MEM : Z;
  MSR_AMD64_IBSOPDATA2_DATASRC_FAR_CCX_CACHE : Z;
  IBSCTL_LVT_OFFSET_VALID : Z;
  IBSCTL_LVT_OFFSET_MASK : Z;
  APIC_EILVT_MSG_NMI : Z;
  APIC_EILVT_MSG_FIX : Z;
  PAGE_SHIFT : Z;
  NMI_HANDLED : Z;
  EINVAL : Z
}.

Definition IBS_SAMPLE_PERIOD : Z := 10000.

(** A call of [setup_APIC_eilvt(offset, vector, msg_type, mask)]. *)
Record eilvt_call := mk_eilvt {
  eilvt_offset : Z;
  eilvt_vector : Z;
  eilvt_msg_type : Z;
  eilvt_mask : Z
}.

(** One CPU and the globals of the file: the MSRs of the CPU, its sample
    ring, what was counted, how often [irq_work_queue] was called, the
    APIC calls and warnings, and [arch_hw_access_profiling], [ibs_config],
    [ibs_caps] with the registrations [ibs_access_profiling_init] makes. *)
Record machine := mk_machine {
  msr : gmap Z Z;
  ibs_s : Ibs.ibs_sample_pcpu;
  events : list hwhint_event;
  irq_work_queued : nat;
  eilvt_calls : list eilvt_call;
  warnings : nat;
  arch_hw_access_profiling : bool;
  ibs_config : Z;
  ibs_caps : Z;
  nmi_handler_registered : bool;
  cpuhp_registered : bool
}.

Abbreviation M := (Fault.M machine).

Definition rdmsrl (reg : Z) : M Z := fun m => Ret (msr m !!! reg) m.

Definition wrmsrl (reg val : Z) : M unit := fun m =>
  Ret tt (mk_machine (<[reg := val]> (msr m)) (ibs_s m) (events m)
            (irq_work_queued m) (eilvt_calls m) (warnings m)
            (arch_hw_access_profiling m) (ibs_config m) (ibs_caps m)
            (nmi_handler_registered m) (cpuhp_registered m)).

Definition count_vm_event (ev : hwhint_event) : M unit := fun m =>
  Ret tt (mk_machine (msr m) (ibs_s m) (events m ++ [ev])
            (irq_work_queued m) (eilvt_calls m) (warnings m)
            (arch_hw_access_profiling m) (ibs_config m) (ibs_caps m)
            (nmi_handler_registered m) (cpuhp_registered m)).

Definition irq_work_queue : M unit := fun m =>
  Ret tt (mk_machine (msr m) (ibs_s m) (events m)
            (S (irq_work_queued m)) (eilvt_calls m) (warnings m)
            (arch_hw_access_profiling m) (ibs_config m) (ibs_caps m)
            (nmi_handler_registered m) (cpuhp_registered m)).

Definition pr_warn : M unit := fun m =>
  Ret tt (mk_machine (msr m) (ibs_s m) (events m)
            (irq_work_queued m) (eilvt_calls m) (S (warnings m))
            (arch_hw_access_profiling m) (ibs_config m) (ibs_caps m)
            (nmi_handler_registered m) (cpuhp_registered m)).

(** [ibs_push_sample] on the ring of this CPU. *)
Definition ibs_push_sample (pfn nid time : Z) : M Z := fun m =>
  let '(ret, r) := Ibs.ibs_push_sample pfn nid time (ibs_s m) in
  Ret ret (mk_machine (msr m) r (events m)
             (irq_work_queued m) (eilvt_calls m) (warnings m)
             (arch_hw_access_profiling m) (ibs_config m) (ibs_caps m)
             (nmi_handler_registered m) (cpuhp_registered m)).

(** [~mask] in [u64]. *)
Definition not64 (mask : Z) : Z := u64 (Z.lnot mask).

(** What an NMI finds outside the MSRs: the interrupted context, the task,
    the page behind a pfn ([None]: not online; [Some lru]: online, with
    [PageLRU]), the node of the CPU and the time. *)
Record nmi_ctx := mk_ctx {
  user_mode : bool;
  current_mm : bool;   (* current->mm is not NULL *)
  pfn_to_online_page : Z -> option bool;
  numa_node_id : Z;
  jiffies : Z
}.

(** [hw_access_profiling_stop] *)
Definition hw_access_profiling_stop (hw : ibs_hw) : M unit :=
  do m <- get;
  if negb (arch_hw_access_profiling m) then ret tt
  else
    do ops_ctl <- rdmsrl (MSR_AMD64_IBSOPCTL hw);
    wrmsrl (MSR_AMD64_IBSOPCTL hw) (Z.land ops_ctl (not64 (IBS_OP_ENABLE hw))).

(** [hw_access_profiling_start]; [mm] says whether [current->mm] is set. *)
Definition hw_access_profiling_start (hw : ibs_hw) (mm : bool) : M unit :=
  let period := IBS_SAMPLE_PERIOD in
  do m <- get;
  if negb (arch_hw_access_profiling m) then ret tt
  else
    let config :=
      if negb mm then 0 (* Disable IBS for kernel thread *)
      else
        Z.lor (Z.lor (Z.land (Z.shiftr period 4) (IBS_OP_MAX_CNT hw))
                     (Z.land period (IBS_OP_MAX_CNT_EXT_MASK hw)))
              (ibs_config m) in
    wrmsrl (MSR_AMD64_IBSOPCTL hw) config.

(** The [switch (data_src)] of the NMI handler. *)
Definition count_data_src (hw : ibs_hw) (data_src : Z) : M unit :=
  if data_src =? MSR_AMD64_IBSOPDATA2_DATASRC_LCL_CACHE hw
  then count_vm_event HWHINT_LOCAL_L3L1L2
  else if data_src =? MSR_AMD64_IBSOPDATA2_DATASRC_PEER_CACHE_NEAR hw
  then count_vm_event HWHINT_LOCAL_PEER_CACHE_NEAR
  else if data_src =? MSR_AMD64_IBSOPDATA2_DATASRC_DRAM hw
  then count_vm_event HWHINT_DRAM_ACCESSES
  else if data_src =? MSR_AMD64_IBSOPDATA2_DATASRC_EXT_MEM hw
  then count_vm_event HWHINT_CXL_ACCESSES
  else if data_src =? MSR_AMD64_IBSOPDATA2_DATASRC_FAR_CCX_CACHE hw
  then count_vm_event HWHINT_FAR_CACHE_HITS
  else ret tt.

(** [ibs_overflow_handler]: every [goto handled] is the end of a branch
    here, and the function returns [NMI_HANDLED] after each. *)
Definition ibs_overflow_handler (hw : ibs_hw) (c : nmi_ctx) : M Z :=
  do _ <-
    (do ops_ctl <- rdmsrl (MSR_AMD64_IBSOPCTL hw);
     if Z.land ops_ctl (IBS_OP_VAL hw) =? 0 then ret tt
     else
       do _ <- wrmsrl (MSR_AMD64_IBSOPCTL hw)
                 (Z.land ops_ctl (not64 (IBS_OP_VAL hw)));
       do _ <- count_vm_event HWHINT_NR_EVENTS;
       if negb (user_mode c) then count_vm_event HWHINT_KERNEL
       else if negb (current_mm c) then count_vm_event HWHINT_KTHREAD
       else
         do ops_data3 <- rdmsrl (MSR_AMD64_IBSOPDATA3 hw);
         (* Load/Store ops only *)
         if Z.land ops_data3 (Z.lor (MSR_AMD64_IBSOPDATA3_LDOP hw)
                                    (MSR_AMD64_IBSOPDATA3_STOP hw)) =? 0
         then count_vm_event HWHINT_NON_LOAD_STORES
         (* Discard the sample if it was L1 or L2 hit *)
         else if Z.land ops_data3 (Z.lor (MSR_AMD64_IBSOPDATA3_DCMISS hw)
                                         (MSR_AMD64_IBSOPDATA3_L2MISS hw)) =? 0
         then count_vm_event HWHINT_DC_L2_HITS
         else
           do ops_data2 <- rdmsrl (MSR_AMD64_IBSOPDATA2 hw);
           do m <- get;
           let data_src := Z.land ops_data2 (MSR_AMD64_IBSOPDATA2_DATASRC hw) in
           let data_src :=
             if negb (Z.land (ibs_caps m) (IBS_CAPS_ZEN4 hw) =? 0)
             then Z.lor data_src (Z.shiftr (Z.land ops_data2 0xC0) 3)
             else data_src in
           do _ <- count_data_src hw data_src;
           let rmt_node := Z.land ops_data2 (MSR_AMD64_IBSOPDATA2_RMTNODE hw) in
           do _ <- (if negb (rmt_node =? 0)
                    then count_vm_event HWHINT_REMOTE_NODE else ret tt);
           (* Is linear addr valid? *)
           if Z.land ops_data3 (MSR_AMD64_IBSOPDATA3_LADDR_VALID hw) =? 0
           then count_vm_event HWHINT_LADDR_INVALID
           else
             do laddr <- rdmsrl (MSR_AMD64_IBSDCLINAD hw);
             (* Discard kernel address accesses *)
             if negb (Z.land laddr (Z.shiftl 1 63) =? 0)
             then count_vm_event HWHINT_KERNEL_ADDR
             (* Is phys addr valid? *)
             else if Z.land ops_data3 (MSR_AMD64_IBSOPDATA3_PADDR_VALID hw) =? 0
             then count_vm_event HWHINT_PADDR_INVALID
             else
               do paddr <- rdmsrl (MSR_AMD64_IBSDCPHYSAD hw);
               let pfn := Z.shiftr paddr (PAGE_SHIFT hw) in
               match pfn_to_online_page c pfn with
               | None => ret tt
               | Some lru =>
                   if negb lru then count_vm_event HWHINT_NON_LRU
                   else
                     do pushed <- ibs_push_sample pfn (numa_node_id c)
                                    (jiffies c);
                     if pushed =? 0 then count_vm_event HWHINT_BUFFER_FULL
                     else
                       do _ <- irq_work_queue;
                       count_vm_event HWHINT_USEFUL_SAMPLES
               end);
  ret (NMI_HANDLED hw).

(** [get_ibs_lvt_offset] *)
Definition get_ibs_lvt_offset (hw : ibs_hw) : M Z :=
  do val <- rdmsrl (MSR_AMD64_IBSCTL hw);
  if Z.land val (IBSCTL_LVT_OFFSET_VALID hw) =? 0 then ret (- EINVAL hw)
  else ret (s32 (Z.land val (IBSCTL_LVT_OFFSET_MASK hw))).

(** [setup_APIC_eilvt]: the call is made, and answers [r]. *)
Definition setup_APIC_eilvt (offset vector msg_type mask r : Z) : M Z :=
  fun m =>
    Ret r (mk_machine (msr m) (ibs_s m) (events m) (irq_work_queued m)
             (eilvt_calls m ++ [mk_eilvt offset vector msg_type mask])
             (warnings m)
             (arch_hw_access_profiling m) (ibs_config m) (ibs_caps m)
             (nmi_handler_registered m) (cpuhp_registered m)).

(** [setup_APIC_ibs]; [eilvt_ret] is what [setup_APIC_eilvt] answers. *)
Definition setup_APIC_ibs (hw : ibs_hw) (eilvt_ret : Z) : M unit :=
  do offset <- get_ibs_lvt_offset hw;
  if offset <? 0 then pr_warn
  else
    do r <- setup_APIC_eilvt offset 0 (APIC_EILVT_MSG_NMI hw) 0 eilvt_ret;
    if r =? 0 then ret tt else pr_warn.

(** [clear_APIC_ibs] *)
Definition clear_APIC_ibs (hw : ibs_hw) (eilvt_ret : Z) : M unit :=
  do offset <- get_ibs_lvt_offset hw;
  if 0 <=? offset then
    do _ <- setup_APIC_eilvt offset 0 (APIC_EILVT_MSG_FIX hw) 1 eilvt_ret;
    ret tt
  else ret tt.

(** [x86_amd_ibs_access_profile_startup] and [.._teardown] *)
Definition x86_amd_ibs_access_profile_startup (hw : ibs_hw) (eilvt_ret : Z)
  : M Z :=
  do _ <- setup_APIC_ibs hw eilvt_ret; ret 0.
Definition x86_amd_ibs_access_profile_teardown (hw : ibs_hw) (eilvt_ret : Z)
  : M Z :=
  do _ <- clear_APIC_ibs hw eilvt_ret; ret 0.

(** What [ibs_access_profiling_init] finds: [boot_cpu_has(X86_FEATURE_IBS)],
    whether [alloc_percpu_gfp] returns memory, and
    [cpuid_eax(IBS_CPUID_FEATURES)]. *)
Record boot := mk_boot {
  boot_cpu_has_ibs : bool;
  alloc_percpu_ok : bool;
  cpuid_eax_ibs : Z
}.

(** [ibs_access_profiling_init] *)
Definition ibs_access_profiling_init (hw : ibs_hw) (b : boot) : M Z :=
  if negb (boot_cpu_has_ibs b) then ret 0
  else if negb (alloc_percpu_ok b) then ret 0
  else
    fun m =>
      (* Uses IBS Op sampling *)
      let config := Z.lor (IBS_OP_CNT_CTL hw) (IBS_OP_ENABLE hw) in
      let caps := u32 (cpuid_eax_ibs b) in
      let config :=
        if negb (Z.land caps (IBS_CAPS_ZEN4 hw) =? 0)
        then Z.lor config (IBS_OP_L3MISSONLY hw) else config in
      Ret 0 (mk_machine (msr m) Ibs.ibs_s_init (events m)
               (irq_work_queued m) (eilvt_calls m) (warnings m)
               true config caps true true).

(** The machine before [ibs_access_profiling_init]. *)
Definition machine_boot (msrs : gmap Z Z) : machine :=
  mk_machine msrs Ibs.ibs_s_init [] 0 [] 0 false 0 0 false false.

(** [m] with [evs] counted after what was counted before. *)
Definition counted (evs : list hwhint_event) (m : machine) : machine :=
  mk_machine (msr m) (ibs_s m) (events m ++ evs)
    (irq_work_queued m) (eilvt_calls m) (warnings m)
    (arch_hw_access_profiling m) (ibs_config m) (ibs_caps m)
    (nmi_handler_registered m) (cpuhp_registered m).

(** Counters other than the two that tell the fate of a push. *)
Definition quiet (evs : list hwhint_event) : Prop :=
  Forall (fun ev => ev <> HWHINT_BUFFER_FULL /\ ev <> HWHINT_USEFUL_SAMPLES)
    evs.

(** [m'] differs from [m] at most in the MSRs, the ring, the counters and
    the queued irq work. *)
Definition same_setup (m m' : machine) : Prop :=
  eilvt_calls m' = eilvt_calls m /\
  warnings m' = warnings m /\
  arch_hw_access_profiling m' = arch_hw_access_profiling m /\
  ibs_config m' = ibs_config m /\
  ibs_caps m' = ibs_caps m /\
  nmi_handler_registered m' = nmi_handler_registered m /\
  cpuhp_registered m' = cpuhp_registered m.

(** *** What the NMI handler requires of a sample *)

(** The sample the MSRs describe is one the handler keeps: taken in user
    mode in a task with an address space, a load or a store that missed
    the data cache or the L2, with a valid linear address in the lower
    half and a valid physical address of an online page on the LRU. *)
Definition acceptable (hw : ibs_hw) (c : nmi_ctx) (m : machine) : Prop :=
  let data3 := msr m !!! MSR_AMD64_IBSOPDATA3 hw in
  user_mode c = true /\
  current_mm c = true /\
  Z.land data3 (Z.lor (MSR_AMD64_IBSOPDATA3_LDOP hw)
                      (MSR_AMD64_IBSOPDATA3_STOP hw)) <> 0 /\
  Z.land data3 (Z.lor (MSR_AMD64_IBSOPDATA3_DCMISS hw)
                      (MSR_AMD64_IBSOPDATA3_L2MISS hw)) <> 0 /\
  Z.land data3 (MSR_AMD64_IBSOPDATA3_LADDR_VALID hw) <> 0 /\
  Z.land (msr m !!! MSR_AMD64_IBSDCLINAD hw) (Z.shiftl 1 63) = 0 /\
  Z.land data3 (MSR_AMD64_IBSOPDATA3_PADDR_VALID hw) <> 0 /\
  pfn_to_online_page c
    (Z.shiftr (msr m !!! MSR_AMD64_IBSDCPHYSAD hw) (PAGE_SHIFT hw))
  = Some true.

(** The MSRs the handler reads after it has written the control MSR are
    other MSRs than that one. *)
Definition distinct_msrs (hw : ibs_hw) : Prop :=
  MSR_AMD64_IBSOPDATA2 hw <> MSR_AMD64_IBSOPCTL hw /\
  MSR_AMD64_IBSOPDATA3 hw <> MSR_AMD64_IBSOPCTL hw /\
  MSR_AMD64_IBSDCLINAD hw <> MSR_AMD64_IBSOPCTL hw /\
  MSR_AMD64_IBSDCPHYSAD hw <> MSR_AMD64_IBSOPCTL hw.

(** *** Values for the examples *)

Definition example_hw : ibs_hw :=
  mk_ibs_hw 0xc0011033 0xc0011036 0xc0011037 0xc0011038 0xc0011039
    0xc001103a
    (Z.shiftl 1 17) (Z.shiftl 1 18) (Z.shiftl 1 19) (Z.shiftl 1 16)
    0xFFFF (Z.shiftl 0x7F 20) (Z.shiftl 1 11)
    (Z.shiftl 1 0) (Z.shiftl 1 1) (Z.shiftl 1 7) (Z.shiftl 1 20)
    (Z.shiftl 1 17) (Z.shiftl 1 18)
    0x7 (Z.shiftl 1 4) 1 2 3 8 5
    (Z.shiftl 1 8) 0xF 4 0 12 1 22.

(** A load that missed the data cache, at user address 0x7f0000001000 and
    physical address 0x12345678, taken in user mode on node 1. *)
Definition example_sample_msrs : gmap Z Z :=
  list_to_map
    [(MSR_AMD64_IBSOPCTL example_hw,
      Z.lor (IBS_OP_VAL example_hw) (IBS_OP_ENABLE example_hw));
     (MSR_AMD64_IBSOPDATA3 example_hw,
      Z.lor (Z.lor (Z.lor (MSR_AMD64_IBSOPDATA3_LDOP example_hw)
                          (MSR_AMD64_IBSOPDATA3_DCMISS example_hw))
                   (MSR_AMD64_IBSOPDATA3_LADDR_VALID example_hw))
            (MSR_AMD64_IBSOPDATA3_PADDR_VALID example_hw));
     (MSR_AMD64_IBSOPDATA2 example_hw, 3);
     (MSR_AMD64_IBSDCLINAD example_hw, 0x7f0000001000);
     (MSR_AMD64_IBSDCPHYSAD example_hw, 0x12345678)].

Definition example_ctx : nmi_ctx :=
  mk_ctx true true (fun _ => Some true) 1 1000.

End IbsNmi.
(** ** kpromoted: the page hotness table *)

Module Kpromoted.
Import Mach Fault.

(** The counters [count_vm_event] is called with in [mm/kpromoted.c]. *)
Inductive vm_event :=
  | KPROMOTED_RECORDED_ACCESSES
  | KPROMOTED_RECORD_HWHINTS
  | KPROMOTED_RECORD_PGTSCANS
  | KPROMOTED_RECORD_TOPTIER
  | KPROMOTED_RECORD_ADDED
  | KPROMOTED_RECORD_EXISTS
  | KPROMOTED_MIG_RIGHT_NODE
  | KPROMOTED_MIG_NON_LRU
  | KPROMOTED_MIG_COLD_OLD
  | KPROMOTED_MIG_COLD_NOT_ACCESSED
  | KPROMOTED_MIG_CANDIDATE
  | KPROMOTED_MIG_PROMOTED
  | KPROMOTED_MIG_DROPPED.

Global Instance vm_event_eq_dec : EqDecision vm_event.
Proof. solve_decision. Defined.

(** [struct page_hotness_info], without the list linkage [hnode]. *)
Record page_hotness_info := mk_phi {
  pfn : Z;          (* unsigned long *)
  last_update : Z;  (* unsigned long: start of the current window *)
  frequency : Z;    (* int: accesses in the current window *)
  recency : Z;      (* unsigned long: most recent access *)
  hot_node : Z      (* int: node of the most recent access *)
}.

Global Instance page_hotness_info_eq_dec : EqDecision page_hotness_info.
Proof. solve_decision. Defined.

Definition set_frequency (v : Z) (p : page_hotness_info) :=
  mk_phi (pfn p) (last_update p) v (recency p) (hot_node p).
Definition set_last_update (v : Z) (p : page_hotness_info) :=
  mk_phi (pfn p) v (frequency p) (recency p) (hot_node p).
Definition set_recency (v : Z) (p : page_hotness_info) :=
  mk_phi (pfn p) (last_update p) (frequency p) v (hot_node p).
Definition set_hot_node (v : Z) (p : page_hotness_info) :=
  mk_phi (pfn p) (last_update p) (frequency p) (recency p) v.

(** What the code asks of a [struct page] and of its folio. *)
Record page := mk_page {
  is_zone_device_page : bool;
  folio_test_lru : bool;
  folio_nid : Z
}.

(** The constants of [linux/kpromoted.h] and the hash of
    [linux/hashtable.h], which the file uses and does not define. *)
Record kconfig := mk_kconfig {
  KPROMOTED_HASH_ORDER : Z;
  hash_min : Z -> Z;               (* hash_min(pfn, KPROMOTED_HASH_ORDER) *)
  freq_window : Z;                 (* msecs_to_jiffies(KPROMOTED_FREQ_WINDOW) *)
  KPRMOTED_FREQ_THRESHOLD : Z;
  KPROMOTED_HW_HINTS : Z;
  KPROMOTED_PGTABLE_SCAN : Z
}.

Definition NUMA_NO_NODE : Z := -1.
Definition ENOMEM : Z := 12.

(** The rest of the kernel, as one call sees it. *)
Record env := mk_env {
  jiffies : Z;
  pfn_to_nid : Z -> Z;
  node_is_toptier : Z -> bool;
  pfn_to_online_page : Z -> option page;
  pfn_to_page : Z -> option page;
  kzalloc_ok : bool;   (* does [kzalloc] return memory *)
  migrate_misplaced_folio_prepare : Z -> Z -> Z;  (* by pfn of the folio, node *)
  migrate_misplaced_folio : Z -> Z -> Z
}.

(** Calls that leave the subsystem, in the order made. *)
Inductive migrate_call :=
  | Prepare (pfn node : Z)   (* migrate_misplaced_folio_prepare(folio, NULL, node) *)
  | Migrate (pfn node : Z).  (* migrate_misplaced_folio(folio, node) *)

Global Instance migrate_call_eq_dec : EqDecision migrate_call.
Proof. solve_decision. Defined.

Definition call_pfn (c : migrate_call) : Z :=
  match c with Prepare p _ => p | Migrate p _ => p end.

(** The state of the file: the array of hash chains, the bucket mutexes
    that are held, and the two traces. *)
Record kstate := mk_kstate {
  page_hotness_hash : list (list page_hotness_info);
  held : list Z;
  vm_events : list vm_event;
  migrate_log : list migrate_call
}.

(** [kpromoted_init]: empty chains, no mutex held. *)
Definition kstate_init (cfg : kconfig) : kstate :=
  mk_kstate (replicate (Z.to_nat (2 ^ KPROMOTED_HASH_ORDER cfg)) []) [] [] [].

Abbreviation M := (Fault.M kstate).

Definition count_vm_event (ev : vm_event) : M unit := fun s =>
  Ret tt (mk_kstate (page_hotness_hash s) (held s)
            (vm_events s ++ [ev]) (migrate_log s)).

Definition log_call (c : migrate_call) : M unit := fun s =>
  Ret tt (mk_kstate (page_hotness_hash s) (held s)
            (vm_events s) (migrate_log s ++ [c])).

Definition mutex_lock (bkt : Z) : M unit := fun s =>
  Ret tt (mk_kstate (page_hotness_hash s) (bkt :: held s)
            (vm_events s) (migrate_log s)).

Definition mutex_unlock (bkt : Z) : M unit := fun s =>
  Ret tt (mk_kstate (page_hotness_hash s)
            (filter (fun b => b <> bkt) (held s))
            (vm_events s) (migrate_log s)).

Definition set_table (t : list (list page_hotness_info)) (s : kstate) :=
  mk_kstate t (held s) (vm_events s) (migrate_log s).

(** A pointer to a [struct page_hotness_info]: null, an errno in pointer
    clothing, or the record at position [idx] of the chain of bucket [bkt]. *)
Inductive phi_ptr :=
  | NULL
  | ERR_PTR (err : Z)
  | PHI (bkt : Z) (idx : nat).

(** [!phi] *)
Definition is_null (p : phi_ptr) : bool :=
  match p with NULL => true | _ => false end.

(** [&page_hotness_hash[bkt]]; an index outside the array is an invalid
    access. *)
Definition chain (bkt : Z) : M (list page_hotness_info) := fun s =>
  if bkt <? 0 then Oops s
  else match page_hotness_hash s !! Z.to_nat bkt with
       | Some l => Ret l s
       | None => Oops s
       end.

(** [phi->field] as an rvalue: only a pointer to a record can be followed. *)
Definition load (p : phi_ptr) : M page_hotness_info := fun s =>
  match p with
  | PHI bkt idx =>
      match page_hotness_hash s !! Z.to_nat bkt with
      | Some l => match l !! idx with
                  | Some phi => Ret phi s
                  | None => Oops s
                  end
      | None => Oops s
      end
  | _ => Oops s
  end.

(** [phi->field = v], with [f] the field update. *)
Definition store (p : phi_ptr) (f : page_hotness_info -> page_hotness_info)
  : M unit :=
  do _ <- load p;
  fun s =>
    match p with
    | PHI bkt idx =>
        Ret tt (set_table (alter (alter f idx) (Z.to_nat bkt)
                             (page_hotness_hash s)) s)
    | _ => Oops s
    end.

(** [hlist_add_head(&phi->hnode, &page_hotness_hash[bkt])] *)
Definition hlist_add_head (phi : page_hotness_info) (bkt : Z) : M unit :=
  do _ <- chain bkt;
  fun s => Ret tt (set_table (alter (cons phi) (Z.to_nat bkt)
                                (page_hotness_hash s)) s).

(** [__kpromoted_lookup]: the first record of the chain with this pfn. *)
Definition __kpromoted_lookup (pfn_ : Z) (bkt : Z) : M phi_ptr :=
  do l <- chain bkt;
  match list_find (fun phi => pfn phi = pfn_) l with
  | Some (idx, _) => ret (PHI bkt idx)
  | None => ret NULL
  end.

(** [kpromoted_lookup] *)
Definition kpromoted_lookup (e : env) (pfn_ : Z) (bkt : Z) (now : Z)
  : M phi_ptr :=
  do phi <- __kpromoted_lookup pfn_ bkt;
  if is_null phi then
    if kzalloc_ok e then
      (* kzalloc zeroes the record; then pfn, frequency, last_update, recency *)
      do _ <- hlist_add_head (mk_phi pfn_ now 1 now 0) bkt;
      do _ <- count_vm_event KPROMOTED_RECORD_ADDED;
      ret (PHI bkt 0)
    else ret (ERR_PTR (- ENOMEM))
  else
    do _ <- count_vm_event KPROMOTED_RECORD_EXISTS;
    ret phi.

(** [kpromoted_record_access] *)
Definition kpromoted_record_access (cfg : kconfig) (e : env)
    (pfn_ nid src now : Z) : M Z :=
  do _ <- count_vm_event KPROMOTED_RECORDED_ACCESSES;
  do _ <- (if src =? KPROMOTED_HW_HINTS cfg
           then count_vm_event KPROMOTED_RECORD_HWHINTS
           else if src =? KPROMOTED_PGTABLE_SCAN cfg
           then count_vm_event KPROMOTED_RECORD_PGTSCANS
           else ret tt);
  if node_is_toptier e (pfn_to_nid e pfn_) then
    do _ <- count_vm_event KPROMOTED_RECORD_TOPTIER;
    ret 0
  else
    match pfn_to_online_page e pfn_ with
    | None => ret 0
    | Some pg =>
        if is_zone_device_page pg then ret 0
        else if negb (folio_test_lru pg) then ret 0
        else
          let bkt := hash_min cfg pfn_ in
          do _ <- mutex_lock bkt;
          do phi <- kpromoted_lookup e pfn_ bkt now;
          if is_null phi then
            (* ret = PTR_ERR(phi); goto out; *)
            ret 0
          else
            do r <- load phi;
            do _ <- (if freq_window cfg <? u64 (last_update r - now) then
                       (* New window *)
                       do _ <- store phi (set_frequency 1);
                       store phi (set_last_update now)
                     else
                       store phi (set_frequency (s32 (frequency r + 1))));
            do _ <- store phi (set_recency now);
            do _ <- store phi
                      (set_hot_node (if nid =? NUMA_NO_NODE then 1 else nid));
            do _ <- mutex_unlock bkt;
            ret 0
    end.

(** [kpromote_page] *)
Definition kpromote_page (e : env) (phi : page_hotness_info) : M Z :=
  match pfn_to_page e (pfn phi) with
  | None => ret 1
  | Some _ =>
      do _ <- log_call (Prepare (pfn phi) (hot_node phi));
      if negb (migrate_misplaced_folio_prepare e (pfn phi) (hot_node phi) =? 0)
      then ret 1
      else
        do _ <- log_call (Migrate (pfn phi) (hot_node phi));
        ret (migrate_misplaced_folio e (pfn phi) (hot_node phi))
  end.

(** [page_should_be_promoted] *)
Definition page_should_be_promoted (cfg : kconfig) (e : env)
    (phi : page_hotness_info) : M bool :=
  let now := jiffies e in
  match pfn_to_online_page e (pfn phi) with
  | None => ret false
  | Some pg =>
      if is_zone_device_page pg then ret false
      else if negb (folio_test_lru pg) then
        do _ <- count_vm_event KPROMOTED_MIG_NON_LRU;
        ret false
      else if folio_nid pg =? hot_node phi then
        do _ <- count_vm_event KPROMOTED_MIG_RIGHT_NODE;
        ret false
      else if u64 (2 * freq_window cfg) <? u64 (now - last_update phi) then
        do _ <- count_vm_event KPROMOTED_MIG_COLD_OLD;
        ret false
      else if frequency phi <? KPRMOTED_FREQ_THRESHOLD cfg then
        do _ <- count_vm_event KPROMOTED_MIG_COLD_NOT_ACCESSED;
        ret false
      else ret true
  end.

(** The body of [hlist_for_each_entry_safe] in [kpromoted_migrate], run
    over one chain; the result is the chain with the deleted records
    unlinked. *)
Fixpoint sweep_chain (cfg : kconfig) (e : env) (nid : Z)
    (l : list page_hotness_info) : M (list page_hotness_info) :=
  match l with
  | [] => ret []
  | phi :: tl =>
      do keep <-
        (if negb (hot_node phi =? nid) then ret true (* continue *)
         else
           do promote <- page_should_be_promoted cfg e phi;
           if promote then
             do _ <- count_vm_event KPROMOTED_MIG_CANDIDATE;
             do r <- kpromote_page e phi;
             if r =? 0 then
               do _ <- count_vm_event KPROMOTED_MIG_PROMOTED;
               ret false
             else ret true
           else
             do _ <- count_vm_event KPROMOTED_MIG_DROPPED;
             ret false);
      do tl' <- sweep_chain cfg e nid tl;
      ret (if keep then phi :: tl' else tl')
  end.

(** The loop over the buckets, from bucket [bkt] on. *)
Fixpoint sweep_buckets (cfg : kconfig) (e : env) (nid : Z) (bkt : Z)
    (t : list (list page_hotness_info)) : M (list (list page_hotness_info)) :=
  match t with
  | [] => ret []
  | l :: t' =>
      do _ <- mutex_lock bkt;
      do l' <- sweep_chain cfg e nid l;
      do _ <- mutex_unlock bkt;
      do t'' <- sweep_buckets cfg e nid (bkt + 1) t';
      ret (l' :: t'')
  end.

(** [kpromoted_migrate], with [nid] the node of [pgdat]. *)
Definition kpromoted_migrate (cfg : kconfig) (e : env) (nid : Z) : M unit :=
  fun s =>
    match sweep_buckets cfg e nid 0 (page_hotness_hash s) s with
    | Ret t s' => Ret tt (set_table t s')
    | Oops s' => Oops s'
    end.

(** One operation on the table: an access reported by a source, or one
    pass of the kpromoted thread of a node. *)
Inductive op :=
  | RecordAccess (e : env) (pfn_ nid src now : Z)
  | Sweep (e : env) (nid : Z).

Definition step (cfg : kconfig) (o : op) : M unit :=
  match o with
  | RecordAccess e pfn_ nid src now =>
      do _ <- kpromoted_record_access cfg e pfn_ nid src now;
      ret tt
  | Sweep e nid => kpromoted_migrate cfg e nid
  end.

Fixpoint run (cfg : kconfig) (ops : list op) : M unit :=
  match ops with
  | [] => ret tt
  | o :: ops' => do _ <- step cfg o; run cfg ops'
  end.

(** All records of the table. *)
Definition records (s : kstate) : list page_hotness_info :=
  concat (page_hotness_hash s).

(** The record kept for a page, if any. *)
Definition record_of (s : kstate) (pfn_ : Z) : option page_hotness_info :=
  snd <$> list_find (fun phi => pfn phi = pfn_) (records s).

(** At most one record per pfn. *)
Definition unique_pfn (s : kstate) : Prop := NoDup (pfn <$> records s).

(** Every chain holds a page at most once, and only pages that hash to
    its bucket. *)
Definition chains_ok (cfg : kconfig) (t : list (list page_hotness_info))
  : Prop :=
  forall (b : nat) (l : list page_hotness_info),
    t !! b = Some l ->
    NoDup (pfn <$> l) /\
    forall phi, phi ∈ l -> hash_min cfg (pfn phi) = Z.of_nat b.

(** *** The promotion policy, in the words of the design *)

Inductive decision :=
  | PROMOTE
  | DROP_WRONG_TIER
  | DROP_COLD
  | DROP_INELIGIBLE.

(** How a call of [page_should_be_promoted] reads as a decision: the
    return value, and for a refusal the counter it bumped. *)
Definition decision_of (promote : bool) (counted : list vm_event) : decision :=
  if promote then PROMOTE
  else match counted with
       | [KPROMOTED_MIG_RIGHT_NODE] => DROP_WRONG_TIER
       | [KPROMOTED_MIG_COLD_OLD] => DROP_COLD
       | [KPROMOTED_MIG_COLD_NOT_ACCESSED] => DROP_COLD
       | _ => DROP_INELIGIBLE
       end.

(** The page is online, not a device page, and on the LRU. *)
Definition eligible (e : env) (pfn_ : Z) : Prop :=
  exists pg, pfn_to_online_page e pfn_ = Some pg /\
             is_zone_device_page pg = false /\ folio_test_lru pg = true.

(** The access passes the filters of [kpromoted_record_access]: the page is
    not on a top-tier node and is eligible. *)
Definition recordable (e : env) (pfn_ : Z) : Prop :=
  node_is_toptier e (pfn_to_nid e pfn_) = false /\ eligible e pfn_.

(** The node the page is on now. *)
Definition current_tier (e : env) (pfn_ : Z) : option Z :=
  folio_nid <$> pfn_to_online_page e pfn_.

(** [now - phi->last_update] and [2 * msecs_to_jiffies(KPROMOTED_FREQ_WINDOW)],
    both in [unsigned long]. *)
Definition age (e : env) (phi : page_hotness_info) : Z :=
  u64 (jiffies e - last_update phi).
Definition stale_after (cfg : kconfig) : Z := u64 (2 * freq_window cfg).

(** [s] with [evs] counted after what was counted before. *)
Definition counted (evs : list vm_event) (s : kstate) : kstate :=
  mk_kstate (page_hotness_hash s) (held s) (vm_events s ++ evs) (migrate_log s).

(** [s] with [evs] counted and the calls [cs] made. *)
Definition bumped (evs : list vm_event) (cs : list migrate_call) (s : kstate)
  : kstate :=
  mk_kstate (page_hotness_hash s) (held s) (vm_events s ++ evs)
    (migrate_log s ++ cs).

Definition set_held (h : list Z) (s : kstate) : kstate :=
  mk_kstate (page_hotness_hash s) h (vm_events s) (migrate_log s).

(** What the [switch (src)] of [kpromoted_record_access] counts. *)
Definition src_events (cfg : kconfig) (src : Z) : list vm_event :=
  if src =? KPROMOTED_HW_HINTS cfg then [KPROMOTED_RECORD_HWHINTS]
  else if src =? KPROMOTED_PGTABLE_SCAN cfg then [KPROMOTED_RECORD_PGTSCANS]
  else [].

(** The record after [kpromoted_record_access] has gone through it: the
    window test, then [recency] and [hot_node]. *)
Definition touch (cfg : kconfig) (nid now : Z) (r : page_hotness_info)
  : page_hotness_info :=
  set_hot_node (if nid =? NUMA_NO_NODE then 1 else nid)
    (set_recency now
       (if freq_window cfg <? u64 (last_update r - now)
        then set_last_update now (set_frequency 1 r)
        else set_frequency (s32 (frequency r + 1)) r)).

(** *** One sweep, record by record *)

Definition no_state : kstate := mk_kstate [] [] [] [].

(** The return value of [page_should_be_promoted] for a record. *)
Definition promotes (cfg : kconfig) (e : env) (phi : page_hotness_info) : bool :=
  match page_should_be_promoted cfg e phi no_state with
  | Ret b _ => b
  | Oops _ => false
  end.

(** The return value of [kpromote_page] for a record, and the calls it
    makes. *)
Definition promote_ret (e : env) (phi : page_hotness_info) : Z :=
  match kpromote_page e phi no_state with
  | Ret r _ => r
  | Oops _ => 1
  end.
Definition promote_calls (e : env) (phi : page_hotness_info)
  : list migrate_call :=
  migrate_log (state_of (kpromote_page e phi no_state)).

(** The sweep of node [nid] hands the record to [kpromote_page]. *)
Definition candidate (cfg : kconfig) (e : env) (nid : Z)
    (phi : page_hotness_info) : bool :=
  (hot_node phi =? nid) && promotes cfg e phi.

(** The sweep of node [nid] leaves the record in its chain. *)
Definition keeps (cfg : kconfig) (e : env) (nid : Z)
    (phi : page_hotness_info) : bool :=
  negb (hot_node phi =? nid)
  || (promotes cfg e phi && negb (promote_ret e phi =? 0)).

(** The calls one sweep of node [nid] makes for the records [l]. *)
Definition sweep_calls (cfg : kconfig) (e : env) (nid : Z)
    (l : list page_hotness_info) : list migrate_call :=
  flat_map (fun phi => if candidate cfg e nid phi
                       then promote_calls e phi else []) l.

(** *** A configuration and a machine for the examples *)

(** [hash_64] of [linux/hash.h]. *)
Definition GOLDEN_RATIO_64 : Z := 0x61C8864680B583EB.
Definition hash_64 (val bits : Z) : Z :=
  Z.shiftr (u64 (val * GOLDEN_RATIO_64)) (64 - bits).

(** 2^16 buckets, a window of 5 s at HZ=250, two accesses make a page hot. *)
Definition linux_config : kconfig :=
  mk_kconfig 16 (fun v => hash_64 v 16) 1250 2 0 1.

(** Node 0 has the CPUs and is the top tier; every page is online, on the
    LRU and lives on node 2.  [alloc] is the fate of [kzalloc], [mig] the
    return value of [migrate_misplaced_folio]. *)
Definition two_tier (now : Z) (alloc : bool) (mig : Z) : env :=
  mk_env now (fun _ => 2) (fun n => n =? 0)
    (fun _ => Some (mk_page false true 2))
    (fun _ => Some (mk_page false true 2))
    alloc (fun _ _ => 0) (fun _ _ => mig).

End Kpromoted.

(** ** kpromoted: the per-node threads *)

Module KpromotedThread.
Import Mach Fault Kpromoted.

(** [kpromoted_do_work] *)
Definition kpromoted_do_work (cfg : kconfig) (e : env) (nid : Z) : M unit :=
  kpromoted_migrate cfg e nid.

(** [kpromoted_work_requested] *)
Definition kpromoted_work_requested : bool := false.

(** [kpromoted], the thread of node [nid]: one turn of the loop for each
    time [kthread_should_stop] answered no, each turn seeing the kernel as
    the matching element of [wakeups] has it; then [return 0]. *)
Fixpoint kpromoted (cfg : kconfig) (nid : Z) (wakeups : list env) : M Z :=
  match wakeups with
  | [] => ret 0
  | e :: rest =>
      (* wait_event_timeout(.., kpromoted_work_requested(pgdat), timeout) *)
      do _ <- kpromoted_do_work cfg e nid;
      kpromoted cfg nid rest
  end.

(** The nodes and their threads: [pgdat->kpromoted] for each node (absent:
    NULL), the nodes a thread was created for, in order, and the number of
    [pr_err] calls. *)
Record nodes := mk_nodes {
  pgdat_kpromoted : gmap Z unit;
  created : list Z;
  errors : nat
}.

Definition nodes_init : nodes := mk_nodes ∅ [] 0.

(** [kpromoted_run]; [ok] says whether [kthread_run] returns a task. *)
Definition kpromoted_run (ok : bool) (nid : Z) (s : nodes) : nodes :=
  match pgdat_kpromoted s !! nid with
  | Some _ => s
  | None =>
      if ok then
        mk_nodes (<[nid := tt]> (pgdat_kpromoted s)) (created s ++ [nid])
          (errors s)
      else
        (* IS_ERR: pr_err, pgdat->kpromoted = NULL *)
        mk_nodes (pgdat_kpromoted s) (created s) (S (errors s))
  end.

(** [kpromoted_init]: [hp] is what [cpuhp_setup_state_nocalls] returns,
    [n_cpu] the nodes of [for_each_node_state(nid, N_CPU)] in order, and
    [ok] the fate of [kthread_run] on each node. *)
Definition kpromoted_init (hp : Z) (n_cpu : list Z) (ok : Z -> bool)
    (s : nodes) : Z * nodes :=
  if hp <? 0 then
    (hp, mk_nodes (pgdat_kpromoted s) (created s) (S (errors s)))
  else
    (0, foldl (fun s nid => kpromoted_run (ok nid) nid s) s n_cpu).

(** Calls of [kpromoted_run], each with the fate of its [kthread_run]. *)
Definition run_all (calls : list (bool * Z)) (s : nodes) : nodes :=
  foldl (fun s c => kpromoted_run (fst c) (snd c) s) s calls.

End KpromotedThread.
(** ** The CXL hotness monitoring unit driver *)

Module Hmu.
Import Mach Fault.

Definition ENOENT : Z := 2.
Definition EBUSY : Z := 16.
Definition EINVAL : Z := 22.
Definition EOPNOTSUPP : Z := 95.
Definition ETIMEDOUT : Z := 110.

(** *** Bit fields *)

(** A mask [GENMASK(hi, lo)], kept as its two ends. *)
Record field := GENMASK { hi : Z; lo : Z }.
Definition BIT (n : Z) : field := GENMASK n n.

Definition mask (f : field) : Z := Z.shiftl (Z.ones (hi f - lo f + 1)) (lo f).
Definition FIELD_GET (f : field) (reg : Z) : Z :=
  Z.shiftr (Z.land reg (mask f)) (lo f).
Definition FIELD_PREP (f : field) (val : Z) : Z :=
  Z.land (Z.shiftl val (lo f)) (mask f).

(** [1 << n] in [int]: defined for a count from 0 to 31 (with the
    compiler's reading of [1 << 31]); the value is given as the unsigned
    number it converts to in [&] and [>=] with a [u32]. *)
Definition shl_int1 (n : Z) : option Z :=
  if (0 <=? n) && (n <=? 31) then Some (2 ^ n) else None.

(** [1UL << n], for [BIT(n)] with a computed [n]. *)
Definition shl_ulong1 (n : Z) : option Z :=
  if (0 <=? n) && (n <=? 63) then Some (2 ^ n) else None.

(** [ffs]: the position of the lowest set bit, counted from 1; 0 for 0. *)
Fixpoint ctz_pos (p : positive) : Z :=
  match p with xO p' => 1 + ctz_pos p' | _ => 0 end.
Definition ffs (x : Z) : Z :=
  match x with Zpos p => 1 + ctz_pos p | _ => 0 end.

(** [int_pow], in [u64]. *)
Definition int_pow (base exp : Z) : Z := u64 (base ^ exp).

(** *** Registers *)

Definition CHMU_INST0_CAP0_REG : Z := 0x00.
Definition CHMU_INST0_CAP0_EPOCH_MAX_SCALE_MSK := GENMASK 19 16.
Definition CHMU_INST0_CAP0_EPOCH_MAX_MULT_MSK := GENMASK 31 20.
Definition CHMU_INST0_CAP0_EPOCH_MIN_SCALE_MSK := GENMASK 35 32.
Definition CHMU_INST0_CAP0_EPOCH_MIN_MULT_MSK := GENMASK 47 36.
Definition CHMU_INST0_CAP0_HOTLIST_SIZE_MSK := GENMASK 63 48.
Definition CHMU_INST0_CAP1_REG : Z := 0x08.
Definition CHMU_INST0_CAP1_UNIT_SIZE_MSK := GENMASK 31 0.
Definition CHMU_INST0_CAP1_DOWNSAMP_MSK := GENMASK 47 32.
Definition CHMU_INST0_CAP1_EPOCH_SUP := BIT 48.
Definition CHMU_INST0_CAP1_ALWAYS_ON_SUP := BIT 49.
Definition CHMU_INST0_CAP1_RAND_DOWNSAMP_SUP := BIT 50.
Definition CHMU_INST0_RANGE_BITMAP_OFFSET_REG : Z := 0x10.
Definition CHMU_INST0_HOTLIST_OFFSET_REG : Z := 0x18.
Definition CHMU_INST0_CFG0_REG : Z := 0x40.
Definition CHMU_INST0_CFG0_WHAT_MSK := GENMASK 7 0.
Definition CHMU_INST0_CFG0_WHAT_NONTEE_R : Z := 1.
Definition CHMU_INST0_CFG0_WHAT_RW : Z := 6.
Definition CHMU_INST0_CFG0_RAND_DOWNSAMP_EN := BIT 8.
Definition CHMU_INST0_CFG0_OVRFLW_INT_EN := BIT 9.
Definition CHMU_INST0_CFG0_FILLTHRESH_INT_EN := BIT 10.
Definition CHMU_INST0_CFG0_ENABLE := BIT 16.
Definition CHMU_INST0_CFG0_RESET_COUNTERS := BIT 17.
Definition CHMU_INST0_CFG0_HOTNESS_THRESH_MSK := GENMASK 63 32.
Definition CHMU_INST0_CFG1_REG : Z := 0x48.
Definition CHMU_INST0_CFG1_UNIT_SIZE_MSK := GENMASK 31 0.
Definition CHMU_INST0_CFG1_DS_FACTOR_MSK := GENMASK 35 32.
Definition CHMU_INST0_CFG1_MODE_MSK := GENMASK 47 40.
Definition CHMU_INST0_CFG1_EPOCH_SCALE_MSK := GENMASK 51 48.
Definition CHMU_INST0_CFG1_EPOCH_MULT_MSK := GENMASK 63 52.
Definition CHMU_INST0_CFG2_REG : Z := 0x50.
Definition CHMU_INST0_CFG2_FILLTHRESH_THRESHOLD_MSK := GENMASK 15 0.
Definition CHMU_INST0_STATUS_REG : Z := 0x60.
Definition CHMU_INST0_STATUS_ENABLED := BIT 0.
Definition CHMU_INST0_STATUS_OP_INPROG_MSK := GENMASK 31 16.
Definition CHMU_INST0_STATUS_COUNTER_WIDTH_MSK := GENMASK 39 32.
Definition CHMU_INST0_HEAD_REG : Z := 0x68.
Definition CHMU_INST0_TAIL_REG : Z := 0x6A.

Definition CXL_HMU_ATTR_CONFIG_EPOCH_TYPE_MASK := GENMASK 1 0.
Definition CXL_HMU_ATTR_CONFIG_ACCESS_TYPE_MASK := GENMASK 9 2.
Definition CXL_HMU_ATTR_CONFIG_EPOCH_SCALE_MASK := GENMASK 13 10.
Definition CXL_HMU_ATTR_CONFIG_EPOCH_MULT_MASK := GENMASK 25 14.
Definition CXL_HMU_ATTR_CONFIG_RANDOM_DS_MASK := BIT 26.
Definition CXL_HMU_ATTR_CONFIG_DS_FACTOR_MASK := GENMASK 34 27.
Definition CXL_HMU_ATTR_CONFIG1_HOTNESS_THRESH_MASK := GENMASK 31 0.
Definition CXL_HMU_ATTR_CONFIG1_HOTNESS_GRANUAL_MASK := GENMASK 63 32.
Definition CXL_HMU_ATTR_CONFIG2_DPA_BASE_MASK := GENMASK 31 0.
Definition CXL_HMU_ATTR_CONFIG2_DPA_SIZE_MASK := GENMASK 63 32.

Definition CHMU_HEADER0_SIZE_MASK := GENMASK 15 0.
Definition CHMU_HEADER0_COUNT_WIDTH := GENMASK 23 16.

(** [enum cxl_hmu_reporting_mode] *)
Definition CHMU_MODE_EPOCH : Z := 0.
Definition CHMU_MODE_ALWAYS_ON : Z := 1.

(** *** The device, the driver state and the AUX buffer *)

(** The register block at [hmu->base], by byte offset; the status the
    device reports, with what the coming reads of the status register
    return before that; the hot list, in bytes, at the offset the device
    announces; and the writes made, oldest first. *)
Record device := mk_device {
  regs : gmap Z Z;
  status : Z;
  status_feed : list Z;
  hotlist_mem : list Z;
  writes : list (Z * Z)
}.

(** [struct cxl_hmu_info], the fields the code reads and writes, with the
    type of the PMU. *)
Record cxl_hmu_info := mk_info {
  pmu_type : Z;
  on_cpu : Z;
  hot_thresh : Z;             (* u32 *)
  hot_gran : Z;               (* u32 *)
  range_base : Z;             (* u32 *)
  range_num : Z;              (* u32 *)
  reporting_mode : Z;
  m2s_requests_to_track : Z;  (* u8 *)
  ds_factor_pow2 : Z;         (* u8 *)
  epoch_scale : Z;            (* u8 *)
  epoch_mult : Z;             (* u16 *)
  randomized_ds : bool
}.

(** [struct cxl_hmu_buf]: the staging memory and the write cursor. *)
Record cxl_hmu_buf := mk_buf {
  buf_length : Z;     (* size_t length *)
  buf_base : list Z;  (* the bytes at base *)
  buf_pos : Z         (* long pos *)
}.

(** What the code reads of a [struct perf_event]. *)
Record perf_event := mk_event {
  attr_type : Z;
  cpu : Z;
  attach_task : bool;  (* attach_state & PERF_ATTACH_TASK *)
  config : Z;
  config1 : Z;
  config2 : Z
}.

(** Everything one call can touch.  [aux_feed] is what the coming calls of
    [perf_aux_output_begin] do: fail, or hand the buffer out with this
    [handle->head]; [aux_ended] lists the sizes given to
    [perf_aux_output_end]; [poll_budget] is the number of reads a poll
    makes before its timeout; [hw_state] is [event->hw.state]. *)
Record world := mk_world {
  dev : device;
  hmu : cxl_hmu_info;
  buf : cxl_hmu_buf;
  handle_head : Z;
  aux_feed : list (option Z);
  aux_ended : list Z;
  poll_budget : nat;
  hw_state : Z
}.

Abbreviation M := (Fault.M world).

Definition set_dev (d : device) (w : world) : world :=
  mk_world d (hmu w) (buf w) (handle_head w) (aux_feed w) (aux_ended w)
    (poll_budget w) (hw_state w).
Definition set_hmu (h : cxl_hmu_info) (w : world) : world :=
  mk_world (dev w) h (buf w) (handle_head w) (aux_feed w) (aux_ended w)
    (poll_budget w) (hw_state w).
Definition set_buf (b : cxl_hmu_buf) (w : world) : world :=
  mk_world (dev w) (hmu w) b (handle_head w) (aux_feed w) (aux_ended w)
    (poll_budget w) (hw_state w).
Definition set_hw_state (v : Z) (w : world) : world :=
  mk_world (dev w) (hmu w) (buf w) (handle_head w) (aux_feed w) (aux_ended w)
    (poll_budget w) v.

(** [readq]: the status register answers from the feed, and with the
    status of the device once the feed is used up; the others answer from
    the register block. *)
Definition readq (off : Z) : M Z := fun w =>
  let d := dev w in
  if off =? CHMU_INST0_STATUS_REG then
    Ret (hd (status d) (status_feed d))
      (set_dev (mk_device (regs d) (status d) (tl (status_feed d))
                  (hotlist_mem d) (writes d)) w)
  else Ret (regs d !!! off) w.

Definition writeq (val off : Z) : M unit := fun w =>
  let d := dev w in
  Ret tt (set_dev (mk_device (<[off := val]> (regs d)) (status d)
                     (status_feed d) (hotlist_mem d)
                     (writes d ++ [(off, val)])) w).

(** The 2 byte registers. *)
Definition readw (off : Z) : M Z := fun w => Ret (u16 (regs (dev w) !!! off)) w.
Definition writew (val off : Z) : M unit := writeq (u16 val) off.

(** [readq_poll_timeout_atomic] on the status register until no operation
    is in progress: 0, or [-ETIMEDOUT] when the budget of reads runs out. *)
Fixpoint poll_inprog (n : nat) : M Z :=
  match n with
  | O => ret (- ETIMEDOUT)
  | S n' =>
      do status <- readq CHMU_INST0_STATUS_REG;
      if FIELD_GET CHMU_INST0_STATUS_OP_INPROG_MSK status =? 0 then ret 0
      else poll_inprog n'
  end.

Definition get_hmu : M cxl_hmu_info := fun w => Ret (hmu w) w.
Definition put_hmu (f : cxl_hmu_info -> cxl_hmu_info) : M unit :=
  modify (fun w => set_hmu (f (hmu w)) w).
(** [hwc->state = v] *)
Definition put_hw_state (v : Z) : M unit := modify (set_hw_state v).
Definition get_buf : M cxl_hmu_buf := fun w => Ret (buf w) w.
Definition put_buf (f : cxl_hmu_buf -> cxl_hmu_buf) : M unit :=
  modify (fun w => set_buf (f (buf w)) w).

(** *** Early return *)

(** A statement either falls through with a value or returns from the
    function. *)
Inductive flow (A : Type) :=
  | Next (a : A)
  | Return (r : Z).
Arguments Next {A} a.
Arguments Return {A} r.

Definition C (A : Type) : Type := M (flow A).

Definition next {A} (a : A) : C A := ret (Next a).
Definition return_ {A} (r : Z) : C A := ret (Return r).
Definition lift {A} (m : M A) : C A := do a <- m; ret (Next a).
Definition cbind {A B} (m : C A) (f : A -> C B) : C B :=
  do x <- m;
  match x with
  | Next a => f a
  | Return r => ret (Return r)
  end.
(** [if (c) return r;] *)
Definition return_if (c : bool) (r : Z) : C unit :=
  if c then return_ r else next tt.
(** An operation C leaves undefined. *)
Definition undefined {A} : C A := oops.
Definition body (m : C Z) : M Z :=
  do x <- m; match x with Next r => ret r | Return r => ret r end.

Notation "'go' X <- A ; B" := (cbind A (fun X => B))
  (at level 10, X name, A at level 100, B at level 200).

(** *** Field updates of [struct cxl_hmu_info] *)

Definition set_on_cpu (v : Z) (h : cxl_hmu_info) : cxl_hmu_info :=
  mk_info (pmu_type h) v (hot_thresh h) (hot_gran h) (range_base h)
    (range_num h) (reporting_mode h) (m2s_requests_to_track h)
    (ds_factor_pow2 h) (epoch_scale h) (epoch_mult h) (randomized_ds h).
Definition set_hot_thresh (v : Z) (h : cxl_hmu_info) : cxl_hmu_info :=
  mk_info (pmu_type h) (on_cpu h) v (hot_gran h) (range_base h)
    (range_num h) (reporting_mode h) (m2s_requests_to_track h)
    (ds_factor_pow2 h) (epoch_scale h) (epoch_mult h) (randomized_ds h).
Definition set_hot_gran (v : Z) (h : cxl_hmu_info) : cxl_hmu_info :=
  mk_info (pmu_type h) (on_cpu h) (hot_thresh h) v (range_base h)
    (range_num h) (reporting_mode h) (m2s_requests_to_track h)
    (ds_factor_pow2 h) (epoch_scale h) (epoch_mult h) (randomized_ds h).
Definition set_range_base (v : Z) (h : cxl_hmu_info) : cxl_hmu_info :=
  mk_info (pmu_type h) (on_cpu h) (hot_thresh h) (hot_gran h) v
    (range_num h) (reporting_mode h) (m2s_requests_to_track h)
    (ds_factor_pow2 h) (epoch_scale h) (epoch_mult h) (randomized_ds h).
Definition set_range_num (v : Z) (h : cxl_hmu_info) : cxl_hmu_info :=
  mk_info (pmu_type h) (on_cpu h) (hot_thresh h) (hot_gran h) (range_base h)
    v (reporting_mode h) (m2s_requests_to_track h)
    (ds_factor_pow2 h) (epoch_scale h) (epoch_mult h) (randomized_ds h).
Definition set_reporting_mode (v : Z) (h : cxl_hmu_info) : cxl_hmu_info :=
  mk_info (pmu_type h) (on_cpu h) (hot_thresh h) (hot_gran h) (range_base h)
    (range_num h) v (m2s_requests_to_track h)
    (ds_factor_pow2 h) (epoch_scale h) (epoch_mult h) (randomized_ds h).
Definition set_m2s_requests_to_track (v : Z) (h : cxl_hmu_info)
  : cxl_hmu_info :=
  mk_info (pmu_type h) (on_cpu h) (hot_thresh h) (hot_gran h) (range_base h)
    (range_num h) (reporting_mode h) v
    (ds_factor_pow2 h) (epoch_scale h) (epoch_mult h) (randomized_ds h).
Definition set_ds_factor_pow2 (v : Z) (h : cxl_hmu_info) : cxl_hmu_info :=
  mk_info (pmu_type h) (on_cpu h) (hot_thresh h) (hot_gran h) (range_base h)
    (range_num h) (reporting_mode h) (m2s_requests_to_track h)
    v (epoch_scale h) (epoch_mult h) (randomized_ds h).
Definition set_epoch_scale (v : Z) (h : cxl_hmu_info) : cxl_hmu_info :=
  mk_info (pmu_type h) (on_cpu h) (hot_thresh h) (hot_gran h) (range_base h)
    (range_num h) (reporting_mode h) (m2s_requests_to_track h)
    (ds_factor_pow2 h) v (epoch_mult h) (randomized_ds h).
Definition set_epoch_mult (v : Z) (h : cxl_hmu_info) : cxl_hmu_info :=
  mk_info (pmu_type h) (on_cpu h) (hot_thresh h) (hot_gran h) (range_base h)
    (range_num h) (reporting_mode h) (m2s_requests_to_track h)
    (ds_factor_pow2 h) (epoch_scale h) v (randomized_ds h).
Definition set_randomized_ds (v : bool) (h : cxl_hmu_info) : cxl_hmu_info :=
  mk_info (pmu_type h) (on_cpu h) (hot_thresh h) (hot_gran h) (range_base h)
    (range_num h) (reporting_mode h) (m2s_requests_to_track h)
    (ds_factor_pow2 h) (epoch_scale h) (epoch_mult h) v.

(** [1 << n] where the code needs its value. *)
Definition shift_int1 (n : Z) : C Z :=
  match shl_int1 n with Some b => next b | None => undefined end.
Definition shift_ulong1 (n : Z) : C Z :=
  match shl_ulong1 n with Some b => next b | None => undefined end.

(** [a % b] in [unsigned long]: a division by zero is a fault. *)
Definition rem_ulong (a b : Z) : C Z :=
  if b =? 0 then undefined else next (a mod b).

(** *** [cxl_hmu_event_init] *)

Definition cxl_hmu_event_init (event : perf_event) : M Z := body (
  go hotlist_offset <- lift (readq CHMU_INST0_HOTLIST_OFFSET_REG);
  go bitmap_offset <- lift (readq CHMU_INST0_RANGE_BITMAP_OFFSET_REG);
  go h0 <- lift get_hmu;
  go _ <- return_if (negb (attr_type event =? pmu_type h0)) (- ENOENT);
  go _ <- return_if (cpu event <? 0) (- EOPNOTSUPP);
  go _ <- return_if (attach_task event) (- EOPNOTSUPP);
  go cap0 <- lift (readq CHMU_INST0_CAP0_REG);
  go cap1 <- lift (readq CHMU_INST0_CAP1_REG);
  go _ <-
    (let ty := FIELD_GET CXL_HMU_ATTR_CONFIG_EPOCH_TYPE_MASK (config event) in
     if ty =? 0 then
       go _ <- return_if (FIELD_GET CHMU_INST0_CAP1_EPOCH_SUP cap1 =? 0)
                 (- EOPNOTSUPP);
       lift (put_hmu (set_reporting_mode CHMU_MODE_EPOCH))
     else if ty =? 1 then
       go _ <- return_if (FIELD_GET CHMU_INST0_CAP1_ALWAYS_ON_SUP cap1 =? 0)
                 (- EOPNOTSUPP);
       lift (put_hmu (set_reporting_mode CHMU_MODE_ALWAYS_ON))
     else return_ (- EINVAL));
  let rds :=
    negb (FIELD_GET CXL_HMU_ATTR_CONFIG_RANDOM_DS_MASK (config event) =? 0) in
  go _ <- lift (put_hmu (set_randomized_ds rds));
  go _ <- return_if
            (rds && (FIELD_GET CHMU_INST0_CAP1_RAND_DOWNSAMP_SUP cap1 =? 0))
            (- EOPNOTSUPP);
  let m2s := FIELD_GET CXL_HMU_ATTR_CONFIG_ACCESS_TYPE_MASK (config event) in
  go _ <- lift (put_hmu (set_m2s_requests_to_track m2s));
  go _ <- return_if ((m2s <? CHMU_INST0_CFG0_WHAT_NONTEE_R)
                     || (CHMU_INST0_CFG0_WHAT_RW <? m2s)) (- EINVAL);
  go _ <- lift (put_hmu (set_hot_thresh
            (FIELD_GET CXL_HMU_ATTR_CONFIG1_HOTNESS_THRESH_MASK (config1 event))));
  go _ <- lift (put_hmu (set_hot_gran
            (FIELD_GET CXL_HMU_ATTR_CONFIG1_HOTNESS_GRANUAL_MASK (config1 event))));
  let gran_sup := FIELD_GET CHMU_INST0_CAP1_UNIT_SIZE_MSK cap1 in
  (* Default to smallest granual if not specified *)
  go h1 <- lift get_hmu;
  go _ <- (if (hot_gran h1 =? 0) && negb (gran_sup =? 0)
           then lift (put_hmu (set_hot_gran (8 + ffs gran_sup)))
           else next tt);
  go h2 <- lift get_hmu;
  go _ <- return_if (hot_gran h2 <? 8) (- EINVAL);
  go gran_bit <- shift_int1 (u32 (hot_gran h2 - 8));
  go _ <- return_if (Z.land gran_bit gran_sup =? 0) (- EOPNOTSUPP);
  let ds_sup := FIELD_GET CHMU_INST0_CAP1_DOWNSAMP_MSK cap1 in
  go _ <- lift (put_hmu (set_ds_factor_pow2
            (FIELD_GET CXL_HMU_ATTR_CONFIG_DS_FACTOR_MASK (config event))));
  go h3 <- lift get_hmu;
  go ds_bit <- shift_int1 (ds_factor_pow2 h3);
  go _ <- (if Z.land ds_bit ds_sup =? 0 then
             (* Special case default of 0 if not supported *)
             if (ds_factor_pow2 h3 =? 0) && negb (ds_sup =? 0)
             then lift (put_hmu (set_ds_factor_pow2 (u8 (ffs ds_sup))))
             else return_ (- EOPNOTSUPP)
           else next tt);
  go _ <- lift (put_hmu (set_epoch_scale
            (FIELD_GET CXL_HMU_ATTR_CONFIG_EPOCH_SCALE_MASK (config event))));
  go _ <- lift (put_hmu (set_epoch_mult
            (FIELD_GET CXL_HMU_ATTR_CONFIG_EPOCH_MULT_MASK (config event))));
  go h4 <- lift get_hmu;
  go _ <- (if (epoch_mult h4 =? 0) && (epoch_scale h4 =? 0) then
             go _ <- lift (put_hmu (set_epoch_scale
                       (FIELD_GET CHMU_INST0_CAP0_EPOCH_MIN_SCALE_MSK cap0)));
             lift (put_hmu (set_epoch_mult
                       (FIELD_GET CHMU_INST0_CAP0_EPOCH_MIN_MULT_MSK cap0)))
           else next tt);
  go h5 <- lift get_hmu;
  go _ <- return_if (epoch_mult h5 =? 0) (- EINVAL);
  let epoch_min :=
    u64 (int_pow 10 (FIELD_GET CHMU_INST0_CAP0_EPOCH_MIN_SCALE_MSK cap0)
         * FIELD_GET CHMU_INST0_CAP0_EPOCH_MIN_MULT_MSK cap0) in
  let epoch_max :=
    u64 (int_pow 10 (FIELD_GET CHMU_INST0_CAP0_EPOCH_MAX_SCALE_MSK cap0)
         * FIELD_GET CHMU_INST0_CAP0_EPOCH_MAX_MULT_MSK cap0) in
  let epoch := u64 (int_pow 10 (epoch_scale h5) * epoch_mult h5) in
  go _ <- return_if ((epoch_max <? epoch) || (epoch <? epoch_min)) (- EINVAL);
  go _ <- lift (put_hmu (set_range_base
            (FIELD_GET CXL_HMU_ATTR_CONFIG2_DPA_BASE_MASK (config2 event))));
  go _ <- lift (put_hmu (set_range_num
            (FIELD_GET CXL_HMU_ATTR_CONFIG2_DPA_SIZE_MASK (config2 event))));
  let trackable := u64 (u64 (hotlist_offset - bitmap_offset) * 8) in
  go h6 <- lift get_hmu;
  go _ <- (if range_num h6 =? 0
           then lift (put_hmu (set_range_num (u32 trackable)))
           else next tt);
  go h7 <- lift get_hmu;
  go _ <- return_if (trackable <? u64 (range_base h7 + range_num h7))
            (- EINVAL);
  return_ 0).

(** *** The AUX buffer *)

Definition sizeof_header : Z := 16.

(** The bytes of [v] in memory, low byte first. *)
Definition le_bytes (n : nat) (v : Z) : list Z :=
  (fun i : nat => Z.land (Z.shiftr v (8 * Z.of_nat i)) 255) <$> seq 0 n.

(** [u64 header[2]] as [memcpy] sees it. *)
Definition header_bytes (header0 header1 : Z) : list Z :=
  le_bytes 8 header0 ++ le_bytes 8 header1.

(** [mem] with [src] written over it from byte [p] on. *)
Definition poke (p : nat) (src mem : list Z) : list Z :=
  take p mem ++ src ++ drop (p + length src) mem.

(** [memcpy(buf->base + buf->pos, src, n)]: a copy that does not fit in the
    staging memory is an invalid access. *)
Definition stage (src : list Z) : M unit := fun w =>
  let b := buf w in
  if (0 <=? buf_pos b)
     && (buf_pos b + Z.of_nat (length src) <=? Z.of_nat (length (buf_base b)))
  then Ret tt (set_buf (mk_buf (buf_length b)
                          (poke (Z.to_nat (buf_pos b)) src (buf_base b))
                          (buf_pos b)) w)
  else Oops w.

(** The source of [memcpy_fromio(.., hmu->base + offset + off, n)]: [n]
    bytes of the hot list from byte [off]; a read past its end is an
    invalid access. *)
Definition hotlist_read (off n : Z) : M (list Z) := fun w =>
  let m := hotlist_mem (dev w) in
  if (0 <=? off) && (0 <=? n) && (off + n <=? Z.of_nat (length m))
  then Ret (take (Z.to_nat n) (drop (Z.to_nat off) m)) w
  else Oops w.

(** [buf->pos += n] *)
Definition advance (n : Z) (b : cxl_hmu_buf) : cxl_hmu_buf :=
  mk_buf (buf_length b) (buf_base b) (buf_pos b + n).
Definition set_pos (p : Z) (b : cxl_hmu_buf) : cxl_hmu_buf :=
  mk_buf (buf_length b) (buf_base b) p.

(** [perf_aux_output_end(handle, size)] *)
Definition perf_aux_output_end (size : Z) : M unit :=
  modify (fun w => mk_world (dev w) (hmu w) (buf w) (handle_head w)
                     (aux_feed w) (aux_ended w ++ [size]) (poll_budget w)
                     (hw_state w)).

(** [perf_aux_output_begin(handle, event)]: [None] is the null pointer;
    [Some head] is the buffer, with [handle->head] set. *)
Definition perf_aux_output_begin : M (option Z) := fun w =>
  match aux_feed w with
  | Some hd :: rest =>
      Ret (Some hd) (mk_world (dev w) (hmu w) (buf w) hd rest (aux_ended w)
                       (poll_budget w) (hw_state w))
  | None :: rest =>
      Ret None (mk_world (dev w) (hmu w) (buf w) (handle_head w) rest
                  (aux_ended w) (poll_budget w) (hw_state w))
  | [] => Ret None w
  end.

(** *** [cxl_hmu_update_aux] *)

Definition cxl_hmu_update_aux (stop : bool) : M Z := body (
  go offset <- lift (readq CHMU_INST0_HOTLIST_OFFSET_REG);
  go head <- lift (readw CHMU_INST0_HEAD_REG);
  go tail <- lift (readw CHMU_INST0_TAIL_REG);
  go status <- lift (readq CHMU_INST0_STATUS_REG);
  let count_width := FIELD_GET CHMU_INST0_STATUS_COUNTER_WIDTH_MSK status in
  go cap0 <- lift (readq CHMU_INST0_CAP0_REG);
  let top := FIELD_GET CHMU_INST0_CAP0_HOTLIST_SIZE_MSK cap0 in
  go b <- lift get_buf;
  go size <-
    (if head <? tail then
       let tocopy := Z.min (u64 ((tail - head) * 8))
                       (u64 (buf_length b - buf_pos b - sizeof_header)) in
       let header0 :=
         Z.lor (FIELD_PREP CHMU_HEADER0_SIZE_MASK (tocopy / 8))
               (FIELD_PREP CHMU_HEADER0_COUNT_WIDTH count_width) in
       if negb (tocopy =? 0) then
         go _ <- lift (stage (header_bytes header0 0xDEADBEEF));
         go _ <- lift (put_buf (advance sizeof_header));
         go data <- lift (hotlist_read (head * 8) tocopy);
         go _ <- lift (stage data);
         go _ <- lift (put_buf (advance tocopy));
         next (sizeof_header + tocopy)
       else next 0
     else if tail <? head then (* wrap around *)
       let tocopy := Z.min (u64 ((top - head) * 8))
                       (u64 (buf_length b - buf_pos b - sizeof_header)) in
       let tocopy2 := Z.min (u64 (tail * 8))
                        (u64 (buf_length b - buf_pos b - tocopy
                              - sizeof_header)) in
       let header0 :=
         Z.lor (FIELD_PREP CHMU_HEADER0_SIZE_MASK ((tocopy + tocopy2) / 8))
               (FIELD_PREP CHMU_HEADER0_COUNT_WIDTH count_width) in
       go size1 <-
         (if negb (tocopy =? 0) then
            go _ <- lift (stage (header_bytes header0 0xDEADBEEF));
            go _ <- lift (put_buf (advance sizeof_header));
            go data <- lift (hotlist_read (head * 8) tocopy);
            go _ <- lift (stage data);
            go _ <- lift (put_buf (advance tocopy));
            next (sizeof_header + tocopy)
          else next 0);
       if negb (tocopy2 =? 0) then
         go data <- lift (hotlist_read 0 tocopy2);
         go _ <- lift (stage data);
         go _ <- lift (put_buf (advance tocopy2));
         next (size1 + tocopy2)
       else next size1
     else next 0 (* may be no data *));
  go _ <- lift (perf_aux_output_end size);
  go b' <- lift get_buf;
  go _ <- return_if (u64 (buf_pos b') =? buf_length b') (- EINVAL) (* FULL *);
  (* Do this after the space check, so the buffer on device will not
     overwrite *)
  go _ <- lift (writew tail CHMU_INST0_HEAD_REG);
  go _ <- (if negb stop then
             go r <- lift perf_aux_output_begin;
             match r with
             | None => return_ (- EINVAL)
             | Some hd =>
                 go b <- lift get_buf;
                 go pos <- rem_ulong hd (buf_length b);
                 lift (put_buf (set_pos pos))
             end
           else next tt);
  return_ 0).

(** *** [__cxl_hmu_start] *)

(** The loop that sets the bits of the range bitmap, [n] turns from [i];
    it returns [i] and [val] as the loop leaves them. *)
Fixpoint bitmap_loop (n : nat) (bitmap_base i val : Z) : C (Z * Z) :=
  match n with
  | O => next (i, val)
  | S n' =>
      go bit <- shift_ulong1 (Z.rem i 64);
      let val := Z.lor val bit in
      go val <- (if Z.rem i 64 =? 63 then
                   go _ <- lift (writeq val (bitmap_base + Z.quot i 64 * 8));
                   next 0
                 else next val);
      bitmap_loop n' bitmap_base (s32 (i + 1)) val
  end.

Definition __cxl_hmu_start (event : perf_event) : M Z := body (
  go cap0 <- lift (readq CHMU_INST0_CAP0_REG);
  let list_len := FIELD_GET CHMU_INST0_CAP0_HOTLIST_SIZE_MSK cap0 in
  go _ <- lift (put_hw_state 0);
  go status <- lift (readq CHMU_INST0_STATUS_REG);
  go _ <- return_if (negb (FIELD_GET CHMU_INST0_STATUS_ENABLED status =? 0))
            (- EBUSY);
  (* irq_set_affinity(hmu->irq, cpumask_of(cpu)) and the warning on its
     failure change nothing that is kept here *)
  go _ <- lift (put_hmu (set_on_cpu (cpu event)));
  go r <- lift perf_aux_output_begin;
  go hd <- (match r with None => return_ (- EINVAL) | Some hd => next hd end);
  go b <- lift get_buf;
  go pos <- rem_ulong hd (buf_length b);
  go _ <- lift (put_buf (set_pos pos));
  (* Reset here disrupts samping with -F *)
  go _ <- lift (writeq (FIELD_PREP CHMU_INST0_CFG0_RESET_COUNTERS 1)
                  CHMU_INST0_CFG0_REG);
  go w <- lift get;
  go ret <- lift (poll_inprog (poll_budget w));
  go _ <- return_if (negb (ret =? 0)) ret;
  (* Setup what is being capured *)
  go h <- lift get_hmu;
  go _ <- lift (writeq
            (Z.lor (Z.lor (Z.lor (Z.lor
               (FIELD_PREP CHMU_INST0_CFG1_UNIT_SIZE_MSK (hot_gran h))
               (FIELD_PREP CHMU_INST0_CFG1_DS_FACTOR_MSK (ds_factor_pow2 h)))
               (FIELD_PREP CHMU_INST0_CFG1_MODE_MSK (reporting_mode h)))
               (FIELD_PREP CHMU_INST0_CFG1_EPOCH_SCALE_MSK (epoch_scale h)))
               (FIELD_PREP CHMU_INST0_CFG1_EPOCH_MULT_MSK (epoch_mult h)))
            CHMU_INST0_CFG1_REG);
  go bitmap_base <- lift (readq CHMU_INST0_RANGE_BITMAP_OFFSET_REG);
  go iv <- bitmap_loop
             (Z.to_nat (u32 (range_base h + range_num h) - range_base h))
             bitmap_base (s32 (range_base h)) 0;
  (* Potential duplicate write that doesn't matter *)
  go _ <- lift (writeq (snd iv) (bitmap_base + Z.quot (fst iv) 64 * 8));
  (* Set notificaiton threshold to half of buffer *)
  go _ <- lift (writeq (FIELD_PREP CHMU_INST0_CFG2_FILLTHRESH_THRESHOLD_MSK
                          (list_len / 2)) CHMU_INST0_CFG2_REG);
  (* Only after granual is set can the width be known - so can only check
     here *)
  go status <- lift (readq CHMU_INST0_STATUS_REG);
  go limit <- shift_int1
                (64 - FIELD_GET CHMU_INST0_STATUS_COUNTER_WIDTH_MSK status);
  go _ <- return_if (limit <=? hot_thresh h) (- EINVAL);
  (* Start the unit up *)
  go _ <- lift (writeq
            (Z.lor (Z.lor (Z.lor (Z.lor (Z.lor
               (FIELD_PREP CHMU_INST0_CFG0_WHAT_MSK (m2s_requests_to_track h))
               (FIELD_PREP CHMU_INST0_CFG0_RAND_DOWNSAMP_EN
                  (if randomized_ds h then 1 else 0)))
               (FIELD_PREP CHMU_INST0_CFG0_OVRFLW_INT_EN 1))
               (FIELD_PREP CHMU_INST0_CFG0_FILLTHRESH_INT_EN 1))
               (FIELD_PREP CHMU_INST0_CFG0_ENABLE 1))
               (FIELD_PREP CHMU_INST0_CFG0_HOTNESS_THRESH_MSK (hot_thresh h)))
            CHMU_INST0_CFG0_REG);
  (* Poll status register for enablement to complete *)
  go w' <- lift get;
  go ret <- lift (poll_inprog (poll_budget w'));
  go _ <- return_if (negb (ret =? 0)) ret;
  return_ 0).

(** *** What a unit supports *)


(** The granule a request asks for, as a power of two: the field of
    [config1], or the smallest the unit supports when that is 0; and the
    downsampling factor it asks for. *)
Definition requested_granule (cap1 : Z) (event : perf_event) : Z :=
  let g := FIELD_GET CXL_HMU_ATTR_CONFIG1_HOTNESS_GRANUAL_MASK
             (config1 event) in
  let gran_sup := FIELD_GET CHMU_INST0_CAP1_UNIT_SIZE_MSK cap1 in
  if (g =? 0) && negb (gran_sup =? 0) then 8 + ffs gran_sup else g.


(** The epoch lengths of the first capability register, and the length
    asked for, the way [cxl_hmu_event_init] computes them. *)
Definition epoch_min (cap0 : Z) : Z :=
  u64 (int_pow 10 (FIELD_GET CHMU_INST0_CAP0_EPOCH_MIN_SCALE_MSK cap0)
       * FIELD_GET CHMU_INST0_CAP0_EPOCH_MIN_MULT_MSK cap0).
Definition epoch_max (cap0 : Z) : Z :=
  u64 (int_pow 10 (FIELD_GET CHMU_INST0_CAP0_EPOCH_MAX_SCALE_MSK cap0)
       * FIELD_GET CHMU_INST0_CAP0_EPOCH_MAX_MULT_MSK cap0).

(** [w'] is [w] after the register writes [ws], and nothing else. *)
Definition written (w : world) (ws : list (Z * Z)) (w' : world) : Prop :=
  exists rg,
    w' = set_dev (mk_device rg (status (dev w)) (status_feed (dev w))
                    (hotlist_mem (dev w)) (writes (dev w) ++ ws)) w.

(** A write that sets the enable bit of the first configuration register. *)
Definition enables (wr : Z * Z) : Prop :=
  fst wr = CHMU_INST0_CFG0_REG /\
  FIELD_GET CHMU_INST0_CFG0_ENABLE (snd wr) <> 0.

(** *** A device and a buffer for the examples *)

(** A hot list entry: the counter in the low [width] bits, the unit index
    above. *)
Definition hot_entry (width unit_ count : Z) : Z :=
  Z.lor (Z.shiftl unit_ width) count.

(** The value of [n] bytes in memory, low byte first. *)
Fixpoint le_value (bs : list Z) : Z :=
  match bs with
  | [] => 0
  | b :: bs' => b + 256 * le_value bs'
  end.

(** The 8-byte words of a piece of memory. *)
Fixpoint words (n : nat) (bs : list Z) : list Z :=
  match n with
  | O => []
  | S n' => le_value (take 8 bs) :: words n' (drop 8 bs)
  end.

(** A unit with a hot list of [top] entries, entry [i] being unit [i] with
    count 5 on 16 bits, the head and tail registers as given, idle and
    disabled. *)
Definition demo_device (top head tail : Z) : device :=
  mk_device
    (list_to_map
       [(CHMU_INST0_CAP0_REG, Z.shiftl top 48);
        (CHMU_INST0_RANGE_BITMAP_OFFSET_REG, 0x80);
        (CHMU_INST0_HOTLIST_OFFSET_REG, 0x100);
        (CHMU_INST0_HEAD_REG, head);
        (CHMU_INST0_TAIL_REG, tail)])
    (Z.shiftl 16 32)
    []
    (concat ((fun i : nat => le_bytes 8 (hot_entry 16 (Z.of_nat i) 5))
               <$> seq 0 (Z.to_nat top)))
    [].

Definition demo_info : cxl_hmu_info :=
  mk_info 42 0 0 0 0 0 0 0 0 0 0 false.

(** A zeroed AUX buffer of [len] bytes with the cursor at [pos]; the next
    [perf_aux_output_begin] hands it out again. *)
Definition demo_world (d : device) (len pos : Z) : world :=
  mk_world d demo_info (mk_buf len (replicate (Z.to_nat len) 0) pos) pos
    [Some 0] [] 4 0.

(** A unit that supports epoch mode, a 4 KiB granule and no downsampling,
    epochs from 10 to 100 * 10^5 units, with a hot list of 8 entries and a
    range bitmap of 128 bytes, reporting the counter width [width]. *)
Definition capable_device (width : Z) : device :=
  mk_device
    (list_to_map
       [(CHMU_INST0_CAP0_REG,
         Z.lor (Z.lor (Z.lor (Z.lor
           (FIELD_PREP CHMU_INST0_CAP0_EPOCH_MAX_SCALE_MSK 5)
           (FIELD_PREP CHMU_INST0_CAP0_EPOCH_MAX_MULT_MSK 100))
           (FIELD_PREP CHMU_INST0_CAP0_EPOCH_MIN_SCALE_MSK 1))
           (FIELD_PREP CHMU_INST0_CAP0_EPOCH_MIN_MULT_MSK 1))
           (FIELD_PREP CHMU_INST0_CAP0_HOTLIST_SIZE_MSK 8));
        (CHMU_INST0_CAP1_REG,
         Z.lor (Z.lor
           (FIELD_PREP CHMU_INST0_CAP1_UNIT_SIZE_MSK 16)
           (FIELD_PREP CHMU_INST0_CAP1_DOWNSAMP_MSK 1))
           (FIELD_PREP CHMU_INST0_CAP1_EPOCH_SUP 1));
        (CHMU_INST0_RANGE_BITMAP_OFFSET_REG, 0x80);
        (CHMU_INST0_HOTLIST_OFFSET_REG, 0x100)])
    (FIELD_PREP CHMU_INST0_STATUS_COUNTER_WIDTH_MSK width)
    [] [] [].

(** The event of
    [epoch_type=0,access_type=6,epoch_multiplier=4,epoch_scale=4,
     range_base=0,range_size=64], with the granule and the threshold as
    given. *)
Definition demo_event (granule thresh : Z) : perf_event :=
  mk_event 42 0 false
    (Z.lor (Z.lor (Z.lor
       (FIELD_PREP CXL_HMU_ATTR_CONFIG_EPOCH_TYPE_MASK 0)
       (FIELD_PREP CXL_HMU_ATTR_CONFIG_ACCESS_TYPE_MASK 6))
       (FIELD_PREP CXL_HMU_ATTR_CONFIG_EPOCH_SCALE_MASK 4))
       (FIELD_PREP CXL_HMU_ATTR_CONFIG_EPOCH_MULT_MASK 4))
    (Z.lor (FIELD_PREP CXL_HMU_ATTR_CONFIG1_HOTNESS_THRESH_MASK thresh)
           (FIELD_PREP CXL_HMU_ATTR_CONFIG1_HOTNESS_GRANUAL_MASK granule))
    (Z.lor (FIELD_PREP CXL_HMU_ATTR_CONFIG2_DPA_BASE_MASK 0)
           (FIELD_PREP CXL_HMU_ATTR_CONFIG2_DPA_SIZE_MASK 64)).

End Hmu.

(** ** The hot list drain, described *)

Module HmuDrain.
Import Mach Fault Hmu.

(** The head and tail registers and the size of the hot list, as
    [cxl_hmu_update_aux] reads them. *)
Definition list_head (d : device) : Z := u16 (regs d !!! CHMU_INST0_HEAD_REG).
Definition list_tail (d : device) : Z := u16 (regs d !!! CHMU_INST0_TAIL_REG).
Definition list_top (d : device) : Z :=
  FIELD_GET CHMU_INST0_CAP0_HOTLIST_SIZE_MSK (regs d !!! CHMU_INST0_CAP0_REG).

(** The counter width the next read of the status register reports. *)
Definition next_width (d : device) : Z :=
  FIELD_GET CHMU_INST0_STATUS_COUNTER_WIDTH_MSK (hd (status d) (status_feed d)).

(** The bytes of the entries between head and tail, oldest first. *)
Definition pending (d : device) : list Z :=
  let m := hotlist_mem d in
  if list_head d <? list_tail d then
    take (Z.to_nat ((list_tail d - list_head d) * 8))
      (drop (Z.to_nat (list_head d * 8)) m)
  else if list_tail d <? list_head d then
    drop (Z.to_nat (list_head d * 8)) m ++ take (Z.to_nat (list_tail d * 8)) m
  else [].

(** The room the staging memory has for entries, after a header. *)
Definition room (b : cxl_hmu_buf) : Z :=
  buf_length b - buf_pos b - sizeof_header.

(** The number of bytes of entries one drain stages. *)
Definition drained (w : world) : Z :=
  Z.min (Z.of_nat (length (pending (dev w)))) (room (buf w)).

(** What one drain writes to the staging memory: nothing, or a header
    with the number of entries and the counter width, and the entries. *)
Definition packet (w : world) : list Z :=
  let n := drained w in
  if n =? 0 then []
  else
    header_bytes
      (Z.lor (FIELD_PREP CHMU_HEADER0_SIZE_MASK (n / 8))
             (FIELD_PREP CHMU_HEADER0_COUNT_WIDTH (next_width (dev w))))
      0xDEADBEEF
    ++ take (Z.to_nat n) (pending (dev w)).

(** The unit and the buffer are in order: head and tail index the hot
    list, the hot list memory has the size the unit announces, the staging
    memory has the length the buffer says, and a header fits after the
    cursor. *)
Definition drainable (w : world) : Prop :=
  let d := dev w in
  let b := buf w in
  list_head d < list_top d /\
  list_tail d < list_top d /\
  Z.of_nat (length (hotlist_mem d)) = list_top d * 8 /\
  Z.of_nat (length (buf_base b)) = buf_length b /\
  0 <= buf_pos b /\
  buf_pos b + sizeof_header <= buf_length b < 2 ^ 64.

(** The staging buffer is full once the packet is in. *)
Definition fills (w : world) : bool :=
  buf_pos (buf w) + Z.of_nat (length (packet w)) =? buf_length (buf w).

(** The world after one call of [cxl_hmu_update_aux(hmu, stop)] that
    returned [r]. *)
Definition drain_post (stop : bool) (w : world) (r : Z) (w' : world) : Prop :=
  let d := dev w in
  let b := buf w in
  let pos1 := buf_pos b + Z.of_nat (length (packet w)) in
  aux_ended w' = aux_ended w ++ [Z.of_nat (length (packet w))] /\
  buf_base (buf w') = poke (Z.to_nat (buf_pos b)) (packet w) (buf_base b) /\
  buf_length (buf w') = buf_length b /\
  hmu w' = hmu w /\
  poll_budget w' = poll_budget w /\
  hotlist_mem (dev w') = hotlist_mem d /\
  status (dev w') = status d /\
  status_feed (dev w') = tl (status_feed d) /\
  if fills w then
    r = - EINVAL /\
    regs (dev w') = regs d /\ writes (dev w') = writes d /\
    buf_pos (buf w') = pos1 /\
    aux_feed w' = aux_feed w /\ handle_head w' = handle_head w
  else
    regs (dev w') = <[CHMU_INST0_HEAD_REG := list_tail d]> (regs d) /\
    writes (dev w') = writes d ++ [(CHMU_INST0_HEAD_REG, list_tail d)] /\
    if stop then
      r = 0 /\ buf_pos (buf w') = pos1 /\
      aux_feed w' = aux_feed w /\ handle_head w' = handle_head w
    else
      match aux_feed w with
      | Some hd :: rest =>
          r = 0 /\ buf_pos (buf w') = hd mod buf_length b /\
          aux_feed w' = rest /\ handle_head w' = hd
      | None :: rest =>
          r = - EINVAL /\ buf_pos (buf w') = pos1 /\
          aux_feed w' = rest /\ handle_head w' = handle_head w
      | [] =>
          r = - EINVAL /\ buf_pos (buf w') = pos1 /\
          aux_feed w' = [] /\ handle_head w' = handle_head w
      end.

End HmuDrain.
(** ** Starting the unit, described *)

Module HmuStart.
Import Mach Fault Hmu.

(** Word [k] of a bitmap in which the bits from [lo] up to, not
    including, [hi_] are set. *)
Definition range_word (lo_ hi_ k : Z) : Z :=
  Z.ldiff (Z.ones (Z.min 64 (Z.max 0 (hi_ - 64 * k))))
          (Z.ones (Z.max 0 (lo_ - 64 * k))).

(** The writes that put the words from [lo_ / 64] up to [hi_ / 64] of that
    bitmap at [bitmap_base]. *)
Definition bitmap_writes (bitmap_base lo_ hi_ : Z) : list (Z * Z) :=
  (fun k => (bitmap_base + k * 8, range_word lo_ hi_ k))
    <$> seqZ (lo_ / 64) (hi_ / 64 - lo_ / 64 + 1).

(** The value [__cxl_hmu_start] puts in the second configuration
    register. *)
Definition cfg1_of (h : cxl_hmu_info) : Z :=
  Z.lor (Z.lor (Z.lor (Z.lor
    (FIELD_PREP CHMU_INST0_CFG1_UNIT_SIZE_MSK (hot_gran h))
    (FIELD_PREP CHMU_INST0_CFG1_DS_FACTOR_MSK (ds_factor_pow2 h)))
    (FIELD_PREP CHMU_INST0_CFG1_MODE_MSK (reporting_mode h)))
    (FIELD_PREP CHMU_INST0_CFG1_EPOCH_SCALE_MSK (epoch_scale h)))
    (FIELD_PREP CHMU_INST0_CFG1_EPOCH_MULT_MSK (epoch_mult h)).

(** The value it starts the unit with. *)
Definition cfg0_of (h : cxl_hmu_info) : Z :=
  Z.lor (Z.lor (Z.lor (Z.lor (Z.lor
    (FIELD_PREP CHMU_INST0_CFG0_WHAT_MSK (m2s_requests_to_track h))
    (FIELD_PREP CHMU_INST0_CFG0_RAND_DOWNSAMP_EN
       (if randomized_ds h then 1 else 0)))
    (FIELD_PREP CHMU_INST0_CFG0_OVRFLW_INT_EN 1))
    (FIELD_PREP CHMU_INST0_CFG0_FILLTHRESH_INT_EN 1))
    (FIELD_PREP CHMU_INST0_CFG0_ENABLE 1))
    (FIELD_PREP CHMU_INST0_CFG0_HOTNESS_THRESH_MSK (hot_thresh h)).

(** The unit is disabled and idle, and its status register reports the
    same on every read. *)
Definition idle (d : device) : Prop :=
  status_feed d = [] /\
  FIELD_GET CHMU_INST0_STATUS_ENABLED (status d) = 0 /\
  FIELD_GET CHMU_INST0_STATUS_OP_INPROG_MSK (status d) = 0.

(** The fields of the driver state have the ranges of their C types. *)
Definition typed (h : cxl_hmu_info) : Prop :=
  0 <= hot_thresh h < 2 ^ 32 /\
  0 <= hot_gran h < 2 ^ 32 /\
  0 <= range_base h < 2 ^ 32 /\
  0 <= range_num h < 2 ^ 32 /\
  0 <= m2s_requests_to_track h < 2 ^ 8 /\
  0 <= ds_factor_pow2 h < 2 ^ 8 /\
  0 <= epoch_scale h < 2 ^ 8 /\
  0 <= epoch_mult h < 2 ^ 16.

End HmuStart.
(** ** The CXL HMU driver as a PMU: the perf callbacks and CPU hotplug *)

Module HmuPmu.
Import Mach Fault Hmu.

Definition CHMU_INST0_STATUS_OVRFLW := BIT 40.
Definition CHMU_INST0_STATUS_FILLTHRESH := BIT 41.

(** The flags of [linux/perf_event.h] that the file uses and does not
    define. *)
Record perf_flags := mk_perf_flags {
  PERF_HES_STOPPED : Z;
  PERF_HES_UPTODATE : Z;
  PERF_EF_START : Z;
  PERF_EF_RELOAD : Z;
  PERF_EF_UPDATE : Z
}.

(** [irqreturn_t], the two values the file returns. *)
Inductive irqreturn := IRQ_NONE | IRQ_HANDLED.

(** The unit with its driver state, its buffer and [event->hw.state], and
    the number of [dev_err] messages. *)
Record pmu := mk_pmu {
  unit_ : world;
  dev_errs : nat
}.

Abbreviation M := (Fault.M pmu).

(** A computation on the unit, within the PMU. *)
Definition on_unit {A} (m : Hmu.M A) : M A := fun p =>
  match m (unit_ p) with
  | Ret a w => Ret a (mk_pmu w (dev_errs p))
  | Oops w => Oops (mk_pmu w (dev_errs p))
  end.

(** [m] ends, whichever way, with the [hw.state] it started with. *)
Definition keeps {A} (m : Hmu.M A) : Prop :=
  forall w, hw_state (state_of (m w)) = hw_state w.

Definition dev_err : M unit := fun p =>
  Ret tt (mk_pmu (unit_ p) (S (dev_errs p))).

(** [val & ~mask] in [u64]. *)
Definition clear_bits (val mask_ : Z) : Z := Z.land val (u64 (Z.lnot mask_)).

(** [cxl_hmu_start].  [hmu->lock] is held to the end of the call, here and
    in [cxl_hmu_stop]; one call runs at a time. *)
Definition cxl_hmu_start (pf : perf_flags) (event : perf_event) : M unit :=
  do rc <- on_unit (__cxl_hmu_start event);
  if negb (rc =? 0)
  then
    do p <- get;
    on_unit (put_hw_state (Z.lor (hw_state (unit_ p)) (PERF_HES_STOPPED pf)))
  else ret tt.

(** [cxl_hmu_stop] *)
Definition cxl_hmu_stop (pf : perf_flags) : M unit :=
  do p <- get;
  if negb (Z.land (hw_state (unit_ p)) (PERF_HES_STOPPED pf) =? 0) then ret tt
  else
    do status <- on_unit (readq CHMU_INST0_STATUS_REG);
    if negb (FIELD_GET CHMU_INST0_STATUS_ENABLED status =? 0) then
      (* Stop the HMU instance *)
      do val <- on_unit (readq CHMU_INST0_CFG0_REG);
      let val := clear_bits val (mask CHMU_INST0_CFG0_ENABLE) in
      do _ <- on_unit (writeq val CHMU_INST0_CFG0_REG);
      do p' <- get;
      do rc <- on_unit (poll_inprog (poll_budget (unit_ p')));
      if negb (rc =? 0) then ret tt (* Disable timed out *)
      else
        do _ <- on_unit (cxl_hmu_update_aux true);
        ret tt
    else ret tt.

(** [cxl_hmu_read] *)
Definition cxl_hmu_read : M unit := ret tt.

(** [cxl_hmu_add] *)
Definition cxl_hmu_add (pf : perf_flags) (event : perf_event) (flags : Z)
  : M Z :=
  do _ <- on_unit (put_hw_state
                     (Z.lor (PERF_HES_STOPPED pf) (PERF_HES_UPTODATE pf)));
  if negb (Z.land flags (PERF_EF_START pf) =? 0) then
    do _ <- cxl_hmu_start pf event;
    do p <- get;
    if negb (Z.land (hw_state (unit_ p)) (PERF_HES_STOPPED pf) =? 0)
    then ret (- EINVAL)
    else ret 0
  else ret 0.

(** [cxl_hmu_del] *)
Definition cxl_hmu_del (pf : perf_flags) : M unit := cxl_hmu_stop pf.

(** [cxl_hmu_irq] *)
Definition cxl_hmu_irq : M irqreturn :=
  do status <- on_unit (readq CHMU_INST0_STATUS_REG);
  if (FIELD_GET CHMU_INST0_STATUS_OVRFLW status =? 0)
     && (FIELD_GET CHMU_INST0_STATUS_FILLTHRESH status =? 0)
  then ret IRQ_NONE
  else
    do r <- on_unit (cxl_hmu_update_aux false);
    do _ <- (if negb (r =? 0) then dev_err else ret tt);
    (* They are level interrupts so should trigger on next fill *)
    do _ <- on_unit (writeq status CHMU_INST0_STATUS_REG);
    ret IRQ_HANDLED.

(** The flags with the values of the kernel's header, an event on the demo
    unit, and a unit whose coming status reads are [feed]. *)
Definition demo_flags : perf_flags := mk_perf_flags 1 2 1 2 4.

Definition demo_pmu (d : device) (len pos state : Z) : pmu :=
  mk_pmu (set_hw_state state (demo_world d len pos)) 0.

Definition with_status (feed : list Z) (d : device) : device :=
  mk_device (regs d) (status d) feed (hotlist_mem d) (writes d).

(** *** The AUX buffer *)

(** What [cxl_hmu_setup_aux] finds: whether the two allocations succeed,
    and what [vmap] answers: nothing, or the pages as one piece of
    memory. *)
Record aux_env := mk_aux_env {
  PAGE_SIZE : Z;
  kzalloc_buf_ok : bool;
  kcalloc_pagelist_ok : bool;
  vmap : option (list Z)
}.

(** [cxl_hmu_setup_aux]: [None] is the null pointer. *)
Definition cxl_hmu_setup_aux (e : aux_env) (nr_pages : Z) (overwrite : bool)
  : option cxl_hmu_buf :=
  if overwrite then None
  else if nr_pages <? 1 then None
  else if negb (kzalloc_buf_ok e) then None
  else if negb (kcalloc_pagelist_ok e) then None
  else
    match vmap e with
    | None => None
    | Some base => Some (mk_buf (u64 (nr_pages * PAGE_SIZE e)) base 0)
    end.

(** *** CPU hotplug *)

(** The driver state the hotplug callbacks use, with the calls they make:
    the CPUs [irq_set_affinity] was called with, and the pairs
    [perf_pmu_migrate_context] was called with. *)
Record hotplug := mk_hotplug {
  hp_on_cpu : Z;  (* int on_cpu *)
  affinity : list Z;
  migrations : list (Z * Z);
  hp_errs : nat
}.

(** [cxl_hmu_probe] leaves [info->on_cpu = -1]. *)
Definition hotplug_init : hotplug := mk_hotplug (-1) [] [] 0.

(** [cxl_hmu_online_cpu]; [cpu] is an [unsigned int]. *)
Definition cxl_hmu_online_cpu (cpu : Z) (s : hotplug) : Z * hotplug :=
  if negb (hp_on_cpu s =? -1) then (0, s)
  else
    (0, mk_hotplug (s32 cpu) (affinity s ++ [cpu]) (migrations s) (hp_errs s)).

(** [cxl_hmu_offline_cpu]; [target] is what
    [cpumask_any_but(cpu_online_mask, cpu)] answers.  The comparison of
    [info->on_cpu] with [cpu] is made in [unsigned int]. *)
Definition cxl_hmu_offline_cpu (nr_cpu_ids : Z) (cpu target : Z) (s : hotplug)
  : Z * hotplug :=
  if negb (u32 (hp_on_cpu s) =? cpu) then (0, s)
  else if nr_cpu_ids <=? target then
    (0, mk_hotplug (-1) (affinity s) (migrations s) (S (hp_errs s)))
  else
    (0, mk_hotplug (s32 target) (affinity s ++ [target])
          (migrations s ++ [(cpu, target)]) (hp_errs s)).

(** A CPU comes up, or goes down with [target] found for it. *)
Inductive hp_event :=
  | Online (cpu : Z)
  | Offline (cpu target : Z).

(** The CPUs that are online after an event. *)
Definition online_after (online : list Z) (ev : hp_event) : list Z :=
  match ev with
  | Online cpu => cpu :: online
  | Offline cpu _ => filter (fun c => c <> cpu) online
  end.

Definition hp_step (nr_cpu_ids : Z) (s : hotplug) (ev : hp_event) : hotplug :=
  match ev with
  | Online cpu => snd (cxl_hmu_online_cpu cpu s)
  | Offline cpu target => snd (cxl_hmu_offline_cpu nr_cpu_ids cpu target s)
  end.

(** The events are what the kernel can deliver: a CPU that comes up has a
    valid number, a CPU that goes down is online, and the target found for
    it is another online CPU, or at least [nr_cpu_ids] when there is
    none. *)
Fixpoint deliverable (nr_cpu_ids : Z) (online : list Z) (evs : list hp_event)
  : Prop :=
  match evs with
  | [] => True
  | ev :: rest =>
      match ev with
      | Online cpu => 0 <= cpu < nr_cpu_ids
      | Offline cpu target =>
          cpu ∈ online /\
          ((target ∈ online /\ target <> cpu) \/
           (nr_cpu_ids <= target /\ forall c, c ∈ online -> c = cpu))
      end /\
      deliverable nr_cpu_ids (online_after online ev) rest
  end.

(** The interrupt and the PMU context are on a CPU that is online, and the
    interrupt was last routed to it; or they are on none. *)
Definition placed (online : list Z) (s : hotplug) : Prop :=
  hp_on_cpu s = -1 \/
  (hp_on_cpu s ∈ online /\ last (affinity s) = Some (hp_on_cpu s)).

End HmuPmu.
(** ** The perf tool: the dump of the AUX data ([tools/perf/util/cxl-hmu.c]) *)

Module PerfTool.
Import Mach.

(** What [cxl_hmu_dump] prints, line by line, with the values it formats. *)
Inductive line :=
  | Size (len : Z)                 (* ". ... CXL_HMU data: size %zu bytes" *)
  | Header0 (units width : Z)      (* "Header 0: units: %x counter_width %x" *)
  | Header1 (v : Z)                (* "Header 1 : %lx" *)
  | Entry (v : Z).                 (* "%016lx" *)

(** [((uint64_t * )(buf + pos))[0]] for 8 bytes that lie in the data, on
    the little-endian host the tool is built for. *)
Definition load64 (buf : list Z) (pos : Z) : Z :=
  foldr (fun (i : nat) acc =>
           Z.lor (Z.shiftl (buf !!! (Z.to_nat pos + i)%nat) (8 * Z.of_nat i)) acc)
        0 (seq 0 8).

(** [round_down(len, 8)] *)
Definition round_down8 (len : Z) : Z := Z.land len (u64 (Z.lnot 7)).

(** The loop of [cxl_hmu_dump], with [n] the number of rounds left:
    [len / 8] at its start.  A word that does not lie in the data is an
    invalid read: [None]. *)
Fixpoint dump_loop (n : nat) (buf : list Z)
    (pos packet_offset hotlist_entries_in_packet : Z) : option (list line) :=
  match n with
  | O => Some []
  | S n' =>
      if (0 <=? pos) && (pos + 8 <=? Z.of_nat (length buf)) then
        let word := load64 buf pos in
        let entries :=
          if packet_offset =? 0 then Z.land word 0xFFFF
          else hotlist_entries_in_packet in
        let out :=
          if packet_offset =? 0
          then Header0 entries (Z.land (Z.shiftr word 16) 0xFF)
          else if packet_offset =? 1 then Header1 word
          else Entry word in
        let packet_offset := packet_offset + 1 in
        let packet_offset :=
          if packet_offset =? entries + 2 then 0 else packet_offset in
        (out ::.) <$> dump_loop n' buf (pos + 8) packet_offset entries
      else None
  end.

(** [cxl_hmu_dump] *)
Definition cxl_hmu_dump (buf : list Z) (len : Z) : option (list line) :=
  let len := round_down8 len in
  (Size len ::.) <$> dump_loop (Z.to_nat (len / 8)) buf 0 0 0.

(** The 8 byte words of [bytes], as [load64] reads them. *)
Definition words (bytes : list Z) : list Z :=
  (fun k : nat => load64 bytes (8 * Z.of_nat k)) <$> seq 0 (length bytes / 8).

(** A packet as the tool expects it: two header words, the first with the
    number of entries in its low 16 bits and the counter width in the next
    8, and the bytes of the entries. *)
Record chmu_packet := mk_packet {
  pk_header0 : Z;
  pk_header1 : Z;
  pk_data : list Z
}.

Definition packet_bytes (p : chmu_packet) : list Z :=
  Hmu.header_bytes (pk_header0 p) (pk_header1 p) ++ pk_data p.

Definition well_formed (p : chmu_packet) : Prop :=
  0 <= pk_header0 p < 2 ^ 64 /\
  0 <= pk_header1 p < 2 ^ 64 /\
  Z.of_nat (length (pk_data p)) = 8 * Z.land (pk_header0 p) 0xFFFF.

Definition packet_lines (p : chmu_packet) : list line :=
  Header0 (Z.land (pk_header0 p) 0xFFFF)
          (Z.land (Z.shiftr (pk_header0 p) 16) 0xFF)
  :: Header1 (pk_header1 p)
  :: (Entry <$> words (pk_data p)).

End PerfTool.
(** * Properties *)

(** ** Machine integers *)

Module MachFacts.
Import Mach.

Lemma u64_range x : 0 <= u64 x < 2 ^ 64.
Proof. unfold u64. apply Z.mod_pos_bound. lia. Qed.

Lemma u64_small x : 0 <= x < 2 ^ 64 -> u64 x = x.
Proof. intros H. unfold u64. now apply Z.mod_small. Qed.

Lemma s32_small x : - 2 ^ 31 <= x < 2 ^ 31 -> s32 x = x.
Proof. intros H. unfold s32. rewrite Z.mod_small; lia. Qed.

End MachFacts.

(** ** Reasoning about computations *)

Module FaultFacts.
Import Fault.

Section wp.
Context {S : Type}.

Lemma wp_ret {A} (a : A) (Q : A -> S -> Prop) F s : Q a s -> wp (ret a) Q F s.
Proof. done. Qed.

Lemma wp_bind {A B} (m : M S A) (f : A -> M S B) Q F s :
  wp m (fun a s' => wp (f a) Q F s') F s -> wp (bind m f) Q F s.
Proof. unfold wp, bind. destruct (m s); done. Qed.

Lemma wp_mono {A} (m : M S A) (Q Q' : A -> S -> Prop) (F F' : S -> Prop) s :
  wp m Q F s -> (forall a s', Q a s' -> Q' a s') -> (forall s', F s' -> F' s') ->
  wp m Q' F' s.
Proof. unfold wp. destruct (m s); auto. Qed.

Lemma wp_eq {A} (m : M S A) (Q : A -> S -> Prop) F s a s' :
  m s = Ret a s' -> Q a s' -> wp m Q F s.
Proof. unfold wp. now intros ->. Qed.

Lemma wp_ret_inv {A} (m : M S A) s a0 s0 :
  wp m (fun a s' => a = a0 /\ s' = s0) (fun _ => False) s -> m s = Ret a0 s0.
Proof. unfold wp. destruct (m s); [intros [-> ->]; done|done]. Qed.

Lemma wp_oops_inv {A} (m : M S A) s s0 :
  wp m (fun _ _ => False) (fun s' => s' = s0) s -> m s = Oops s0.
Proof. unfold wp. destruct (m s); [done|intros ->; done]. Qed.

Lemma wp_bind_all {A B} (m : M S A) (f : A -> M S B) Q F s :
  (forall a s', wp (f a) Q F s') -> (forall s', F s') -> wp (bind m f) Q F s.
Proof. intros Hf HF. unfold wp, bind. destruct (m s); [apply Hf|apply HF]. Qed.

Lemma bind_eq {A B} (m : M S A) (f : A -> M S B) s a s' :
  m s = Ret a s' -> bind m f s = f a s'.
Proof. unfold bind. now intros ->. Qed.

End wp.

End FaultFacts.

(** ** Outcomes *)

Module OutcomeFacts.
Import Fault Outcome.

Lemma value_of_ret {S A} (r : result S A) a :
  value_of r = Some a -> r = Ret a (state_of r).
Proof. destruct r; cbn; [intros [= ->]; done|done]. Qed.

Lemma returned_unit {S} (r : result S unit) :
  returned r = true -> r = Ret tt (state_of r).
Proof. destruct r as [[] s|]; cbn; done. Qed.

End OutcomeFacts.
(** ** Bits *)

Module BitFacts.
Import Mach.

Lemma bit_above x k i :
  0 <= x < 2 ^ k -> 0 <= k <= i -> Z.testbit x i = false.
Proof.
  intros Hx Hi. rewrite <- (Z.mod_small x (2 ^ k)) by lia.
  apply Z.mod_pow2_bits_high. lia.
Qed.

Lemma land_lor_r a b : Z.land (Z.lor a b) b = b.
Proof.
  apply Z.bits_inj'. intros i Hi. rewrite Z.land_spec, Z.lor_spec.
  now destruct (Z.testbit a i), (Z.testbit b i).
Qed.

Lemma land_lor_keeps a b c : Z.land a c = c -> Z.land (Z.lor a b) c = c.
Proof.
  intros H. apply Z.bits_inj'. intros i Hi.
  apply (f_equal (fun x => Z.testbit x i)) in H.
  rewrite Z.land_spec in H. rewrite Z.land_spec, Z.lor_spec.
  destruct (Z.testbit a i), (Z.testbit b i), (Z.testbit c i); done.
Qed.

Lemma land_lor_keeps_r a b c : Z.land b c = c -> Z.land (Z.lor a b) c = c.
Proof. intros H. rewrite Z.lor_comm. now apply land_lor_keeps. Qed.

End BitFacts.
(** ** The IBS sample ring is a FIFO of 49 samples *)

Module IbsFacts.
Import Ibs.

Lemma slot_range t j :
  0 <= t < IBS_NR_SAMPLES -> 0 <= j < IBS_NR_SAMPLES ->
  0 <= slot t j < IBS_NR_SAMPLES.
Proof. unfold slot, IBS_NR_SAMPLES. intros. case_match; lia. Qed.

Lemma slot_inj t i j :
  0 <= t < IBS_NR_SAMPLES ->
  0 <= i < IBS_NR_SAMPLES -> 0 <= j < IBS_NR_SAMPLES ->
  slot t i = slot t j -> i = j.
Proof. unfold slot, IBS_NR_SAMPLES. intros ? ? ?. repeat case_match; lia. Qed.

Lemma slot_0 t : 0 <= t < IBS_NR_SAMPLES -> slot t 0 = t.
Proof. unfold slot, IBS_NR_SAMPLES. intros. case_match; lia. Qed.

(** Stepping the tail by one shifts every slot by one. *)
Lemma slot_next t j :
  0 <= t < IBS_NR_SAMPLES -> 0 <= j -> j + 1 < IBS_NR_SAMPLES ->
  slot (if IBS_NR_SAMPLES <=? t + 1 then 0 else t + 1) j = slot t (j + 1).
Proof. unfold slot, IBS_NR_SAMPLES. intros. repeat case_match; lia. Qed.

Lemma holds_init : holds ibs_s_init [].
Proof.
  unfold holds, ibs_s_init, IBS_NR_SAMPLES; simpl.
  repeat split; try lia. intros j x Hj. discriminate.
Qed.

Lemma payload_push p t s : payload (set_time t (set_pfn p s)) = (p, t).
Proof. reflexivity. Qed.

(** A push on a ring that holds fewer than 49 samples enqueues. *)
Lemma push_nonfull r q p n t :
  holds r q -> Z.of_nat (length q) < IBS_NR_SAMPLES - 1 ->
  exists r', ibs_push_sample p n t r = (1, r') /\ holds r' (q ++ [(p, t)]).
Proof.
  intros (Hlen & Ht & Hq & Hh & Hs) Hlt.
  assert (Hhr : 0 <= head r < IBS_NR_SAMPLES)
    by (rewrite Hh; apply slot_range; lia).
  unfold ibs_push_sample.
  set (next := if IBS_NR_SAMPLES <=? head r + 1 then 0 else head r + 1).
  assert (Hnext : next = slot (tail r) (Z.of_nat (length q) + 1)).
  { subst next. rewrite Hh. unfold slot, IBS_NR_SAMPLES in *.
    repeat case_match; lia. }
  assert (Hne : next <> tail r).
  { rewrite Hnext. intros E. rewrite <- (slot_0 (tail r)) in E at 2 by lia.
    apply slot_inj in E; lia. }
  apply Z.eqb_neq in Hne. rewrite Hne.
  eexists; split; [reflexivity|].
  unfold holds; simpl. rewrite !length_alter, length_app. simpl.
  repeat split; try lia.
  - rewrite Hnext. f_equal. lia.
  - intros j x Hj.
    destruct (decide (j = length q)) as [->|Hjne].
    + rewrite lookup_app_r in Hj by lia.
      replace (length q - length q)%nat with 0%nat in Hj by lia.
      simpl in Hj. injection Hj as <-.
      rewrite <- Hh.
      rewrite list_lookup_total_alter_eq, list_lookup_total_alter_eq.
      * apply payload_push.
      * unfold IBS_NR_SAMPLES in *. lia.
      * rewrite length_alter. unfold IBS_NR_SAMPLES in *. lia.
    + assert (Hjl : (j < length q)%nat).
      { apply lookup_lt_Some in Hj. rewrite length_app in Hj. simpl in Hj. lia. }
      rewrite lookup_app_l in Hj by lia.
      assert (Hslot : Z.to_nat (head r) <> Z.to_nat (slot (tail r) (Z.of_nat j))).
      { intros E. rewrite Hh in E.
        assert (0 <= slot (tail r) (Z.of_nat j) < IBS_NR_SAMPLES)
          by (apply slot_range; lia).
        assert (0 <= slot (tail r) (Z.of_nat (length q)) < IBS_NR_SAMPLES)
          by (apply slot_range; lia).
        apply Z2Nat.inj in E; try lia.
        apply slot_inj in E; lia. }
      rewrite !list_lookup_total_alter_ne by done.
      now apply Hs.
Qed.

(** A push on a ring that holds 49 samples is refused and changes nothing. *)
Lemma push_full r q p n t :
  holds r q -> Z.of_nat (length q) = IBS_NR_SAMPLES - 1 ->
  ibs_push_sample p n t r = (0, r).
Proof.
  intros (Hlen & Ht & Hq & Hh & Hs) Hfull.
  unfold ibs_push_sample.
  assert (E : (if IBS_NR_SAMPLES <=? head r + 1 then 0 else head r + 1) = tail r).
  { rewrite Hh. unfold slot, IBS_NR_SAMPLES in *. repeat case_match; lia. }
  rewrite E, Z.eqb_refl. reflexivity.
Qed.

(** A pop on a non-empty ring dequeues the oldest sample. *)
Lemma pop_cons r x q :
  holds r (x :: q) ->
  exists s r', ibs_pop_sample r = (Some s, r') /\ payload s = x /\ holds r' q.
Proof.
  intros (Hlen & Ht & Hq & Hh & Hs). simpl in Hq, Hh.
  unfold ibs_pop_sample.
  assert (Hne : head r <> tail r).
  { rewrite Hh. intros E. rewrite <- (slot_0 (tail r)) in E at 2 by lia.
    apply slot_inj in E; lia. }
  apply Z.eqb_neq in Hne. rewrite Hne.
  do 2 eexists; split; [reflexivity|]. split.
  - specialize (Hs 0%nat x eq_refl). simpl in Hs.
    rewrite slot_0 in Hs by lia. exact Hs.
  - unfold holds; cbn [samples head tail].
    repeat split; try (unfold IBS_NR_SAMPLES in *; repeat case_match; lia).
    + rewrite slot_next by lia. rewrite Hh. f_equal. lia.
    + intros j y Hj.
      assert (Hjl : (j < length q)%nat) by (now apply lookup_lt_Some in Hj).
      rewrite slot_next by lia.
      specialize (Hs (S j) y Hj).
      replace (Z.of_nat (S j)) with (Z.of_nat j + 1) in Hs by lia.
      exact Hs.
Qed.

(** A pop on an empty ring returns 0 and changes nothing. *)
Lemma pop_nil r : holds r [] -> ibs_pop_sample r = (None, r).
Proof.
  intros (Hlen & Ht & Hq & Hh & Hs). simpl in Hh.
  unfold ibs_pop_sample. rewrite slot_0 in Hh by lia.
  rewrite Hh, Z.eqb_refl. reflexivity.
Qed.

Lemma holds_empty r :
  length (samples r) = Z.to_nat IBS_NR_SAMPLES ->
  0 <= tail r < IBS_NR_SAMPLES -> head r = tail r -> holds r [].
Proof.
  intros Hlen Ht Hh. unfold holds; simpl.
  repeat split; try (unfold IBS_NR_SAMPLES in *; lia).
  - rewrite slot_0; done.
  - intros j x Hj. discriminate.
Qed.

(** The NMI handler on a burst: the ring takes samples while it holds
    fewer than 49, and every later one is counted in [HWHINT_BUFFER_FULL]. *)
Lemma push_all_holds l : forall c q,
  holds (ring c) q ->
  let k := Nat.min (length l) (Z.to_nat (IBS_NR_SAMPLES - 1) - length q) in
  holds (ring (push_all l c)) (q ++ take k (payload <$> l)) /\
  hwhint_buffer_full (push_all l c)
    = hwhint_buffer_full c + Z.of_nat (length l - k) /\
  hwhint_useful_samples (push_all l c)
    = hwhint_useful_samples c + Z.of_nat k.
Proof.
  induction l as [|s l IH]; intros c q Hq k.
  - subst k; simpl. rewrite app_nil_r. split; [done|]. split; lia.
  - assert (Hbound : Z.of_nat (length q) < IBS_NR_SAMPLES) by apply Hq.
    destruct (decide (Z.of_nat (length q) < IBS_NR_SAMPLES - 1)) as [Hlt|Hge].
    + destruct (push_nonfull _ _ (pfn s) (nid s) (time s) Hq Hlt)
        as (r' & Hpush & Hr').
      assert (Hstep : ibs_overflow_handler s c
                = mk_cpu r' (hwhint_buffer_full c) (hwhint_useful_samples c + 1)).
      { unfold ibs_overflow_handler. rewrite Hpush. reflexivity. }
      simpl push_all. unfold push_all in IH |- *. simpl foldl. rewrite Hstep.
      specialize (IH (mk_cpu r' (hwhint_buffer_full c)
                        (hwhint_useful_samples c + 1)) _ Hr').
      cbn [ring hwhint_buffer_full hwhint_useful_samples] in IH.
      rewrite length_app in IH. simpl length in IH.
      destruct IH as (IH1 & IH2 & IH3).
      assert (Hk : k = S (Nat.min (length l)
                   (Z.to_nat (IBS_NR_SAMPLES - 1) - (length q + 1)))).
      { subst k. simpl length. unfold IBS_NR_SAMPLES in *. lia. }
      rewrite Hk. simpl fmap. simpl take.
      rewrite <- app_assoc in IH1. simpl app in IH1.
      split; [exact IH1|split].
      * rewrite IH2. simpl length. f_equal.
      * rewrite IH3. lia.
    + assert (Hfull : Z.of_nat (length q) = IBS_NR_SAMPLES - 1) by lia.
      pose proof (push_full _ _ (pfn s) (nid s) (time s) Hq Hfull) as Hpush.
      assert (Hstep : ibs_overflow_handler s c
                = mk_cpu (ring c) (hwhint_buffer_full c + 1)
                    (hwhint_useful_samples c)).
      { unfold ibs_overflow_handler. rewrite Hpush. reflexivity. }
      unfold push_all in IH |- *. simpl foldl. rewrite Hstep.
      specialize (IH (mk_cpu (ring c) (hwhint_buffer_full c + 1)
                        (hwhint_useful_samples c)) _ Hq).
      cbn [ring hwhint_buffer_full hwhint_useful_samples] in IH.
      destruct IH as (IH1 & IH2 & IH3).
      assert (Hk : k = 0%nat).
      { subst k. unfold IBS_NR_SAMPLES in *. lia. }
      assert (Hk' : Nat.min (length l)
                 (Z.to_nat (IBS_NR_SAMPLES - 1) - length q) = 0%nat).
      { unfold IBS_NR_SAMPLES in *. lia. }
      rewrite Hk' in IH1, IH2, IH3. rewrite Hk.
      simpl take in *. split; [exact IH1|split].
      * rewrite IH2. simpl length. lia.
      * rewrite IH3. lia.
Qed.

(** The work handler empties the ring, oldest sample first. *)
Lemma work_handler_holds q : forall r fuel,
  holds r q -> (length q < fuel)%nat ->
  exists popped r',
    ibs_work_handler fuel r = Some (popped, r') /\
    payload <$> popped = q /\ holds r' [].
Proof.
  induction q as [|x q IH]; intros r fuel Hq Hfuel.
  - destruct fuel as [|fuel]; [simpl in Hfuel; lia|].
    simpl. rewrite (pop_nil _ Hq). exists [], r. done.
  - destruct fuel as [|fuel]; [simpl in Hfuel; lia|].
    destruct (pop_cons _ _ _ Hq) as (s & r1 & Hpop & Hs & Hr1).
    simpl in Hfuel.
    destruct (IH r1 fuel Hr1 ltac:(lia)) as (popped & r' & Hrun & Hp & Hr').
    exists (s :: popped), r'.
    split; [simpl; rewrite Hpop, Hrun; reflexivity|]. split; [|done].
    rewrite fmap_cons. now rewrite Hs, Hp.
Qed.

(** C4, on the code: a burst of 51 samples into the fresh ring is refused
    twice, not [51 - 50] times, and the samples the work handler pops are not
    the pushed ones: they were pushed with node 1 and come out with the
    node field of the zeroed slots. *)
Lemma ring_burst_51_counterexample :
  let l := burst 51 1 in
  let c := push_all l ibs_cpu_init in
  hwhint_buffer_full c <> Z.of_nat (length l) - IBS_NR_SAMPLES /\
  exists popped r',
    ibs_work_handler 50 (ring c) = Some (popped, r') /\
    popped <> take (length popped) l /\
    nid <$> popped = replicate 49 0.
Proof.
  split.
  - vm_compute. discriminate.
  - eexists _, _. split; [vm_compute; reflexivity|].
    split; [vm_compute; discriminate | vm_compute; reflexivity].
Qed.

(** C4 (amended): on an empty ring, a burst of [N >= 49] samples with no pop
    in between has exactly [N - 49] pushes refused, each counted in
    [HWHINT_BUFFER_FULL]; the work handler then pops exactly the first 49
    samples of the burst, in the order pushed, each with the pfn and the
    time it was pushed with, and leaves the ring empty. *)
Theorem ring_burst_fifo (l : list ibs_sample) (c : ibs_cpu) :
  length (samples (ring c)) = Z.to_nat IBS_NR_SAMPLES ->
  0 <= tail (ring c) < IBS_NR_SAMPLES ->
  head (ring c) = tail (ring c) ->
  IBS_NR_SAMPLES - 1 <= Z.of_nat (length l) ->
  let c' := push_all l c in
  hwhint_buffer_full c'
    = hwhint_buffer_full c + (Z.of_nat (length l) - (IBS_NR_SAMPLES - 1)) /\
  hwhint_useful_samples c'
    = hwhint_useful_samples c + (IBS_NR_SAMPLES - 1) /\
  exists popped r',
    ibs_work_handler (Z.to_nat IBS_NR_SAMPLES) (ring c') = Some (popped, r') /\
    payload <$> popped
      = payload <$> take (Z.to_nat (IBS_NR_SAMPLES - 1)) l /\
    head r' = tail r'.
Proof.
  intros Hlen Ht Hh HN c'.
  pose proof (holds_empty _ Hlen Ht Hh) as H0.
  destruct (push_all_holds l c [] H0) as (Hq & Hfull & Huse).
  simpl length in Hq, Hfull, Huse. rewrite Nat.sub_0_r in Hq, Hfull, Huse.
  assert (Hmin : Nat.min (length l) (Z.to_nat (IBS_NR_SAMPLES - 1))
                 = Z.to_nat (IBS_NR_SAMPLES - 1)) by lia.
  rewrite Hmin in Hq, Hfull, Huse. simpl app in Hq.
  split; [|split].
  - subst c'. rewrite Hfull. unfold IBS_NR_SAMPLES in *. lia.
  - subst c'. rewrite Huse. unfold IBS_NR_SAMPLES. lia.
  - destruct (work_handler_holds _ (ring c') (Z.to_nat IBS_NR_SAMPLES) Hq)
      as (popped & r' & Hrun & Hp & Hr').
    { rewrite length_take, length_fmap. unfold IBS_NR_SAMPLES in *. lia. }
    exists popped, r'. split; [exact Hrun|]. split.
    + rewrite Hp. now rewrite fmap_take.
    + destruct Hr' as (_ & Ht' & _ & Hh' & _). simpl in Hh'.
      rewrite Hh'. apply slot_0. exact Ht'.
Qed.

Lemma ring_burst_fifo_witness :
  let l := burst 60 1 in
  let c' := push_all l ibs_cpu_init in
  hwhint_buffer_full c' = 0 + (Z.of_nat (length l) - (IBS_NR_SAMPLES - 1)) /\
  hwhint_useful_samples c' = 0 + (IBS_NR_SAMPLES - 1) /\
  exists popped r',
    ibs_work_handler (Z.to_nat IBS_NR_SAMPLES) (ring c') = Some (popped, r') /\
    payload <$> popped
      = payload <$> take (Z.to_nat (IBS_NR_SAMPLES - 1)) l /\
    head r' = tail r'.
Proof.
  apply (ring_burst_fifo (burst 60 1) ibs_cpu_init).
  - reflexivity.
  - vm_compute. split; [discriminate | reflexivity].
  - reflexivity.
  - vm_compute. discriminate.
Defined.

End IbsFacts.
(** ** The sample ring under any interleaving *)

Module IbsOpsFacts.
Import Ibs IbsFacts IbsOps.

Lemma ring_step_seen o r q :
  holds r q ->
  seen (ring_step o r).1 = (queue_step o q).1 /\
  holds (ring_step o r).2 (queue_step o q).2.
Proof.
  intros Hq. destruct o as [p n t|]; cbn [ring_step queue_step].
  - assert (Hb : Z.of_nat (length q) < IBS_NR_SAMPLES) by apply Hq.
    destruct (Z.of_nat (length q) <? IBS_NR_SAMPLES - 1) eqn:E.
    + apply Z.ltb_lt in E.
      destruct (push_nonfull r q p n t Hq E) as (r' & -> & Hr'). done.
    + apply Z.ltb_ge in E.
      rewrite (push_full r q p n t Hq) by lia. done.
  - destruct q as [|x q].
    + rewrite (pop_nil r Hq). done.
    + destruct (pop_cons r x q Hq) as (s & r' & -> & Hs & Hr').
      cbn. rewrite Hs. done.
Qed.

Lemma ring_run_seen ops : forall r q,
  holds r q ->
  seen <$> (ring_run ops r).1 = (queue_run ops q).1 /\
  holds (ring_run ops r).2 (queue_run ops q).2.
Proof.
  induction ops as [|o ops IH]; intros r q Hq; [done|].
  cbn [ring_run queue_run].
  destruct (ring_step_seen o r q Hq) as [H1 H2].
  destruct (ring_step o r) as [x r1], (queue_step o q) as [y q1].
  cbn [fst snd] in H1, H2.
  destruct (IH r1 q1 H2) as [H3 H4].
  destruct (ring_run ops r1) as [xs r2], (queue_run ops q1) as [ys q2].
  cbn [fst snd] in *. rewrite fmap_cons, H1, H3. done.
Qed.

(** X1: started on the zeroed ring, any sequence of [ibs_push_sample] and
    [ibs_pop_sample] calls returns what the same calls return on a
    first-in first-out queue of (pfn, time) pairs bounded at 49 entries: a
    push returns 1 and enqueues while fewer than 49 samples wait and
    returns 0 otherwise, a pop returns the oldest waiting sample or 0 when
    none waits; and the ring ends up holding the queue. *)
Theorem ring_refines_bounded_queue (ops : list ring_op) :
  seen <$> (ring_run ops ibs_s_init).1 = (queue_run ops []).1 /\
  holds (ring_run ops ibs_s_init).2 (queue_run ops []).2.
Proof. apply ring_run_seen, holds_init. Qed.

Lemma holds_in_bounds r q : holds r q -> in_bounds r.
Proof.
  intros (Hlen & Ht & Hq & Hh & _). split; [done|]. split; [|done].
  rewrite Hh. apply slot_range; lia.
Qed.

(** X2: on a ring reached from the zeroed one by any calls, the array
    keeps its 50 slots and [head] and [tail] stay within 0..49, so the
    stores of the next push and the load of the next pop fall inside
    [samples]; and the ring never holds more than 49 samples. *)
Theorem ring_indices_in_bounds (ops : list ring_op) :
  in_bounds (ring_run ops ibs_s_init).2 /\
  Z.of_nat (length (queue_run ops []).2) <= IBS_NR_SAMPLES - 1.
Proof.
  destruct (ring_run_seen ops _ _ holds_init) as [_ H].
  split; [now apply holds_in_bounds in H|].
  destruct H as (_ & _ & Hq & _). lia.
Qed.

(** *** The node of a sample *)

Lemma no_node_init : no_node ibs_s_init.
Proof. unfold no_node, ibs_s_init. cbn [samples]. now apply Forall_replicate. Qed.

Lemma no_node_alter (f : ibs_sample -> ibs_sample) i (l : list ibs_sample) :
  (forall s, nid (f s) = nid s) ->
  Forall (fun s => nid s = 0) l -> Forall (fun s => nid s = 0) (alter f i l).
Proof.
  intros Hf Hl. apply Forall_forall. intros s Hs.
  apply list_elem_of_lookup in Hs as [j Hj].
  destruct (decide (i = j)) as [->|Hne].
  - rewrite list_lookup_alter_eq in Hj.
    destruct (l !! j) as [s0|] eqn:E; [|done]. injection Hj as <-.
    rewrite Hf. rewrite Forall_forall in Hl. apply Hl.
    apply list_elem_of_lookup. eauto.
  - rewrite list_lookup_alter_ne in Hj by done.
    rewrite Forall_forall in Hl. apply Hl.
    apply list_elem_of_lookup. eauto.
Qed.

Lemma ring_step_no_node o r :
  in_bounds r -> no_node r ->
  no_node (ring_step o r).2 /\
  match (ring_step o r).1 with
  | Popped (Some s) => nid s = 0
  | _ => True
  end.
Proof.
  intros (Hlen & Hh & Ht) Hn. destruct o as [p n t|]; cbn [ring_step].
  - unfold ibs_push_sample.
    destruct (_ =? tail r); cbn [fst snd]; [done|]. split; [|done].
    unfold no_node. cbn [samples].
    apply no_node_alter; [done|]. apply no_node_alter; [done|]. exact Hn.
  - unfold ibs_pop_sample.
    destruct (head r =? tail r); cbn [fst snd]; [done|]. split; [done|].
    unfold no_node in Hn. rewrite Forall_forall in Hn. apply Hn.
    apply list_elem_of_lookup. exists (Z.to_nat (tail r)).
    apply list_lookup_lookup_total_lt. unfold IBS_NR_SAMPLES in *. lia.
Qed.

Lemma ring_run_no_node ops : forall r q,
  holds r q -> no_node r ->
  Forall (fun s => nid s = 0) (popped_of (ring_run ops r).1).
Proof.
  induction ops as [|o ops IH]; intros r q Hq Hn; [constructor|].
  cbn [ring_run].
  destruct (ring_step_seen o r q Hq) as [_ H2].
  destruct (ring_step_no_node o r (holds_in_bounds _ _ Hq) Hn) as [H3 H4].
  destruct (ring_step o r) as [x r1]. cbn [fst snd] in *.
  specialize (IH r1 _ H2 H3).
  destruct (ring_run ops r1) as [xs r2]. cbn [fst snd] in *.
  unfold popped_of. cbn [flat_map]. apply Forall_app. split; [|exact IH].
  destruct x as [|[s|]]; repeat constructor. exact H4.
Qed.

Lemma ring_run_keeps_no_node ops : forall r q,
  holds r q -> no_node r -> no_node (ring_run ops r).2.
Proof.
  induction ops as [|o ops IH]; intros r q Hq Hn; [done|].
  cbn [ring_run].
  destruct (ring_step_seen o r q Hq) as [_ H2].
  destruct (ring_step_no_node o r (holds_in_bounds _ _ Hq) Hn) as [H3 _].
  destruct (ring_step o r) as [x r1]. cbn [fst snd] in *.
  specialize (IH r1 _ H2 H3).
  destruct (ring_run ops r1) as [xs r2]. exact IH.
Qed.

Lemma work_handler_no_node q : forall r fuel popped r',
  holds r q -> no_node r ->
  ibs_work_handler fuel r = Some (popped, r') ->
  Forall (fun s => nid s = 0) popped.
Proof.
  induction q as [|x q IH]; intros r fuel popped r' Hq Hn Hrun.
  - destruct fuel as [|fuel]; [done|]. cbn in Hrun.
    rewrite (pop_nil _ Hq) in Hrun. injection Hrun as <- <-. constructor.
  - destruct fuel as [|fuel]; [done|].
    destruct (ring_step_no_node Pop r (holds_in_bounds _ _ Hq) Hn) as [H3 H4].
    destruct (pop_cons _ _ _ Hq) as (s & r1 & Hpop & Hs & Hr1).
    cbn [ring_step] in H3, H4. rewrite Hpop in H3, H4. cbn [fst snd] in H3, H4.
    cbn [ibs_work_handler] in Hrun. rewrite Hpop in Hrun.
    destruct (ibs_work_handler fuel r1) as [[l r'']|] eqn:E; [|done].
    injection Hrun as <- <-. constructor; [exact H4|].
    exact (IH r1 fuel l r'' Hr1 H3 E).
Qed.

(** X3: [ibs_push_sample] takes the observing node and stores it nowhere:
    whatever nodes the samples were pushed with, every sample a pop hands
    out of a ring that started zeroed has [nid] 0. *)
Theorem ring_forgets_node (ops : list ring_op) :
  Forall (fun s => nid s = 0) (popped_of (ring_run ops ibs_s_init).1).
Proof. apply (ring_run_no_node ops _ []); [apply holds_init|apply no_node_init]. Qed.

(** X4: on a ring reached by any calls, [ibs_work_handler] comes back
    within 50 turns of its loop, hands on exactly the samples that were
    waiting, oldest first and each with node 0, and leaves the ring empty:
    the next pop returns 0. *)
Theorem work_handler_drains (ops : list ring_op) :
  let r := (ring_run ops ibs_s_init).2 in
  exists popped r',
    ibs_work_handler (Z.to_nat IBS_NR_SAMPLES) r = Some (popped, r') /\
    payload <$> popped = (queue_run ops []).2 /\
    Forall (fun s => nid s = 0) popped /\
    head r' = tail r' /\
    ibs_pop_sample r' = (None, r').
Proof.
  intros r.
  destruct (ring_run_seen ops _ _ holds_init) as [_ H]. fold r in H.
  destruct (work_handler_holds _ r (Z.to_nat IBS_NR_SAMPLES) H)
    as (popped & r' & Hrun & Hp & Hr').
  { destruct H as (_ & _ & Hq & _). unfold IBS_NR_SAMPLES in *. lia. }
  exists popped, r'. split; [exact Hrun|]. split; [exact Hp|]. split.
  { eapply (work_handler_no_node _ r _ popped r' H); [|exact Hrun].
    apply (ring_run_keeps_no_node ops _ []); [apply holds_init|apply no_node_init]. }
  split.
  - destruct Hr' as (_ & Ht' & _ & Hh' & _). cbn in Hh'.
    rewrite Hh'. now apply slot_0.
  - now apply pop_nil.
Qed.

End IbsOpsFacts.
(** ** IBS access profiling *)

Module IbsNmiFacts.
Import Mach Fault FaultFacts BitFacts IbsNmi.

Lemma wp_rdmsrl reg (Q : Z -> machine -> Prop) F m :
  Q (msr m !!! reg) m -> wp (rdmsrl reg) Q F m.
Proof. done. Qed.

Lemma wp_wrmsrl reg val (Q : unit -> machine -> Prop) F m :
  Q tt (mk_machine (<[reg := val]> (msr m)) (ibs_s m) (events m)
          (irq_work_queued m) (eilvt_calls m) (warnings m)
          (arch_hw_access_profiling m) (ibs_config m) (ibs_caps m)
          (nmi_handler_registered m) (cpuhp_registered m)) ->
  wp (wrmsrl reg val) Q F m.
Proof. done. Qed.

Lemma wp_hwhint ev (Q : unit -> machine -> Prop) F m :
  Q tt (counted [ev] m) -> wp (count_vm_event ev) Q F m.
Proof. done. Qed.

Lemma wp_get_machine (Q : machine -> machine -> Prop) F m :
  Q m m -> wp get Q F m.
Proof. done. Qed.

Lemma hwhint_counted_counted evs1 evs2 m :
  counted evs2 (counted evs1 m) = counted (evs1 ++ evs2) m.
Proof. unfold counted. cbn. now rewrite <- app_assoc. Qed.

Lemma quiet_nil : quiet [].
Proof. constructor. Qed.

Lemma quiet_one ev :
  ev <> HWHINT_BUFFER_FULL -> ev <> HWHINT_USEFUL_SAMPLES -> quiet [ev].
Proof. intros. now repeat constructor. Qed.

Lemma quiet_app evs1 evs2 : quiet evs1 -> quiet evs2 -> quiet (evs1 ++ evs2).
Proof. intros. now apply Forall_app. Qed.

Lemma hwhint_counted_nil m : counted [] m = m.
Proof. unfold counted. rewrite app_nil_r. now destruct m. Qed.

Lemma wp_count_data_src hw d (Q : unit -> machine -> Prop) F m :
  (forall evs, quiet evs -> Q tt (counted evs m)) ->
  wp (count_data_src hw d) Q F m.
Proof.
  intros HQ. unfold count_data_src.
  repeat case_match; try (apply wp_hwhint, HQ, quiet_one; done).
  apply wp_ret. rewrite <- (hwhint_counted_nil m). apply HQ, quiet_nil.
Qed.

Lemma wp_count_if (c : bool) ev (Q : unit -> machine -> Prop) F m :
  ev <> HWHINT_BUFFER_FULL -> ev <> HWHINT_USEFUL_SAMPLES ->
  (forall evs, quiet evs -> Q tt (counted evs m)) ->
  wp (if c then count_vm_event ev else ret tt) Q F m.
Proof.
  intros H1 H2 HQ. destruct c; [apply wp_hwhint, HQ, quiet_one; done|].
  apply wp_ret. rewrite <- (hwhint_counted_nil m). apply HQ, quiet_nil.
Qed.

(** The handler on an NMI that finds [IBS_OP_VAL] set. *)
Lemma nmi_valid hw c m :
  distinct_msrs hw ->
  let ops_ctl := msr m !!! MSR_AMD64_IBSOPCTL hw in
  let pfn := Z.shiftr (msr m !!! MSR_AMD64_IBSDCPHYSAD hw) (PAGE_SHIFT hw) in
  let pushed := Ibs.ibs_push_sample pfn (numa_node_id c) (jiffies c) (ibs_s m) in
  Z.land ops_ctl (IBS_OP_VAL hw) <> 0 ->
  wp (ibs_overflow_handler hw c)
     (fun r m' =>
        r = NMI_HANDLED hw /\
        msr m' = <[MSR_AMD64_IBSOPCTL hw :=
                     Z.land ops_ctl (not64 (IBS_OP_VAL hw))]> (msr m) /\
        same_setup m m' /\
        exists evs,
          events m' = events m ++ HWHINT_NR_EVENTS :: evs /\
          ((acceptable hw c m /\
            ibs_s m' = snd pushed /\
            irq_work_queued m'
              = (if fst pushed =? 0 then irq_work_queued m
                 else S (irq_work_queued m)) /\
            last evs = Some (if fst pushed =? 0 then HWHINT_BUFFER_FULL
                             else HWHINT_USEFUL_SAMPLES)) \/
           (~ acceptable hw c m /\
            ibs_s m' = ibs_s m /\
            irq_work_queued m' = irq_work_queued m /\
            quiet evs)))
     (fun _ => False) m.
Proof.
  intros (Hd2 & Hd3 & Hla & Hpa) ops_ctl pfn pushed Hval.
  unfold ibs_overflow_handler.
  apply wp_bind. apply wp_bind, wp_rdmsrl. fold ops_ctl.
  apply Z.eqb_neq in Hval. rewrite Hval.
  apply wp_bind, wp_wrmsrl. apply wp_bind, wp_hwhint.
  unfold counted at 1.
  cbn [msr ibs_s events irq_work_queued eilvt_calls warnings
       arch_hw_access_profiling ibs_config ibs_caps nmi_handler_registered
       cpuhp_registered].
  set (m1 := mk_machine _ _ _ _ _ _ _ _ _ _ _).
  set (Post := fun (r : Z) (m' : machine) => _ /\ _).
  assert (Hm1 : forall evs,
    quiet evs -> ~ acceptable hw c m ->
    wp (ret (NMI_HANDLED hw)) Post (fun _ => False) (counted evs m1)).
  { intros evs Hq Hno. apply wp_ret.
    split; [done|]. split; [done|]. split; [done|].
    exists evs. split; [cbn; now rewrite <- app_assoc|]. right. done. }
  assert (Hone : forall ev evs,
    ev <> HWHINT_BUFFER_FULL -> ev <> HWHINT_USEFUL_SAMPLES ->
    quiet evs -> ~ acceptable hw c m ->
    wp (count_vm_event ev)
       (fun _ m' => wp (ret (NMI_HANDLED hw)) Post (fun _ => False) m')
       (fun _ => False) (counted evs m1)).
  { intros ev evs H1 H2 H3 Hno. apply wp_hwhint. rewrite hwhint_counted_counted.
    apply Hm1; [|done]. apply quiet_app; [done|now apply quiet_one]. }
  rewrite <- (hwhint_counted_nil m1). pose proof quiet_nil as Hq0.
  destruct (user_mode c) eqn:Euser; cbn [negb];
    [|apply Hone; try done; intros Hacc; destruct Hacc as (H & _); congruence].
  destruct (current_mm c) eqn:Emm; cbn [negb];
    [|apply Hone; try done; intros Hacc; destruct Hacc as (_ & H & _); congruence].
  apply wp_bind, wp_rdmsrl.
  assert (Hr3 : msr (counted [] m1) !!! MSR_AMD64_IBSOPDATA3 hw
                = msr m !!! MSR_AMD64_IBSOPDATA3 hw).
  { cbn. now rewrite lookup_total_insert_ne. }
  rewrite Hr3. set (data3 := msr m !!! MSR_AMD64_IBSOPDATA3 hw).
  destruct (Z.land data3 (Z.lor _ _) =? 0) eqn:Eop.
  { apply Hone; try done. intros (_ & _ & H & _).
    apply Z.eqb_eq in Eop. done. }
  destruct (Z.land data3 (Z.lor (MSR_AMD64_IBSOPDATA3_DCMISS hw) _) =? 0) eqn:Emiss.
  { apply Hone; try done. intros (_ & _ & _ & H & _).
    apply Z.eqb_eq in Emiss. done. }
  apply wp_bind, wp_rdmsrl. apply wp_bind, wp_get_machine.
  apply wp_bind, wp_count_data_src. intros evs1 Hq1. rewrite hwhint_counted_counted.
  cbn [app].
  apply wp_bind, wp_count_if; [done|done|]. intros evs2 Hq2.
  rewrite hwhint_counted_counted.
  assert (Hq12 : quiet (evs1 ++ evs2)) by now apply quiet_app.
  revert Hq12. generalize (evs1 ++ evs2). clear evs1 evs2 Hq1 Hq2.
  intros evs Hq.
  destruct (Z.land data3 (MSR_AMD64_IBSOPDATA3_LADDR_VALID hw) =? 0) eqn:Ela.
  { apply Hone; try done. intros (_ & _ & _ & _ & H & _).
    apply Z.eqb_eq in Ela. done. }
  apply wp_bind, wp_rdmsrl.
  assert (Hrl : msr (counted evs m1) !!! MSR_AMD64_IBSDCLINAD hw
                = msr m !!! MSR_AMD64_IBSDCLINAD hw).
  { cbn. now rewrite lookup_total_insert_ne. }
  rewrite Hrl.
  destruct (Z.land (msr m !!! MSR_AMD64_IBSDCLINAD hw) (Z.shiftl 1 63) =? 0)
    eqn:Ekern; cbn [negb].
  2: { apply Hone; try done. intros (_ & _ & _ & _ & _ & H & _).
       apply Z.eqb_neq in Ekern. done. }
  destruct (Z.land data3 (MSR_AMD64_IBSOPDATA3_PADDR_VALID hw) =? 0) eqn:Epa.
  { apply Hone; try done. intros (_ & _ & _ & _ & _ & _ & H & _).
    apply Z.eqb_eq in Epa. done. }
  apply wp_bind, wp_rdmsrl.
  assert (Hrp : msr (counted evs m1) !!! MSR_AMD64_IBSDCPHYSAD hw
                = msr m !!! MSR_AMD64_IBSDCPHYSAD hw).
  { cbn. now rewrite lookup_total_insert_ne. }
  rewrite Hrp. fold pfn.
  destruct (pfn_to_online_page c pfn) as [[|]|] eqn:Epage; cbn [negb].
  3: { apply Hm1; [done|]. intros (_ & _ & _ & _ & _ & _ & _ & H).
       fold pfn in H. congruence. }
  2: { apply Hone; try done. intros (_ & _ & _ & _ & _ & _ & _ & H).
       fold pfn in H. congruence. }
  assert (Hacc : acceptable hw c m).
  { unfold acceptable. fold data3 pfn.
    apply Z.eqb_neq in Eop, Emiss, Ela, Epa. apply Z.eqb_eq in Ekern. done. }
  apply wp_bind. unfold wp at 1, ibs_push_sample.
  cbn [ibs_s counted m1]. fold pushed. destruct pushed as [ret r] eqn:Epush.
  cbn [fst snd].
  destruct (ret =? 0) eqn:Eret.
  - apply wp_hwhint. apply wp_ret.
    split; [done|]. split; [done|]. split; [done|].
    exists (evs ++ [HWHINT_BUFFER_FULL]).
    split; [cbn; now rewrite <- !app_assoc|]. left.
    cbn [fst snd]. rewrite Eret.
    split; [done|]. split; [done|]. split; [done|]. apply last_snoc.
  - apply wp_bind. unfold wp at 1, irq_work_queue.
    apply wp_hwhint. apply wp_ret.
    split; [done|]. split; [done|]. split; [done|].
    exists (evs ++ [HWHINT_USEFUL_SAMPLES]).
    split; [cbn; now rewrite <- !app_assoc|]. left.
    cbn [fst snd]. rewrite Eret.
    split; [done|]. split; [done|]. split; [done|]. apply last_snoc.
Qed.


(** X5: [ibs_overflow_handler] always returns [NMI_HANDLED] and leaves the
    set-up of the file alone.  An NMI that finds [IBS_OP_VAL] clear in the
    control MSR changes nothing at all; one that finds it set writes the
    control MSR back with that bit cleared, writes no other MSR, and counts
    [HWHINT_NR_EVENTS] before anything else. *)
Theorem nmi_always_handled (hw : ibs_hw) (c : nmi_ctx) (m : machine) :
  distinct_msrs hw ->
  let ops_ctl := msr m !!! MSR_AMD64_IBSOPCTL hw in
  exists m',
    ibs_overflow_handler hw c m = Ret (NMI_HANDLED hw) m' /\
    same_setup m m' /\
    if Z.land ops_ctl (IBS_OP_VAL hw) =? 0 then m' = m
    else
      msr m' = <[MSR_AMD64_IBSOPCTL hw :=
                   Z.land ops_ctl (not64 (IBS_OP_VAL hw))]> (msr m) /\
      exists evs, events m' = events m ++ HWHINT_NR_EVENTS :: evs.
Proof.
  intros Hd ops_ctl.
  destruct (Z.land ops_ctl (IBS_OP_VAL hw) =? 0) eqn:E.
  - exists m. split; [|done].
    unfold ibs_overflow_handler, bind, rdmsrl, ret. fold ops_ctl.
    now rewrite E.
  - apply Z.eqb_neq in E.
    pose proof (nmi_valid hw c m Hd E) as H. unfold wp in H.
    destruct (ibs_overflow_handler hw c m) as [r m'|]; [|done].
    destruct H as (-> & Hmsr & Hsame & evs & Hev & _).
    exists m'. eauto.
Qed.

Lemma nmi_always_handled_witness :
  let m := machine_boot {[ MSR_AMD64_IBSOPCTL example_hw := 0 ]} in
  exists m',
    ibs_overflow_handler example_hw (mk_ctx true true (fun _ => None) 0 0) m
    = Ret 1 m' /\ m' = m.
Proof.
  intros m.
  destruct (nmi_always_handled example_hw
              (mk_ctx true true (fun _ => None) 0 0) m)
    as (m' & Hrun & _ & Hm).
  - vm_compute. done.
  - exists m'. split; [exact Hrun|exact Hm].
Defined.

(** X6: of an NMI that finds [IBS_OP_VAL] set, the handler keeps the
    sample exactly when it was taken in user mode in a task with an address
    space, is a load or store that missed the data cache or the L2, and
    has a valid linear address in the lower half and a valid physical
    address of an online page on the LRU.  Then it calls [ibs_push_sample]
    with the pfn of that address, and either queues the irq work and counts
    [HWHINT_USEFUL_SAMPLES], or, the ring being full, counts
    [HWHINT_BUFFER_FULL].  Any other sample leaves the ring and the irq
    work alone and counts neither. *)
Theorem nmi_keeps_acceptable_samples (hw : ibs_hw) (c : nmi_ctx) (m : machine) :
  distinct_msrs hw ->
  Z.land (msr m !!! MSR_AMD64_IBSOPCTL hw) (IBS_OP_VAL hw) <> 0 ->
  let pfn := Z.shiftr (msr m !!! MSR_AMD64_IBSDCPHYSAD hw) (PAGE_SHIFT hw) in
  let pushed :=
    Ibs.ibs_push_sample pfn (numa_node_id c) (jiffies c) (ibs_s m) in
  exists m' evs,
    ibs_overflow_handler hw c m = Ret (NMI_HANDLED hw) m' /\
    events m' = events m ++ HWHINT_NR_EVENTS :: evs /\
    (acceptable hw c m ->
     ibs_s m' = snd pushed /\
     irq_work_queued m'
       = (if fst pushed =? 0 then irq_work_queued m
          else S (irq_work_queued m)) /\
     last evs = Some (if fst pushed =? 0 then HWHINT_BUFFER_FULL
                      else HWHINT_USEFUL_SAMPLES)) /\
    (~ acceptable hw c m ->
     ibs_s m' = ibs_s m /\
     irq_work_queued m' = irq_work_queued m /\
     quiet evs).
Proof.
  intros Hd E pfn pushed.
  pose proof (nmi_valid hw c m Hd E) as H. unfold wp in H.
  destruct (ibs_overflow_handler hw c m) as [r m'|]; [|done].
  destruct H as (-> & Hmsr & Hsame & evs & Hev & Hcases).
  exists m', evs. split; [done|]. split; [done|].
  destruct Hcases as [(Hacc & H1)|(Hno & H2)]; split; intros; done.
Qed.

Lemma nmi_keeps_acceptable_samples_witness :
  let m := machine_boot example_sample_msrs in
  exists m',
    ibs_overflow_handler example_hw example_ctx m = Ret 1 m' /\
    fst (Ibs.ibs_pop_sample (ibs_s m'))
    = Some (Ibs.mk_sample 0x12345 1000 0) /\
    irq_work_queued m' = 1%nat /\
    events m'
    = [HWHINT_NR_EVENTS; HWHINT_DRAM_ACCESSES; HWHINT_USEFUL_SAMPLES].
Proof.
  intros m.
  destruct (nmi_keeps_acceptable_samples example_hw example_ctx m)
    as (m' & evs & Hrun & Hev & Hacc & _).
  - vm_compute. done.
  - vm_compute. done.
  - exists m'. split; [exact Hrun|].
    assert (E : m' = state_of (ibs_overflow_handler example_hw example_ctx m))
      by now rewrite Hrun.
    rewrite E. vm_compute. done.
Defined.


(** *** Start and stop *)

Lemma not64_bit mask i :
  0 <= i ->
  Z.testbit (not64 mask) i = (i <? 64) && negb (Z.testbit mask i).
Proof.
  intros Hi. unfold not64, u64.
  destruct (i <? 64) eqn:E; cbn [andb].
  - apply Z.ltb_lt in E. rewrite Z.mod_pow2_bits_low by lia.
    now apply Z.lnot_spec.
  - apply Z.ltb_ge in E. apply Z.mod_pow2_bits_high. lia.
Qed.

Lemma clear_mask_bit x mask i :
  0 <= x < 2 ^ 64 -> 0 <= i ->
  Z.testbit (Z.land x (not64 mask)) i
  = Z.testbit x i && negb (Z.testbit mask i).
Proof.
  intros Hx Hi. rewrite Z.land_spec, not64_bit by done.
  destruct (i <? 64) eqn:E; cbn [andb]; [done|].
  apply Z.ltb_ge in E. rewrite (bit_above x 64 i) by lia. done.
Qed.

(** X7: [hw_access_profiling_stop] touches nothing while profiling is
    off.  While it is on, it writes the control MSR back with the bits of
    [IBS_OP_ENABLE] cleared and every other bit as it was, and writes no
    other MSR. *)
Theorem profiling_stop_clears_enable (hw : ibs_hw) (m : machine) :
  let old := msr m !!! MSR_AMD64_IBSOPCTL hw in
  0 <= old < 2 ^ 64 ->
  exists m',
    hw_access_profiling_stop hw m = Ret tt m' /\
    if arch_hw_access_profiling m then
      let new := msr m' !!! MSR_AMD64_IBSOPCTL hw in
      Z.land new (IBS_OP_ENABLE hw) = 0 /\
      (forall i, 0 <= i ->
         Z.testbit new i
         = Z.testbit old i && negb (Z.testbit (IBS_OP_ENABLE hw) i)) /\
      (forall reg, reg <> MSR_AMD64_IBSOPCTL hw ->
         msr m' !!! reg = msr m !!! reg) /\
      ibs_s m' = ibs_s m /\ events m' = events m /\ same_setup m m'
    else m' = m.
Proof.
  intros old Hold.
  unfold hw_access_profiling_stop, bind, get, rdmsrl, wrmsrl, ret.
  destruct (arch_hw_access_profiling m) eqn:E; cbn [negb].
  - eexists. split; [reflexivity|]. cbn [msr ibs_s events].
    rewrite lookup_total_insert_eq. fold old.
    assert (Hbits : forall i, 0 <= i ->
              Z.testbit (Z.land old (not64 (IBS_OP_ENABLE hw))) i
              = Z.testbit old i && negb (Z.testbit (IBS_OP_ENABLE hw) i))
      by (intros; now apply clear_mask_bit).
    split; [|split; [exact Hbits|]].
    + apply Z.bits_inj'. intros i Hi.
      rewrite Z.land_spec, Hbits, Z.bits_0 by done.
      now destruct (Z.testbit old i), (Z.testbit (IBS_OP_ENABLE hw) i).
    + split; [|done]. intros reg Hreg. now rewrite lookup_total_insert_ne.
  - eexists. split; [reflexivity|]. reflexivity.
Qed.

Lemma profiling_stop_clears_enable_witness :
  let m := state_of (ibs_access_profiling_init example_hw (mk_boot true true 0)
                       (machine_boot example_sample_msrs)) in
  exists m',
    hw_access_profiling_stop example_hw m = Ret tt m' /\
    msr m !!! MSR_AMD64_IBSOPCTL example_hw = 0x60000 /\
    msr m' !!! MSR_AMD64_IBSOPCTL example_hw = 0x40000.
Proof.
  intros m.
  destruct (profiling_stop_clears_enable example_hw m) as (m' & Hrun & _).
  - vm_compute. split; [discriminate|reflexivity].
  - exists m'. split; [exact Hrun|].
    assert (E : m' = state_of (hw_access_profiling_stop example_hw m))
      by now rewrite Hrun.
    rewrite E. vm_compute. done.
Defined.

(** X8: [ibs_access_profiling_init] returns 0 in every case.  Without the
    IBS feature, or when the per-CPU rings cannot be allocated, it changes
    nothing: no NMI handler is registered, and later calls of
    [hw_access_profiling_start] and [hw_access_profiling_stop] touch no
    MSR.  Otherwise the handler is registered, and
    [hw_access_profiling_start] writes the control MSR: 0 for a kernel
    thread, and for a task with an address space a value that has the bits
    of [IBS_OP_ENABLE] and of [IBS_OP_CNT_CTL] set. *)
Theorem profiling_needs_ibs (hw : ibs_hw) (b : boot) (msrs : gmap Z Z)
    (mm : bool) :
  let m0 := machine_boot msrs in
  exists m1 m2,
    ibs_access_profiling_init hw b m0 = Ret 0 m1 /\
    hw_access_profiling_start hw mm m1 = Ret tt m2 /\
    if boot_cpu_has_ibs b && alloc_percpu_ok b then
      nmi_handler_registered m1 = true /\
      arch_hw_access_profiling m1 = true /\
      msr m1 = msrs /\
      let new := msr m2 !!! MSR_AMD64_IBSOPCTL hw in
      if mm then
        Z.land new (IBS_OP_ENABLE hw) = IBS_OP_ENABLE hw /\
        Z.land new (IBS_OP_CNT_CTL hw) = IBS_OP_CNT_CTL hw
      else new = 0
    else
      m1 = m0 /\ m2 = m0 /\
      hw_access_profiling_stop hw m0 = Ret tt m0.
Proof.
  intros m0.
  unfold ibs_access_profiling_init, hw_access_profiling_start,
    hw_access_profiling_stop, bind, get, wrmsrl, rdmsrl, ret.
  destruct (boot_cpu_has_ibs b); cbn [negb andb];
    [|exists m0, m0; done].
  destruct (alloc_percpu_ok b); cbn [negb andb];
    [|exists m0, m0; done].
  eexists _, _. split; [reflexivity|].
  cbn [arch_hw_access_profiling negb]. split; [reflexivity|].
  cbn [nmi_handler_registered arch_hw_access_profiling msr ibs_config m0
       machine_boot].
  split; [done|]. split; [done|]. split; [done|].
  rewrite lookup_total_insert_eq.
  destruct mm; cbn [negb]; [|done].
  match goal with |- context [if ?c then _ else _] => destruct c end.
  - split; apply land_lor_keeps_r, land_lor_keeps;
      [|rewrite Z.lor_comm]; apply land_lor_r.
  - split; apply land_lor_keeps_r; [|rewrite Z.lor_comm]; apply land_lor_r.
Qed.

(** *** The local vector table entry *)

Lemma land_mask_lt x mask :
  0 <= mask < 2 ^ 31 -> 0 <= Z.land x mask < 2 ^ 31.
Proof.
  intros Hm.
  assert (H0 : 0 <= Z.land x mask) by (apply Z.land_nonneg; lia).
  split; [exact H0|].
  destruct (Z.eq_dec (Z.land x mask) 0) as [->|Hne]; [lia|].
  apply Z.log2_lt_pow2; [lia|].
  destruct (Z.lt_ge_cases (Z.log2 (Z.land x mask)) 31) as [|Hge]; [done|].
  assert (Hbit : Z.testbit (Z.land x mask) (Z.log2 (Z.land x mask)) = true)
    by (apply Z.bit_log2; lia).
  rewrite Z.land_spec, (bit_above mask 31) in Hbit by lia.
  now rewrite andb_false_r in Hbit.
Qed.

(** X9: when the IBS control MSR has no valid LVT offset, neither
    [setup_APIC_ibs] nor [clear_APIC_ibs] programs the APIC, and the first
    warns.  When it has one, [setup_APIC_ibs] programs the entry at that
    offset for NMI delivery, unmasked, and [clear_APIC_ibs] after it masks
    the entry at the same offset. *)
Theorem apic_entry_follows_ibsctl (hw : ibs_hw) (r1 r2 : Z) (m : machine) :
  0 < EINVAL hw ->
  0 <= IBSCTL_LVT_OFFSET_MASK hw < 2 ^ 31 ->
  let val := msr m !!! MSR_AMD64_IBSCTL hw in
  let offset := Z.land val (IBSCTL_LVT_OFFSET_MASK hw) in
  exists m1 m2,
    setup_APIC_ibs hw r1 m = Ret tt m1 /\
    clear_APIC_ibs hw r2 m1 = Ret tt m2 /\
    msr m2 = msr m /\
    if Z.land val (IBSCTL_LVT_OFFSET_VALID hw) =? 0 then
      eilvt_calls m2 = eilvt_calls m /\
      warnings m1 = S (warnings m)
    else
      eilvt_calls m2
      = eilvt_calls m
        ++ [mk_eilvt offset 0 (APIC_EILVT_MSG_NMI hw) 0;
            mk_eilvt offset 0 (APIC_EILVT_MSG_FIX hw) 1] /\
      warnings m1 = (if r1 =? 0 then warnings m else S (warnings m)).
Proof.
  intros Herr Hmask val offset.
  assert (Hoff : 0 <= offset < 2 ^ 31) by now apply land_mask_lt.
  unfold setup_APIC_ibs, clear_APIC_ibs, get_ibs_lvt_offset,
    setup_APIC_eilvt, pr_warn, bind, rdmsrl, ret.
  fold val.
  destruct (Z.land val (IBSCTL_LVT_OFFSET_VALID hw) =? 0) eqn:E.
  - assert (Hneg : (- EINVAL hw <? 0) = true) by (apply Z.ltb_lt; lia).
    assert (Hneg' : (0 <=? - EINVAL hw) = false) by (apply Z.leb_gt; lia).
    rewrite Hneg. eexists _, _. split; [reflexivity|].
    cbn [msr]. fold val. rewrite E, Hneg'. split; [reflexivity|]. done.
  - fold offset. rewrite (MachFacts.s32_small offset) by lia.
    assert (Hpos : (offset <? 0) = false) by (apply Z.ltb_ge; lia).
    assert (Hpos' : (0 <=? offset) = true) by (apply Z.leb_le; lia).
    rewrite Hpos.
    destruct (r1 =? 0); (eexists _, _; split; [reflexivity|]);
      cbn [msr]; fold val; rewrite E; fold offset;
      rewrite (MachFacts.s32_small offset) by lia; rewrite Hpos';
      (split; [reflexivity|]; cbn; rewrite <- ?app_assoc; done).
Qed.

Lemma apic_entry_follows_ibsctl_witness :
  let m := machine_boot {[ MSR_AMD64_IBSCTL example_hw := 0x102 ]} in
  exists m1 m2,
    setup_APIC_ibs example_hw 0 m = Ret tt m1 /\
    clear_APIC_ibs example_hw 0 m1 = Ret tt m2 /\
    eilvt_calls m2 = [mk_eilvt 2 0 4 0; mk_eilvt 2 0 0 1] /\
    warnings m2 = 0%nat.
Proof.
  intros m.
  destruct (apic_entry_follows_ibsctl example_hw 0 0 m)
    as (m1 & m2 & H1 & H2 & _).
  - reflexivity.
  - vm_compute. split; [discriminate|reflexivity].
  - exists m1, m2. split; [exact H1|]. split; [exact H2|].
    assert (E1 : m1 = state_of (setup_APIC_ibs example_hw 0 m))
      by now rewrite H1.
    assert (E2 : m2 = state_of (clear_APIC_ibs example_hw 0 m1))
      by now rewrite H2.
    rewrite E2, E1. vm_compute. done.
Defined.

End IbsNmiFacts.
(** ** kpromoted *)

Module KpromotedFacts.
Import Mach MachFacts Fault FaultFacts Kpromoted.

(** *** The primitives *)

Lemma counted_nil s : counted [] s = s.
Proof. destruct s. unfold counted; simpl. now rewrite app_nil_r. Qed.

Lemma wp_count ev Q F s :
  Q tt (counted [ev] s) -> wp (count_vm_event ev) Q F s.
Proof. done. Qed.

Lemma wp_lock bkt Q F s :
  Q tt (set_held (bkt :: held s) s) -> wp (mutex_lock bkt) Q F s.
Proof. done. Qed.

Lemma wp_unlock bkt Q F s :
  Q tt (set_held (filter (fun b => b <> bkt) (held s)) s) ->
  wp (mutex_unlock bkt) Q F s.
Proof. done. Qed.

Lemma wp_chain bkt l Q F s :
  0 <= bkt -> page_hotness_hash s !! Z.to_nat bkt = Some l ->
  Q l s -> wp (chain bkt) Q F s.
Proof.
  intros Hb Hl HQ. unfold wp, chain.
  destruct (bkt <? 0) eqn:E; [apply Z.ltb_lt in E; lia|]. now rewrite Hl.
Qed.

Lemma wp_load bkt idx l r Q F s :
  page_hotness_hash s !! Z.to_nat bkt = Some l -> l !! idx = Some r ->
  Q r s -> wp (load (PHI bkt idx)) Q F s.
Proof. intros Hl Hr HQ. unfold wp, load. now rewrite Hl, Hr. Qed.

Lemma alter_chain (f : page_hotness_info -> page_hotness_info)
    (t : list (list page_hotness_info)) b idx l r :
  t !! b = Some l -> l !! idx = Some r ->
  alter (alter f idx) b t = <[b := <[idx := f r]> l]> t.
Proof.
  intros Hl Hr. apply list_eq. intros i.
  destruct (decide (i = b)) as [->|Hne].
  - rewrite list_lookup_alter_eq, Hl. simpl.
    rewrite list_lookup_insert_eq by (now apply lookup_lt_Some in Hl).
    f_equal. apply list_eq. intros j.
    destruct (decide (j = idx)) as [->|Hne].
    + rewrite list_lookup_alter_eq, Hr. simpl.
      now rewrite list_lookup_insert_eq by (now apply lookup_lt_Some in Hr).
    + now rewrite list_lookup_alter_ne, list_lookup_insert_ne by done.
  - now rewrite list_lookup_alter_ne, list_lookup_insert_ne by done.
Qed.

Lemma wp_store bkt idx f l r Q F s :
  page_hotness_hash s !! Z.to_nat bkt = Some l -> l !! idx = Some r ->
  Q tt (set_table (<[Z.to_nat bkt := <[idx := f r]> l]> (page_hotness_hash s)) s) ->
  wp (store (PHI bkt idx) f) Q F s.
Proof.
  intros Hl Hr HQ. unfold store. apply wp_bind.
  eapply wp_load; [exact Hl|exact Hr|].
  unfold wp. now rewrite (alter_chain f _ _ _ _ _ Hl Hr).
Qed.

Lemma wp_add_head phi bkt l Q F s :
  0 <= bkt -> page_hotness_hash s !! Z.to_nat bkt = Some l ->
  Q tt (set_table (<[Z.to_nat bkt := phi :: l]> (page_hotness_hash s)) s) ->
  wp (hlist_add_head phi bkt) Q F s.
Proof.
  intros Hb Hl HQ. unfold hlist_add_head. apply wp_bind.
  eapply wp_chain; [exact Hb|exact Hl|].
  unfold wp.
  replace (alter (cons phi) (Z.to_nat bkt) (page_hotness_hash s))
    with (<[Z.to_nat bkt := phi :: l]> (page_hotness_hash s)); [exact HQ|].
  apply list_eq. intros i. destruct (decide (i = Z.to_nat bkt)) as [->|Hne].
  - rewrite list_lookup_alter_eq, Hl. simpl.
    now rewrite list_lookup_insert_eq by (now apply lookup_lt_Some in Hl).
  - now rewrite list_lookup_alter_ne, list_lookup_insert_ne by done.
Qed.

(** *** [kpromoted_record_access], case by case *)

Lemma wp_src_switch cfg src Q F s :
  Q tt (counted (src_events cfg src) s) ->
  wp (if src =? KPROMOTED_HW_HINTS cfg
      then count_vm_event KPROMOTED_RECORD_HWHINTS
      else if src =? KPROMOTED_PGTABLE_SCAN cfg
      then count_vm_event KPROMOTED_RECORD_PGTSCANS
      else ret tt) Q F s.
Proof.
  unfold src_events. repeat case_match; intros HQ; try exact HQ.
  unfold wp, ret. now rewrite counted_nil in HQ.
Qed.

Ltac kstate_eq :=
  unfold counted, set_table, set_held;
  cbn [page_hotness_hash held vm_events migrate_log];
  repeat rewrite <- app_assoc; cbn [app]; try reflexivity.

(** The access is filtered out: nothing but counters changes. *)
Lemma record_access_filtered cfg e pfn_ nid src now s :
  ~ recordable e pfn_ ->
  exists evs,
    kpromoted_record_access cfg e pfn_ nid src now s = Ret 0 (counted evs s).
Proof.
  intros Hno. unfold kpromoted_record_access.
  destruct (node_is_toptier e (pfn_to_nid e pfn_)) eqn:Htop.
  { eexists. apply wp_ret_inv.
    do 2 (apply wp_bind; first [apply wp_count | apply wp_src_switch]).
    apply wp_bind, wp_count, wp_ret. split; [reflexivity|]. kstate_eq. }
  destruct (pfn_to_online_page e pfn_) as [pg|] eqn:Hpg.
  2:{ eexists. apply wp_ret_inv.
      do 2 (apply wp_bind; first [apply wp_count | apply wp_src_switch]).
      apply wp_ret. split; [reflexivity|]. kstate_eq. }
  destruct (is_zone_device_page pg) eqn:Hdev.
  { eexists. apply wp_ret_inv.
    do 2 (apply wp_bind; first [apply wp_count | apply wp_src_switch]).
    apply wp_ret. split; [reflexivity|]. kstate_eq. }
  destruct (folio_test_lru pg) eqn:Hlru.
  { exfalso. apply Hno. split; [done|]. exists pg. done. }
  eexists. apply wp_ret_inv.
  do 2 (apply wp_bind; first [apply wp_count | apply wp_src_switch]).
  apply wp_ret. split; [reflexivity|]. kstate_eq.
Qed.

Lemma wp_lookup_raw pfn_ bkt l Q F s :
  0 <= bkt -> page_hotness_hash s !! Z.to_nat bkt = Some l ->
  Q (match list_find (fun phi => pfn phi = pfn_) l with
     | Some (idx, _) => PHI bkt idx
     | None => NULL
     end) s ->
  wp (__kpromoted_lookup pfn_ bkt) Q F s.
Proof.
  intros Hb Hl HQ. unfold __kpromoted_lookup. apply wp_bind.
  eapply wp_chain; [exact Hb|exact Hl|].
  destruct (list_find _ l) as [[idx r]|]; exact HQ.
Qed.

Ltac pass_filters Hrec :=
  let Htop := fresh "Htop" in
  let pg := fresh "pg" in
  let Hpg := fresh "Hpg" in
  let Hdev := fresh "Hdev" in
  let Hlru := fresh "Hlru" in
  destruct Hrec as (Htop & pg & Hpg & Hdev & Hlru);
  unfold kpromoted_record_access;
  rewrite Htop, Hpg, Hdev, Hlru; cbn [negb].

(** The page has a record: it is updated in place. *)
Lemma record_access_hit cfg e pfn_ nid src now s l idx r :
  recordable e pfn_ ->
  0 <= hash_min cfg pfn_ ->
  page_hotness_hash s !! Z.to_nat (hash_min cfg pfn_) = Some l ->
  list_find (fun phi => pfn phi = pfn_) l = Some (idx, r) ->
  kpromoted_record_access cfg e pfn_ nid src now s
  = Ret 0
      (mk_kstate
         (<[Z.to_nat (hash_min cfg pfn_) := <[idx := touch cfg nid now r]> l]>
            (page_hotness_hash s))
         (filter (fun b => b <> hash_min cfg pfn_) (hash_min cfg pfn_ :: held s))
         (vm_events s ++ KPROMOTED_RECORDED_ACCESSES :: src_events cfg src
            ++ [KPROMOTED_RECORD_EXISTS])
         (migrate_log s)).
Proof.
  intros Hrec Hb Hl Hfind. pass_filters Hrec.
  set (bkt := hash_min cfg pfn_) in *.
  assert (Hidx : l !! idx = Some r) by (apply list_find_Some in Hfind; tauto).
  assert (Hlt : (Z.to_nat bkt < length (page_hotness_hash s))%nat)
    by (now apply lookup_lt_Some in Hl).
  assert (Hilt : (idx < length l)%nat) by (now apply lookup_lt_Some in Hidx).
  apply wp_ret_inv.
  apply wp_bind, wp_count. apply wp_bind, wp_src_switch.
  apply wp_bind, wp_lock. apply wp_bind.
  unfold kpromoted_lookup. apply wp_bind.
  eapply wp_lookup_raw; [exact Hb|exact Hl|]. rewrite Hfind. cbn [is_null].
  apply wp_bind, wp_count, wp_ret. cbn [is_null].
  apply wp_bind. eapply wp_load; [exact Hl|exact Hidx|].
  apply wp_bind.
  cbn [page_hotness_hash counted set_held set_table].
  unfold touch.
  destruct (freq_window cfg <? u64 (last_update r - now)).
  - apply wp_bind. eapply wp_store; [exact Hl|exact Hidx|].
    eapply wp_store.
    { cbn [page_hotness_hash set_table counted set_held]. now apply list_lookup_insert_eq. }
    { now apply list_lookup_insert_eq. }
    apply wp_bind. eapply wp_store.
    { cbn [page_hotness_hash set_table counted set_held]. rewrite ?list_insert_insert_eq. now apply list_lookup_insert_eq. }
    { rewrite ?list_insert_insert_eq. now apply list_lookup_insert_eq. }
    apply wp_bind. eapply wp_store.
    { cbn [page_hotness_hash set_table counted set_held]. rewrite ?list_insert_insert_eq. now apply list_lookup_insert_eq. }
    { rewrite ?list_insert_insert_eq. now apply list_lookup_insert_eq. }
    apply wp_bind, wp_unlock, wp_ret. split; [reflexivity|].
    kstate_eq. now rewrite !list_insert_insert_eq.
  - eapply wp_store; [exact Hl|exact Hidx|].
    apply wp_bind. eapply wp_store.
    { cbn [page_hotness_hash set_table counted set_held]. now apply list_lookup_insert_eq. }
    { now apply list_lookup_insert_eq. }
    apply wp_bind. eapply wp_store.
    { cbn [page_hotness_hash set_table counted set_held]. rewrite ?list_insert_insert_eq. now apply list_lookup_insert_eq. }
    { rewrite ?list_insert_insert_eq. now apply list_lookup_insert_eq. }
    apply wp_bind, wp_unlock, wp_ret. split; [reflexivity|].
    kstate_eq. now rewrite !list_insert_insert_eq.
Qed.

(** The page has no record and [kzalloc] succeeds: a record is put at the
    head of the chain, and then goes through the same update. *)
Ltac table_lookup :=
  cbn [page_hotness_hash set_table counted set_held];
  rewrite ?list_insert_insert_eq;
  rewrite list_lookup_insert_eq by (rewrite ?length_insert; assumption);
  reflexivity.

Lemma record_access_miss cfg e pfn_ nid src now s l :
  recordable e pfn_ ->
  0 <= hash_min cfg pfn_ ->
  page_hotness_hash s !! Z.to_nat (hash_min cfg pfn_) = Some l ->
  list_find (fun phi => pfn phi = pfn_) l = None ->
  kzalloc_ok e = true ->
  kpromoted_record_access cfg e pfn_ nid src now s
  = Ret 0
      (mk_kstate
         (<[Z.to_nat (hash_min cfg pfn_) :=
              touch cfg nid now (mk_phi pfn_ now 1 now 0) :: l]>
            (page_hotness_hash s))
         (filter (fun b => b <> hash_min cfg pfn_) (hash_min cfg pfn_ :: held s))
         (vm_events s ++ KPROMOTED_RECORDED_ACCESSES :: src_events cfg src
            ++ [KPROMOTED_RECORD_ADDED])
         (migrate_log s)).
Proof.
  intros Hrec Hb Hl Hfind Halloc. pass_filters Hrec.
  set (bkt := hash_min cfg pfn_) in *.
  assert (Hlt : (Z.to_nat bkt < length (page_hotness_hash s))%nat)
    by (now apply lookup_lt_Some in Hl).
  apply wp_ret_inv.
  apply wp_bind, wp_count. apply wp_bind, wp_src_switch.
  apply wp_bind, wp_lock. apply wp_bind.
  unfold kpromoted_lookup. apply wp_bind.
  eapply wp_lookup_raw; [exact Hb|exact Hl|]. rewrite Hfind. cbn [is_null].
  rewrite Halloc.
  apply wp_bind. eapply wp_add_head; [exact Hb|exact Hl|].
  apply wp_bind, wp_count, wp_ret. cbn [is_null].
  cbn [page_hotness_hash counted set_held set_table].
  set (new := mk_phi pfn_ now 1 now 0).
  apply wp_bind. eapply (wp_load _ _ (new :: l) new);
    [table_lookup|reflexivity|].
  apply wp_bind. unfold touch.
  destruct (freq_window cfg <? u64 (last_update new - now)).
  - apply wp_bind. eapply (wp_store _ _ _ (new :: l) new);
      [table_lookup|reflexivity|].
    cbn [page_hotness_hash set_table].
    eapply wp_store;
      [table_lookup|reflexivity|].
    cbn [page_hotness_hash set_table].
    apply wp_bind. eapply wp_store;
      [table_lookup|reflexivity|].
    cbn [page_hotness_hash set_table].
    apply wp_bind. eapply wp_store;
      [table_lookup|reflexivity|].
    cbn [page_hotness_hash set_table].
    apply wp_bind, wp_unlock, wp_ret. split; [reflexivity|].
    kstate_eq. rewrite ?list_insert_insert_eq. reflexivity.
  - eapply (wp_store _ _ _ (new :: l) new);
      [table_lookup|reflexivity|].
    cbn [page_hotness_hash set_table].
    apply wp_bind. eapply wp_store;
      [table_lookup|reflexivity|].
    cbn [page_hotness_hash set_table].
    apply wp_bind. eapply wp_store;
      [table_lookup|reflexivity|].
    cbn [page_hotness_hash set_table].
    apply wp_bind, wp_unlock, wp_ret. split; [reflexivity|].
    kstate_eq. rewrite ?list_insert_insert_eq. reflexivity.
Qed.

(** The page has no record and [kzalloc] fails: [kpromoted_lookup] returns
    [ERR_PTR(-ENOMEM)], which is not the null pointer that
    [kpromoted_record_access] tests for, and the read of [phi->last_update]
    through it is an invalid access, made with the bucket mutex held. *)
Lemma record_access_enomem cfg e pfn_ nid src now s l :
  recordable e pfn_ ->
  0 <= hash_min cfg pfn_ ->
  page_hotness_hash s !! Z.to_nat (hash_min cfg pfn_) = Some l ->
  list_find (fun phi => pfn phi = pfn_) l = None ->
  kzalloc_ok e = false ->
  kpromoted_record_access cfg e pfn_ nid src now s
  = Oops
      (mk_kstate (page_hotness_hash s) (hash_min cfg pfn_ :: held s)
         (vm_events s ++ KPROMOTED_RECORDED_ACCESSES :: src_events cfg src)
         (migrate_log s)).
Proof.
  intros Hrec Hb Hl Hfind Halloc. pass_filters Hrec.
  set (bkt := hash_min cfg pfn_) in *.
  apply wp_oops_inv.
  apply wp_bind, wp_count. apply wp_bind, wp_src_switch.
  apply wp_bind, wp_lock. apply wp_bind.
  unfold kpromoted_lookup. apply wp_bind.
  eapply wp_lookup_raw; [exact Hb|exact Hl|]. rewrite Hfind. cbn [is_null].
  rewrite Halloc. apply wp_ret. cbn [is_null].
  unfold wp, bind, load. kstate_eq.
Qed.

(** *** The promotion decision *)

(** [page_should_be_promoted] only counts: its return value and the
    counter it bumps do not depend on the state. *)
Lemma page_should_be_promoted_uniform cfg e phi :
  exists b evs, forall s,
    page_should_be_promoted cfg e phi s = Ret b (counted evs s).
Proof.
  unfold page_should_be_promoted.
  destruct (pfn_to_online_page e (pfn phi)) as [pg|];
    [|exists false, []; intros s; now rewrite counted_nil].
  repeat case_match;
    try (exists false, []; intros s0; now rewrite counted_nil);
    try (exists true, []; intros s0; now rewrite counted_nil);
    eexists false, [_]; intros s0; reflexivity.
Qed.

Lemma page_should_be_promoted_counts cfg e phi :
  exists evs, forall s,
    page_should_be_promoted cfg e phi s
    = Ret (promotes cfg e phi) (counted evs s).
Proof.
  destruct (page_should_be_promoted_uniform cfg e phi) as (b & evs & H).
  exists evs. intros s. unfold promotes. now rewrite (H no_state), (H s).
Qed.

(** *** One sweep *)

Lemma bumped_nil s : bumped [] [] s = s.
Proof. destruct s. unfold bumped; simpl. now rewrite !app_nil_r. Qed.

Lemma bumped_bumped evs1 cs1 evs2 cs2 s :
  bumped evs2 cs2 (bumped evs1 cs1 s) = bumped (evs1 ++ evs2) (cs1 ++ cs2) s.
Proof. unfold bumped; simpl. now rewrite !app_assoc. Qed.

Lemma counted_bumped evs s : counted evs s = bumped evs [] s.
Proof. destruct s. unfold counted, bumped; simpl. now rewrite app_nil_r. Qed.

(** [kpromote_page] only makes calls. *)
Lemma kpromote_page_calls e phi s :
  kpromote_page e phi s
  = Ret (promote_ret e phi) (bumped [] (promote_calls e phi) s).
Proof.
  unfold promote_ret, promote_calls, kpromote_page.
  destruct (pfn_to_page e (pfn phi)); [|unfold ret; now rewrite bumped_nil].
  unfold bind, log_call, ret; simpl.
  destruct (migrate_misplaced_folio_prepare e (pfn phi) (hot_node phi) =? 0);
    simpl; unfold bumped; simpl; rewrite ?app_nil_r, <- ?app_assoc; reflexivity.
Qed.

Lemma wp_should_promote cfg e phi Q F s :
  (forall evs, Q (promotes cfg e phi) (counted evs s)) ->
  wp (page_should_be_promoted cfg e phi) Q F s.
Proof.
  intros HQ. destruct (page_should_be_promoted_counts cfg e phi) as (evs & H).
  eapply wp_eq; [apply H|apply HQ].
Qed.

Lemma wp_kpromote_page e phi Q F s :
  Q (promote_ret e phi) (bumped [] (promote_calls e phi) s) ->
  wp (kpromote_page e phi) Q F s.
Proof. intros HQ. eapply wp_eq; [apply kpromote_page_calls|apply HQ]. Qed.

(** [s'] is [s] but for the counters, with the calls [cs] made since. *)
Definition after_calls (s : kstate) (cs : list migrate_call) (s' : kstate)
  : Prop :=
  page_hotness_hash s' = page_hotness_hash s /\
  held s' = held s /\
  migrate_log s' = migrate_log s ++ cs.

(** The loop body of [kpromoted_migrate] over one chain: the records it
    keeps, and the calls it makes. *)
Lemma sweep_chain_spec cfg e nid l : forall s,
  wp (sweep_chain cfg e nid l)
     (fun l' s' => l' = filter (fun phi => keeps cfg e nid phi) l /\
                   after_calls s (sweep_calls cfg e nid l) s')
     (fun _ => False) s.
Proof.
  induction l as [|phi l IH]; intros s.
  - apply wp_ret. unfold after_calls; cbn. now rewrite app_nil_r.
  - cbn [sweep_chain]. apply wp_bind.
    assert (Htail : forall keep s1,
      keep = keeps cfg e nid phi ->
      after_calls s (if candidate cfg e nid phi
                     then promote_calls e phi else []) s1 ->
      wp (do tl' <- sweep_chain cfg e nid l;
          ret (if keep then phi :: tl' else tl'))
        (fun l' s' =>
           l' = filter (fun phi => keeps cfg e nid phi) (phi :: l) /\
           after_calls s (sweep_calls cfg e nid (phi :: l)) s')
        (fun _ => False) s1).
    { intros keep s1 -> (Ht & Hh & Hlog). apply wp_bind.
      eapply wp_mono; [apply IH| |done].
      intros l' s' (-> & Ht' & Hh' & Hlog'). apply wp_ret. split.
      - destruct (keeps cfg e nid phi) eqn:Hk.
        + now rewrite filter_cons_True by (rewrite Hk; exact I).
        + now rewrite filter_cons_False by (rewrite Hk; simpl; tauto).
      - unfold after_calls. rewrite Ht', Hh', Hlog', Ht, Hh, Hlog.
        cbn [sweep_calls flat_map]. now rewrite app_assoc. }
    unfold keeps, candidate in *.
    destruct (hot_node phi =? nid) eqn:Hn; cbn [negb andb orb] in *.
    + apply wp_bind, wp_should_promote. intros evs.
      destruct (promotes cfg e phi) eqn:Hpr; cbn [negb andb orb] in *.
      * apply wp_bind, wp_count. apply wp_bind, wp_kpromote_page.
        destruct (promote_ret e phi =? 0) eqn:Hr.
        -- apply wp_bind, wp_count, wp_ret. apply (Htail false); [done|].
           unfold after_calls; cbn. done.
        -- apply wp_ret. apply (Htail true); [done|].
           unfold after_calls; cbn. done.
      * apply wp_bind, wp_count, wp_ret. apply (Htail false); [done|].
        unfold after_calls; cbn. now rewrite app_nil_r.
    + apply wp_ret. apply (Htail true); [done|].
      unfold after_calls; cbn. now rewrite app_nil_r.
Qed.

Lemma sweep_calls_app cfg e nid l1 l2 :
  sweep_calls cfg e nid (l1 ++ l2)
  = sweep_calls cfg e nid l1 ++ sweep_calls cfg e nid l2.
Proof. unfold sweep_calls. apply flat_map_app. Qed.

(** [s'] is [s] after a pass over some buckets, each locked and unlocked. *)
Definition after_pass (s : kstate) (cs : list migrate_call) (s' : kstate)
  : Prop :=
  page_hotness_hash s' = page_hotness_hash s /\
  (held s = [] -> held s' = []) /\
  migrate_log s' = migrate_log s ++ cs.

Lemma sweep_buckets_spec cfg e nid t : forall bkt s,
  wp (sweep_buckets cfg e nid bkt t)
     (fun t' s' => t' = filter (fun phi => keeps cfg e nid phi) <$> t /\
                   after_pass s (sweep_calls cfg e nid (concat t)) s')
     (fun _ => False) s.
Proof.
  induction t as [|l t IH]; intros bkt s.
  - apply wp_ret. unfold after_pass; cbn. now rewrite app_nil_r.
  - cbn [sweep_buckets]. apply wp_bind, wp_lock. apply wp_bind.
    eapply wp_mono; [apply sweep_chain_spec| |done].
    intros l' s1 (-> & Ht1 & Hh1 & Hlog1). cbn in Ht1, Hh1, Hlog1.
    apply wp_bind, wp_unlock. apply wp_bind.
    eapply wp_mono; [apply IH| |done].
    intros t' s2 (-> & Ht2 & Hh2 & Hlog2). cbn in Ht2, Hh2, Hlog2.
    apply wp_ret. split; [reflexivity|].
    unfold after_pass. rewrite Ht2, Ht1, Hlog2, Hlog1.
    split; [reflexivity|]. split.
    + intros H0. apply Hh2. rewrite Hh1, H0.
      rewrite filter_cons_False by tauto. reflexivity.
    + cbn [concat]. now rewrite sweep_calls_app, app_assoc.
Qed.

(** [kpromoted_migrate] in one piece: it returns; every chain keeps the
    records [keeps] says, all mutexes are released, and the calls made are
    those of the candidates, in table order. *)
Lemma kpromoted_migrate_spec cfg e nid s :
  exists s',
    kpromoted_migrate cfg e nid s = Ret tt s' /\
    page_hotness_hash s'
      = (filter (fun phi => keeps cfg e nid phi) <$> page_hotness_hash s) /\
    (held s = [] -> held s' = []) /\
    migrate_log s' = migrate_log s ++ sweep_calls cfg e nid (records s).
Proof.
  pose proof (sweep_buckets_spec cfg e nid (page_hotness_hash s) 0 s) as H.
  unfold wp in H. unfold kpromoted_migrate.
  destruct (sweep_buckets cfg e nid 0 (page_hotness_hash s) s)
    as [t s1|]; [|done].
  destruct H as (-> & Ht & Hh & Hlog).
  eexists. split; [reflexivity|]. cbn. auto.
Qed.

(** *** One record per page *)

Lemma chains_ok_init cfg : chains_ok cfg (page_hotness_hash (kstate_init cfg)).
Proof.
  intros b l Hl. cbn in Hl. apply lookup_replicate in Hl as [-> _].
  split; [constructor|]. intros phi Hphi. now apply elem_of_nil in Hphi.
Qed.

Lemma chains_unique_from cfg t : forall k : nat,
  (forall (b : nat) l, t !! b = Some l ->
     NoDup (pfn <$> l) /\
     forall phi, phi ∈ l -> hash_min cfg (pfn phi) = Z.of_nat (k + b)) ->
  NoDup (pfn <$> concat t) /\
  forall phi, phi ∈ concat t -> Z.of_nat k <= hash_min cfg (pfn phi).
Proof.
  induction t as [|l t IH]; intros k H.
  - cbn. split; [constructor|]. intros phi Hphi. now apply elem_of_nil in Hphi.
  - destruct (H 0%nat l eq_refl) as (Hnd & Hh).
    destruct (IH (S k)) as (IHnd & IHh).
    { intros b l' Hl'. destruct (H (S b) l' Hl') as (? & Hb). split; [done|].
      intros phi Hphi. rewrite (Hb phi Hphi). lia. }
    cbn [concat]. split.
    + rewrite fmap_app. apply NoDup_app. split; [done|]. split; [|done].
      intros p (phi1 & -> & Hphi1)%list_elem_of_fmap
               (phi2 & Heq & Hphi2)%list_elem_of_fmap.
      specialize (Hh phi1 Hphi1). specialize (IHh phi2 Hphi2).
      rewrite Heq in Hh. lia.
    + intros phi [Hphi|Hphi]%elem_of_app.
      * rewrite (Hh phi Hphi). lia.
      * specialize (IHh phi Hphi). lia.
Qed.

Lemma chains_ok_unique cfg s :
  chains_ok cfg (page_hotness_hash s) -> unique_pfn s.
Proof. intros H. now apply (chains_unique_from cfg _ 0%nat). Qed.

Lemma chains_ok_hit cfg t b l idx r r' :
  chains_ok cfg t -> t !! b = Some l -> l !! idx = Some r -> pfn r' = pfn r ->
  chains_ok cfg (<[b := <[idx := r']> l]> t).
Proof.
  intros Hok Hl Hr Hpfn b' l' Hl'.
  destruct (decide (b' = b)) as [->|Hne].
  - rewrite list_lookup_insert_eq in Hl' by (now apply lookup_lt_Some in Hl).
    injection Hl' as <-. destruct (Hok b l Hl) as (Hnd & Hh). split.
    + rewrite list_fmap_insert, Hpfn.
      rewrite list_insert_id; [done|]. now rewrite list_lookup_fmap, Hr.
    + intros phi Hphi. apply list_elem_of_lookup in Hphi as (j & Hj).
      destruct (decide (j = idx)) as [->|Hji].
      * rewrite list_lookup_insert_eq in Hj by (now apply lookup_lt_Some in Hr).
        injection Hj as <-. rewrite Hpfn. apply Hh.
        apply list_elem_of_lookup. eauto.
      * rewrite list_lookup_insert_ne in Hj by done.
        apply Hh. apply list_elem_of_lookup. eauto.
  - rewrite list_lookup_insert_ne in Hl' by done. now apply Hok.
Qed.

Lemma chains_ok_miss cfg t bkt l new :
  chains_ok cfg t -> 0 <= bkt -> t !! Z.to_nat bkt = Some l ->
  hash_min cfg (pfn new) = bkt ->
  list_find (fun phi => pfn phi = pfn new) l = None ->
  chains_ok cfg (<[Z.to_nat bkt := new :: l]> t).
Proof.
  intros Hok Hb Hl Hhash Hfind b' l' Hl'.
  destruct (decide (b' = Z.to_nat bkt)) as [->|Hne].
  - rewrite list_lookup_insert_eq in Hl' by (now apply lookup_lt_Some in Hl).
    injection Hl' as <-. destruct (Hok _ l Hl) as (Hnd & Hh). split.
    + rewrite fmap_cons. constructor; [|done].
      intros (phi & Heq & Hphi)%list_elem_of_fmap.
      apply list_find_None in Hfind.
      rewrite Forall_forall in Hfind. now apply (Hfind phi Hphi).
    + intros phi [->|Hphi]%elem_of_cons; [lia|now apply Hh].
  - rewrite list_lookup_insert_ne in Hl' by done. now apply Hok.
Qed.

Lemma chains_ok_filter cfg t (P : page_hotness_info -> Prop)
    `{!forall x, Decision (P x)} :
  chains_ok cfg t -> chains_ok cfg (filter P <$> t).
Proof.
  intros Hok b l' Hl'. rewrite list_lookup_fmap in Hl'.
  destruct (t !! b) as [l|] eqn:Hl; [|done]. injection Hl' as <-.
  destruct (Hok b l Hl) as (Hnd & Hh). split.
  - eapply sublist_NoDup; [exact Hnd|]. apply fmap_sublist, sublist_filter.
  - intros phi (_ & Hphi)%list_elem_of_filter. now apply Hh.
Qed.

Lemma touch_pfn cfg nid now r : pfn (touch cfg nid now r) = pfn r.
Proof. unfold touch. repeat case_match; reflexivity. Qed.

Lemma recordable_dec e pfn_ : recordable e pfn_ \/ ~ recordable e pfn_.
Proof.
  unfold recordable, eligible.
  destruct (node_is_toptier e (pfn_to_nid e pfn_)); [right; intros []; done|].
  destruct (pfn_to_online_page e pfn_) as [pg|];
    [|right; intros (_ & pg & ? & _); done].
  destruct (is_zone_device_page pg) eqn:Hdev;
    [right; intros (_ & pg' & [= <-] & ? & _); congruence|].
  destruct (folio_test_lru pg) eqn:Hlru;
    [|right; intros (_ & pg' & [= <-] & _ & ?); congruence].
  left. split; [done|]. now exists pg.
Qed.

(** The hash points outside the array: the access to the chain is invalid. *)
Lemma record_access_bad_bucket cfg e pfn_ nid src now s :
  recordable e pfn_ ->
  hash_min cfg pfn_ < 0 \/
    page_hotness_hash s !! Z.to_nat (hash_min cfg pfn_) = None ->
  exists s', kpromoted_record_access cfg e pfn_ nid src now s = Oops s' /\
             page_hotness_hash s' = page_hotness_hash s.
Proof.
  intros Hrec Hbad. pass_filters Hrec.
  eexists. split.
  - apply wp_oops_inv.
    apply wp_bind, wp_count. apply wp_bind, wp_src_switch.
    apply wp_bind, wp_lock. apply wp_bind.
    unfold kpromoted_lookup, __kpromoted_lookup. apply wp_bind, wp_bind.
    unfold wp, chain. cbn [page_hotness_hash counted set_held].
    destruct Hbad as [Hneg|Hnone].
    + apply Z.ltb_lt in Hneg. rewrite Hneg. reflexivity.
    + rewrite Hnone. now destruct (_ <? 0).
  - reflexivity.
Qed.

(** What [kpromoted_record_access] can do to the table: nothing, update
    the record of the page in place, or put a new record at the head of the
    chain of a page that has none. *)
Lemma record_access_table cfg e pfn_ nid src now s :
  let s' := state_of (kpromoted_record_access cfg e pfn_ nid src now s) in
  let b := Z.to_nat (hash_min cfg pfn_) in
  page_hotness_hash s' = page_hotness_hash s \/
  (exists l idx r,
      page_hotness_hash s !! b = Some l /\ l !! idx = Some r /\ pfn r = pfn_ /\
      page_hotness_hash s'
        = <[b := <[idx := touch cfg nid now r]> l]> (page_hotness_hash s)) \/
  (exists l,
      0 <= hash_min cfg pfn_ /\
      page_hotness_hash s !! b = Some l /\
      list_find (fun phi => pfn phi = pfn_) l = None /\
      page_hotness_hash s'
        = <[b := touch cfg nid now (mk_phi pfn_ now 1 now 0) :: l]>
            (page_hotness_hash s)).
Proof.
  intros s' b. subst s'.
  destruct (recordable_dec e pfn_) as [Hrec|Hno].
  2:{ destruct (record_access_filtered cfg e pfn_ nid src now s Hno)
        as (evs & ->). now left. }
  destruct (decide (hash_min cfg pfn_ < 0)) as [Hneg|Hpos].
  { destruct (record_access_bad_bucket cfg e pfn_ nid src now s Hrec)
      as (s' & -> & Ht); [now left|now left]. }
  destruct (page_hotness_hash s !! b) as [l|] eqn:Hl.
  2:{ destruct (record_access_bad_bucket cfg e pfn_ nid src now s Hrec)
        as (s' & -> & Ht); [now right|now left]. }
  destruct (list_find (fun phi => pfn phi = pfn_) l) as [[idx r]|] eqn:Hfind.
  - right; left. exists l, idx, r.
    rewrite (record_access_hit cfg e pfn_ nid src now s l idx r)
      by (done || lia).
    apply list_find_Some in Hfind as (Hidx & Hp & _). done.
  - destruct (kzalloc_ok e) eqn:Halloc.
    + right; right. exists l.
      rewrite (record_access_miss cfg e pfn_ nid src now s l)
        by (done || lia).
      split; [lia|done].
    + left.
      now rewrite (record_access_enomem cfg e pfn_ nid src now s l)
        by (done || lia).
Qed.

Lemma record_access_chains_ok cfg e pfn_ nid src now s :
  chains_ok cfg (page_hotness_hash s) ->
  chains_ok cfg (page_hotness_hash
    (state_of (kpromoted_record_access cfg e pfn_ nid src now s))).
Proof.
  intros Hok.
  destruct (record_access_table cfg e pfn_ nid src now s)
    as [->|[(l & idx & r & Hl & Hr & Hp & ->)|(l & Hb & Hl & Hfind & ->)]].
  - exact Hok.
  - eapply chains_ok_hit; [exact Hok|exact Hl|exact Hr|apply touch_pfn].
  - apply chains_ok_miss; [exact Hok|exact Hb|exact Hl| |].
    + now rewrite touch_pfn.
    + now rewrite touch_pfn.
Qed.

Lemma migrate_chains_ok cfg e nid s :
  chains_ok cfg (page_hotness_hash s) ->
  chains_ok cfg (page_hotness_hash (state_of (kpromoted_migrate cfg e nid s))).
Proof.
  intros Hok.
  destruct (kpromoted_migrate_spec cfg e nid s) as (s' & Heq & Ht & _).
  rewrite Heq. cbn [state_of]. rewrite Ht. now apply chains_ok_filter.
Qed.

Lemma step_chains_ok cfg o s :
  chains_ok cfg (page_hotness_hash s) ->
  chains_ok cfg (page_hotness_hash (state_of (step cfg o s))).
Proof.
  intros Hok. destruct o as [e p nid src now|e nid]; cbn [step].
  - pose proof (record_access_chains_ok cfg e p nid src now s Hok) as H.
    unfold bind. now destruct (kpromoted_record_access cfg e p nid src now s).
  - now apply migrate_chains_ok.
Qed.

Lemma run_chains_ok cfg ops : forall s,
  chains_ok cfg (page_hotness_hash s) ->
  chains_ok cfg (page_hotness_hash (state_of (run cfg ops s))).
Proof.
  induction ops as [|o ops IH]; intros s Hok; [exact Hok|].
  cbn [run]. pose proof (step_chains_ok cfg o s Hok) as H.
  unfold bind. destruct (step cfg o s) as [[] s1|s1]; [|exact H].
  apply IH. exact H.
Qed.

Lemma elem_of_concat {A} (x : A) (t : list (list A)) :
  x ∈ concat t <-> exists (b : nat) l, t !! b = Some l /\ x ∈ l.
Proof.
  rewrite list_elem_of_In, in_concat. split.
  - intros (l & Hl & Hx). rewrite <- list_elem_of_In in Hl.
    rewrite <- list_elem_of_In in Hx.
    apply list_elem_of_lookup in Hl as (b & Hb). now exists b, l.
  - intros (b & l & Hb & Hx). exists l. rewrite <- !list_elem_of_In.
    split; [|done]. apply list_elem_of_lookup. eauto.
Qed.

Lemma concat_insert_pfn (t : list (list page_hotness_info)) : forall b l l',
  t !! b = Some l -> pfn <$> l' = pfn <$> l ->
  pfn <$> concat (<[b := l']> t) = pfn <$> concat t.
Proof.
  induction t as [|l0 t IH]; intros b l l' Hl Heq; [done|].
  destruct b as [|b]; cbn in Hl |- *.
  - injection Hl as ->. now rewrite !fmap_app, Heq.
  - rewrite !fmap_app. f_equal. eapply IH; eauto.
Qed.

Lemma record_access_existing cfg e pfn_ nid src now s :
  chains_ok cfg (page_hotness_hash s) ->
  (exists r, r ∈ records s /\ pfn r = pfn_) ->
  pfn <$> records (state_of (kpromoted_record_access cfg e pfn_ nid src now s))
  = pfn <$> records s.
Proof.
  intros Hok (r0 & Hr0 & Hp0). unfold records.
  destruct (record_access_table cfg e pfn_ nid src now s)
    as [->|[(l & idx & r & Hl & Hr & Hp & ->)|(l & Hb & Hl & Hfind & ->)]].
  - reflexivity.
  - eapply concat_insert_pfn; [exact Hl|].
    rewrite list_fmap_insert, touch_pfn.
    apply list_insert_id. now rewrite list_lookup_fmap, Hr.
  - exfalso. apply elem_of_concat in Hr0 as (b0 & l0 & Hl0 & Hin).
    destruct (Hok b0 l0 Hl0) as (_ & Hh). specialize (Hh r0 Hin).
    rewrite Hp0 in Hh.
    assert (b0 = Z.to_nat (hash_min cfg pfn_)) as -> by lia.
    rewrite Hl in Hl0. injection Hl0 as <-.
    apply list_find_None in Hfind. rewrite Forall_forall in Hfind.
    now apply (Hfind r0 Hin).
Qed.

(** C9: whatever accesses and sweeps have run since [kpromoted_init], the
    table holds at most one record per pfn; and a further
    [kpromoted_record_access] for a page that has a record leaves the list
    of tracked pages as it is, so a record is only ever created for a page
    that has none. *)
Theorem one_record_per_page cfg ops e pfn_ nid src now :
  let s := state_of (run cfg ops (kstate_init cfg)) in
  let s' := state_of (kpromoted_record_access cfg e pfn_ nid src now s) in
  unique_pfn s /\
  unique_pfn s' /\
  ((exists r, r ∈ records s /\ pfn r = pfn_) ->
   pfn <$> records s' = pfn <$> records s).
Proof.
  intros s s'.
  assert (Hok : chains_ok cfg (page_hotness_hash s))
    by apply run_chains_ok, chains_ok_init.
  split; [now apply (chains_ok_unique cfg)|]. split.
  - apply (chains_ok_unique cfg). now apply record_access_chains_ok.
  - now apply record_access_existing.
Qed.

(** *** What one sweep does to one record *)

Lemma filter_all {A} (P : A -> Prop) `{!forall x, Decision (P x)}
    (l : list A) :
  (forall x, x ∈ l -> P x) -> filter P l = l.
Proof.
  induction l as [|x l IH]; intros Hall; [done|].
  rewrite filter_cons_True by (apply Hall; left). f_equal. apply IH.
  intros y Hy. apply Hall. now right.
Qed.

Lemma filter_none {A} (P : A -> Prop) `{!forall x, Decision (P x)}
    (l : list A) :
  (forall x, x ∈ l -> ~ P x) -> filter P l = [].
Proof.
  induction l as [|x l IH]; intros Hall; [done|].
  rewrite filter_cons_False by (apply Hall; left). apply IH.
  intros y Hy. apply Hall. now right.
Qed.

Lemma concat_filter {A} (P : A -> Prop) `{!forall x, Decision (P x)}
    (t : list (list A)) :
  concat (filter P <$> t) = filter P (concat t).
Proof.
  induction t as [|l t IH]; [done|].
  cbn [concat]. rewrite fmap_cons. cbn [concat]. now rewrite filter_app, IH.
Qed.

(** The calls [kpromote_page] makes, spelled out. *)
Lemma promote_calls_shape e phi :
  is_Some (pfn_to_page e (pfn phi)) ->
  let prep := migrate_misplaced_folio_prepare e (pfn phi) (hot_node phi) in
  promote_calls e phi
    = Prepare (pfn phi) (hot_node phi)
      :: (if prep =? 0 then [Migrate (pfn phi) (hot_node phi)] else []) /\
  promote_ret e phi
    = if prep =? 0
      then migrate_misplaced_folio e (pfn phi) (hot_node phi) else 1.
Proof.
  intros [pg Hpg] prep. subst prep.
  unfold promote_calls, promote_ret, kpromote_page. rewrite Hpg.
  unfold bind, log_call, ret; cbn.
  destruct (migrate_misplaced_folio_prepare e (pfn phi) (hot_node phi) =? 0);
    cbn; done.
Qed.

Lemma promote_calls_pfn e phi c :
  c ∈ promote_calls e phi -> call_pfn c = pfn phi.
Proof.
  unfold promote_calls, kpromote_page.
  destruct (pfn_to_page e (pfn phi)); cbn; [|now intros ?%elem_of_nil].
  unfold bind, log_call, ret; cbn.
  destruct (migrate_misplaced_folio_prepare e (pfn phi) (hot_node phi) =? 0);
    cbn; intros Hc; repeat (apply elem_of_cons in Hc as [->|Hc]; [done|]);
    now apply elem_of_nil in Hc.
Qed.

Lemma sweep_calls_absent cfg e nid l p :
  p ∉ pfn <$> l ->
  filter (fun c => call_pfn c = p) (sweep_calls cfg e nid l) = [].
Proof.
  intros Hp. apply filter_none. intros c Hc Heq.
  unfold sweep_calls in Hc. rewrite list_elem_of_In in Hc.
  apply in_flat_map in Hc as (phi & Hphi & Hc).
  rewrite <- list_elem_of_In in Hphi. rewrite <- list_elem_of_In in Hc.
  destruct (candidate cfg e nid phi); [|now apply elem_of_nil in Hc].
  apply promote_calls_pfn in Hc. apply Hp.
  apply list_elem_of_fmap. exists phi. split; [congruence|done].
Qed.

(** With one record per page, the calls of a sweep that concern the page
    of [phi] are the calls made for [phi]. *)
Lemma sweep_calls_of cfg e nid l phi :
  NoDup (pfn <$> l) -> phi ∈ l ->
  filter (fun c => call_pfn c = pfn phi) (sweep_calls cfg e nid l)
  = if candidate cfg e nid phi then promote_calls e phi else [].
Proof.
  induction l as [|x l IH]; intros Hnd Hin; [now apply elem_of_nil in Hin|].
  rewrite fmap_cons in Hnd. apply NoDup_cons in Hnd as (Hx & Hnd).
  unfold sweep_calls in *. cbn [flat_map]. rewrite filter_app.
  apply elem_of_cons in Hin as [->|Hin].
  - fold (sweep_calls cfg e nid l).
    rewrite (sweep_calls_absent cfg e nid l (pfn x) Hx), app_nil_r.
    destruct (candidate cfg e nid x); [|done].
    apply filter_all. intros c Hc. now apply promote_calls_pfn in Hc.
  - rewrite IH by done.
    assert (Hne : pfn x <> pfn phi).
    { intros Heq. apply Hx. rewrite Heq. now apply list_elem_of_fmap_2. }
    rewrite filter_none; [done|].
    intros c Hc Heq. destruct (candidate cfg e nid x);
      [|now apply elem_of_nil in Hc].
    apply promote_calls_pfn in Hc. congruence.
Qed.

(** C3, on the code: page 4096 is hot on node 0 while it lives on node 2,
    the sweep of node 0 classifies its record PROMOTE and calls the
    migration, which fails with -EAGAIN; after the sweep the record is still
    in the table. *)
Lemma sweep_failed_migration_counterexample :
  let phi := mk_phi 4096 1000 2 1000 0 in
  let e := two_tier 1002 true (-11) in
  let s1 := state_of (kpromoted_record_access linux_config
                        (two_tier 1000 true 0) 4096 0 0 1000
                        (kstate_init linux_config)) in
  let s2 := state_of (kpromoted_migrate linux_config e 0 s1) in
  records s1 = [phi] /\
  promotes linux_config e phi = true /\
  migrate_log s2 = [Prepare 4096 0; Migrate 4096 0] /\
  records s2 = [phi].
Proof. vm_compute. done. Qed.

(** C3 (amended): one sweep of node [nid] returns, and for a record [phi]
    of that node:
    - classified PROMOTE, it makes for the page of [phi] exactly one call
      of [migrate_misplaced_folio_prepare] with target [nid], followed by
      exactly one call of [migrate_misplaced_folio] with target [nid] when
      the first returned 0, and no other call; the record is removed when
      and only when both returned 0, and stays in the table when the
      migration failed;
    - not classified PROMOTE, it makes no call for the page and removes the
      record. *)
Theorem sweep_outcome cfg e nid s phi :
  unique_pfn s -> phi ∈ records s -> hot_node phi = nid ->
  is_Some (pfn_to_page e (pfn phi)) ->
  exists s' new,
    kpromoted_migrate cfg e nid s = Ret tt s' /\
    migrate_log s' = migrate_log s ++ new /\
    let mine := filter (fun c => call_pfn c = pfn phi) new in
    let prep := migrate_misplaced_folio_prepare e (pfn phi) nid in
    if promotes cfg e phi then
      mine = Prepare (pfn phi) nid
             :: (if prep =? 0 then [Migrate (pfn phi) nid] else []) /\
      (phi ∉ records s' <->
         prep = 0 /\ migrate_misplaced_folio e (pfn phi) nid = 0)
    else
      mine = [] /\ phi ∉ records s'.
Proof.
  intros Huniq Hin Hnid Hpage. subst nid.
  destruct (kpromoted_migrate_spec cfg e (hot_node phi) s) as (s' & Hrun & Ht & _ & Hlog).
  exists s', (sweep_calls cfg e (hot_node phi) (records s)).
  split; [exact Hrun|]. split; [exact Hlog|].
  assert (Hrec : records s'
                 = filter (fun x => keeps cfg e (hot_node phi) x) (records s)).
  { unfold records. rewrite Ht. apply concat_filter. }
  cbv zeta. rewrite (sweep_calls_of cfg e (hot_node phi) (records s) phi Huniq Hin).
  destruct (promote_calls_shape e phi Hpage) as (Hcalls & Hret).
  unfold candidate. rewrite Z.eqb_refl. cbn [andb].
  destruct (promotes cfg e phi) eqn:Hpr.
  - split; [exact Hcalls|].
    rewrite Hrec, list_elem_of_filter. unfold keeps.
    rewrite Z.eqb_refl, Hpr. cbn [negb andb orb].
    rewrite Hret.
    destruct (migrate_misplaced_folio_prepare e (pfn phi) (hot_node phi) =? 0) eqn:Hprep.
    + apply Z.eqb_eq in Hprep.
      destruct (migrate_misplaced_folio e (pfn phi) (hot_node phi) =? 0) eqn:Hmig.
      * apply Z.eqb_eq in Hmig. cbn. split; [done|]. intros _ [[] _].
      * apply Z.eqb_neq in Hmig. cbn. split; [|tauto].
        intros H. exfalso. apply H. done.
    + apply Z.eqb_neq in Hprep. cbn. split; [|tauto].
      intros H. exfalso. apply H. done.
  - split; [done|].
    rewrite Hrec, list_elem_of_filter. unfold keeps.
    rewrite Z.eqb_refl, Hpr. cbn. tauto.
Qed.

Lemma sweep_outcome_witness :
  let phi := mk_phi 4096 1000 2 1000 0 in
  let e := two_tier 1002 true (-11) in
  let s := state_of (kpromoted_record_access linux_config
                       (two_tier 1000 true 0) 4096 0 0 1000
                       (kstate_init linux_config)) in
  exists s' new,
    kpromoted_migrate linux_config e 0 s = Ret tt s' /\
    migrate_log s' = migrate_log s ++ new /\
    filter (fun c => call_pfn c = 4096) new = [Prepare 4096 0; Migrate 4096 0] /\
    phi ∈ records s'.
Proof.
  intros phi e s.
  destruct (sweep_outcome linux_config e 0 s phi)
    as (s' & new & Hrun & Hlog & Hmine).
  - vm_compute. repeat constructor. intros H. inversion H.
  - vm_compute. constructor.
  - reflexivity.
  - vm_compute. eauto.
  - exists s', new. split; [exact Hrun|]. split; [exact Hlog|].
    change (promotes linux_config e phi) with true in Hmine.
    destruct Hmine as (Hmine & Hkeep). split; [exact Hmine|].
    destruct (decide (phi ∈ records s')) as [Hin|Hout]; [exact Hin|].
    apply Hkeep in Hout as (_ & Hmig). vm_compute in Hmig. discriminate.
Defined.

(** *** The window test of [kpromoted_record_access] *)

(** A record that has just been created is counted a second time. *)
Lemma touch_new cfg nid now pfn_ :
  0 <= freq_window cfg ->
  frequency (touch cfg nid now (mk_phi pfn_ now 1 now 0)) = 2.
Proof.
  intros Hw. unfold touch. cbn [last_update].
  rewrite Z.sub_diag. change (u64 0) with 0.
  destruct (freq_window cfg <? 0) eqn:E; [apply Z.ltb_lt in E; lia|].
  reflexivity.
Qed.

(** [phi->last_update - now] wraps for every access later than the start
    of the window, so such an access starts a new window. *)
Lemma touch_later cfg nid now r :
  0 <= last_update r < now -> now < 2 ^ 64 ->
  freq_window cfg < 2 ^ 64 - (now - last_update r) ->
  frequency (touch cfg nid now r) = 1 /\ last_update (touch cfg nid now r) = now.
Proof.
  intros Hlu Hnow Hw. unfold touch.
  assert (Hwrap : u64 (last_update r - now) = 2 ^ 64 - (now - last_update r)).
  { unfold u64.
    replace (last_update r - now)
      with (2 ^ 64 - (now - last_update r) + (-1) * 2 ^ 64) by lia.
    rewrite Z.mod_add by lia. apply Z.mod_small. lia. }
  rewrite Hwrap.
  destruct (freq_window cfg <? _) eqn:E; [done|apply Z.ltb_ge in E; lia].
Qed.

(** An access stamped with the start of the window is counted. *)
Lemma touch_same_jiffy cfg nid now r :
  0 <= freq_window cfg -> last_update r = now ->
  frequency (touch cfg nid now r) = s32 (frequency r + 1).
Proof.
  intros Hw Hlu. unfold touch. rewrite Hlu, Z.sub_diag. change (u64 0) with 0.
  destruct (freq_window cfg <? 0) eqn:E; [apply Z.ltb_lt in E; lia|].
  reflexivity.
Qed.

(** C1, on the code: the first access to page 4096, at jiffy 1000, leaves
    frequency 2 after one call; a second access one jiffy later, well
    inside the window of 1250 jiffies, resets it to 1 after two calls. *)
Lemma window_count_failing_input :
  let s1 := state_of (kpromoted_record_access linux_config
                        (two_tier 1000 true 0) 4096 0 0 1000
                        (kstate_init linux_config)) in
  let s2 := state_of (kpromoted_record_access linux_config
                        (two_tier 1001 true 0) 4096 0 0 1001 s1) in
  record_of s1 4096 = Some (mk_phi 4096 1000 2 1000 0) /\
  1001 - 1000 <= freq_window linux_config /\
  record_of s2 4096 = Some (mk_phi 4096 1001 1 1001 0).
Proof. vm_compute. split; [done|]. split; [discriminate|done]. Qed.

(** *** Allocation failure *)

(** C7, on the code: when the page has no record and [kzalloc] fails,
    [kpromoted_record_access] does not return: it stops in an invalid
    access through [ERR_PTR(-ENOMEM)].  The table is as before, the mutex
    of the bucket is still held, and the only counters bumped are those of
    every access. *)
Theorem alloc_failure_oops cfg e pfn_ nid src now s l :
  recordable e pfn_ ->
  0 <= hash_min cfg pfn_ ->
  page_hotness_hash s !! Z.to_nat (hash_min cfg pfn_) = Some l ->
  list_find (fun phi => pfn phi = pfn_) l = None ->
  kzalloc_ok e = false ->
  exists s',
    kpromoted_record_access cfg e pfn_ nid src now s = Oops s' /\
    page_hotness_hash s' = page_hotness_hash s /\
    hash_min cfg pfn_ ∈ held s' /\
    vm_events s'
      = vm_events s ++ KPROMOTED_RECORDED_ACCESSES :: src_events cfg src.
Proof.
  intros Hrec Hb Hl Hfind Halloc. eexists. split.
  - now apply (record_access_enomem cfg e pfn_ nid src now s l).
  - cbn. split; [done|]. split; [left|done].
Qed.

Lemma alloc_failure_oops_witness :
  let s := kstate_init linux_config in
  exists s',
    kpromoted_record_access linux_config (two_tier 1000 false 0)
      4096 0 0 1000 s = Oops s' /\
    page_hotness_hash s' = page_hotness_hash s /\
    hash_min linux_config 4096 ∈ held s' /\
    vm_events s'
      = vm_events s ++ KPROMOTED_RECORDED_ACCESSES :: src_events linux_config 0.
Proof.
  apply (alloc_failure_oops linux_config (two_tier 1000 false 0)
           4096 0 0 1000 (kstate_init linux_config) []).
  - split; [reflexivity|]. exists (mk_page false true 2). done.
  - vm_compute. discriminate.
  - vm_compute. reflexivity.
  - reflexivity.
  - reflexivity.
Defined.

(** Whenever [kpromoted_record_access] returns, it returns 0. *)
Lemma record_access_returns_zero cfg e pfn_ nid src now s v s' :
  kpromoted_record_access cfg e pfn_ nid src now s = Ret v s' -> v = 0.
Proof.
  intros H.
  assert (Hwp : wp (kpromoted_record_access cfg e pfn_ nid src now)
                  (fun v _ => v = 0) (fun _ => True) s).
  { unfold kpromoted_record_access.
    repeat first
      [ apply wp_ret; reflexivity
      | apply wp_bind_all; [intros ? ?|done]
      | case_match ]. }
  unfold wp in Hwp. now rewrite H in Hwp.
Qed.

(** C10, on the code: for a lower-tier page that is online and on the LRU
    and has no record, with [kzalloc] failing, [kpromoted_record_access]
    does not return 0: it does not return at all. *)
Lemma enomem_no_return v s' :
  kpromoted_record_access linux_config (two_tier 1000 false 0)
    4096 0 0 1000 (kstate_init linux_config) <> Ret v s'.
Proof.
  rewrite (record_access_enomem linux_config (two_tier 1000 false 0)
             4096 0 0 1000 (kstate_init linux_config) []).
  - discriminate.
  - split; [reflexivity|]. exists (mk_page false true 2). done.
  - vm_compute. discriminate.
  - vm_compute. reflexivity.
  - reflexivity.
  - reflexivity.
Qed.

(** C2: for a record whose page is online, not a device page and on the
    LRU, [page_should_be_promoted] decides PROMOTE exactly when the
    frequency has reached the threshold, the last update is at most two
    windows old and the page is not already on [hot_node]; a page already on
    [hot_node] is DROP_WRONG_TIER, and a stale or not hot enough one is
    DROP_COLD.  The function only bumps counters. *)
Theorem promote_policy cfg e phi s :
  eligible e (pfn phi) ->
  exists b evs,
    page_should_be_promoted cfg e phi s = Ret b (counted evs s) /\
    let d := decision_of b evs in
    (d = PROMOTE <->
       KPRMOTED_FREQ_THRESHOLD cfg <= frequency phi /\
       age e phi <= stale_after cfg /\
       current_tier e (pfn phi) <> Some (hot_node phi)) /\
    (d = PROMOTE \/ d = DROP_WRONG_TIER \/ d = DROP_COLD) /\
    (current_tier e (pfn phi) = Some (hot_node phi) -> d = DROP_WRONG_TIER) /\
    (current_tier e (pfn phi) <> Some (hot_node phi) ->
     stale_after cfg < age e phi \/
     frequency phi < KPRMOTED_FREQ_THRESHOLD cfg ->
     d = DROP_COLD).
Proof.
  intros (pg & Hpg & Hdev & Hlru).
  unfold page_should_be_promoted, current_tier, age, stale_after.
  rewrite Hpg, Hdev, Hlru. cbn [negb fmap option_fmap option_map].
  destruct (folio_nid pg =? hot_node phi) eqn:Hnid.
  { apply Z.eqb_eq in Hnid. rewrite Hnid.
    exists false, [KPROMOTED_MIG_RIGHT_NODE]. split; [reflexivity|].
    cbn. split; [split; [discriminate|intros (_ & _ & H); congruence]|].
    split; [auto|]. split; [auto|]. congruence. }
  apply Z.eqb_neq in Hnid.
  assert (Hne : Some (folio_nid pg) <> Some (hot_node phi)) by congruence.
  destruct (u64 (2 * freq_window cfg) <? u64 (jiffies e - last_update phi))
    eqn:Hold.
  { apply Z.ltb_lt in Hold.
    exists false, [KPROMOTED_MIG_COLD_OLD]. split; [reflexivity|].
    cbn. split; [split; [discriminate|intros (_ & H & _); lia]|].
    split; [auto|]. split; [congruence|auto]. }
  apply Z.ltb_ge in Hold.
  destruct (frequency phi <? KPRMOTED_FREQ_THRESHOLD cfg) eqn:Hfreq.
  { apply Z.ltb_lt in Hfreq.
    exists false, [KPROMOTED_MIG_COLD_NOT_ACCESSED]. split; [reflexivity|].
    cbn. split; [split; [discriminate|intros (H & _ & _); lia]|].
    split; [auto|]. split; [congruence|auto]. }
  apply Z.ltb_ge in Hfreq.
  exists true, []. split; [now rewrite counted_nil|].
  cbn. split; [split; [intros _; repeat split; auto; lia|auto]|].
  split; [auto|]. split; [congruence|]. intros _ [H|H]; lia.
Qed.

(** A record of page 4096 with two accesses one second ago, hot on node 0
    while the page lives on node 2, is promoted. *)
Lemma promote_policy_witness :
  exists b evs,
    page_should_be_promoted linux_config (two_tier 1250 true 0)
      (mk_phi 4096 1000 2 1000 0) (kstate_init linux_config)
    = Ret b (counted evs (kstate_init linux_config)) /\
    decision_of b evs = PROMOTE.
Proof.
  destruct (promote_policy linux_config (two_tier 1250 true 0)
              (mk_phi 4096 1000 2 1000 0) (kstate_init linux_config))
    as (b & evs & Hrun & Hiff & _).
  - exists (mk_page false true 2). repeat split; reflexivity.
  - exists b, evs. split; [exact Hrun|]. apply Hiff.
    split; [vm_compute; discriminate|].
    split; [vm_compute; discriminate|]. vm_compute. discriminate.
Defined.

(** With timestamps that have not wrapped, [age] is the plain difference. *)
Lemma age_plain e phi :
  0 <= last_update phi <= jiffies e -> jiffies e < 2 ^ 64 ->
  age e phi = jiffies e - last_update phi.
Proof. intros H1 H2. unfold age. apply u64_small. lia. Qed.

End KpromotedFacts.
(** ** kpromoted: more on accesses, sweeps and threads *)

Module KpromotedMore.
Import Mach Fault FaultFacts Kpromoted KpromotedFacts KpromotedThread.

(** *** Filtered accesses *)

(** X10: an access to a page on a top-tier node, or to a page that is
    offline, a device page or off the LRU, returns 0 having taken no mutex
    and touched neither the table nor the migration log; it counts
    [KPROMOTED_RECORDED_ACCESSES], the counter of its source, and
    [KPROMOTED_RECORD_TOPTIER] when the page is on a top-tier node. *)
Theorem filtered_access_counts_only cfg e pfn_ nid src now s :
  ~ recordable e pfn_ ->
  kpromoted_record_access cfg e pfn_ nid src now s
  = Ret 0 (counted
             (KPROMOTED_RECORDED_ACCESSES :: src_events cfg src
              ++ (if node_is_toptier e (pfn_to_nid e pfn_)
                  then [KPROMOTED_RECORD_TOPTIER] else []))
             s).
Proof.
  intros Hno. unfold kpromoted_record_access.
  apply wp_ret_inv. apply wp_bind, wp_count. apply wp_bind, wp_src_switch.
  destruct (node_is_toptier e (pfn_to_nid e pfn_)) eqn:Etop.
  { apply wp_bind, wp_count, wp_ret. split; [done|]. kstate_eq. }
  assert (Hpage : forall pg, pfn_to_online_page e pfn_ = Some pg ->
            is_zone_device_page pg = true \/ folio_test_lru pg = false).
  { intros pg Hpg.
    destruct (is_zone_device_page pg) eqn:Ed; [now left|].
    destruct (folio_test_lru pg) eqn:El; [|now right].
    destruct Hno. split; [done|]. exists pg. done. }
  destruct (pfn_to_online_page e pfn_) as [pg|] eqn:Epg.
  - destruct (Hpage pg eq_refl) as [-> | Hl].
    + apply wp_ret. split; [done|]. kstate_eq. now rewrite app_nil_r.
    + destruct (is_zone_device_page pg); rewrite ?Hl; cbn [negb];
        apply wp_ret; (split; [done|]); kstate_eq; now rewrite app_nil_r.
  - apply wp_ret. split; [done|]. kstate_eq. now rewrite app_nil_r.
Qed.


Lemma filtered_access_counts_only_witness :
  let e := mk_env 1000 (fun _ => 0) (fun n => n =? 0)
             (fun _ => Some (mk_page false true 0))
             (fun _ => Some (mk_page false true 0))
             true (fun _ _ => 0) (fun _ _ => 0) in
  kpromoted_record_access linux_config e 4096 0 0 1000 no_state
  = Ret 0 (mk_kstate [] []
             [KPROMOTED_RECORDED_ACCESSES; KPROMOTED_RECORD_HWHINTS;
              KPROMOTED_RECORD_TOPTIER] []).
Proof.
  intros e.
  rewrite (filtered_access_counts_only linux_config e 4096 0 0 1000 no_state).
  - reflexivity.
  - intros [H _]. discriminate H.
Defined.

(** *** The bucket mutexes *)

Lemma record_access_cases cfg e pfn_ nid src now s :
  (exists evs, kpromoted_record_access cfg e pfn_ nid src now s
               = Ret 0 (counted evs s)) \/
  (exists s', kpromoted_record_access cfg e pfn_ nid src now s = Oops s') \/
  (exists t evs,
     kpromoted_record_access cfg e pfn_ nid src now s
     = Ret 0 (mk_kstate t
                (filter (fun b => b <> hash_min cfg pfn_)
                   (hash_min cfg pfn_ :: held s))
                (vm_events s ++ evs) (migrate_log s))).
Proof.
  destruct (recordable_dec e pfn_) as [Hrec|Hno].
  2: { left. now apply record_access_filtered. }
  destruct (decide (hash_min cfg pfn_ < 0)) as [Hneg|Hpos].
  { right; left.
    destruct (record_access_bad_bucket cfg e pfn_ nid src now s Hrec)
      as (s' & -> & _); eauto. }
  destruct (page_hotness_hash s !! Z.to_nat (hash_min cfg pfn_)) as [l|] eqn:El.
  2: { right; left.
       destruct (record_access_bad_bucket cfg e pfn_ nid src now s Hrec)
         as (s' & -> & _); eauto. }
  destruct (list_find (fun phi => pfn phi = pfn_) l) as [[idx r]|] eqn:Ef.
  { right; right. eexists _, _.
    apply (record_access_hit cfg e pfn_ nid src now s l idx r); [done|lia|done..]. }
  destruct (kzalloc_ok e) eqn:Ek.
  - right; right. eexists _, _.
    apply (record_access_miss cfg e pfn_ nid src now s l); [done|lia|done..].
  - right; left. eexists.
    apply (record_access_enomem cfg e pfn_ nid src now s l); [done|lia|done..].
Qed.

Lemma filter_ne_cons (b : Z) (h : list Z) :
  filter (fun x => x <> b) (b :: h) = filter (fun x => x <> b) h.
Proof. rewrite filter_cons. now destruct (decide (b <> b)). Qed.

Lemma record_access_unlocks cfg e pfn_ nid src now s r s' :
  kpromoted_record_access cfg e pfn_ nid src now s = Ret r s' ->
  held s = [] -> held s' = [].
Proof.
  intros Hrun Hheld.
  destruct (record_access_cases cfg e pfn_ nid src now s)
    as [(evs & E)|[(s0 & E)|(t & evs & E)]]; rewrite E in Hrun.
  - injection Hrun as <- <-. exact Hheld.
  - discriminate.
  - injection Hrun as <- <-. cbn [held]. now rewrite filter_ne_cons, Hheld.
Qed.

Lemma step_unlocks cfg o s s' :
  step cfg o s = Ret tt s' -> held s = [] -> held s' = [].
Proof.
  intros Hrun Hheld. destruct o as [e pfn_ nid src now|e nid]; cbn [step] in Hrun.
  - unfold bind in Hrun.
    destruct (kpromoted_record_access cfg e pfn_ nid src now s)
      as [r s1|] eqn:E; [|done].
    injection Hrun as <-. exact (record_access_unlocks _ _ _ _ _ _ _ _ _ E Hheld).
  - destruct (kpromoted_migrate_spec cfg e nid s) as (s1 & E & _ & H & _).
    rewrite E in Hrun. injection Hrun as <-. auto.
Qed.

(** X11: every bucket mutex taken is released before the function comes
    back: after any accesses and sweeps since [kpromoted_init] that all
    returned, no mutex is held. *)
Theorem no_mutex_held_after_return cfg ops s' :
  run cfg ops (kstate_init cfg) = Ret tt s' -> held s' = [].
Proof.
  assert (H : forall ops s s', run cfg ops s = Ret tt s' ->
                held s = [] -> held s' = []).
  { clear. induction ops as [|o ops IH]; intros s s' Hrun Hheld.
    - injection Hrun as <-. exact Hheld.
    - cbn [run] in Hrun. unfold bind in Hrun.
      destruct (step cfg o s) as [[] s1|] eqn:E; [|done].
      apply (IH s1 s' Hrun). exact (step_unlocks _ _ _ _ E Hheld). }
  intros Hrun. now apply (H ops (kstate_init cfg)).
Qed.

Lemma no_mutex_held_after_return_witness :
  let ops := [RecordAccess (two_tier 1000 true 0) 4096 0 0 1000;
              Sweep (two_tier 1002 true 0) 0] in
  exists s', run linux_config ops (kstate_init linux_config) = Ret tt s' /\
             held s' = [].
Proof.
  intros ops.
  assert (E : run linux_config ops (kstate_init linux_config)
              = Ret tt (state_of (run linux_config ops
                                    (kstate_init linux_config))))
    by (apply OutcomeFacts.returned_unit; vm_compute; reflexivity).
  eexists. split; [exact E|].
  exact (no_mutex_held_after_return linux_config ops _ E).
Defined.


(** *** What a sweep leaves alone *)

Lemma filter_keeps_others cfg e nid (l : list page_hotness_info) :
  filter (fun phi => hot_node phi <> nid)
    (filter (fun phi => keeps cfg e nid phi) l)
  = filter (fun phi => hot_node phi <> nid) l.
Proof.
  induction l as [|phi l IH]; [done|].
  rewrite (filter_cons (fun phi => keeps cfg e nid phi)).
  rewrite (filter_cons (fun phi => hot_node phi <> nid) phi l).
  destruct (decide (hot_node phi <> nid)) as [Hne|Heq].
  - assert (Hk : keeps cfg e nid phi = true).
    { unfold keeps. apply Z.eqb_neq in Hne. now rewrite Hne. }
    rewrite decide_True by (now rewrite Hk).
    rewrite filter_cons, decide_True by done. now rewrite IH.
  - destruct (decide (keeps cfg e nid phi)); [|exact IH].
    rewrite filter_cons, decide_False by done. exact IH.
Qed.

Lemma sweep_scope cfg e nid s :
  exists s',
    kpromoted_migrate cfg e nid s = Ret tt s' /\
    records s' = filter (fun phi => keeps cfg e nid phi) (records s) /\
    (held s = [] -> held s' = []).
Proof.
  destruct (kpromoted_migrate_spec cfg e nid s) as (s' & E & Ht & Hh & _).
  exists s'. split; [exact E|]. split; [|exact Hh].
  unfold records. rewrite Ht. apply concat_filter.
Qed.

(** X12: one sweep of node [nid] returns.  It creates and changes no
    record: the records left are records that were there, in their order.
    It leaves every record of another node in place.  And a record of
    [nid] that is left is one whose promotion was tried and failed. *)
Theorem sweep_touches_own_node cfg e nid s :
  exists s',
    kpromoted_migrate cfg e nid s = Ret tt s' /\
    sublist (records s') (records s) /\
    filter (fun phi => hot_node phi <> nid) (records s')
    = filter (fun phi => hot_node phi <> nid) (records s) /\
    forall phi, phi ∈ records s' -> hot_node phi = nid ->
      promotes cfg e phi = true /\ promote_ret e phi <> 0.
Proof.
  destruct (sweep_scope cfg e nid s) as (s' & E & Hr & _).
  exists s'. split; [exact E|]. rewrite Hr. split; [apply sublist_filter|].
  split; [apply filter_keeps_others|].
  intros phi Hin Hnode. apply list_elem_of_filter in Hin as [Hk _].
  unfold keeps in Hk. apply Z.eqb_eq in Hnode. rewrite Hnode in Hk.
  cbn [negb orb] in Hk. apply Is_true_true in Hk.
  apply andb_true_iff in Hk as [Hp Hret]. split; [exact Hp|].
  apply negb_true_iff, Z.eqb_neq in Hret. exact Hret.
Qed.

(** X13: the thread of a node, however often it wakes, returns 0 in the
    end, never adds a record and never removes or changes a record of
    another node; and it leaves no mutex held. *)
Theorem thread_keeps_to_its_node cfg nid wakeups s :
  exists s',
    kpromoted cfg nid wakeups s = Ret 0 s' /\
    sublist (records s') (records s) /\
    filter (fun phi => hot_node phi <> nid) (records s')
    = filter (fun phi => hot_node phi <> nid) (records s) /\
    (held s = [] -> held s' = []).
Proof.
  revert s. induction wakeups as [|e rest IH]; intros s.
  - exists s. done.
  - destruct (sweep_scope cfg e nid s) as (s1 & E & Hr & Hh).
    destruct (IH s1) as (s' & E' & Hsub & Hf & Hh').
    exists s'. split.
    { cbn [kpromoted]. unfold kpromoted_do_work, bind. now rewrite E. }
    split; [|split].
    + etrans; [exact Hsub|]. rewrite Hr. apply sublist_filter.
    + rewrite Hf, Hr. apply filter_keeps_others.
    + auto.
Qed.

(** *** Lookup after an access *)

Lemma list_find_insert_same (P : page_hotness_info -> Prop)
    `{!forall x, Decision (P x)} (l : list page_hotness_info) idx r r' :
  list_find P l = Some (idx, r) -> P r' ->
  list_find P (<[idx := r']> l) = Some (idx, r').
Proof.
  intros Hf Hr'. apply list_find_Some in Hf as (Hl & _ & Hbefore).
  apply list_find_Some. split.
  - apply list_lookup_insert_eq. now apply lookup_lt_Some in Hl.
  - split; [exact Hr'|]. intros j y Hj Hlt.
    rewrite list_lookup_insert_ne in Hj by lia. now apply (Hbefore j).
Qed.

(** X14: an access that passes the filters, for a page whose bucket is in
    the table and which has a record or can be given one, returns 0; and a
    lookup of the page right after finds a record of that page whose
    [recency] is the time of the access and whose [hot_node] is the node of
    the access, or node 1 when that was [NUMA_NO_NODE]. *)
Theorem access_then_lookup cfg e pfn_ nid src now s l :
  recordable e pfn_ ->
  0 <= hash_min cfg pfn_ ->
  page_hotness_hash s !! Z.to_nat (hash_min cfg pfn_) = Some l ->
  kzalloc_ok e = true \/ is_Some (list_find (fun phi => pfn phi = pfn_) l) ->
  exists s' idx r,
    kpromoted_record_access cfg e pfn_ nid src now s = Ret 0 s' /\
    __kpromoted_lookup pfn_ (hash_min cfg pfn_) s'
    = Ret (PHI (hash_min cfg pfn_) idx) s' /\
    load (PHI (hash_min cfg pfn_) idx) s' = Ret r s' /\
    pfn r = pfn_ /\
    recency r = now /\
    hot_node r = (if nid =? NUMA_NO_NODE then 1 else nid).
Proof.
  intros Hrec Hb Hl Hcan.
  set (bkt := hash_min cfg pfn_) in *.
  assert (Hlen : (Z.to_nat bkt < length (page_hotness_hash s))%nat)
    by now apply lookup_lt_Some in Hl.
  assert (Hlookup : forall (s' : kstate) l' idx r,
    page_hotness_hash s' !! Z.to_nat bkt = Some l' ->
    list_find (fun phi => pfn phi = pfn_) l' = Some (idx, r) ->
    __kpromoted_lookup pfn_ bkt s' = Ret (PHI bkt idx) s' /\
    load (PHI bkt idx) s' = Ret r s').
  { intros s' l' idx r Hl' Hf. split.
    - unfold __kpromoted_lookup, bind, chain.
      assert (Hge : (bkt <? 0) = false) by (apply Z.ltb_ge; lia).
      now rewrite Hge, Hl', Hf.
    - unfold load. rewrite Hl'.
      apply list_find_Some in Hf as (-> & _). done. }
  destruct (list_find (fun phi => pfn phi = pfn_) l) as [[idx r]|] eqn:Ef.
  - pose proof Ef as Hr. apply list_find_Some in Hr as (Hidx & Hpfn & _).
    eexists _, idx, (touch cfg nid now r).
    split; [apply (record_access_hit cfg e pfn_ nid src now s l idx r); done|].
    destruct (Hlookup
      (mk_kstate (<[Z.to_nat bkt := <[idx := touch cfg nid now r]> l]>
                    (page_hotness_hash s))
         (filter (fun b => b <> bkt) (bkt :: held s))
         (vm_events s ++ KPROMOTED_RECORDED_ACCESSES :: src_events cfg src
            ++ [KPROMOTED_RECORD_EXISTS])
         (migrate_log s))
      (<[idx := touch cfg nid now r]> l) idx (touch cfg nid now r))
      as [H1 H2].
    { cbn [page_hotness_hash]. now apply list_lookup_insert_eq. }
    { apply (list_find_insert_same _ l idx r); [exact Ef|].
      now rewrite touch_pfn. }
    split; [exact H1|]. split; [exact H2|].
    split; [now rewrite touch_pfn|]. done.
  - destruct Hcan as [Hk|[x Hx]]; [|done].
    set (new := touch cfg nid now (mk_phi pfn_ now 1 now 0)).
    eexists _, 0%nat, new.
    split; [apply (record_access_miss cfg e pfn_ nid src now s l); done|].
    destruct (Hlookup
      (mk_kstate (<[Z.to_nat bkt := new :: l]> (page_hotness_hash s))
         (filter (fun b => b <> bkt) (bkt :: held s))
         (vm_events s ++ KPROMOTED_RECORDED_ACCESSES :: src_events cfg src
            ++ [KPROMOTED_RECORD_ADDED])
         (migrate_log s))
      (new :: l) 0%nat new) as [H1 H2].
    { cbn [page_hotness_hash]. now apply list_lookup_insert_eq. }
    { cbn [list_find]. rewrite decide_True; [done|]. apply touch_pfn. }
    split; [exact H1|]. split; [exact H2|].
    split; [apply touch_pfn|]. done.
Qed.

Lemma access_then_lookup_witness :
  exists s' idx r,
    kpromoted_record_access linux_config (two_tier 1000 true 0)
      4096 (-1) 0 1000 (kstate_init linux_config) = Ret 0 s' /\
    __kpromoted_lookup 4096 (hash_min linux_config 4096) s'
    = Ret (PHI (hash_min linux_config 4096) idx) s' /\
    load (PHI (hash_min linux_config 4096) idx) s' = Ret r s' /\
    pfn r = 4096 /\ recency r = 1000 /\ hot_node r = 1.
Proof.
  apply (access_then_lookup linux_config (two_tier 1000 true 0)
           4096 (-1) 0 1000 (kstate_init linux_config) []).
  - split; [reflexivity|]. exists (mk_page false true 2). done.
  - vm_compute. discriminate.
  - vm_compute. reflexivity.
  - left. reflexivity.
Defined.

(** *** The threads *)

Lemma kpromoted_run_inv ok nid s (done_ : list Z) (f : Z -> bool) :
  NoDup (created s) ->
  (forall n, n ∈ created s <-> is_Some (pgdat_kpromoted s !! n)) ->
  (forall n, n ∈ created s <-> n ∈ done_ /\ f n = true) ->
  ok = f nid ->
  let s' := kpromoted_run ok nid s in
  NoDup (created s') /\
  (forall n, n ∈ created s' <-> is_Some (pgdat_kpromoted s' !! n)) /\
  (forall n, n ∈ created s' <-> n ∈ nid :: done_ /\ f n = true).
Proof.
  intros Hnd Htask Hdone Hok s'. subst s'. unfold kpromoted_run.
  destruct (pgdat_kpromoted s !! nid) as [[]|] eqn:E.
  - split; [done|]. split; [done|]. intros n. rewrite Hdone.
    split; [intros [? ?]; split; [now right|done]|].
    intros [Hin Hf]. split; [|done].
    apply elem_of_cons in Hin as [->|Hin]; [|done].
    assert (Hc : nid ∈ created s) by (apply Htask; now rewrite E).
    now apply Hdone in Hc.
  - assert (Hnot : nid ∉ created s).
    { intros Hc. apply Htask in Hc. rewrite E in Hc. now destruct Hc. }
    destruct ok; cbn [created pgdat_kpromoted].
    + split; [|split].
      * apply NoDup_app. split; [done|]. split; [|apply NoDup_singleton].
        intros x Hx Hx'. apply list_elem_of_singleton in Hx' as ->. done.
      * intros n. rewrite elem_of_app, list_elem_of_singleton.
        destruct (decide (n = nid)) as [->|Hne].
        -- rewrite lookup_insert_eq. split; [eauto|now right].
        -- rewrite lookup_insert_ne by done. rewrite Htask. tauto.
      * intros n. rewrite elem_of_app, list_elem_of_singleton, elem_of_cons.
        rewrite Hdone. split.
        -- intros [[? ?]| ->]; [tauto|]. split; [now left|done].
        -- intros [[->|?] ?]; tauto.
    + split; [done|]. split; [done|]. intros n. rewrite Hdone, elem_of_cons.
      split; [tauto|]. intros [[->|?] Hf]; [congruence|tauto].
Qed.

(** X15: [kpromoted_init] hands the error of the hotplug registration on
    and creates no thread when that fails.  Otherwise it returns 0 having
    created one thread, and no more than one, on each node of [N_CPU] where
    [kthread_run] succeeded, and none elsewhere; and a call of
    [kpromoted_run] for a node that has its thread changes nothing. *)
Theorem kpromoted_init_threads (hp : Z) (n_cpu : list Z) (ok : Z -> bool) :
  let r := fst (kpromoted_init hp n_cpu ok nodes_init) in
  let s := snd (kpromoted_init hp n_cpu ok nodes_init) in
  (if hp <? 0 then r = hp /\ created s = []
   else r = 0 /\
        forall n, n ∈ created s <-> n ∈ n_cpu /\ ok n = true) /\
  NoDup (created s) /\
  forall n b, n ∈ created s -> kpromoted_run b n s = s.
Proof.
  intros r s. subst r s. unfold kpromoted_init.
  destruct (hp <? 0); cbn [fst snd created].
  { split; [done|]. split; [constructor|]. intros n b H. inversion H. }
  assert (H : forall l (done_ : list Z) s0,
    NoDup (created s0) ->
    (forall n, n ∈ created s0 <-> is_Some (pgdat_kpromoted s0 !! n)) ->
    (forall n, n ∈ created s0 <-> n ∈ done_ /\ ok n = true) ->
    let s := foldl (fun s nid => kpromoted_run (ok nid) nid s) s0 l in
    NoDup (created s) /\
    (forall n, n ∈ created s <-> is_Some (pgdat_kpromoted s !! n)) /\
    (forall n, n ∈ created s <-> n ∈ rev l ++ done_ /\ ok n = true)).
  { induction l as [|nid l IH]; intros done_ s0 H1 H2 H3; [done|].
    cbn [foldl rev].
    destruct (kpromoted_run_inv (ok nid) nid s0 done_ ok H1 H2 H3 eq_refl)
      as (H1' & H2' & H3').
    destruct (IH (nid :: done_) _ H1' H2' H3') as (H4 & H5 & H6).
    split; [done|]. split; [done|]. intros n. rewrite H6.
    rewrite <- app_assoc. done. }
  destruct (H n_cpu [] nodes_init) as (H1 & H2 & H3).
  { constructor. }
  { intros n. cbn. rewrite lookup_empty. split; [intros Hn; inversion Hn|].
    intros [? ?]; done. }
  { intros n. cbn. split; [intros Hn; inversion Hn|].
    intros [Hn _]; inversion Hn. }
  split; [|split; [done|]].
  - split; [done|]. intros n. rewrite H3, app_nil_r, list_elem_of_In, <- in_rev, <- list_elem_of_In. done.
  - intros n b Hn. apply H2 in Hn as [[] Hn].
    set (s := foldl _ _ _) in *. unfold kpromoted_run. now rewrite Hn.
Qed.

End KpromotedMore.
(** ** The CXL HMU driver *)

Module HmuFacts.
Import Mach MachFacts Fault FaultFacts Hmu.

(** *** Rules for the statements *)

Lemma wp_body (m : C Z) (Q : Z -> world -> Prop) F w :
  wp m (fun x w' => match x with Next r => Q r w' | Return r => Q r w' end) F w ->
  wp (body m) Q F w.
Proof.
  intros H. unfold body. apply wp_bind. eapply wp_mono; [exact H| |done].
  intros [r|r] w' HQ; exact HQ.
Qed.

Lemma wp_go {A B} (m : C A) (f : A -> C B) (Q : flow B -> world -> Prop) F w :
  wp m (fun x w' => match x with
                    | Next a => wp (f a) Q F w'
                    | Return r => Q (Return r) w'
                    end) F w ->
  wp (cbind m f) Q F w.
Proof.
  intros H. unfold cbind. apply wp_bind. eapply wp_mono; [exact H| |done].
  intros [a|r] w' HQ; exact HQ.
Qed.

Lemma wp_lift {A} (m : M A) (Q : flow A -> world -> Prop) F w :
  wp m (fun a w' => Q (Next a) w') F w -> wp (lift m) Q F w.
Proof. intros H. unfold lift. apply wp_bind. exact H. Qed.

Lemma wp_go_lift {A B} (m : M A) (f : A -> C B) (Q : flow B -> world -> Prop)
    F w :
  wp m (fun a w' => wp (f a) Q F w') F w -> wp (cbind (lift m) f) Q F w.
Proof. intros H. apply wp_go, wp_lift. exact H. Qed.

Lemma wp_next {A} (a : A) (Q : flow A -> world -> Prop) F w :
  Q (Next a) w -> wp (next a) Q F w.
Proof. done. Qed.

Lemma wp_return {A} r (Q : flow A -> world -> Prop) F w :
  Q (Return r) w -> wp (return_ r) Q F w.
Proof. done. Qed.

Lemma wp_go_return_if {B} (c : bool) r (f : unit -> C B) (Q : flow B -> world -> Prop)
    F w :
  (if c then Q (Return r) w else wp (f tt) Q F w) ->
  wp (cbind (return_if c r) f) Q F w.
Proof. intros H. apply wp_go. unfold return_if. destruct c; exact H. Qed.

Lemma wp_undefined {A} (Q : flow A -> world -> Prop) (F : world -> Prop) w :
  F w -> wp undefined Q F w.
Proof. done. Qed.

Lemma wp_exists {A} (m : M A) (Q : A -> world -> Prop) w :
  wp m Q (fun _ => False) w -> exists a w', m w = Ret a w' /\ Q a w'.
Proof. unfold wp. destruct (m w) as [a w'|]; [eauto|done]. Qed.

(** *** Rules for the primitives *)

Lemma wp_readq_reg off (Q : Z -> world -> Prop) F w :
  off <> CHMU_INST0_STATUS_REG ->
  Q (regs (dev w) !!! off) w -> wp (readq off) Q F w.
Proof.
  intros Hoff HQ. unfold wp, readq.
  apply Z.eqb_neq in Hoff. now rewrite Hoff.
Qed.

Lemma wp_readq_status (Q : Z -> world -> Prop) F w :
  Q (hd (status (dev w)) (status_feed (dev w)))
    (set_dev (mk_device (regs (dev w)) (status (dev w))
                (tl (status_feed (dev w)))
                (hotlist_mem (dev w)) (writes (dev w))) w) ->
  wp (readq CHMU_INST0_STATUS_REG) Q F w.
Proof. done. Qed.

Lemma wp_readw off (Q : Z -> world -> Prop) F w :
  Q (u16 (regs (dev w) !!! off)) w -> wp (readw off) Q F w.
Proof. done. Qed.

Lemma wp_writeq val off (Q : unit -> world -> Prop) F w :
  Q tt (set_dev (mk_device (<[off := val]> (regs (dev w))) (status (dev w))
                   (status_feed (dev w)) (hotlist_mem (dev w))
                   (writes (dev w) ++ [(off, val)])) w) ->
  wp (writeq val off) Q F w.
Proof. done. Qed.

Lemma wp_get_buf (Q : cxl_hmu_buf -> world -> Prop) F w :
  Q (buf w) w -> wp get_buf Q F w.
Proof. done. Qed.

Lemma wp_put_buf f (Q : unit -> world -> Prop) F w :
  Q tt (set_buf (f (buf w)) w) -> wp (put_buf f) Q F w.
Proof. done. Qed.

Lemma wp_get_hmu (Q : cxl_hmu_info -> world -> Prop) F w :
  Q (hmu w) w -> wp get_hmu Q F w.
Proof. done. Qed.

Lemma wp_put_hmu f (Q : unit -> world -> Prop) F w :
  Q tt (set_hmu (f (hmu w)) w) -> wp (put_hmu f) Q F w.
Proof. done. Qed.

Lemma wp_stage src (Q : unit -> world -> Prop) F w :
  0 <= buf_pos (buf w) ->
  buf_pos (buf w) + Z.of_nat (length src) <= Z.of_nat (length (buf_base (buf w))) ->
  Q tt (set_buf (mk_buf (buf_length (buf w))
                   (poke (Z.to_nat (buf_pos (buf w))) src (buf_base (buf w)))
                   (buf_pos (buf w))) w) ->
  wp (stage src) Q F w.
Proof.
  intros H0 H1 HQ. unfold wp, stage.
  apply Z.leb_le in H0, H1. now rewrite H0, H1.
Qed.

Lemma wp_hotlist_read off n (Q : list Z -> world -> Prop) F w :
  0 <= off -> 0 <= n -> off + n <= Z.of_nat (length (hotlist_mem (dev w))) ->
  Q (take (Z.to_nat n) (drop (Z.to_nat off) (hotlist_mem (dev w)))) w ->
  wp (hotlist_read off n) Q F w.
Proof.
  intros H0 H1 H2 HQ. unfold wp, hotlist_read.
  apply Z.leb_le in H0, H1, H2. now rewrite H0, H1, H2.
Qed.

Lemma wp_put_hw_state v (Q : unit -> world -> Prop) F w :
  Q tt (set_hw_state v w) -> wp (put_hw_state v) Q F w.
Proof. done. Qed.

(** [buf->pos = handle->head % buf->length], for a buffer that has a
    length. *)
Lemma wp_set_cursor {B} hd (f : unit -> C B) (Q : flow B -> world -> Prop) F w :
  buf_length (buf w) <> 0 ->
  wp (f tt) Q F (set_buf (set_pos (hd mod buf_length (buf w)) (buf w)) w) ->
  wp (go b <- lift get_buf;
      go pos <- rem_ulong hd (buf_length b);
      go x <- lift (put_buf (set_pos pos));
      f x) Q F w.
Proof.
  intros Hl H. apply wp_go_lift, wp_get_buf. apply wp_go.
  unfold rem_ulong. apply Z.eqb_neq in Hl. rewrite Hl. apply wp_next.
  apply wp_go_lift, wp_put_buf. exact H.
Qed.

Lemma wp_set_cursor_last hd (Q : flow unit -> world -> Prop) F w :
  buf_length (buf w) <> 0 ->
  Q (Next tt) (set_buf (set_pos (hd mod buf_length (buf w)) (buf w)) w) ->
  wp (go b <- lift get_buf;
      go pos <- rem_ulong hd (buf_length b);
      lift (put_buf (set_pos pos))) Q F w.
Proof.
  intros Hl H. apply wp_go_lift, wp_get_buf. apply wp_go.
  unfold rem_ulong. apply Z.eqb_neq in Hl. rewrite Hl. apply wp_next.
  apply wp_lift, wp_put_buf. exact H.
Qed.

Lemma wp_aux_end size (Q : unit -> world -> Prop) F w :
  Q tt (mk_world (dev w) (hmu w) (buf w) (handle_head w) (aux_feed w)
          (aux_ended w ++ [size]) (poll_budget w) (hw_state w)) ->
  wp (perf_aux_output_end size) Q F w.
Proof. done. Qed.

(** *** Bit fields *)

Lemma FIELD_GET_range f reg :
  0 <= lo f <= hi f -> 0 <= FIELD_GET f reg < 2 ^ (hi f - lo f + 1).
Proof.
  intros Hf. unfold FIELD_GET, mask.
  rewrite Z.shiftr_land, Z.shiftr_shiftl_l, Z.sub_diag, Z.shiftl_0_r by lia.
  rewrite Z.land_ones by lia. apply Z.mod_pos_bound.
  apply Z.pow_pos_nonneg; lia.
Qed.

(** *** Memory *)

Lemma poke_length p src mem :
  (p + length src <= length mem)%nat -> length (poke p src mem) = length mem.
Proof.
  intros H. unfold poke. rewrite !length_app, length_take, length_drop. lia.
Qed.

(** Two copies, the second where the first ended, are one copy. *)
Lemma poke_poke p s1 s2 mem :
  (p + length s1 <= length mem)%nat ->
  poke (p + length s1) s2 (poke p s1 mem) = poke p (s1 ++ s2) mem.
Proof.
  intros H. unfold poke.
  assert (Hp : length (take p mem) = p) by (rewrite length_take; lia).
  rewrite (app_assoc (take p mem) s1).
  rewrite take_app_length' by (rewrite length_app; lia).
  rewrite drop_app_ge by (rewrite length_app; lia).
  rewrite length_app, Hp, drop_drop, length_app.
  rewrite <- !app_assoc. do 3 f_equal. f_equal. lia.
Qed.

Ltac simpl_world :=
  cbn [dev hmu buf handle_head aux_feed aux_ended poll_budget hw_state
       set_dev set_hmu set_buf set_hw_state
       regs status status_feed hotlist_mem writes
       buf_length buf_base buf_pos advance set_pos].

(** *** The drain *)

(** What is left of [cxl_hmu_update_aux] once the copy is made touches
    neither the staging memory nor the sizes reported so far. *)
Ltac drain_tail stop :=
  apply wp_go_lift, wp_aux_end;
  apply wp_go_lift, wp_get_buf;
  apply wp_go_return_if;
  match goal with
  | |- if ?c then _ else _ => destruct c
  end;
  [ cbn; auto
  | apply wp_go_lift; unfold writew; apply wp_writeq;
    destruct stop; cbn [negb];
    [ apply wp_go, wp_next, wp_return; cbn; auto
    | apply wp_go, wp_go_lift; unfold wp at 1, perf_aux_output_begin;
      cbn [aux_feed];
      match goal with
      | |- context [match ?l with _ => _ end] => destruct l as [|[?|] ?]
      end;
      [ apply wp_return; cbn; auto
      | apply wp_set_cursor_last;
        [ simpl_world;
          try (match goal with B := buf _ |- _ => fold B end); lia
        | apply wp_return; cbn; auto ]
      | apply wp_return; cbn; auto ] ] ].

Lemma header_bytes_length h0 h1 : length (header_bytes h0 h1) = 16%nat.
Proof. reflexivity. Qed.

(** The first [t1 + t2] bytes of the wrapped region are [t1] bytes from
    the head on, then [t2] bytes from the start of the list, whenever the
    second copy only begins once the first segment is exhausted. *)
Lemma wrapped_take (hot : list Z) (h t t1 t2 : Z) :
  0 <= h -> 0 <= t -> 0 <= t1 -> 0 <= t2 ->
  h + t1 <= Z.of_nat (length hot) -> t2 <= t -> t <= Z.of_nat (length hot) ->
  (t1 < Z.of_nat (length hot) - h -> t2 = 0) ->
  take (Z.to_nat (t1 + t2)) (drop (Z.to_nat h) hot ++ take (Z.to_nat t) hot)
  = take (Z.to_nat t1) (drop (Z.to_nat h) hot) ++ take (Z.to_nat t2) hot.
Proof.
  intros Hh Ht Ht1 Ht2 Hfit1 Hfit2 Htl Hord.
  destruct (decide (t1 < Z.of_nat (length hot) - h)) as [Hlt|Hge].
  - rewrite (Hord Hlt), Z.add_0_r. change (Z.to_nat 0) with 0%nat.
    rewrite take_0, app_nil_r.
    apply take_app_le. rewrite length_drop. lia.
  - assert (Hfull : Z.to_nat t1 = length (drop (Z.to_nat h) hot))
      by (rewrite length_drop; lia).
    rewrite Z2Nat.inj_add by lia.
    rewrite take_app_add' by exact Hfull.
    rewrite (take_ge (drop _ _)) by lia.
    rewrite take_take. f_equal. f_equal. lia.
Qed.

(** With the hot list wrapped ([tail < head]) and room for the header
    in the staging memory, one drain returns, and stages under one header
    the bytes from [head] to the end of the list followed by the bytes from
    its start to [tail], [((top - head) + tail) * 8] of them, cut to the
    room left after the header; the header carries the number of entries
    staged and the counter width, and the size reported to perf is header
    plus data.  With no room left for data, nothing is staged. *)
Lemma drain_wrapped stop w :
  let d := dev w in
  let b := buf w in
  let head := u16 (regs d !!! CHMU_INST0_HEAD_REG) in
  let tail := u16 (regs d !!! CHMU_INST0_TAIL_REG) in
  let top := FIELD_GET CHMU_INST0_CAP0_HOTLIST_SIZE_MSK
               (regs d !!! CHMU_INST0_CAP0_REG) in
  let width := FIELD_GET CHMU_INST0_STATUS_COUNTER_WIDTH_MSK
                 (hd (status d) (status_feed d)) in
  let avail := drop (Z.to_nat (head * 8)) (hotlist_mem d)
               ++ take (Z.to_nat (tail * 8)) (hotlist_mem d) in
  let n := Z.min (Z.of_nat (length avail))
             (buf_length b - buf_pos b - sizeof_header) in
  tail < head < top ->
  Z.of_nat (length (hotlist_mem d)) = top * 8 ->
  Z.of_nat (length (buf_base b)) = buf_length b ->
  0 <= buf_pos b ->
  buf_pos b + sizeof_header <= buf_length b < 2 ^ 64 ->
  Z.of_nat (length avail) = ((top - head) + tail) * 8 /\
  exists r w',
    cxl_hmu_update_aux stop w = Ret r w' /\
    aux_ended w' = aux_ended w ++ [if n =? 0 then 0 else sizeof_header + n] /\
    buf_base (buf w')
    = if n =? 0 then buf_base b
      else poke (Z.to_nat (buf_pos b))
             (header_bytes
                (Z.lor (FIELD_PREP CHMU_HEADER0_SIZE_MASK (n / 8))
                       (FIELD_PREP CHMU_HEADER0_COUNT_WIDTH width))
                0xDEADBEEF
              ++ take (Z.to_nat n) avail)
             (buf_base b).
Proof.
  intros d b head tail top width avail n Hwrap Hhot Hlen Hpos Hfit.
  assert (Htail : 0 <= tail) by (unfold tail, u16; apply Z.mod_pos_bound; lia).
  assert (Htop : top < 2 ^ 16).
  { pose proof (FIELD_GET_range CHMU_INST0_CAP0_HOTLIST_SIZE_MSK
                  (regs d !!! CHMU_INST0_CAP0_REG)) as H.
    cbn in H. unfold top. lia. }
  assert (Havail : Z.of_nat (length avail) = ((top - head) + tail) * 8).
  { unfold avail. rewrite length_app, length_drop, length_take. lia. }
  split; [exact Havail|].
  apply wp_exists. unfold cxl_hmu_update_aux. apply wp_body.
  apply wp_go_lift, wp_readq_reg; [done|].
  apply wp_go_lift, wp_readw. fold d head.
  apply wp_go_lift, wp_readw. fold d tail.
  apply wp_go_lift, wp_readq_status. fold d width.
  apply wp_go_lift, wp_readq_reg; [done|].
  cbn [dev set_dev regs]. fold d top.
  apply wp_go_lift, wp_get_buf. cbn [buf set_dev]. fold b.
  destruct (head <? tail) eqn:E1; [apply Z.ltb_lt in E1; lia|].
  destruct (tail <? head) eqn:E2; [|apply Z.ltb_ge in E2; lia].
  unfold sizeof_header in *.
  rewrite (u64_small ((top - head) * 8)) by lia.
  rewrite (u64_small (buf_length b - buf_pos b - 16)) by lia.
  rewrite (u64_small (tail * 8)) by lia.
  set (t1 := Z.min ((top - head) * 8) (buf_length b - buf_pos b - 16)).
  rewrite (u64_small (buf_length b - buf_pos b - t1 - 16)) by lia.
  set (t2 := Z.min (tail * 8) (buf_length b - buf_pos b - t1 - 16)).
  assert (Hn : n = t1 + t2) by lia.
  assert (Hsplit : take (Z.to_nat n) avail
                   = take (Z.to_nat t1) (drop (Z.to_nat (head * 8)) (hotlist_mem d))
                     ++ take (Z.to_nat t2) (hotlist_mem d)).
  { rewrite Hn. unfold avail.
    apply (wrapped_take (hotlist_mem d)); lia. }
  set (header := header_bytes
                   (Z.lor (FIELD_PREP CHMU_HEADER0_SIZE_MASK ((t1 + t2) / 8))
                          (FIELD_PREP CHMU_HEADER0_COUNT_WIDTH width))
                   3735928559).
  assert (Hhdr : length header = 16%nat) by reflexivity.
  apply wp_go, wp_go.
  destruct (t1 =? 0) eqn:Et1; cbn [negb].
  { (* no room for data: nothing is staged *)
    apply Z.eqb_eq in Et1.
    assert (Et2 : t2 = 0) by lia.
    apply wp_next. rewrite Et2. cbn [Z.eqb negb]. apply wp_next.
    assert (En : (n =? 0) = true) by (apply Z.eqb_eq; lia). rewrite En.
    drain_tail stop. }
  apply Z.eqb_neq in Et1.
  assert (En : (n =? 0) = false) by (apply Z.eqb_neq; lia). rewrite En.
  apply wp_go_lift, wp_stage;
    [simpl_world; exact Hpos
    |simpl_world; fold b header; rewrite Hhdr; lia|].
  apply wp_go_lift, wp_put_buf.
  apply wp_go_lift, wp_hotlist_read;
    [lia|lia|simpl_world; fold d; lia|].
  simpl_world.
  fold d b header.
  set (data1 := take (Z.to_nat t1) (drop (Z.to_nat (head * 8)) (hotlist_mem d))).
  assert (Hd1 : length data1 = Z.to_nat t1).
  { unfold data1. rewrite length_take, length_drop. lia. }
  apply wp_go_lift, wp_stage;
    [simpl_world; lia
    |simpl_world;
     rewrite poke_length by (rewrite Hhdr; lia); rewrite Hd1; lia|].
  apply wp_go_lift, wp_put_buf. apply wp_next.
  simpl_world.
  replace (Z.to_nat (buf_pos b + 16))
    with (Z.to_nat (buf_pos b) + length header)%nat by (rewrite Hhdr; lia).
  rewrite poke_poke by (rewrite Hhdr; lia).
  destruct (t2 =? 0) eqn:Et2; cbn [negb].
  { apply Z.eqb_eq in Et2. apply wp_next.
    rewrite Hsplit, Et2, take_0, app_nil_r. fold data1.
    rewrite Hn, Et2, Z.add_0_r. unfold header. rewrite Et2, Z.add_0_r.
    drain_tail stop. }
  apply Z.eqb_neq in Et2.
  apply wp_go_lift, wp_hotlist_read;
    [lia|lia|simpl_world; fold d; lia|].
  simpl_world. fold d.
  change (Z.to_nat 0) with 0%nat. rewrite drop_0.
  set (data2 := take (Z.to_nat t2) (hotlist_mem d)).
  assert (Hd2 : length data2 = Z.to_nat t2).
  { unfold data2. rewrite length_take. lia. }
  apply wp_go_lift, wp_stage;
    [simpl_world; lia
    |simpl_world;
     rewrite poke_length by (rewrite length_app, Hhdr, Hd1; lia);
     rewrite Hd2; lia|].
  apply wp_go_lift, wp_put_buf. apply wp_next.
  simpl_world.
  replace (Z.to_nat (buf_pos b + 16 + t1))
    with (Z.to_nat (buf_pos b) + length (header ++ data1))%nat
    by (rewrite length_app, Hhdr, Hd1; lia).
  rewrite poke_poke by (rewrite length_app, Hhdr, Hd1; lia).
  rewrite Hsplit. fold data1 data2. rewrite <- app_assoc.
  rewrite Hn. replace (16 + t1 + t2) with (16 + (t1 + t2)) by lia.
  drain_tail stop.
Qed.

(** The hot list of 8 entries with head 6 and tail 2, drained into an empty
    page: one header for 4 entries of counter width 16, then the entries of
    units 6, 7, 0 and 1. *)
Lemma drain_wrapped_example :
  let w := demo_world (demo_device 8 6 2) 4096 0 in
  exists r w',
    cxl_hmu_update_aux true w = Ret r w' /\
    aux_ended w' = [sizeof_header + ((8 - 6) + 2) * 8] /\
    words 6 (buf_base (buf w'))
    = [Z.lor 4 (Z.shiftl 16 16); 0xDEADBEEF;
       hot_entry 16 6 5; hot_entry 16 7 5; hot_entry 16 0 5; hot_entry 16 1 5].
Proof.
  intros w.
  destruct (drain_wrapped true w) as (_ & r & w' & Hrun & Hend & Hbase).
  - vm_compute. split; reflexivity.
  - vm_compute. reflexivity.
  - vm_compute. reflexivity.
  - vm_compute. discriminate.
  - vm_compute. split; [discriminate|reflexivity].
  - exists r, w'. split; [exact Hrun|]. split.
    + rewrite Hend. vm_compute. reflexivity.
    + rewrite Hbase. vm_compute. reflexivity.
Qed.

(** C5, on the code: a drain that finds less than a header of room left
    does not cut the copy to that room.  A first drain of three entries into
    an empty buffer of 4096 bytes returns 0 and, perf handing the buffer out
    again at [handle->head] 4088, leaves the cursor at 4088.  With the hot
    list then wrapped (head 5, tail 2) the next drain computes the room as
    [4096 - 4088 - 16] in [size_t], which is [2^64 - 8]; it takes the 24
    bytes up to the end of the list for the first copy and writes the header
    at byte 4088 of the 4096: the copy runs past the end of the staging
    memory, and nothing has been reported to perf. *)
Lemma drain_wrapped_overrun_failing_input :
  let w0 := mk_world (demo_device 8 2 5) demo_info
              (mk_buf 4096 (replicate (Z.to_nat 4096) 0) 0) 0
              [Some 4088] [] 4 0 in
  exists w1,
    cxl_hmu_update_aux false w0 = Ret 0 w1 /\
    buf_pos (buf w1) = 4088 /\
    buf_length (buf w1) = 4096 /\
    Z.of_nat (length (buf_base (buf w1))) = 4096 /\
    u16 (regs (dev w1) !!! CHMU_INST0_HEAD_REG) = 5 /\
    let d1 := dev w1 in
    let w2 := set_dev (mk_device (<[CHMU_INST0_TAIL_REG := 2]> (regs d1))
                         (status d1) (status_feed d1) (hotlist_mem d1)
                         (writes d1)) w1 in
    u64 (buf_length (buf w2) - buf_pos (buf w2) - sizeof_header) = 2 ^ 64 - 8 /\
    Z.min (u64 ((8 - 5) * 8))
      (u64 (buf_length (buf w2) - buf_pos (buf w2) - sizeof_header)) = 24 /\
    exists w3,
      cxl_hmu_update_aux true w2 = Oops w3 /\
      aux_ended w3 = aux_ended w1 /\
      buf_base (buf w3) = buf_base (buf w1).
Proof.
  eexists. split; [vm_compute; reflexivity|].
  do 4 (split; [vm_compute; reflexivity|]).
  cbv zeta. do 2 (split; [vm_compute; reflexivity|]).
  eexists. split; [vm_compute; reflexivity|].
  split; vm_compute; reflexivity.
Qed.

(** C6, on the code: with exactly the 16 bytes of a header left in the
    staging memory and two entries waiting in the hot list, the drain
    stages nothing and reports size 0, finds the buffer not full, and
    writes the tail to the head register: both entries are handed back to
    the device unstaged. *)
Lemma drain_head_advance_failing_input :
  let w := demo_world (demo_device 8 0 2) 4096 4080 in
  exists w',
    cxl_hmu_update_aux true w = Ret 0 w' /\
    buf_base (buf w') = buf_base (buf w) /\
    aux_ended w' = [0] /\
    u16 (regs (dev w) !!! CHMU_INST0_HEAD_REG) = 0 /\
    u16 (regs (dev w') !!! CHMU_INST0_HEAD_REG) = 2 /\
    writes (dev w') = [(CHMU_INST0_HEAD_REG, 2)].
Proof.
  eexists. split; [vm_compute; reflexivity|]. vm_compute. auto 6.
Qed.

(** *** Configuration *)




Ltac simpl_info_goal :=
  cbn [dev hmu buf set_dev set_hmu set_buf
       pmu_type on_cpu hot_thresh hot_gran range_base range_num reporting_mode
       m2s_requests_to_track ds_factor_pow2 epoch_scale epoch_mult
       randomized_ds
       set_on_cpu set_hot_thresh set_hot_gran set_range_base set_range_num
       set_reporting_mode set_m2s_requests_to_track set_ds_factor_pow2
       set_epoch_scale set_epoch_mult set_randomized_ds].



Lemma u32_small x : 0 <= x < 2 ^ 32 -> u32 x = x.
Proof. intros H. unfold u32. now apply Z.mod_small. Qed.






(** *** Starting the unit *)
Lemma written_refl w : written w [] w.
Proof.
  exists (regs (dev w)). destruct w as [[] ? ? ? ? ? ? ?]. cbn.
  now rewrite app_nil_r.
Qed.

Lemma written_step w ws w' off val :
  written w ws w' ->
  written w (ws ++ [(off, val)])
    (set_dev (mk_device (<[off := val]> (regs (dev w'))) (status (dev w'))
                (status_feed (dev w')) (hotlist_mem (dev w'))
                (writes (dev w') ++ [(off, val)])) w').
Proof.
  intros (rg & ->). exists (<[off := val]> rg). cbn. now rewrite app_assoc.
Qed.

Lemma shl_ulong1_rem i : 0 <= i -> shl_ulong1 (Z.rem i 64) = Some (2 ^ Z.rem i 64).
Proof.
  intros Hi. unfold shl_ulong1.
  pose proof (Z.rem_bound_pos i 64 Hi ltac:(lia)) as H.
  destruct (0 <=? Z.rem i 64) eqn:E1; [|apply Z.leb_gt in E1; lia].
  destruct (Z.rem i 64 <=? 63) eqn:E2; [|apply Z.leb_gt in E2; lia].
  reflexivity.
Qed.


Lemma wp_poll_idle n (Q : Z -> world -> Prop) F w :
  n <> 0%nat -> status_feed (dev w) = [] ->
  FIELD_GET CHMU_INST0_STATUS_OP_INPROG_MSK (status (dev w)) = 0 ->
  Q 0 w -> wp (poll_inprog n) Q F w.
Proof.
  intros Hn Hfeed Hidle HQ. destruct n as [|n]; [done|].
  cbn [poll_inprog]. apply wp_bind, wp_readq_status.
  rewrite Hfeed. cbn [hd tl]. rewrite Hidle. cbn [Z.eqb]. apply wp_ret.
  destruct w as [[] ? ? ? ? ? ? ?]. cbn in *. now subst.
Qed.

Lemma not_enables_reset :
  ~ enables (CHMU_INST0_CFG0_REG, FIELD_PREP CHMU_INST0_CFG0_RESET_COUNTERS 1).
Proof. intros (_ & H). now apply H. Qed.

Lemma not_enables_other off val : off <> CHMU_INST0_CFG0_REG -> ~ enables (off, val).
Proof. intros Hoff (H & _). now apply Hoff. Qed.


(** A granule of 2^40 bytes asked of a unit that supports 4 KiB only: the
    support test shifts [1] by 32, which C leaves undefined, and
    [cxl_hmu_event_init] comes to nothing there, with the device as it
    was. *)
Lemma granule_shift_example :
  let w0 := demo_world (capable_device 40) 4096 0 in
  exists w1,
    cxl_hmu_event_init (demo_event 40 1) w0 = Oops w1 /\
    dev w1 = dev w0 /\
    requested_granule (regs (dev w0) !!! CHMU_INST0_CAP1_REG) (demo_event 40 1)
    = 40.
Proof.
  eexists. split; [vm_compute; reflexivity|]. split; vm_compute; reflexivity.
Qed.




End HmuFacts.
(** ** The hot list drain in every case *)

Module HmuDrainFacts.
Import Mach MachFacts Fault FaultFacts Hmu HmuFacts HmuDrain.

Lemma u16_range x : 0 <= u16 x < 2 ^ 16.
Proof. unfold u16. apply Z.mod_pos_bound. lia. Qed.

Lemma u16_idem x : u16 (u16 x) = u16 x.
Proof. unfold u16. apply Z.mod_mod. lia. Qed.

Lemma poke_nil p (mem : list Z) : poke p [] mem = mem.
Proof. unfold poke. cbn. rewrite Nat.add_0_r. apply take_drop. Qed.

Lemma list_top_range d : 0 <= list_top d < 2 ^ 16.
Proof.
  pose proof (FIELD_GET_range CHMU_INST0_CAP0_HOTLIST_SIZE_MSK
                (regs d !!! CHMU_INST0_CAP0_REG)) as H.
  cbn in H. unfold list_top. lia.
Qed.

Lemma pending_length d :
  list_head d < list_top d -> list_tail d < list_top d ->
  Z.of_nat (length (hotlist_mem d)) = list_top d * 8 ->
  Z.of_nat (length (pending d))
  = if list_head d <? list_tail d then (list_tail d - list_head d) * 8
    else if list_tail d <? list_head d
    then (list_top d - list_head d + list_tail d) * 8
    else 0.
Proof.
  intros Hh Ht Hm. unfold pending.
  pose proof (u16_range (regs d !!! CHMU_INST0_HEAD_REG)) as H1.
  pose proof (u16_range (regs d !!! CHMU_INST0_TAIL_REG)) as H2.
  fold (list_head d) in H1. fold (list_tail d) in H2.
  destruct (list_head d <? list_tail d) eqn:E1.
  - apply Z.ltb_lt in E1. rewrite length_take, length_drop. lia.
  - destruct (list_tail d <? list_head d) eqn:E2; [|done].
    apply Z.ltb_lt in E2. rewrite length_app, length_take, length_drop. lia.
Qed.

Lemma set_buf_same w :
  set_buf (mk_buf (buf_length (buf w)) (buf_base (buf w)) (buf_pos (buf w))) w
  = w.
Proof. now destruct w as [? ? [] ? ? ? ? ?]. Qed.

Ltac norm_world :=
  unfold advance, set_pos, set_buf, set_dev, set_hmu, set_hw_state;
  cbn [dev hmu buf handle_head aux_feed aux_ended poll_budget hw_state
       regs status status_feed hotlist_mem writes
       buf_length buf_base buf_pos].

(** The drain, whatever the state of the hot list. *)
Lemma drain_spec stop w :
  drainable w ->
  wp (cxl_hmu_update_aux stop) (drain_post stop w) (fun _ => False) w.
Proof.
  intros (Hh & Ht & Hmem & Hlen & Hpos & Hfit).
  set (d := dev w) in *. set (b := buf w) in *.
  pose proof (u16_range (regs d !!! CHMU_INST0_HEAD_REG)) as Hhr.
  pose proof (u16_range (regs d !!! CHMU_INST0_TAIL_REG)) as Htr.
  fold (list_head d) in Hhr. fold (list_tail d) in Htr.
  pose proof (list_top_range d) as Htop.
  pose proof (pending_length d Hh Ht Hmem) as Hpl.
  unfold sizeof_header in *.
  set (n := drained w).
  assert (Hn : n = Z.min (Z.of_nat (length (pending d)))
                 (buf_length b - buf_pos b - 16)) by reflexivity.
  set (w0 := set_dev (mk_device (regs d) (status d) (tl (status_feed d))
                        (hotlist_mem d) (writes d)) w).
  set (w1 := set_buf (mk_buf (buf_length b)
                        (poke (Z.to_nat (buf_pos b)) (packet w) (buf_base b))
                        (buf_pos b + Z.of_nat (length (packet w)))) w0).
  unfold cxl_hmu_update_aux. apply wp_body.
  apply wp_go_lift, wp_readq_reg; [done|].
  apply wp_go_lift, wp_readw. fold d (list_head d).
  apply wp_go_lift, wp_readw. fold d (list_tail d).
  apply wp_go_lift, wp_readq_status. fold d (next_width d) w0.
  apply wp_go_lift, wp_readq_reg; [done|].
  change (regs (dev w0)) with (regs d). fold (list_top d).
  apply wp_go_lift, wp_get_buf. change (buf w0) with b.
  apply wp_go.
  apply (wp_mono _ (fun x w' => x = Next (Z.of_nat (length (packet w)))
                                /\ w' = w1) _ (fun _ => False)).
  3: done.
  - (* the copies *)
    assert (Hplen : Z.of_nat (length (packet w))
                    = if n =? 0 then 0 else 16 + n).
    { unfold packet. fold n d. destruct (n =? 0) eqn:En; [done|].
      apply Z.eqb_neq in En.
      rewrite length_app, header_bytes_length, length_take. lia. }
    assert (Hw1 : forall base pos,
      base = poke (Z.to_nat (buf_pos b)) (packet w) (buf_base b) ->
      pos = buf_pos b + Z.of_nat (length (packet w)) ->
      set_buf (mk_buf (buf_length b) base pos) w0 = w1).
    { now intros base pos -> ->. }
    unfold sizeof_header.
    set (header := header_bytes
                     (Z.lor (FIELD_PREP CHMU_HEADER0_SIZE_MASK (n / 8))
                            (FIELD_PREP CHMU_HEADER0_COUNT_WIDTH (next_width d)))
                     3735928559).
    assert (Hhdr : length header = 16%nat) by reflexivity.
    assert (Hpacket : packet w
                      = if n =? 0 then []
                        else header ++ take (Z.to_nat n) (pending d))
      by reflexivity.
    destruct (list_head d <? list_tail d) eqn:E1.
    { (* tail > head *)
      apply Z.ltb_lt in E1.
      rewrite (u64_small ((list_tail d - list_head d) * 8)) by lia.
      rewrite (u64_small (buf_length b - buf_pos b - 16)) by lia.
      assert (Hn' : Z.min ((list_tail d - list_head d) * 8)
                      (buf_length b - buf_pos b - 16) = n) by lia.
      rewrite Hn'. fold header.
      assert (Hdata : take (Z.to_nat n) (pending d)
                      = take (Z.to_nat n)
                          (drop (Z.to_nat (list_head d * 8)) (hotlist_mem d))).
      { unfold pending. apply Z.ltb_lt in E1. rewrite E1.
        rewrite take_take. f_equal. lia. }
      destruct (n =? 0) eqn:En; cbn [negb].
      { apply wp_next. split; [now rewrite Hplen|].
        rewrite <- (set_buf_same w0).
        apply Hw1;
          [now rewrite Hpacket, poke_nil|now rewrite Hplen, Z.add_0_r]. }
      apply Z.eqb_neq in En.
      apply wp_go_lift, wp_stage;
        [exact Hpos | change (buf w0) with b; rewrite Hhdr; lia|].
      apply wp_go_lift, wp_put_buf.
      apply wp_go_lift, wp_hotlist_read;
        [lia|lia|unfold w0; simpl_world; fold d; lia|].
      unfold w0. simpl_world. fold d b. rewrite <- Hdata.
      set (data := take (Z.to_nat n) (pending d)).
      assert (Hd : length data = Z.to_nat n).
      { unfold data. rewrite length_take. lia. }
      apply wp_go_lift, wp_stage;
        [simpl_world; lia
        |simpl_world; rewrite poke_length by (rewrite Hhdr; lia);
         rewrite Hd; lia|].
      apply wp_go_lift, wp_put_buf. apply wp_next.
      split; [now rewrite Hplen|].
      unfold w1, w0. norm_world. fold d b. f_equal. f_equal.
      - rewrite Hpacket. fold data.
        replace (Z.to_nat (buf_pos b + 16))
          with (Z.to_nat (buf_pos b) + length header)%nat
          by (rewrite Hhdr; lia).
        apply poke_poke. rewrite Hhdr. lia.
      - rewrite Hplen. lia. }
    destruct (list_tail d <? list_head d) eqn:E2.
    2: { (* nothing waits *)
      assert (En : n = 0) by lia.
      apply wp_next. split; [now rewrite Hplen, En|].
      rewrite <- (set_buf_same w0).
      apply Hw1; [now rewrite Hpacket, En, poke_nil
                 |now rewrite Hplen, En, Z.add_0_r]. }
    (* wrap around *)
    apply Z.ltb_lt in E2.
    rewrite (u64_small ((list_top d - list_head d) * 8)) by lia.
    rewrite (u64_small (buf_length b - buf_pos b - 16)) by lia.
    rewrite (u64_small (list_tail d * 8)) by lia.
    set (t1 := Z.min ((list_top d - list_head d) * 8)
                 (buf_length b - buf_pos b - 16)).
    rewrite (u64_small (buf_length b - buf_pos b - t1 - 16)) by lia.
    set (t2 := Z.min (list_tail d * 8) (buf_length b - buf_pos b - t1 - 16)).
    assert (Hsum : t1 + t2 = n) by lia.
    rewrite Hsum. fold header.
    assert (Hsplit : take (Z.to_nat n) (pending d)
              = take (Z.to_nat t1)
                  (drop (Z.to_nat (list_head d * 8)) (hotlist_mem d))
                ++ take (Z.to_nat t2) (hotlist_mem d)).
    { rewrite <- Hsum. unfold pending. rewrite E1.
      apply Z.ltb_lt in E2. rewrite E2.
      apply (wrapped_take (hotlist_mem d)); lia. }
    apply wp_go.
    destruct (t1 =? 0) eqn:Et1; cbn [negb].
    { apply Z.eqb_eq in Et1.
      assert (Et2 : t2 = 0) by lia.
      assert (En : n = 0) by lia.
      apply wp_next. rewrite Et2. cbn [Z.eqb negb]. apply wp_next.
      split; [now rewrite Hplen, En|]. rewrite <- (set_buf_same w0).
      apply Hw1; [now rewrite Hpacket, En, poke_nil
                 |now rewrite Hplen, En, Z.add_0_r]. }
    apply Z.eqb_neq in Et1.
    assert (En : (n =? 0) = false) by (apply Z.eqb_neq; lia).
    rewrite En in Hplen, Hpacket.
    apply wp_go_lift, wp_stage;
      [exact Hpos | change (buf w0) with b; rewrite Hhdr; lia|].
    apply wp_go_lift, wp_put_buf.
    apply wp_go_lift, wp_hotlist_read;
      [lia|lia|unfold w0; simpl_world; fold d; lia|].
    unfold w0. simpl_world. fold d b.
    set (data1 := take (Z.to_nat t1)
                    (drop (Z.to_nat (list_head d * 8)) (hotlist_mem d))).
    assert (Hd1 : length data1 = Z.to_nat t1).
    { unfold data1. rewrite length_take, length_drop. lia. }
    apply wp_go_lift, wp_stage;
      [simpl_world; lia
      |simpl_world; rewrite poke_length by (rewrite Hhdr; lia);
       rewrite Hd1; lia|].
    apply wp_go_lift, wp_put_buf. apply wp_next.
    simpl_world.
    replace (Z.to_nat (buf_pos b + 16))
      with (Z.to_nat (buf_pos b) + length header)%nat by (rewrite Hhdr; lia).
    rewrite poke_poke by (rewrite Hhdr; lia).
    destruct (t2 =? 0) eqn:Et2; cbn [negb].
    { apply Z.eqb_eq in Et2. apply wp_next.
      split; [rewrite Hplen; f_equal; lia|].
      unfold w1. norm_world. fold d b. f_equal. f_equal.
      - rewrite Hpacket, Hsplit, Et2. fold data1.
        change (Z.to_nat 0) with 0%nat. now rewrite take_0, app_nil_r.
      - rewrite Hplen. lia. }
    apply Z.eqb_neq in Et2.
    apply wp_go_lift, wp_hotlist_read;
      [lia|lia|simpl_world; fold d; lia|].
    simpl_world. fold d.
    change (Z.to_nat 0) with 0%nat. rewrite drop_0.
    set (data2 := take (Z.to_nat t2) (hotlist_mem d)).
    assert (Hd2 : length data2 = Z.to_nat t2).
    { unfold data2. rewrite length_take. lia. }
    apply wp_go_lift, wp_stage;
      [simpl_world; lia
      |simpl_world;
       rewrite poke_length by (rewrite length_app, Hhdr, Hd1; lia);
       rewrite Hd2; lia|].
    apply wp_go_lift, wp_put_buf. apply wp_next.
    split; [rewrite Hplen; f_equal; lia|].
    unfold w1. norm_world. fold d b. f_equal. f_equal.
    + rewrite Hpacket, Hsplit. fold data1 data2.
      replace (Z.to_nat (buf_pos b + 16 + t1))
        with (Z.to_nat (buf_pos b) + length (header ++ data1))%nat
        by (rewrite length_app, Hhdr, Hd1; lia).
      rewrite poke_poke by (rewrite length_app, Hhdr, Hd1; lia).
      now rewrite <- app_assoc.
    + rewrite Hplen. lia.
  - (* the end *)
    intros x w' [-> ->].
    assert (Hplen : Z.of_nat (length (packet w))
                    = if n =? 0 then 0 else 16 + n).
    { unfold packet. fold n d. destruct (n =? 0) eqn:En; [done|].
      apply Z.eqb_neq in En.
      rewrite length_app, header_bytes_length, length_take. lia. }
    assert (Hp1 : 0 <= buf_pos b + Z.of_nat (length (packet w))
                  <= buf_length b).
    { rewrite Hplen. destruct (n =? 0) eqn:En; lia. }
    apply wp_go_lift, wp_aux_end.
    apply wp_go_lift, wp_get_buf.
    apply wp_go_return_if.
    unfold drain_post, fills. fold d b.
    cbn [buf w1 set_buf buf_pos buf_length].
    rewrite u64_small by lia.
    destruct (buf_pos b + Z.of_nat (length (packet w)) =? buf_length b)
      eqn:Efull.
    { cbn. done. }
    apply wp_go_lift. unfold writew. apply wp_writeq.
    assert (Hu : u16 (list_tail d) = list_tail d)
      by (unfold list_tail; apply u16_idem).
    rewrite Hu.
    destruct stop; cbn [negb].
    + apply wp_go, wp_next, wp_return. cbn. done.
    + apply wp_go, wp_go_lift. unfold wp at 1, perf_aux_output_begin.
      cbn [aux_feed w1 w0 set_buf set_dev].
      destruct (aux_feed w) as [|[hd0|] rest].
      * apply wp_return. cbn. done.
      * apply wp_set_cursor_last; [simpl_world; fold b; lia|].
        apply wp_return. cbn. done.
      * apply wp_return. cbn. done.
Qed.


Lemma drain_returns stop w :
  drainable w ->
  exists r w', cxl_hmu_update_aux stop w = Ret r w' /\ drain_post stop w r w'.
Proof. intros H. apply wp_exists. now apply drain_spec. Qed.

Lemma packet_length w :
  drainable w ->
  Z.of_nat (length (packet w))
  = (if drained w =? 0 then 0 else sizeof_header + drained w) /\
  0 <= drained w /\
  buf_pos (buf w) + Z.of_nat (length (packet w)) <= buf_length (buf w).
Proof.
  intros (Hh & Ht & Hmem & Hlen & Hpos & Hfit).
  assert (Hd : 0 <= drained w <= Z.of_nat (length (pending (dev w)))).
  { unfold drained, room. lia. }
  assert (Hr : drained w <= room (buf w)) by (unfold drained; lia).
  unfold packet. destruct (drained w =? 0) eqn:E.
  - cbn [length]. unfold room, sizeof_header in *. lia.
  - apply Z.eqb_neq in E.
    rewrite length_app, header_bytes_length, length_take.
    unfold room, sizeof_header in *. lia.
Qed.

(** *** The hot list has not wrapped *)

(** X16: with tail ahead of head, one drain returns, and stages under one
    header the bytes of the entries from [head] up to [tail],
    [(tail - head) * 8] of them, cut to the room left after the header; the
    header carries the number of entries staged and the counter width, and
    the size reported to perf is header plus data.  With no room left for
    data, nothing is staged. *)
Theorem drain_unwrapped stop w :
  let d := dev w in
  let b := buf w in
  let entries := take (Z.to_nat ((list_tail d - list_head d) * 8))
                   (drop (Z.to_nat (list_head d * 8)) (hotlist_mem d)) in
  let n := Z.min ((list_tail d - list_head d) * 8) (room b) in
  drainable w ->
  list_head d < list_tail d ->
  exists r w',
    cxl_hmu_update_aux stop w = Ret r w' /\
    aux_ended w' = aux_ended w ++ [if n =? 0 then 0 else sizeof_header + n] /\
    buf_base (buf w')
    = if n =? 0 then buf_base b
      else poke (Z.to_nat (buf_pos b))
             (header_bytes
                (Z.lor (FIELD_PREP CHMU_HEADER0_SIZE_MASK (n / 8))
                       (FIELD_PREP CHMU_HEADER0_COUNT_WIDTH (next_width d)))
                0xDEADBEEF
              ++ take (Z.to_nat n) entries)
             (buf_base b).
Proof.
  intros d b entries n Hok Hlt.
  destruct (drain_returns stop w Hok) as (r & w' & Hrun & Hend & Hbase & _).
  destruct (packet_length w Hok) as (Hplen & _).
  pose proof Hok as (Hh & Ht & Hmem & _).
  pose proof (pending_length (dev w) Hh Ht Hmem) as Hpl. fold d in Hpl.
  assert (Hpend : pending d = entries).
  { unfold pending. apply Z.ltb_lt in Hlt. now rewrite Hlt. }
  apply Z.ltb_lt in Hlt. rewrite Hlt in Hpl.
  assert (Hn : drained w = n).
  { unfold drained, n. fold d b. now rewrite Hpl. }
  exists r, w'. split; [exact Hrun|]. split.
  - rewrite Hend, Hplen, Hn. done.
  - rewrite Hbase. unfold packet. rewrite Hn. fold d b.
    destruct (n =? 0); [apply poke_nil|]. now rewrite Hpend.
Qed.

Lemma drain_unwrapped_witness :
  let w := demo_world (demo_device 8 2 5) 4096 0 in
  exists r w',
    cxl_hmu_update_aux true w = Ret r w' /\
    aux_ended w' = [sizeof_header + (5 - 2) * 8] /\
    words 5 (buf_base (buf w'))
    = [Z.lor 3 (Z.shiftl 16 16); 0xDEADBEEF;
       hot_entry 16 2 5; hot_entry 16 3 5; hot_entry 16 4 5].
Proof.
  intros w.
  destruct (drain_unwrapped true w) as (r & w' & Hrun & Hend & Hbase).
  - vm_compute. repeat split; try reflexivity; discriminate.
  - reflexivity.
  - exists r, w'. split; [exact Hrun|]. split.
    + rewrite Hend. vm_compute. reflexivity.
    + rewrite Hbase. vm_compute. reflexivity.
Defined.

(** *** Memory safety *)

Lemma poke_lookup_out p (src mem : list Z) (i : nat) :
  (p + length src <= length mem)%nat ->
  (i < p \/ p + length src <= i)%nat ->
  poke p src mem !! i = mem !! i.
Proof.
  intros Hfit Hi. unfold poke. destruct Hi as [Hlt|Hge].
  - rewrite lookup_app_l by (rewrite length_take; lia).
    now rewrite lookup_take_lt.
  - rewrite lookup_app_r by (rewrite length_take; lia).
    rewrite length_take, Nat.min_l by lia.
    rewrite lookup_app_r by lia.
    rewrite lookup_drop. f_equal. lia.
Qed.

(** X17: on a unit and a buffer that are in order, one drain never reads
    outside the hot list nor writes outside the staging memory: it returns,
    with 0 or -EINVAL; the staging memory keeps its length and changes only
    in the bytes from the cursor up to the size it reports to perf, which
    fits in the buffer; the hot list is left as it is; and the only
    register it can write is the head register, with the tail it read. *)
Theorem drain_is_safe stop w :
  drainable w ->
  exists r w' size,
    cxl_hmu_update_aux stop w = Ret r w' /\
    (r = 0 \/ r = - EINVAL) /\
    aux_ended w' = aux_ended w ++ [Z.of_nat size] /\
    buf_pos (buf w) + Z.of_nat size <= buf_length (buf w) /\
    length (buf_base (buf w')) = length (buf_base (buf w)) /\
    (forall i : nat,
       (Z.of_nat i < buf_pos (buf w)
        \/ buf_pos (buf w) + Z.of_nat size <= Z.of_nat i) ->
       buf_base (buf w') !! i = buf_base (buf w) !! i) /\
    hotlist_mem (dev w') = hotlist_mem (dev w) /\
    (writes (dev w') = writes (dev w) \/
     writes (dev w')
     = writes (dev w) ++ [(CHMU_INST0_HEAD_REG, list_tail (dev w))]).
Proof.
  intros Hok.
  destruct (drain_returns stop w Hok)
    as (r & w' & Hrun & Hend & Hbase & Hl & _ & _ & Hhot & _ & _ & Hrest).
  destruct (packet_length w Hok) as (Hplen & Hd & Hfit).
  pose proof Hok as (_ & _ & _ & Hlen & Hpos & _).
  exists r, w', (length (packet w)).
  split; [exact Hrun|].
  assert (Hin : (Z.to_nat (buf_pos (buf w)) + length (packet w)
                 <= length (buf_base (buf w)))%nat) by lia.
  split; [|split; [exact Hend|split; [exact Hfit|split; [|split; [|split]]]]].
  - destruct (fills w); [destruct Hrest as (-> & _); now right|].
    destruct Hrest as (_ & _ & Hrest).
    destruct stop; [destruct Hrest as (-> & _); now left|].
    destruct (aux_feed w) as [|[hd0|] rest];
      destruct Hrest as (-> & _); auto.
  - rewrite Hbase. now apply poke_length.
  - intros i Hi. rewrite Hbase. apply poke_lookup_out; [exact Hin|]. lia.
  - exact Hhot.
  - destruct (fills w); [destruct Hrest as (_ & _ & -> & _); now left|].
    destruct Hrest as (_ & -> & _). now right.
Qed.

Lemma drain_is_safe_witness :
  let w := demo_world (demo_device 8 6 2) 4096 4064 in
  exists r w' size,
    cxl_hmu_update_aux false w = Ret r w' /\
    (r = 0 \/ r = - EINVAL) /\
    aux_ended w' = [Z.of_nat size] /\
    4064 + Z.of_nat size <= 4096.
Proof.
  intros w.
  destruct (drain_is_safe false w)
    as (r & w' & size & Hrun & Hr & Hend & Hfit & _).
  - vm_compute. repeat split; try reflexivity; discriminate.
  - exists r, w', size. split; [exact Hrun|]. split; [exact Hr|].
    split; [exact Hend|]. exact Hfit.
Defined.

(** *** After the copy *)

(** X18: on a unit and a buffer that are in order (head and tail index
    the hot list, and a header fits after the cursor), when the packet just
    staged ends exactly at the end of the staging buffer, the drain returns
    -EINVAL and writes no register: the head of the hot list stays where it
    was.  Otherwise it writes the tail
    it read to the head register, and nothing else; with [stop] it then
    returns 0, and without it it asks perf for the buffer again and
    returns 0 with the cursor at [handle->head % length], or -EINVAL when
    perf hands out no buffer. *)
Theorem drain_head_and_restart stop w :
  drainable w ->
  exists r w',
    cxl_hmu_update_aux stop w = Ret r w' /\
    let size := Z.of_nat (length (packet w)) in
    if buf_pos (buf w) + size =? buf_length (buf w) then
      r = - EINVAL /\ writes (dev w') = writes (dev w) /\
      regs (dev w') = regs (dev w)
    else
      writes (dev w')
      = writes (dev w) ++ [(CHMU_INST0_HEAD_REG, list_tail (dev w))] /\
      list_head (dev w') = list_tail (dev w) /\
      if stop then r = 0 /\ buf_pos (buf w') = buf_pos (buf w) + size
      else match aux_feed w with
           | Some hd :: _ =>
               r = 0 /\ buf_pos (buf w') = hd mod buf_length (buf w)
           | _ => r = - EINVAL
           end.
Proof.
  intros Hok.
  destruct (drain_returns stop w Hok)
    as (r & w' & Hrun & _ & _ & _ & _ & _ & _ & _ & _ & Hrest).
  exists r, w'. split; [exact Hrun|]. cbv zeta.
  unfold fills in Hrest.
  destruct (buf_pos (buf w) + Z.of_nat (length (packet w))
            =? buf_length (buf w)).
  { destruct Hrest as (-> & -> & -> & _). done. }
  destruct Hrest as (Hregs & -> & Hrest). split; [done|]. split.
  { unfold list_head. rewrite Hregs, lookup_total_insert_eq.
    unfold list_tail. apply u16_idem. }
  destruct stop; [destruct Hrest as (-> & -> & _); done|].
  destruct (aux_feed w) as [|[hd0|] rest]; destruct Hrest as (-> & Hp & _);
    done.
Qed.

Lemma drain_head_and_restart_witness :
  let w := demo_world (demo_device 8 2 5) 40 0 in
  exists r w',
    cxl_hmu_update_aux true w = Ret r w' /\
    r = - EINVAL /\ writes (dev w') = [] /\ aux_ended w' = [40].
Proof.
  intros w.
  destruct (drain_head_and_restart true w) as (r & w' & Hrun & Hrest).
  - vm_compute. repeat split; try reflexivity; discriminate.
  - exists r, w'. split; [exact Hrun|].
    change (buf_pos (buf w) + Z.of_nat (length (packet w))
            =? buf_length (buf w)) with true in Hrest.
    destruct Hrest as (Hr & Hw & _). split; [exact Hr|]. split; [exact Hw|].
    assert (E : w' = state_of (cxl_hmu_update_aux true w)) by now rewrite Hrun.
    rewrite E. vm_compute. reflexivity.
Defined.

(** *** Nothing to drain *)

(** X19: with head equal to tail the hot list is empty: the drain copies
    nothing, leaves the staging memory and the cursor as they are, reports
    size 0 to perf, and writes the head register with the value it has. *)
Theorem drain_empty w :
  drainable w ->
  list_head (dev w) = list_tail (dev w) ->
  exists w',
    cxl_hmu_update_aux true w = Ret 0 w' /\
    buf w' = buf w /\
    aux_ended w' = aux_ended w ++ [0] /\
    writes (dev w')
    = writes (dev w) ++ [(CHMU_INST0_HEAD_REG, list_head (dev w))] /\
    list_head (dev w') = list_head (dev w) /\
    list_tail (dev w') = list_tail (dev w).
Proof.
  intros Hok Heq.
  destruct (drain_returns true w Hok)
    as (r & w' & Hrun & Hend & Hbase & Hl & _ & _ & _ & _ & _ & Hrest).
  pose proof Hok as (_ & _ & _ & _ & Hpos & Hfit).
  assert (Hp : packet w = []).
  { unfold packet, drained, pending. rewrite Heq, Z.ltb_irrefl. cbn [length].
    unfold room. rewrite Z.min_l by lia. done. }
  unfold fills in Hrest. rewrite Hp in *. cbn [length] in *.
  rewrite Z.add_0_r in Hrest.
  assert (Hnf : (buf_pos (buf w) =? buf_length (buf w)) = false)
    by (apply Z.eqb_neq; unfold sizeof_header in *; lia).
  rewrite Hnf in Hrest.
  destruct Hrest as (Hregs & Hw & -> & Hpos' & _).
  exists w'. split; [exact Hrun|]. split; [|split; [exact Hend|split]].
  - rewrite poke_nil in Hbase.
    destruct (buf w') as [l' b' p'], (buf w) as [l0 b0 p0].
    cbn in *. congruence.
  - now rewrite Hw, Heq.
  - unfold list_head, list_tail. rewrite Hregs.
    rewrite lookup_total_insert_eq, lookup_total_insert_ne by done.
    fold (list_head (dev w)) (list_tail (dev w)).
    split; [|done]. rewrite <- Heq. unfold list_head. apply u16_idem.
Qed.

Lemma drain_empty_witness :
  let w := demo_world (demo_device 8 3 3) 4096 0 in
  exists w',
    cxl_hmu_update_aux true w = Ret 0 w' /\
    buf w' = buf w /\ aux_ended w' = [0] /\
    writes (dev w') = [(CHMU_INST0_HEAD_REG, 3)].
Proof.
  intros w.
  destruct (drain_empty w) as (w' & Hrun & Hbuf & Hend & Hw & _).
  - vm_compute. repeat split; try reflexivity; discriminate.
  - reflexivity.
  - exists w'. split; [exact Hrun|]. split; [exact Hbuf|].
    split; [exact Hend|]. exact Hw.
Defined.

End HmuDrainFacts.
(** ** Starting the unit *)

Module HmuStartFacts.
Import Mach MachFacts Fault FaultFacts BitFacts Hmu HmuFacts HmuStart.

(** *** The range bitmap *)

Lemma range_word_bit lo_ hi_ k j :
  0 <= j ->
  Z.testbit (range_word lo_ hi_ k) j
  = (j <? 64) && (lo_ <=? 64 * k + j) && (64 * k + j <? hi_).
Proof.
  intros Hj. unfold range_word.
  rewrite Z.ldiff_spec, !Z.testbit_ones_nonneg by lia.
  destruct (Z.ltb_spec j (Z.min 64 (Z.max 0 (hi_ - 64 * k))));
    destruct (Z.ltb_spec j (Z.max 0 (lo_ - 64 * k)));
    destruct (Z.ltb_spec j 64);
    destruct (Z.leb_spec lo_ (64 * k + j));
    destruct (Z.ltb_spec (64 * k + j) hi_); cbn; lia || reflexivity.
Qed.

Ltac bitwise :=
  apply Z.bits_inj'; intros ?j ?Hj;
  rewrite ?Z.lor_spec, ?range_word_bit, ?Z.pow2_bits_eqb, ?Z.bits_0 by lia;
  repeat match goal with
  | |- context [?a <? ?b] => destruct (Z.ltb_spec a b)
  | |- context [?a <=? ?b] => destruct (Z.leb_spec a b)
  | |- context [?a =? ?b] => destruct (Z.eqb_spec a b)
  end; cbn; lia || reflexivity.

(** The word in the making grows by the bit of [i]. *)
Lemma range_word_step lo_ i :
  0 <= lo_ <= i ->
  Z.lor (range_word lo_ i (i / 64)) (2 ^ (i mod 64))
  = range_word lo_ (i + 1) (i / 64).
Proof.
  intros Hi.
  pose proof (Z.mod_pos_bound i 64 ltac:(lia)).
  pose proof (Z.div_mod i 64 ltac:(lia)).
  bitwise.
Qed.

(** A word that is complete does not change when the range grows. *)
Lemma range_word_full lo_ hi_ hi' k :
  64 * (k + 1) <= hi_ -> 64 * (k + 1) <= hi' ->
  range_word lo_ hi_ k = range_word lo_ hi' k.
Proof. intros H1 H2. bitwise. Qed.

(** A word that starts at or after the end of the range is zero. *)
Lemma range_word_none lo_ hi_ k : hi_ <= 64 * k -> range_word lo_ hi_ k = 0.
Proof. intros H. bitwise. Qed.

Lemma quot_rem_nonneg i :
  0 <= i -> Z.quot i 64 = i / 64 /\ Z.rem i 64 = i mod 64.
Proof.
  intros Hi. split; [apply Z.quot_div_nonneg|apply Z.rem_mod_nonneg]; lia.
Qed.

(** The loop of [__cxl_hmu_start] over the range: it writes, in order,
    every word that is complete, and leaves with the word in the making. *)
Lemma bitmap_loop_spec bb lo_ hi_ n : forall i w0 ws w,
  0 <= lo_ <= i -> i + Z.of_nat n = hi_ -> hi_ < 2 ^ 31 ->
  written w0 ws w ->
  wp (bitmap_loop n bb i (range_word lo_ i (i / 64)))
     (fun x w' =>
        x = Next (hi_, range_word lo_ hi_ (hi_ / 64)) /\
        written w0
          (ws ++ ((fun k => (bb + k * 8, range_word lo_ hi_ k))
                    <$> seqZ (i / 64) (hi_ / 64 - i / 64)))
          w')
     (fun _ => False) w.
Proof.
  induction n as [|n IH]; intros i w0 ws w Hi Hn Hhi Hw.
  - apply wp_next. assert (i = hi_) as -> by lia.
    rewrite Z.sub_diag. cbn. now rewrite app_nil_r.
  - cbn [bitmap_loop]. apply wp_go. unfold shift_ulong1.
    rewrite shl_ulong1_rem by lia. apply wp_next.
    destruct (quot_rem_nonneg i ltac:(lia)) as [Hq Hr]. rewrite Hq, Hr.
    assert (Hs : s32 (i + 1) = i + 1) by (apply s32_small; lia).
    rewrite Hs, range_word_step by lia.
    pose proof (Z.mod_pos_bound i 64 ltac:(lia)) as Hm.
    pose proof (Z.div_mod i 64 ltac:(lia)) as Hdm.
    destruct (i mod 64 =? 63) eqn:E.
    + apply Z.eqb_eq in E.
      assert (Hnext : (i + 1) / 64 = i / 64 + 1).
      { symmetry. apply Z.div_unique with (r := 0); lia. }
      apply wp_go, wp_go_lift, wp_writeq, wp_next.
      assert (H0 : 0 = range_word lo_ (i + 1) ((i + 1) / 64)).
      { symmetry. apply range_word_none. lia. }
      rewrite H0.
      eapply wp_mono;
        [apply (IH (i + 1) w0
                  (ws ++ [(bb + i / 64 * 8, range_word lo_ (i + 1) (i / 64))]));
         [lia|lia|lia|now apply written_step]| |done].
      intros x w' (-> & Hw'). split; [done|].
      assert (Hle : i / 64 + 1 <= hi_ / 64).
      { rewrite <- Hnext. apply Z.div_le_mono; lia. }
      rewrite (seqZ_cons (i / 64)) by lia. rewrite fmap_cons.
      rewrite (range_word_full lo_ hi_ (i + 1) (i / 64)) by lia.
      rewrite <- app_assoc in Hw'. cbn [app] in Hw'.
      rewrite Hnext in Hw'.
      replace (Z.pred (hi_ / 64 - i / 64)) with (hi_ / 64 - (i / 64 + 1))
        by lia.
      exact Hw'.
    + apply Z.eqb_neq in E.
      assert (Hnext : (i + 1) / 64 = i / 64).
      { symmetry. apply Z.div_unique with (r := i mod 64 + 1); lia. }
      apply wp_go, wp_next. rewrite <- Hnext at 1.
      eapply wp_mono; [apply (IH (i + 1) w0 ws); [lia|lia|lia|exact Hw]| |done].
      intros x w' (-> & Hw'). split; [done|]. now rewrite Hnext in Hw'.
Qed.


Lemma written_writes w ws w' :
  written w ws w' -> writes (dev w') = writes (dev w) ++ ws.
Proof. now intros (rg & ->). Qed.

Lemma wp_exists_ret {A} (m : M A) (r : A) (Q : world -> Prop) w :
  wp m (fun a w' => a = r /\ Q w') (fun _ => False) w ->
  exists w', m w = Ret r w' /\ Q w'.
Proof.
  unfold wp. destruct (m w) as [a w'|]; [|done].
  intros [-> H]. now exists w'.
Qed.

(** *** Giving up before the unit is programmed *)

Lemma wp_poll_busy n (Q : Z -> world -> Prop) F w :
  status_feed (dev w) = [] ->
  FIELD_GET CHMU_INST0_STATUS_OP_INPROG_MSK (status (dev w)) <> 0 ->
  Q (- ETIMEDOUT) w -> wp (poll_inprog n) Q F w.
Proof.
  intros Hfeed Hbusy HQ. induction n as [|n IH]; [now apply wp_ret|].
  cbn [poll_inprog]. apply wp_bind, wp_readq_status.
  rewrite Hfeed. cbn [List.hd List.tl]. apply Z.eqb_neq in Hbusy.
  rewrite Hbusy.
  assert (E : set_dev (mk_device (regs (dev w)) (status (dev w)) []
                         (hotlist_mem (dev w)) (writes (dev w))) w = w).
  { destruct w as [[] ? ? ? ? ? ? ?]. cbn in *. now subst. }
  rewrite E. exact IH.
Qed.

Lemma status_read_same w :
  status_feed (dev w) = [] ->
  set_dev (mk_device (regs (dev w)) (status (dev w)) (tl (status_feed (dev w)))
             (hotlist_mem (dev w)) (writes (dev w))) w = w.
Proof. intros H. destruct w as [[] ? ? ? ? ? ? ?]. cbn in *. now subst. Qed.

Lemma wp_faults {A} (m : M A) (P : world -> Prop) w :
  wp m (fun _ _ => False) P w -> exists w', m w = Oops w' /\ P w'.
Proof. unfold wp. destruct (m w) as [a w'|w']; [done|eauto]. Qed.

(** X20: [__cxl_hmu_start] sets [hw.state] to 0 and then, with the status
    steady, gives up without a register write when the unit is enabled
    already (-EBUSY, and nothing else has changed) or when perf hands out
    no AUX buffer (-EINVAL, with the device and the buffer as they were).
    When perf hands out a buffer of length 0 the cursor computation divides
    by zero: the call faults, before any register write.  With a buffer of
    some length, when the counter reset does not finish within the polling
    budget it returns -ETIMEDOUT after that one write: nothing else has been
    programmed, and the unit has not been enabled. *)
Theorem start_gives_up_early event w :
  let d := dev w in
  status_feed d = [] ->
  (FIELD_GET CHMU_INST0_STATUS_ENABLED (status d) <> 0 ->
   __cxl_hmu_start event w = Ret (- EBUSY) (set_hw_state 0 w)) /\
  (FIELD_GET CHMU_INST0_STATUS_ENABLED (status d) = 0 ->
   (forall hd rest, aux_feed w <> Some hd :: rest) ->
   exists w',
     __cxl_hmu_start event w = Ret (- EINVAL) w' /\
     dev w' = d /\ buf w' = buf w /\ hw_state w' = 0) /\
  (FIELD_GET CHMU_INST0_STATUS_ENABLED (status d) = 0 ->
   (exists hd rest, aux_feed w = Some hd :: rest) ->
   buf_length (buf w) = 0 ->
   exists w', __cxl_hmu_start event w = Oops w' /\ dev w' = d) /\
  (FIELD_GET CHMU_INST0_STATUS_ENABLED (status d) = 0 ->
   (exists hd rest, aux_feed w = Some hd :: rest) ->
   buf_length (buf w) <> 0 ->
   FIELD_GET CHMU_INST0_STATUS_OP_INPROG_MSK (status d) <> 0 ->
   exists w',
     __cxl_hmu_start event w = Ret (- ETIMEDOUT) w' /\
     hw_state w' = 0 /\
     writes (dev w')
     = writes d ++ [(CHMU_INST0_CFG0_REG,
                     FIELD_PREP CHMU_INST0_CFG0_RESET_COUNTERS 1)]).
Proof.
  intros d Hfeed.
  set (w0 := set_hw_state 0 w).
  pose proof (status_read_same w0 Hfeed) as Hsame.
  change (dev w0) with d in Hsame.
  split; [|split; [|split]].
  - intros Hen. apply wp_ret_inv. unfold __cxl_hmu_start. apply wp_body.
    apply wp_go_lift, wp_readq_reg; [done|].
    apply wp_go_lift, wp_put_hw_state. fold w0.
    apply wp_go_lift, wp_readq_status. change (dev w0) with d.
    rewrite Hsame, Hfeed.
    cbn [List.hd]. apply wp_go_return_if.
    apply Z.eqb_neq in Hen. rewrite Hen. done.
  - intros Hen Haux. apply wp_exists_ret. unfold __cxl_hmu_start. apply wp_body.
    apply wp_go_lift, wp_readq_reg; [done|].
    apply wp_go_lift, wp_put_hw_state. fold w0.
    apply wp_go_lift, wp_readq_status. change (dev w0) with d.
    rewrite Hsame, Hfeed.
    cbn [List.hd]. apply wp_go_return_if. rewrite Hen. cbn [Z.eqb negb].
    apply wp_go_lift, wp_put_hmu.
    apply wp_go_lift. unfold wp at 1, perf_aux_output_begin.
    unfold w0. simpl_world.
    destruct (aux_feed w) as [|[hd0|] rest] eqn:Eaux.
    + apply wp_go, wp_return. done.
    + now destruct (Haux hd0 rest).
    + apply wp_go, wp_return. done.
  - intros Hen (hd0 & rest & Haux) Hlen.
    apply wp_faults. unfold __cxl_hmu_start. apply wp_body.
    apply wp_go_lift, wp_readq_reg; [done|].
    apply wp_go_lift, wp_put_hw_state. fold w0.
    apply wp_go_lift, wp_readq_status. change (dev w0) with d.
    rewrite Hsame, Hfeed.
    cbn [List.hd]. apply wp_go_return_if. rewrite Hen. cbn [Z.eqb negb].
    apply wp_go_lift, wp_put_hmu.
    apply wp_go_lift. unfold wp at 1, perf_aux_output_begin.
    unfold w0. simpl_world. rewrite Haux.
    apply wp_go, wp_next.
    apply wp_go_lift, wp_get_buf. simpl_world. rewrite Hlen.
    apply wp_go. unfold rem_ulong. cbn [Z.eqb]. now apply wp_undefined.
  - intros Hen (hd0 & rest & Haux) Hlen Hbusy.
    apply wp_exists_ret. unfold __cxl_hmu_start. apply wp_body.
    apply wp_go_lift, wp_readq_reg; [done|].
    apply wp_go_lift, wp_put_hw_state. fold w0.
    apply wp_go_lift, wp_readq_status. change (dev w0) with d.
    rewrite Hsame, Hfeed.
    cbn [List.hd]. apply wp_go_return_if. rewrite Hen. cbn [Z.eqb negb].
    apply wp_go_lift, wp_put_hmu.
    apply wp_go_lift. unfold wp at 1, perf_aux_output_begin.
    unfold w0. simpl_world. rewrite Haux.
    apply wp_go, wp_next.
    apply wp_set_cursor; [exact Hlen|].
    apply wp_go_lift, wp_writeq.
    apply wp_go_lift. unfold wp at 1, get.
    apply wp_go_lift, wp_poll_busy; [exact Hfeed|exact Hbusy|].
    apply wp_go_return_if. cbn [Z.eqb negb]. done.
Qed.

Lemma start_gives_up_early_witness :
  let d := mk_device ∅ 1 [] [] [] in
  let w := set_hw_state 3 (demo_world d 4096 0) in
  __cxl_hmu_start (demo_event 12 1) w = Ret (- EBUSY) (demo_world d 4096 0).
Proof.
  intros d w.
  destruct (start_gives_up_early (demo_event 12 1) w) as (H & _).
  - reflexivity.
  - apply H. vm_compute. discriminate.
Defined.

(** *** Programming the unit *)

Lemma range_word_empty lo_ k : range_word lo_ lo_ k = 0.
Proof. bitwise. Qed.

Lemma bitmap_writes_split bb lo_ hi_ :
  0 <= lo_ <= hi_ ->
  bitmap_writes bb lo_ hi_
  = ((fun k => (bb + k * 8, range_word lo_ hi_ k))
       <$> seqZ (lo_ / 64) (hi_ / 64 - lo_ / 64))
    ++ [(bb + hi_ / 64 * 8, range_word lo_ hi_ (hi_ / 64))].
Proof.
  intros H. unfold bitmap_writes.
  assert (Hle : lo_ / 64 <= hi_ / 64) by (apply Z.div_le_mono; lia).
  rewrite seqZ_app by lia. rewrite fmap_app. f_equal.
  rewrite (seqZ_cons _ 1), seqZ_nil by lia. cbn.
  do 3 f_equal; lia.
Qed.

Lemma bitmap_loop_zero bb lo_ hi_ n w0 ws w :
  0 <= lo_ -> lo_ + Z.of_nat n = hi_ -> hi_ < 2 ^ 31 ->
  written w0 ws w ->
  wp (bitmap_loop n bb lo_ 0)
     (fun x w' =>
        x = Next (hi_, range_word lo_ hi_ (hi_ / 64)) /\
        written w0
          (ws ++ ((fun k => (bb + k * 8, range_word lo_ hi_ k))
                    <$> seqZ (lo_ / 64) (hi_ / 64 - lo_ / 64)))
          w')
     (fun _ => False) w.
Proof.
  intros Hlo Hn Hhi Hw.
  pose proof (bitmap_loop_spec bb lo_ hi_ n lo_ w0 ws w
                ltac:(lia) Hn Hhi Hw) as H.
  now rewrite range_word_empty in H.
Qed.

(** [__cxl_hmu_start] on an idle unit, with a buffer to be had. *)
Lemma start_spec event w hh rest :
  let d := dev w in
  let h := hmu w in
  let width := FIELD_GET CHMU_INST0_STATUS_COUNTER_WIDTH_MSK (status d) in
  let bb := regs d !!! CHMU_INST0_RANGE_BITMAP_OFFSET_REG in
  let top := FIELD_GET CHMU_INST0_CAP0_HOTLIST_SIZE_MSK
               (regs d !!! CHMU_INST0_CAP0_REG) in
  let fits := hot_thresh h <? 2 ^ (64 - width) in
  idle d ->
  poll_budget w <> 0%nat ->
  aux_feed w = Some hh :: rest ->
  buf_length (buf w) <> 0 ->
  0 <= range_base h -> 0 <= range_num h ->
  range_base h + range_num h < 2 ^ 31 ->
  33 <= width <= 64 ->
  exists r w',
    __cxl_hmu_start event w = Ret r w' /\
    r = (if fits then 0 else - EINVAL) /\
    hmu w' = set_on_cpu (cpu event) h /\
    buf w' = set_pos (hh mod buf_length (buf w)) (buf w) /\
    handle_head w' = hh /\ aux_feed w' = rest /\
    aux_ended w' = aux_ended w /\
    writes (dev w')
    = writes d
      ++ [(CHMU_INST0_CFG0_REG, FIELD_PREP CHMU_INST0_CFG0_RESET_COUNTERS 1);
          (CHMU_INST0_CFG1_REG, cfg1_of h)]
      ++ bitmap_writes bb (range_base h) (range_base h + range_num h)
      ++ [(CHMU_INST0_CFG2_REG,
           FIELD_PREP CHMU_INST0_CFG2_FILLTHRESH_THRESHOLD_MSK (top / 2))]
      ++ (if fits then [(CHMU_INST0_CFG0_REG, cfg0_of h)] else []).
Proof.
  intros d h width bb top fits (Hfeed & Hdis & Hidle) Hbudget Haux Hlen Hrb Hrn
    Hr31 Hwidth.
  apply wp_exists. unfold __cxl_hmu_start. apply wp_body.
  apply wp_go_lift, wp_readq_reg; [done|]. fold d top.
  apply wp_go_lift, wp_put_hw_state.
  apply wp_go_lift, wp_readq_status. simpl_world. fold d.
  rewrite Hfeed. cbn [List.hd List.tl].
  apply wp_go_return_if. rewrite Hdis. cbn [Z.eqb negb].
  apply wp_go_lift, wp_put_hmu.
  apply wp_go_lift. unfold wp at 1, perf_aux_output_begin.
  simpl_world. rewrite Haux.
  apply wp_go, wp_next.
  apply wp_set_cursor; [exact Hlen|].
  apply wp_go_lift, wp_writeq.
  apply wp_go_lift. unfold wp at 1, get.
  apply wp_go_lift, wp_poll_idle; [exact Hbudget|reflexivity|exact Hidle|].
  apply wp_go_return_if. cbn [Z.eqb negb].
  apply wp_go_lift, wp_get_hmu.
  apply wp_go_lift, wp_writeq.
  apply wp_go_lift, wp_readq_reg; [done|].
  simpl_world. simpl_info_goal. fold d h.
  rewrite !lookup_total_insert_ne by done. fold bb.
  rewrite (u32_small (range_base h + range_num h)) by lia.
  rewrite (s32_small (range_base h)) by lia.
  replace (range_base h + range_num h - range_base h) with (range_num h)
    by lia.
  match goal with |- wp _ _ _ ?W => set (wc := W) end.
  apply wp_go.
  eapply wp_mono;
    [apply (bitmap_loop_zero bb (range_base h)
              (range_base h + range_num h) _ wc [] wc);
     [lia|lia|lia|apply written_refl]| |done].
  intros x w1 (-> & (rg & ->)). cbn [app fst snd].
  rewrite (proj1 (quot_rem_nonneg (range_base h + range_num h) ltac:(lia))).
  apply wp_go_lift, wp_writeq.
  apply wp_go_lift, wp_writeq.
  apply wp_go_lift, wp_readq_status.
  subst wc. simpl_world. cbn [List.hd List.tl]. fold width.
  apply wp_go. unfold shift_int1, shl_int1.
  destruct (0 <=? 64 - width) eqn:E1; [|apply Z.leb_gt in E1; lia].
  destruct (64 - width <=? 31) eqn:E2; [|apply Z.leb_gt in E2; lia].
  cbn [andb]. apply wp_next.
  apply wp_go_return_if.
  assert (Hfits : (2 ^ (64 - width) <=? hot_thresh h) = negb fits).
  { unfold fits. apply Z.leb_antisym. }
  rewrite Hfits.
  rewrite (bitmap_writes_split bb) by lia.
  destruct fits; cbn [negb].
  - apply wp_go_lift, wp_writeq.
    apply wp_go_lift. unfold wp at 1, get.
    apply wp_go_lift, wp_poll_idle; [exact Hbudget|reflexivity|exact Hidle|].
    apply wp_go_return_if. cbn [Z.eqb negb]. apply wp_return.
    simpl_world. repeat (split; [reflexivity|]).
    rewrite <- !app_assoc. reflexivity.
  - simpl_world. repeat (split; [reflexivity|]).
    rewrite <- !app_assoc. reflexivity.
Qed.


(** X21: on a unit that is disabled and idle, with perf handing out a
    buffer of some length, a counter width of 33 to 64 and a range of
    non-negative base and size that ends below 2^31, [__cxl_hmu_start]
    writes the range bitmap right
    after the second configuration register: one 64-bit word for each word
    index from [range_base / 64] up to [(range_base + range_num) / 64], in
    that order, at 8 bytes per word from the bitmap base; and in word [k]
    bit [j] is set exactly when bit [64 k + j] of the bitmap lies in the
    range from [range_base] up to, not including, [range_base + range_num].
    The last of these words is all zero when the range ends on a word
    boundary. *)
Theorem start_programs_range_bitmap event w hh rest :
  let d := dev w in
  let h := hmu w in
  let width := FIELD_GET CHMU_INST0_STATUS_COUNTER_WIDTH_MSK (status d) in
  let bb := regs d !!! CHMU_INST0_RANGE_BITMAP_OFFSET_REG in
  let lo_ := range_base h in
  let hi_ := range_base h + range_num h in
  idle d ->
  poll_budget w <> 0%nat ->
  aux_feed w = Some hh :: rest ->
  buf_length (buf w) <> 0 ->
  0 <= range_base h -> 0 <= range_num h ->
  range_base h + range_num h < 2 ^ 31 ->
  33 <= width <= 64 ->
  exists r w' cfg1 bits after,
    __cxl_hmu_start event w = Ret r w' /\
    writes (dev w')
    = writes d
      ++ [(CHMU_INST0_CFG0_REG, FIELD_PREP CHMU_INST0_CFG0_RESET_COUNTERS 1);
          (CHMU_INST0_CFG1_REG, cfg1)]
      ++ bits ++ after /\
    fst <$> bits
    = (fun k => bb + k * 8) <$> seqZ (lo_ / 64) (hi_ / 64 - lo_ / 64 + 1) /\
    (forall (i : nat) off val, bits !! i = Some (off, val) ->
       forall j, 0 <= j < 64 ->
         Z.testbit val j
         = (lo_ <=? 64 * (lo_ / 64 + Z.of_nat i) + j)
           && (64 * (lo_ / 64 + Z.of_nat i) + j <? hi_)) /\
    (hi_ mod 64 = 0 -> snd <$> last bits = Some 0).
Proof.
  intros d h width bb lo_ hi_ Hidle Hbudget Haux Hlen Hrb Hrn Hr31 Hwidth.
  destruct (start_spec event w hh rest Hidle Hbudget Haux Hlen Hrb Hrn Hr31
              Hwidth)
    as (r & w' & Hrun & _ & _ & _ & _ & _ & _ & Hw).
  fold d h bb lo_ hi_ in Hw.
  eexists r, w', _, (bitmap_writes bb lo_ hi_), _.
  split; [exact Hrun|]. split; [exact Hw|]. split; [|split].
  - unfold bitmap_writes. rewrite <- list_fmap_compose. reflexivity.
  - intros i off val Hi j Hj. unfold bitmap_writes in Hi.
    apply list_lookup_fmap_Some in Hi as (k & Heq & Hk).
    apply lookup_seqZ in Hk as (-> & _). injection Heq as _ ->.
    rewrite range_word_bit by lia.
    destruct (Z.ltb_spec j 64); [|lia]. reflexivity.
  - intros Hmod. rewrite bitmap_writes_split by (unfold lo_, hi_; lia).
    rewrite last_snoc. cbn. f_equal. apply range_word_none.
    pose proof (Z.div_mod hi_ 64 ltac:(lia)). lia.
Qed.

Lemma start_programs_range_bitmap_witness :
  let w := state_of (cxl_hmu_event_init (demo_event 12 1)
                       (demo_world (capable_device 40) 4096 0)) in
  exists r w',
    __cxl_hmu_start (demo_event 12 1) w = Ret r w' /\
    writes (dev w')
    = [(CHMU_INST0_CFG0_REG, 0x20000);
       (CHMU_INST0_CFG1_REG, 0x4400000000000C);
       (0x80, 0xFFFFFFFFFFFFFFFF);
       (0x88, 0);
       (CHMU_INST0_CFG2_REG, 4);
       (CHMU_INST0_CFG0_REG, 0x100010606)].
Proof.
  intros w.
  destruct (start_programs_range_bitmap (demo_event 12 1) w 0 [])
    as (r & w' & cfg1 & bits & after & Hrun & _).
  - vm_compute. done.
  - vm_compute. discriminate.
  - reflexivity.
  - vm_compute. discriminate.
  - vm_compute. discriminate.
  - vm_compute. discriminate.
  - vm_compute. reflexivity.
  - vm_compute. split; discriminate.
  - exists r, w'. split; [exact Hrun|].
    assert (E : w' = state_of (__cxl_hmu_start (demo_event 12 1) w))
      by now rewrite Hrun.
    rewrite E. vm_compute. reflexivity.
Defined.


(** *** What the registers say after a start *)

Lemma mask_bit f j :
  0 <= lo f <= hi f -> 0 <= j ->
  Z.testbit (mask f) j = (lo f <=? j) && (j <=? hi f).
Proof.
  intros Hf Hj. unfold mask. rewrite Z.shiftl_spec by lia.
  destruct (Z.leb_spec (lo f) j).
  - rewrite Z.testbit_ones_nonneg by lia.
    destruct (Z.ltb_spec (j - lo f) (hi f - lo f + 1));
      destruct (Z.leb_spec j (hi f)); cbn; lia || reflexivity.
  - rewrite Z.testbit_neg_r by lia. reflexivity.
Qed.

Lemma FIELD_PREP_bit f v j :
  0 <= lo f <= hi f -> 0 <= j ->
  Z.testbit (FIELD_PREP f v) j
  = (lo f <=? j) && (j <=? hi f) && Z.testbit v (j - lo f).
Proof.
  intros Hf Hj. unfold FIELD_PREP.
  rewrite Z.land_spec, mask_bit, Z.shiftl_spec by lia.
  now rewrite andb_comm.
Qed.

Lemma FIELD_GET_bit f r j :
  0 <= lo f <= hi f -> 0 <= j ->
  Z.testbit (FIELD_GET f r) j = Z.testbit r (j + lo f) && (j + lo f <=? hi f).
Proof.
  intros Hf Hj. unfold FIELD_GET.
  rewrite Z.shiftr_spec, Z.land_spec, mask_bit by lia.
  destruct (Z.leb_spec (lo f) (j + lo f)); [|lia]. reflexivity.
Qed.

(** A field of a register made of fields reads back as the value put in
    it, when the value fits. *)
Ltac field_bits :=
  apply Z.bits_inj'; intros ?j ?Hj;
  rewrite FIELD_GET_bit by (cbn; lia);
  rewrite ?Z.lor_spec;
  rewrite ?FIELD_PREP_bit by (cbn; lia);
  cbn [lo hi BIT
       CHMU_INST0_CFG0_WHAT_MSK CHMU_INST0_CFG0_RAND_DOWNSAMP_EN
       CHMU_INST0_CFG0_OVRFLW_INT_EN CHMU_INST0_CFG0_FILLTHRESH_INT_EN
       CHMU_INST0_CFG0_ENABLE CHMU_INST0_CFG0_HOTNESS_THRESH_MSK
       CHMU_INST0_CFG1_UNIT_SIZE_MSK CHMU_INST0_CFG1_DS_FACTOR_MSK
       CHMU_INST0_CFG1_MODE_MSK CHMU_INST0_CFG1_EPOCH_SCALE_MSK
       CHMU_INST0_CFG1_EPOCH_MULT_MSK];
  repeat match goal with
  | |- context [?a <=? ?b] => destruct (Z.leb_spec a b); try lia
  end;
  cbn [andb orb];
  rewrite ?orb_false_r, ?andb_false_r, ?andb_true_r, ?orb_false_l.

Ltac field_done :=
  first [ reflexivity
        | f_equal; lia
        | symmetry; eapply bit_above; [eassumption|lia]
        | eapply bit_above; [eassumption|lia] ].

Lemma cfg0_enable h : FIELD_GET CHMU_INST0_CFG0_ENABLE (cfg0_of h) = 1.
Proof.
  assert (H1 : 0 <= 1 < 2 ^ 1) by lia.
  unfold cfg0_of. field_bits; field_done.
Qed.

Lemma cfg0_fields h :
  0 <= m2s_requests_to_track h < 2 ^ 8 ->
  0 <= hot_thresh h < 2 ^ 32 ->
  FIELD_GET CHMU_INST0_CFG0_WHAT_MSK (cfg0_of h) = m2s_requests_to_track h /\
  FIELD_GET CHMU_INST0_CFG0_HOTNESS_THRESH_MSK (cfg0_of h) = hot_thresh h.
Proof.
  intros Hm Ht. assert (H1 : 0 <= 1 < 2 ^ 1) by lia.
  split; unfold cfg0_of; field_bits; field_done.
Qed.

Lemma cfg1_fields h :
  0 <= hot_gran h < 2 ^ 32 ->
  0 <= ds_factor_pow2 h < 2 ^ 4 ->
  0 <= reporting_mode h < 2 ^ 8 ->
  0 <= epoch_scale h < 2 ^ 4 ->
  0 <= epoch_mult h < 2 ^ 12 ->
  FIELD_GET CHMU_INST0_CFG1_UNIT_SIZE_MSK (cfg1_of h) = hot_gran h /\
  FIELD_GET CHMU_INST0_CFG1_DS_FACTOR_MSK (cfg1_of h) = ds_factor_pow2 h /\
  FIELD_GET CHMU_INST0_CFG1_MODE_MSK (cfg1_of h) = reporting_mode h /\
  FIELD_GET CHMU_INST0_CFG1_EPOCH_SCALE_MSK (cfg1_of h) = epoch_scale h /\
  FIELD_GET CHMU_INST0_CFG1_EPOCH_MULT_MSK (cfg1_of h) = epoch_mult h.
Proof.
  intros Hg Hd Hm Hs Hu.
  repeat split; unfold cfg1_of; field_bits; field_done.
Qed.


(** X22: on a unit that is disabled and idle and has its range bitmap
    above the configuration registers, with perf handing out a buffer of
    some length, a counter width of 33 to 64, driver state whose fields fit
    their register fields, a range that ends below 2^31 and a threshold
    below 2^(64 - width), [__cxl_hmu_start] returns 0.  Its last write, and its only write that
    sets the enable bit, is the one to the first configuration register:
    that value has the enable bit set and carries the access types to
    track and the hotness threshold of the driver state, as the value
    written to the second configuration register carries the granule, the
    downsampling factor, the reporting mode and the epoch scale and
    multiplier; and the event is bound to the CPU asked for. *)
Theorem start_enables_unit event w hh rest :
  let d := dev w in
  let h := hmu w in
  let width := FIELD_GET CHMU_INST0_STATUS_COUNTER_WIDTH_MSK (status d) in
  let bb := regs d !!! CHMU_INST0_RANGE_BITMAP_OFFSET_REG in
  idle d ->
  poll_budget w <> 0%nat ->
  aux_feed w = Some hh :: rest ->
  buf_length (buf w) <> 0 ->
  typed h ->
  range_base h + range_num h < 2 ^ 31 ->
  ds_factor_pow2 h < 2 ^ 4 -> epoch_scale h < 2 ^ 4 ->
  epoch_mult h < 2 ^ 12 -> 0 <= reporting_mode h < 2 ^ 8 ->
  CHMU_INST0_CFG0_REG < bb ->
  33 <= width <= 64 ->
  hot_thresh h < 2 ^ (64 - width) ->
  exists w' ws cfg0 cfg1,
    __cxl_hmu_start event w = Ret 0 w' /\
    writes (dev w') = writes d ++ ws ++ [(CHMU_INST0_CFG0_REG, cfg0)] /\
    Forall (fun wr => ~ enables wr) ws /\
    (CHMU_INST0_CFG1_REG, cfg1) ∈ ws /\
    FIELD_GET CHMU_INST0_CFG0_ENABLE cfg0 = 1 /\
    FIELD_GET CHMU_INST0_CFG0_WHAT_MSK cfg0 = m2s_requests_to_track h /\
    FIELD_GET CHMU_INST0_CFG0_HOTNESS_THRESH_MSK cfg0 = hot_thresh h /\
    FIELD_GET CHMU_INST0_CFG1_UNIT_SIZE_MSK cfg1 = hot_gran h /\
    FIELD_GET CHMU_INST0_CFG1_DS_FACTOR_MSK cfg1 = ds_factor_pow2 h /\
    FIELD_GET CHMU_INST0_CFG1_MODE_MSK cfg1 = reporting_mode h /\
    FIELD_GET CHMU_INST0_CFG1_EPOCH_SCALE_MSK cfg1 = epoch_scale h /\
    FIELD_GET CHMU_INST0_CFG1_EPOCH_MULT_MSK cfg1 = epoch_mult h /\
    on_cpu (hmu w') = cpu event.
Proof.
  intros d h width bb Hidle Hbudget Haux Hlen
    (Hth & Hgr & Hrb & Hrn & Hm2s & Hds & Hsc & Hmu) Hr31 Hds4 Hsc4 Hmu12 Hmode
    Hbb Hwidth Hfit.
  destruct (start_spec event w hh rest Hidle Hbudget Haux Hlen
              (proj1 Hrb) (proj1 Hrn) Hr31 Hwidth)
    as (r & w' & Hrun & Hr & Hhmu & _ & _ & _ & _ & Hw).
  fold d h bb width in Hr, Hw.
  assert (Hf : (hot_thresh h <? 2 ^ (64 - width)) = true)
    by now apply Z.ltb_lt.
  rewrite Hf in Hr, Hw. subst r.
  destruct (cfg0_fields h Hm2s Hth) as (Hwhat & Hthr).
  destruct (cfg1_fields h Hgr (conj (proj1 Hds) Hds4) Hmode
              (conj (proj1 Hsc) Hsc4) (conj (proj1 Hmu) Hmu12))
    as (H1 & H2 & H3 & H4 & H5).
  exists w',
    ([(CHMU_INST0_CFG0_REG, FIELD_PREP CHMU_INST0_CFG0_RESET_COUNTERS 1);
      (CHMU_INST0_CFG1_REG, cfg1_of h)]
     ++ bitmap_writes bb (range_base h) (range_base h + range_num h)
     ++ [(CHMU_INST0_CFG2_REG,
          FIELD_PREP CHMU_INST0_CFG2_FILLTHRESH_THRESHOLD_MSK
            (FIELD_GET CHMU_INST0_CAP0_HOTLIST_SIZE_MSK
               (regs d !!! CHMU_INST0_CAP0_REG) / 2))]),
    (cfg0_of h), (cfg1_of h).
  split; [exact Hrun|]. split.
  { rewrite Hw. now rewrite <- !app_assoc. }
  split.
  { rewrite !Forall_app. split; [|split].
    - constructor; [apply not_enables_reset|].
      constructor; [now apply not_enables_other|constructor].
    - unfold bitmap_writes. apply Forall_fmap, Forall_seqZ.
      intros k Hk. apply not_enables_other.
      assert (0 <= range_base h / 64) by (apply Z.div_pos; lia).
      unfold CHMU_INST0_CFG0_REG in *. clearbody bb. clear - Hbb Hk H. lia.
    - constructor; [now apply not_enables_other|constructor]. }
  split.
  { apply elem_of_app. left. right. left. }
  rewrite cfg0_enable, Hhmu. repeat (split; [assumption || reflexivity|]).
  reflexivity.
Qed.

Lemma start_enables_unit_witness :
  let w := state_of (cxl_hmu_event_init (demo_event 12 1)
                       (demo_world (capable_device 40) 4096 0)) in
  exists w' ws cfg0,
    __cxl_hmu_start (demo_event 12 1) w = Ret 0 w' /\
    writes (dev w') = ws ++ [(CHMU_INST0_CFG0_REG, cfg0)] /\
    Forall (fun wr => ~ enables wr) ws /\
    FIELD_GET CHMU_INST0_CFG0_ENABLE cfg0 = 1 /\
    FIELD_GET CHMU_INST0_CFG0_HOTNESS_THRESH_MSK cfg0 = 1.
Proof.
  intros w.
  destruct (start_enables_unit (demo_event 12 1) w 0 [])
    as (w' & ws & cfg0 & cfg1 & Hrun & Hw & Hno & _ & Hen & _ & Hthr & _).
  - vm_compute. done.
  - vm_compute. discriminate.
  - reflexivity.
  - vm_compute. discriminate.
  - vm_compute. repeat split; discriminate || reflexivity.
  - vm_compute. reflexivity.
  - vm_compute. reflexivity.
  - vm_compute. reflexivity.
  - vm_compute. reflexivity.
  - vm_compute. split; [discriminate|reflexivity].
  - vm_compute. reflexivity.
  - vm_compute. split; discriminate.
  - vm_compute. reflexivity.
  - exists w', ws, cfg0. split; [exact Hrun|]. split; [exact Hw|].
    split; [exact Hno|]. split; [exact Hen|]. exact Hthr.
Defined.

End HmuStartFacts.
(** ** The CXL HMU driver as a PMU *)

Module HmuPmuFacts.
Import Mach MachFacts Fault FaultFacts Hmu HmuFacts HmuDrain HmuDrainFacts.
Import HmuStartFacts HmuPmu.

Lemma on_unit_ret {A} (m : Hmu.M A) p a w :
  m (unit_ p) = Ret a w ->
  on_unit m p = Ret a (mk_pmu w (dev_errs p)).
Proof. unfold on_unit. now intros ->. Qed.

(** *** What leaves [hw.state] alone *)

Lemma keeps_ret {A} (a : A) : keeps (ret a).
Proof. done. Qed.

Lemma keeps_oops {A} : keeps (@oops world A).
Proof. done. Qed.

Lemma keeps_bind {A B} (m : Hmu.M A) (f : A -> Hmu.M B) :
  keeps m -> (forall a, keeps (f a)) -> keeps (bind m f).
Proof.
  intros Hm Hf w. specialize (Hm w). unfold bind.
  destruct (m w) as [a w'|w']; cbn [state_of] in *; [|exact Hm].
  now rewrite Hf.
Qed.

Lemma keeps_readq off : keeps (readq off).
Proof. intros w. unfold readq. now destruct (off =? _). Qed.

Lemma keeps_writeq val off : keeps (writeq val off).
Proof. done. Qed.

Lemma keeps_readw off : keeps (readw off).
Proof. done. Qed.

Lemma keeps_get_hmu : keeps get_hmu.
Proof. done. Qed.

Lemma keeps_put_hmu f : keeps (put_hmu f).
Proof. done. Qed.

Lemma keeps_get_buf : keeps get_buf.
Proof. done. Qed.

Lemma keeps_put_buf f : keeps (put_buf f).
Proof. done. Qed.

Lemma keeps_get : keeps (@get world).
Proof. done. Qed.

Lemma keeps_stage src : keeps (stage src).
Proof. intros w. unfold stage. now destruct (_ && _). Qed.

Lemma keeps_hotlist_read off n : keeps (hotlist_read off n).
Proof. intros w. unfold hotlist_read. now destruct (_ && _). Qed.

Lemma keeps_aux_end size : keeps (perf_aux_output_end size).
Proof. done. Qed.

Lemma keeps_aux_begin : keeps perf_aux_output_begin.
Proof.
  intros w. unfold perf_aux_output_begin.
  now destruct (aux_feed w) as [|[hd|] rest].
Qed.

Lemma keeps_poll n : keeps (poll_inprog n).
Proof.
  induction n as [|n IH]; [done|]. cbn [poll_inprog].
  apply keeps_bind; [apply keeps_readq|].
  intros st. destruct (_ =? 0); [done|exact IH].
Qed.

Lemma keeps_next {A} (a : A) : keeps (next a).
Proof. done. Qed.

Lemma keeps_return {A} r : keeps (@return_ A r).
Proof. done. Qed.

Lemma keeps_return_if c r : keeps (return_if c r).
Proof. now destruct c. Qed.

Lemma keeps_undefined {A} : keeps (@undefined A).
Proof. done. Qed.

Lemma keeps_lift {A} (m : Hmu.M A) : keeps m -> keeps (lift m).
Proof. intros H. apply keeps_bind; [exact H|done]. Qed.

Lemma keeps_cbind {A B} (m : C A) (f : A -> C B) :
  keeps m -> (forall a, keeps (f a)) -> keeps (cbind m f).
Proof.
  intros Hm Hf. apply keeps_bind; [exact Hm|].
  intros [a|r]; [apply Hf|done].
Qed.

Lemma keeps_body (m : C Z) : keeps m -> keeps (body m).
Proof. intros H. apply keeps_bind; [exact H|]. now intros [r|r]. Qed.

Lemma keeps_shift_int1 n : keeps (shift_int1 n).
Proof. unfold shift_int1. now destruct (shl_int1 n). Qed.

Lemma keeps_shift_ulong1 n : keeps (shift_ulong1 n).
Proof. unfold shift_ulong1. now destruct (shl_ulong1 n). Qed.

Lemma keeps_rem_ulong a b : keeps (rem_ulong a b).
Proof. unfold rem_ulong. now destruct (b =? 0). Qed.

Ltac keeps_step :=
  first
    [ progress cbv zeta
    | apply keeps_body
    | apply keeps_cbind; [|intros ?]
    | apply keeps_lift
    | apply keeps_readq | apply keeps_writeq | apply keeps_readw
    | apply keeps_get_hmu | apply keeps_put_hmu
    | apply keeps_get_buf | apply keeps_put_buf | apply keeps_get
    | apply keeps_stage | apply keeps_hotlist_read
    | apply keeps_aux_end | apply keeps_aux_begin | apply keeps_poll
    | apply keeps_next | apply keeps_return | apply keeps_return_if
    | apply keeps_undefined
    | apply keeps_shift_int1 | apply keeps_shift_ulong1
    | apply keeps_rem_ulong
    | match goal with
      | |- keeps (if ?c then _ else _) => destruct c
      | |- keeps (match ?x with _ => _ end) => destruct x
      end ].

Lemma keeps_bitmap_loop n : forall bb i val, keeps (bitmap_loop n bb i val).
Proof.
  induction n as [|n IH]; intros bb i val; cbn [bitmap_loop];
    [apply keeps_next|].
  apply keeps_cbind; [apply keeps_shift_ulong1|]. intros bit.
  apply keeps_cbind; [|intros v; apply IH].
  repeat keeps_step.
Qed.

(** The drain does not touch [hw.state]. *)
Lemma update_aux_keeps stop : keeps (cxl_hmu_update_aux stop).
Proof. unfold cxl_hmu_update_aux, writew. repeat keeps_step. Qed.

Lemma body_step {A} (m : Hmu.M A) (f : A -> C Z) w a w' :
  m w = Ret a w' -> body (cbind (lift m) f) w = body (f a) w'.
Proof. intros E. unfold body, cbind, lift, bind. now rewrite E. Qed.

(** [__cxl_hmu_start] leaves [hw.state] at 0, however it ends. *)
Lemma start_leaves_zero event w :
  hw_state (state_of (__cxl_hmu_start event w)) = 0.
Proof.
  unfold __cxl_hmu_start.
  rewrite (body_step (readq CHMU_INST0_CAP0_REG) _ w
             (regs (dev w) !!! CHMU_INST0_CAP0_REG) w) by reflexivity.
  cbv zeta.
  rewrite (body_step (put_hw_state 0) _ w tt (set_hw_state 0 w))
    by reflexivity.
  match goal with
  | |- hw_state (state_of (body ?R _)) = _ =>
      assert (Hk : keeps R)
        by (repeat first [apply keeps_bitmap_loop|keeps_step]);
      exact (keeps_body R Hk (set_hw_state 0 w))
  end.
Qed.


Lemma readq_status w :
  readq CHMU_INST0_STATUS_REG w
  = Ret (hd (status (dev w)) (status_feed (dev w)))
      (set_dev (mk_device (regs (dev w)) (status (dev w))
                  (tl (status_feed (dev w)))
                  (hotlist_mem (dev w)) (writes (dev w))) w).
Proof. reflexivity. Qed.

Lemma drainable_set_dev w d :
  regs d = regs (dev w) -> hotlist_mem d = hotlist_mem (dev w) ->
  drainable w -> drainable (set_dev d w).
Proof.
  intros Hr Hm. unfold drainable, list_head, list_tail, list_top.
  cbn [dev buf set_dev]. now rewrite Hr, Hm.
Qed.

(** X23: [cxl_hmu_irq] leaves an interrupt that is not its own alone: with
    neither the overflow nor the fill threshold bit in the status it
    returns [IRQ_NONE] with no register written and the buffer as it was.
    With one of them it drains once, reports a failed drain with one
    message, writes the status it read back to the status register as its
    last write, and returns [IRQ_HANDLED] whether the drain failed or
    not. *)
Theorem irq_claims_and_acknowledges p :
  let d := dev (unit_ p) in
  let st := hd (status d) (status_feed d) in
  let w1 := state_of (readq CHMU_INST0_STATUS_REG (unit_ p)) in
  drainable (unit_ p) ->
  exists r p',
    cxl_hmu_irq p = Ret r p' /\
    hw_state (unit_ p') = hw_state (unit_ p) /\
    if (FIELD_GET CHMU_INST0_STATUS_OVRFLW st =? 0)
       && (FIELD_GET CHMU_INST0_STATUS_FILLTHRESH st =? 0)
    then
      r = IRQ_NONE /\ unit_ p' = w1 /\ dev_errs p' = dev_errs p /\
      regs (dev w1) = regs d /\ writes (dev w1) = writes d /\
      buf w1 = buf (unit_ p) /\ aux_ended w1 = aux_ended (unit_ p)
    else
      r = IRQ_HANDLED /\
      last (writes (dev (unit_ p'))) = Some (CHMU_INST0_STATUS_REG, st) /\
      aux_ended (unit_ p')
      = aux_ended (unit_ p) ++ [Z.of_nat (length (packet w1))] /\
      dev_errs p'
      = if fills w1 || match aux_feed (unit_ p) with
                       | Some _ :: _ => false
                       | _ => true
                       end
        then S (dev_errs p) else dev_errs p.
Proof.
  intros d st w1 Hd.
  assert (Hw1 : readq CHMU_INST0_STATUS_REG (unit_ p) = Ret st w1) by reflexivity.
  unfold cxl_hmu_irq.
  rewrite (bind_eq _ _ _ _ _ (on_unit_ret _ _ _ _ Hw1)).
  destruct (_ && _).
  { eexists _, _. split; [reflexivity|]. cbn [unit_ dev_errs].
    repeat split; reflexivity. }
  assert (Hd1 : drainable w1) by (apply drainable_set_dev; [done|done|exact Hd]).
  destruct (drain_returns false w1 Hd1) as (r & w2 & Hrun & Hpost).
  set (p1 := mk_pmu w1 (dev_errs p)).
  rewrite (bind_eq _ _ p1 r (mk_pmu w2 (dev_errs p)));
    [|now apply (on_unit_ret _ p1)].
  assert (Hhw : hw_state w2 = hw_state (unit_ p)).
  { pose proof (update_aux_keeps false w1) as H. now rewrite Hrun in H. }
  destruct Hpost as (Hend & _ & _ & _ & _ & _ & _ & _ & Hcase).
  assert (Hr : negb (r =? 0)
               = (fills w1 || match aux_feed (unit_ p) with
                              | Some _ :: _ => false
                              | _ => true
                              end)).
  { change (aux_feed (unit_ p)) with (aux_feed w1).
    destruct (fills w1); [now destruct Hcase as (-> & _)|].
    destruct Hcase as (_ & _ & Hcase). cbn [negb] in Hcase.
    destruct (aux_feed w1) as [|[hd|] rest];
      now destruct Hcase as (-> & _). }
  rewrite <- Hr.
  destruct (negb (r =? 0));
    (eexists _, _; split; [reflexivity|];
     cbn [hw_state unit_ dev_errs dev set_dev writes];
     repeat split; [exact Hhw|apply last_snoc|exact Hend]).
Qed.

Lemma irq_claims_and_acknowledges_witness :
  let p := demo_pmu (with_status [2 ^ 40] (demo_device 8 2 5)) 4096 0 0 in
  exists p',
    cxl_hmu_irq p = Ret IRQ_HANDLED p' /\
    dev_errs p' = 0%nat /\
    aux_ended (unit_ p') = [40].
Proof.
  intros p.
  destruct (irq_claims_and_acknowledges p) as (r & p' & Hrun & _ & Hcase).
  - vm_compute. repeat split; try reflexivity; discriminate.
  - vm_compute in Hcase. destruct Hcase as (-> & _ & Hend & Herr).
    exists p'. split; [exact Hrun|]. split; [exact Herr|exact Hend].
Defined.

(** *** Stopping *)

Lemma wp_on_unit {A} (m : Hmu.M A) (Q : A -> pmu -> Prop) F p :
  wp m (fun a w => Q a (mk_pmu w (dev_errs p)))
       (fun w => F (mk_pmu w (dev_errs p))) (unit_ p) ->
  wp (on_unit m) Q F p.
Proof. unfold wp, on_unit. destruct (m (unit_ p)); done. Qed.

Lemma wp_returns {S A} (m : Fault.M S A) (Q : A -> S -> Prop) s :
  wp m Q (fun _ => False) s -> exists a s', m s = Ret a s' /\ Q a s'.
Proof. unfold wp. destruct (m s) as [a s'|]; [eauto|done]. Qed.

Lemma drainable_regs w d :
  regs d !!! CHMU_INST0_HEAD_REG = regs (dev w) !!! CHMU_INST0_HEAD_REG ->
  regs d !!! CHMU_INST0_TAIL_REG = regs (dev w) !!! CHMU_INST0_TAIL_REG ->
  regs d !!! CHMU_INST0_CAP0_REG = regs (dev w) !!! CHMU_INST0_CAP0_REG ->
  hotlist_mem d = hotlist_mem (dev w) ->
  drainable w -> drainable (set_dev d w).
Proof.
  intros Hh Ht Hc Hm. unfold drainable, list_head, list_tail, list_top.
  cbn [dev buf set_dev]. now rewrite Hh, Ht, Hc, Hm.
Qed.

Lemma set_dev_set_dev d1 d2 w : set_dev d1 (set_dev d2 w) = set_dev d1 w.
Proof. reflexivity. Qed.

Lemma clear_bits_bit val m j :
  0 <= j ->
  Z.testbit (clear_bits val m) j
  = Z.testbit val j && negb (Z.testbit m j) && (j <? 64).
Proof.
  intros Hj. unfold clear_bits, u64. rewrite Z.land_spec.
  destruct (Z.ltb_spec j 64).
  - rewrite Z.mod_pow2_bits_low, Z.lnot_spec by lia. now rewrite andb_true_r.
  - rewrite Z.mod_pow2_bits_high by lia. now rewrite !andb_false_r.
Qed.

(** X24: [cxl_hmu_stop] on a running event whose unit reports itself
    enabled and then answers the poll, with the unit and the buffer in
    order (head and tail index the hot list, and a header fits after the
    cursor): it writes the configuration back
    with the enable bit cleared and every other bit of the 64 as read,
    drains the hot list once without asking perf for the buffer again, and
    leaves [hw.state] as it was. *)
Theorem stop_disables_then_drains pf p s1 s2 rest :
  let w := unit_ p in
  let d := dev w in
  let val := regs d !!! CHMU_INST0_CFG0_REG in
  let val' := clear_bits val (mask CHMU_INST0_CFG0_ENABLE) in
  Z.land (hw_state w) (PERF_HES_STOPPED pf) = 0 ->
  status_feed d = s1 :: s2 :: rest ->
  FIELD_GET CHMU_INST0_STATUS_ENABLED s1 <> 0 ->
  FIELD_GET CHMU_INST0_STATUS_OP_INPROG_MSK s2 = 0 ->
  poll_budget w <> 0%nat ->
  drainable w ->
  exists p' size more,
    cxl_hmu_stop pf p = Ret tt p' /\
    hw_state (unit_ p') = hw_state w /\
    writes (dev (unit_ p')) = writes d ++ (CHMU_INST0_CFG0_REG, val') :: more /\
    (more = [] \/ more = [(CHMU_INST0_HEAD_REG, list_tail d)]) /\
    regs (dev (unit_ p')) !!! CHMU_INST0_CFG0_REG = val' /\
    FIELD_GET CHMU_INST0_CFG0_ENABLE val' = 0 /\
    (forall j, 0 <= j ->
       Z.testbit val' j = Z.testbit val j && negb (j =? 16) && (j <? 64)) /\
    aux_feed (unit_ p') = aux_feed w /\
    aux_ended (unit_ p') = aux_ended w ++ [size].
Proof.
  intros w d val val' Hst Hfeed Hen Hidle Hn Hd.
  assert (Hbits : forall j, 0 <= j ->
            Z.testbit val' j = Z.testbit val j && negb (j =? 16) && (j <? 64)).
  { intros j Hj. unfold val'. rewrite clear_bits_bit by done.
    do 2 f_equal. change (mask CHMU_INST0_CFG0_ENABLE) with (2 ^ 16).
    rewrite Z.pow2_bits_eqb by lia. now rewrite Z.eqb_sym. }
  assert (Hen' : FIELD_GET CHMU_INST0_CFG0_ENABLE val' = 0).
  { unfold FIELD_GET. change (mask CHMU_INST0_CFG0_ENABLE) with (2 ^ 16).
    cbn [lo CHMU_INST0_CFG0_ENABLE BIT].
    replace (Z.land val' (2 ^ 16)) with 0; [done|].
    symmetry. apply Z.bits_inj'. intros j Hj.
    rewrite Z.land_spec, Z.bits_0, Hbits, Z.pow2_bits_eqb by lia.
    rewrite (Z.eqb_sym 16 j). destruct (j =? 16); [|now rewrite andb_false_r].
    now rewrite andb_false_r. }
  cut (wp (cxl_hmu_stop pf)
         (fun _ p' => exists size more,
            hw_state (unit_ p') = hw_state w /\
            writes (dev (unit_ p'))
            = writes d ++ (CHMU_INST0_CFG0_REG, val') :: more /\
            (more = [] \/ more = [(CHMU_INST0_HEAD_REG, list_tail d)]) /\
            regs (dev (unit_ p')) !!! CHMU_INST0_CFG0_REG = val' /\
            aux_feed (unit_ p') = aux_feed w /\
            aux_ended (unit_ p') = aux_ended w ++ [size])
         (fun _ => False) p).
  { intros H. apply wp_returns in H as ([] & p' & Hrun & size & more & H).
    exists p', size, more. split; [exact Hrun|]. tauto. }
  unfold cxl_hmu_stop. apply wp_bind. unfold wp at 1, get.
  fold w. rewrite Hst. cbn [Z.eqb negb].
  apply wp_bind, wp_on_unit, wp_readq_status. fold w d.
  rewrite Hfeed. cbn [hd tl].
  apply Z.eqb_neq in Hen. rewrite Hen. cbn [negb].
  apply wp_bind, wp_on_unit, wp_readq_reg; [done|].
  cbn [unit_ hw_state dev_errs dev set_dev regs].
  apply wp_bind, wp_on_unit, wp_writeq.
  apply wp_bind. unfold wp at 1, get.
  apply wp_bind, wp_on_unit.
  cbn [unit_ hw_state dev_errs poll_budget set_dev].
  destruct (poll_budget w) as [|n] eqn:En; [done|].
  cbn [poll_inprog]. apply wp_bind, wp_readq_status.
  cbn [dev set_dev status_feed hd tl regs status hotlist_mem writes].
  rewrite Hidle. cbn [Z.eqb]. apply wp_ret. cbn [negb Z.eqb].
  apply wp_bind, wp_on_unit. cbn [unit_ hw_state dev_errs].
  fold d val val'.
  match goal with |- wp _ _ _ ?x => set (w2 := x) end.
  assert (Hd2 : drainable w2).
  { unfold w2. rewrite !set_dev_set_dev.
    apply drainable_regs; cbn [regs hotlist_mem]; try done;
      now rewrite lookup_total_insert_ne. }
  destruct (drain_returns true w2 Hd2) as (r & w3 & Hrun3 & Hpost).
  assert (Hk : hw_state w3 = hw_state w).
  { pose proof (update_aux_keeps true w2) as H. now rewrite Hrun3 in H. }
  apply (wp_eq _ _ _ _ r w3 Hrun3).
  destruct Hpost as (Hend & _ & _ & _ & _ & _ & _ & _ & Hcase). apply wp_ret.
  cbn [unit_ dev_errs].
  assert (Ht2 : list_tail (dev w2) = list_tail d).
  { unfold list_tail, w2. cbn [dev set_dev regs].
    now rewrite lookup_total_insert_ne. }
  exists (Z.of_nat (length (packet w2))).
  destruct (fills w2).
  - exists []. destruct Hcase as (_ & Hregs & Hwr & _ & Hfd & _).
    split; [exact Hk|].
    rewrite Hregs, Hwr, Hfd, Hend. unfold w2.
    cbn [dev set_dev regs writes aux_feed aux_ended].
    rewrite lookup_total_insert. auto 10.
  - exists [(CHMU_INST0_HEAD_REG, list_tail d)].
    destruct Hcase as (Hregs & Hwr & _ & _ & Hfd & _).
    split; [exact Hk|].
    rewrite Hregs, Hwr, Hfd, Hend, Ht2. unfold w2.
    cbn [dev set_dev regs writes aux_feed aux_ended].
    rewrite lookup_total_insert_ne, lookup_total_insert by done.
    rewrite <- app_assoc. auto 10.
Qed.

Lemma stop_disables_then_drains_witness :
  let d0 := demo_device 8 2 5 in
  let d := mk_device (<[CHMU_INST0_CFG0_REG := 0x100010606]> (regs d0))
             (status d0) [1; 0] (hotlist_mem d0) [] in
  let p := demo_pmu d 4096 0 0 in
  exists p' size,
    cxl_hmu_stop demo_flags p = Ret tt p' /\
    regs (dev (unit_ p')) !!! CHMU_INST0_CFG0_REG = 0x100000606 /\
    aux_ended (unit_ p') = [size].
Proof.
  intros d0 d p.
  destruct (stop_disables_then_drains demo_flags p 1 0 [])
    as (p' & size & more & Hrun & _ & _ & _ & Hreg & _ & _ & _ & Hend).
  - reflexivity.
  - reflexivity.
  - vm_compute. discriminate.
  - reflexivity.
  - vm_compute. discriminate.
  - vm_compute. repeat split; try reflexivity; discriminate.
  - exists p', size. split; [exact Hrun|]. split; [exact Hreg|exact Hend].
Defined.

(** X25: [cxl_hmu_stop] does not drain unless the unit was disabled: on
    an event that is stopped already, or a unit that does not report itself
    enabled, it changes nothing; and when the unit stays busy after the
    enable bit is cleared it returns after that one write, with the hot
    list not drained and [perf_aux_output_end] not called. *)
Theorem stop_without_drain pf p :
  let w := unit_ p in
  let d := dev w in
  let val' := clear_bits (regs d !!! CHMU_INST0_CFG0_REG)
                (mask CHMU_INST0_CFG0_ENABLE) in
  status_feed d = [] ->
  (Z.land (hw_state w) (PERF_HES_STOPPED pf) <> 0 ->
   cxl_hmu_stop pf p = Ret tt p) /\
  (Z.land (hw_state w) (PERF_HES_STOPPED pf) = 0 ->
   FIELD_GET CHMU_INST0_STATUS_ENABLED (status d) = 0 ->
   cxl_hmu_stop pf p = Ret tt p) /\
  (Z.land (hw_state w) (PERF_HES_STOPPED pf) = 0 ->
   FIELD_GET CHMU_INST0_STATUS_ENABLED (status d) <> 0 ->
   FIELD_GET CHMU_INST0_STATUS_OP_INPROG_MSK (status d) <> 0 ->
   exists p',
     cxl_hmu_stop pf p = Ret tt p' /\
     writes (dev (unit_ p')) = writes d ++ [(CHMU_INST0_CFG0_REG, val')] /\
     regs (dev (unit_ p')) = <[CHMU_INST0_CFG0_REG := val']> (regs d) /\
     buf (unit_ p') = buf w /\
     aux_ended (unit_ p') = aux_ended w /\
     aux_feed (unit_ p') = aux_feed w /\
     hw_state (unit_ p') = hw_state w).
Proof.
  intros w d val' Hfeed.
  pose proof (status_read_same w Hfeed) as Hsame. fold d in Hsame.
  assert (Hp : mk_pmu w (dev_errs p) = p) by now destruct p.
  split; [|split].
  - intros Hst. unfold cxl_hmu_stop, bind, get. fold w.
    apply Z.eqb_neq in Hst. now rewrite Hst.
  - intros Hst Hen. apply wp_ret_inv.
    unfold cxl_hmu_stop. apply wp_bind. unfold wp at 1, get.
    fold w. rewrite Hst. cbn [Z.eqb negb].
    apply wp_bind, wp_on_unit, wp_readq_status. fold w d.
    rewrite Hsame, Hfeed. cbn [hd]. rewrite Hen. cbn [Z.eqb negb].
    apply wp_ret. now rewrite Hp.
  - intros Hst Hen Hbusy.
    cut (wp (cxl_hmu_stop pf)
           (fun _ p' =>
              writes (dev (unit_ p')) = writes d ++ [(CHMU_INST0_CFG0_REG, val')] /\
              regs (dev (unit_ p')) = <[CHMU_INST0_CFG0_REG := val']> (regs d) /\
              buf (unit_ p') = buf w /\
              aux_ended (unit_ p') = aux_ended w /\
              aux_feed (unit_ p') = aux_feed w /\
              hw_state (unit_ p') = hw_state w)
           (fun _ => False) p).
    { intros H. apply wp_returns in H as ([] & p' & Hrun & H).
      exists p'. split; [exact Hrun|exact H]. }
    unfold cxl_hmu_stop. apply wp_bind. unfold wp at 1, get.
    fold w. rewrite Hst. cbn [Z.eqb negb].
    apply wp_bind, wp_on_unit, wp_readq_status. fold w d.
    rewrite Hsame, Hfeed. cbn [hd].
    apply Z.eqb_neq in Hen. rewrite Hen. cbn [negb].
    apply wp_bind, wp_on_unit, wp_readq_reg; [done|].
    cbn [unit_ hw_state dev_errs].
    apply wp_bind, wp_on_unit, wp_writeq.
    apply wp_bind. unfold wp at 1, get.
    apply wp_bind, wp_on_unit.
    cbn [unit_ hw_state dev_errs].
    apply wp_poll_busy; [exact Hfeed|exact Hbusy|].
    cbn [Z.eqb negb Z.opp ETIMEDOUT]. apply wp_ret.
    cbn [unit_ hw_state dev set_dev writes regs buf aux_ended aux_feed].
    fold d val'. done.
Qed.

Lemma stop_without_drain_witness :
  let d0 := demo_device 8 2 5 in
  let d := mk_device (<[CHMU_INST0_CFG0_REG := 0x100010606]> (regs d0))
             (1 + 2 ^ 16) [] (hotlist_mem d0) [] in
  let p := demo_pmu d 4096 0 0 in
  exists p',
    cxl_hmu_stop demo_flags p = Ret tt p' /\
    writes (dev (unit_ p')) = [(CHMU_INST0_CFG0_REG, 0x100000606)] /\
    aux_ended (unit_ p') = [].
Proof.
  intros d0 d p.
  destruct (stop_without_drain demo_flags p) as (_ & _ & H).
  - reflexivity.
  - destruct H as (p' & Hrun & Hwr & _ & _ & Hend & _).
    + reflexivity.
    + vm_compute. discriminate.
    + vm_compute. discriminate.
    + exists p'. split; [exact Hrun|]. rewrite Hwr, Hend.
      split; vm_compute; reflexivity.
Defined.

(** *** Adding an event *)

(** X26: [cxl_hmu_add] first marks the event stopped and up to date, and
    without [PERF_EF_START] that is all it does.  With it, the result
    depends on [__cxl_hmu_start] alone: 0 with [hw.state] 0 when that
    returned 0, and otherwise [-EINVAL], whatever error that returned, with
    [hw.state] [PERF_HES_STOPPED]. *)
Theorem add_starts_or_fails pf event flags p :
  let w0 := set_hw_state
              (Z.lor (PERF_HES_STOPPED pf) (PERF_HES_UPTODATE pf)) (unit_ p) in
  PERF_HES_STOPPED pf <> 0 ->
  (Z.land flags (PERF_EF_START pf) = 0 ->
   cxl_hmu_add pf event flags p = Ret 0 (mk_pmu w0 (dev_errs p))) /\
  (Z.land flags (PERF_EF_START pf) <> 0 ->
   forall rc w',
     __cxl_hmu_start event w0 = Ret rc w' ->
     hw_state w' = 0 /\
     cxl_hmu_add pf event flags p
     = Ret (if rc =? 0 then 0 else - EINVAL)
         (mk_pmu (if rc =? 0 then w'
                  else set_hw_state (PERF_HES_STOPPED pf) w')
            (dev_errs p))).
Proof.
  intros w0 Hpf. split.
  - intros Hfl. unfold cxl_hmu_add, bind, on_unit, put_hw_state, modify.
    now rewrite Hfl.
  - intros Hfl rc w' Hrun. apply Z.eqb_neq in Hfl.
    assert (Hz : hw_state w' = 0).
    { pose proof (start_leaves_zero event w0) as H. now rewrite Hrun in H. }
    split; [exact Hz|].
    unfold cxl_hmu_add.
    rewrite (bind_eq _ _ p tt (mk_pmu w0 (dev_errs p))) by reflexivity.
    rewrite Hfl. cbn [negb].
    unfold cxl_hmu_start.
    set (p0 := mk_pmu w0 (dev_errs p)).
    assert (Hrun0 : on_unit (__cxl_hmu_start event) p0
                    = Ret rc (mk_pmu w' (dev_errs p)))
      by now apply (on_unit_ret _ p0).
    unfold bind at 1. unfold bind at 1. rewrite Hrun0.
    destruct (rc =? 0); cbn [negb].
    + unfold ret, bind, get. cbn [unit_]. rewrite Hz, Z.land_0_l. reflexivity.
    + unfold bind, get, on_unit, put_hw_state, modify.
      cbn [unit_ dev_errs hw_state set_hw_state].
      rewrite Hz, Z.lor_0_l, Z.land_diag.
      apply Z.eqb_neq in Hpf. now rewrite Hpf.
Qed.

Lemma add_starts_or_fails_witness :
  let d := mk_device ∅ 1 [] [] [] in
  let p := demo_pmu d 4096 0 0 in
  cxl_hmu_add demo_flags (demo_event 12 1) 1 p
  = Ret (- EINVAL) (mk_pmu (set_hw_state 1 (unit_ p)) 0).
Proof.
  intros d p.
  destruct (add_starts_or_fails demo_flags (demo_event 12 1) 1 p) as (_ & H).
  - vm_compute. discriminate.
  - destruct (H ltac:(vm_compute; discriminate) (- EBUSY) (unit_ p)) as (_ & E).
    + reflexivity.
    + exact E.
Defined.

(** *** The AUX buffer *)

(** X27: [cxl_hmu_setup_aux] refuses overwrite mode and a buffer of no
    page.  The buffer it returns starts at position 0 with the length of
    its pages, so that with pages of at least one header, and
    a unit whose head and tail index its hot list, a drain into it
    returns without a fault. *)
Theorem setup_aux_buffer_drains e nr_pages overwrite b stop w :
  cxl_hmu_setup_aux e nr_pages overwrite = Some b ->
  (forall base, vmap e = Some base ->
     Z.of_nat (length base) = nr_pages * PAGE_SIZE e) ->
  sizeof_header <= PAGE_SIZE e ->
  nr_pages * PAGE_SIZE e < 2 ^ 64 ->
  buf w = b ->
  list_head (dev w) < list_top (dev w) ->
  list_tail (dev w) < list_top (dev w) ->
  Z.of_nat (length (hotlist_mem (dev w))) = list_top (dev w) * 8 ->
  overwrite = false /\ 1 <= nr_pages /\
  buf_pos b = 0 /\ buf_length b = nr_pages * PAGE_SIZE e /\
  exists r w', cxl_hmu_update_aux stop w = Ret r w' /\ (r = 0 \/ r = - EINVAL).
Proof.
  intros Hsetup Hvmap Hpage Hlt Hbuf Hh Ht Hmem.
  unfold cxl_hmu_setup_aux in Hsetup.
  destruct overwrite; [done|].
  destruct (Z.ltb_spec nr_pages 1); [done|].
  destruct (kzalloc_buf_ok e); [|done].
  destruct (kcalloc_pagelist_ok e); [|done]. cbn [negb] in Hsetup.
  destruct (vmap e) as [base|] eqn:Ev; [|done].
  injection Hsetup as <-. specialize (Hvmap base eq_refl).
  unfold sizeof_header in Hpage.
  assert (Hlen : u64 (nr_pages * PAGE_SIZE e) = nr_pages * PAGE_SIZE e).
  { apply u64_small. nia. }
  cbn [buf_pos buf_length]. rewrite Hlen.
  do 4 (split; [done|]).
  assert (Hd : drainable w).
  { unfold drainable. rewrite Hbuf. cbn [buf_pos buf_length buf_base].
    rewrite Hlen. unfold sizeof_header. repeat split; try done; nia. }
  destruct (drain_returns stop w Hd) as (r & w' & Hrun & Hpost).
  exists r, w'. split; [exact Hrun|].
  destruct Hpost as (_ & _ & _ & _ & _ & _ & _ & _ & Hcase).
  destruct (fills w); [destruct Hcase as (-> & _); now right|].
  destruct Hcase as (_ & _ & Hcase).
  destruct stop; [destruct Hcase as (-> & _); now left|].
  destruct (aux_feed w) as [|[hd0|] rest];
    destruct Hcase as (-> & _); auto.
Qed.

Lemma setup_aux_buffer_drains_witness :
  let e := mk_aux_env 4096 true true (Some (replicate (Z.to_nat 8192) 0)) in
  let b := mk_buf 8192 (replicate (Z.to_nat 8192) 0) 0 in
  let w0 := demo_world (demo_device 8 2 5) 4096 0 in
  let w := set_buf b w0 in
  exists r w', cxl_hmu_update_aux false w = Ret r w' /\ (r = 0 \/ r = - EINVAL).
Proof.
  intros e b w0 w.
  destruct (setup_aux_buffer_drains e 2 false b false w)
    as (_ & _ & _ & _ & H).
  - reflexivity.
  - intros base [= <-]. reflexivity.
  - vm_compute. discriminate.
  - reflexivity.
  - reflexivity.
  - reflexivity.
  - reflexivity.
  - reflexivity.
  - exact H.
Defined.

(** *** CPU hotplug *)

Lemma placed_step nr online s ev :
  nr <= 2 ^ 31 ->
  Forall (fun c => 0 <= c < nr) online ->
  deliverable nr online [ev] ->
  placed online s ->
  placed (online_after online ev) (hp_step nr s ev) /\
  Forall (fun c => 0 <= c < nr) (online_after online ev).
Proof.
  intros Hnr Hon [Hev _] Hpl.
  rewrite Forall_forall in Hon.
  assert (Hcur : hp_on_cpu s = -1 \/ 0 <= hp_on_cpu s < nr).
  { destruct Hpl as [->|[Hin _]]; [now left|right; now apply Hon]. }
  destruct ev as [cpu|cpu target]; cbn [online_after hp_step].
  - split; [|apply Forall_cons; split; [exact Hev|now apply Forall_forall]].
    unfold cxl_hmu_online_cpu.
    destruct (Z.eqb_spec (hp_on_cpu s) (-1)) as [E|E]; cbn [negb snd].
    + right. cbn [hp_on_cpu affinity]. rewrite s32_small by lia.
      split; [apply list_elem_of_here|apply last_snoc].
    + destruct Hpl as [Hpl|[Hin Hlast]]; [done|].
      right. split; [now apply list_elem_of_further|exact Hlast].
  - destruct Hev as [Hcpu Htarget].
    split; [|apply Forall_forall; intros c Hc;
             apply list_elem_of_filter in Hc as [_ Hc]; now apply Hon].
    unfold cxl_hmu_offline_cpu.
    pose proof (Hon cpu Hcpu) as Hcr.
    destruct (Z.eqb_spec (u32 (hp_on_cpu s)) cpu) as [E|E]; cbn [negb snd].
    + destruct (Z.leb_spec nr target) as [Hge|Hlt]; cbn [snd].
      * now left.
      * destruct Htarget as [[Hin Hne]|[Hge _]]; [|lia].
        pose proof (Hon target Hin) as Htr.
        right. cbn [hp_on_cpu affinity]. rewrite s32_small by lia.
        split; [now apply list_elem_of_filter|apply last_snoc].
    + destruct Hpl as [Hpl|[Hin Hlast]]; [now left|].
      right. split; [|exact Hlast].
      apply list_elem_of_filter. split; [|exact Hin].
      intros Heq. apply E. rewrite <- Heq. unfold u32.
      apply Z.mod_small. pose proof (Hon _ Hin). lia.
Qed.

(** X28: through any sequence of CPUs coming up and going down, the
    hotplug callbacks keep the unit placed: [on_cpu] is -1 or a CPU that
    is online, and then the interrupt was last routed to that CPU. *)
Theorem hotplug_keeps_placed nr evs : forall online s,
  nr <= 2 ^ 31 ->
  Forall (fun c => 0 <= c < nr) online ->
  deliverable nr online evs ->
  placed online s ->
  placed (foldl online_after online evs) (foldl (hp_step nr) s evs).
Proof.
  induction evs as [|ev evs IH]; intros online s Hnr Hon Hev Hpl; [exact Hpl|].
  cbn [foldl]. destruct Hev as [Hev Hrest].
  destruct (placed_step nr online s ev Hnr Hon) as [Hpl' Hon'];
    [now split|exact Hpl|].
  now apply IH.
Qed.

Lemma hotplug_keeps_placed_witness :
  placed [2] (foldl (hp_step 4) hotplug_init
                [Online 1; Online 2; Offline 1 2]).
Proof.
  apply (hotplug_keeps_placed 4 [Online 1; Online 2; Offline 1 2] [] hotplug_init).
  - lia.
  - apply Forall_nil_2.
  - cbn. repeat split; try lia.
    + apply list_elem_of_further, list_elem_of_here.
    + left. split; [apply list_elem_of_here|lia].
  - now left.
Defined.

End HmuPmuFacts.
(** ** The perf tool reads what the driver writes *)

Module PerfToolFacts.
Import Mach MachFacts BitFacts Fault FaultFacts Hmu HmuFacts HmuDrain.
Import HmuDrainFacts HmuStartFacts PerfTool.

(** *** Words in memory *)

Lemma load64_eq (a b : list Z) (p q : Z) :
  (forall i : nat, (i < 8)%nat ->
     a !!! (Z.to_nat p + i)%nat = b !!! (Z.to_nat q + i)%nat) ->
  load64 a p = load64 b q.
Proof.
  intros H. unfold load64. cbn [seq foldr].
  rewrite !H by lia. reflexivity.
Qed.

Lemma load64_inside (pre l post : list Z) (q : Z) :
  0 <= q -> q + 8 <= Z.of_nat (length l) ->
  load64 (pre ++ l ++ post) (Z.of_nat (length pre) + q) = load64 l q.
Proof.
  intros H0 H1. apply load64_eq. intros i Hi.
  rewrite !list_lookup_total_alt.
  rewrite lookup_app_r by lia.
  rewrite lookup_app_l by lia.
  do 2 f_equal. lia.
Qed.

Lemma byte_bit v k j :
  0 <= k -> 0 <= j ->
  Z.testbit (Z.shiftl (Z.land (Z.shiftr v k) 255) k) j
  = (k <=? j) && (j <? k + 8) && Z.testbit v j.
Proof.
  intros Hk Hj. destruct (Z.leb_spec k j).
  - rewrite Z.shiftl_spec, Z.land_spec, Z.shiftr_spec by lia.
    change 255 with (Z.ones 8). rewrite Z.testbit_ones_nonneg by lia.
    replace (j - k + k) with j by lia.
    destruct (Z.ltb_spec (j - k) 8), (Z.ltb_spec j (k + 8)); try lia;
      cbn; now rewrite ?andb_true_r, ?andb_false_r.
  - rewrite Z.shiftl_spec, Z.testbit_neg_r by lia. reflexivity.
Qed.

Lemma load64_le_bytes v : 0 <= v < 2 ^ 64 -> load64 (le_bytes 8 v) 0 = v.
Proof.
  intros Hv.
  change (load64 (le_bytes 8 v) 0)
    with (foldr (fun k acc =>
                   Z.lor (Z.shiftl (Z.land (Z.shiftr v k) 255) k) acc)
            0 [0; 8; 16; 24; 32; 40; 48; 56]).
  cbn [foldr].
  apply Z.bits_inj'. intros j Hj.
  rewrite !Z.lor_spec, !byte_bit, Z.bits_0 by lia.
  destruct (Z.testbit v j) eqn:Eb; [|now rewrite !andb_false_r].
  assert (Hj64 : j < 64).
  { destruct (Z.ltb_spec j 64); [done|].
    rewrite (bit_above v 64 j) in Eb by lia. done. }
  assert (Hk : exists k, 0 <= k < 8 /\ 8 * k <= j < 8 * k + 8).
  { exists (j / 8). pose proof (Z.div_mod j 8). pose proof (Z.mod_pos_bound j 8).
    split; [split; [apply Z.div_pos; lia|apply Z.div_lt_upper_bound; lia]|lia]. }
  destruct Hk as (k & Hk & Hjk).
  assert (Hcase : k = 0 \/ k = 1 \/ k = 2 \/ k = 3 \/ k = 4 \/ k = 5 \/ k = 6
                  \/ k = 7) by lia.
  clear Eb Hv.
  destruct Hcase as [->|[->|[->|[->|[->|[->|[->| ->]]]]]]];
  repeat match goal with
  | |- context [?a <=? ?b] =>
      first [ rewrite (proj2 (Z.leb_le a b)) by lia
            | rewrite (proj2 (Z.leb_gt a b)) by lia ]
  | |- context [?a <? ?b] =>
      first [ rewrite (proj2 (Z.ltb_lt a b)) by lia
            | rewrite (proj2 (Z.ltb_ge a b)) by lia ]
  end;
  cbn [andb orb]; now rewrite ?orb_true_r.
Qed.

Lemma round_down8_multiple len :
  0 <= len < 2 ^ 64 -> len mod 8 = 0 -> round_down8 len = len.
Proof.
  intros Hlen Hm. unfold round_down8.
  change (u64 (Z.lnot 7)) with (Z.shiftl (Z.ones 61) 3).
  apply Z.bits_inj'. intros j Hj. rewrite Z.land_spec.
  destruct (Z.testbit len j) eqn:Eb; [|done]. cbn [andb].
  destruct (Z.ltb_spec j 3).
  - assert (E : len = Z.shiftl (len / 8) 3).
    { rewrite Z.shiftl_mul_pow2 by lia. change (2 ^ 3) with 8.
      pose proof (Z.div_mod len 8). lia. }
    rewrite E, Z.shiftl_spec, Z.testbit_neg_r in Eb by lia. done.
  - rewrite Z.shiftl_spec, Z.testbit_ones_nonneg by lia.
    destruct (Z.ltb_spec (j - 3) 61); [done|].
    rewrite (bit_above len 64 j) in Eb by lia. done.
Qed.

(** *** The loop *)

Lemma dump_loop_step n buf pos j e :
  0 <= pos -> pos + 8 <= Z.of_nat (length buf) ->
  dump_loop (S n) buf pos j e
  = let word := load64 buf pos in
    let entries := if j =? 0 then Z.land word 0xFFFF else e in
    let out :=
      if j =? 0 then Header0 entries (Z.land (Z.shiftr word 16) 0xFF)
      else if j =? 1 then Header1 word
      else Entry word in
    (out ::.) <$> dump_loop n buf (pos + 8)
                    (if j + 1 =? entries + 2 then 0 else j + 1) entries.
Proof.
  intros H0 H1. cbn [dump_loop].
  now rewrite (proj2 (Z.leb_le 0 pos)), (proj2 (Z.leb_le (pos + 8) _)) by lia.
Qed.

(** The entries of a packet, with [r + 1] of them left. *)
Lemma dump_entries buf e m r : forall j pos,
  2 <= j -> j + Z.of_nat (S r) = e + 2 ->
  0 <= pos -> pos + 8 * Z.of_nat (S r) <= Z.of_nat (length buf) ->
  dump_loop (S r + m) buf pos j e
  = (((Entry <$> ((fun k : nat => load64 buf (pos + 8 * Z.of_nat k))
                    <$> seq 0 (S r))) ++.)
     <$> dump_loop m buf (pos + 8 * Z.of_nat (S r)) 0 e).
Proof.
  induction r as [|r IH]; intros j pos Hj He Hpos Hfit.
  - change (1 + m)%nat with (S m). rewrite dump_loop_step by lia. cbv zeta.
    rewrite (proj2 (Z.eqb_neq j 0)), (proj2 (Z.eqb_neq j 1)) by lia.
    rewrite (proj2 (Z.eqb_eq (j + 1) (e + 2))) by lia.
    cbn [seq fmap list_fmap].
    replace (pos + 8 * Z.of_nat 0) with pos by lia.
    replace (pos + 8 * Z.of_nat 1) with (pos + 8) by lia. reflexivity.
  - change (S (S r) + m)%nat with (S (S r + m)).
    rewrite dump_loop_step by lia. cbv zeta.
    rewrite (proj2 (Z.eqb_neq j 0)), (proj2 (Z.eqb_neq j 1)) by lia.
    rewrite (proj2 (Z.eqb_neq (j + 1) (e + 2))) by lia.
    rewrite (IH (j + 1) (pos + 8)) by lia.
    assert (E1 : (fun k : nat => load64 buf (pos + 8 + 8 * Z.of_nat k))
                   <$> seq 0 (S r)
                 = (fun k : nat => load64 buf (pos + 8 * Z.of_nat k))
                   <$> seq 1 (S r)).
    { rewrite <- (fmap_S_seq 0 (S r)), <- list_fmap_compose.
      apply list_fmap_ext. intros i k _. cbn [compose]. f_equal. lia. }
    rewrite E1.
    change (seq 0 (S (S r))) with (0%nat :: seq 1 (S r)).
    replace (pos + 8 + 8 * Z.of_nat (S r)) with (pos + 8 * Z.of_nat (S (S r)))
      by lia.
    destruct (dump_loop m buf _ 0 e); [|reflexivity].
    cbn [fmap option_fmap option_map list_fmap app].
    replace (pos + 8 * Z.of_nat 0) with pos by lia. reflexivity.
Qed.

(** One packet in the data, from its first header word on. *)
Lemma dump_packet (pre post : list Z) p m x :
  well_formed p ->
  let buf := pre ++ packet_bytes p ++ post in
  let e := Z.to_nat (Z.land (pk_header0 p) 0xFFFF) in
  dump_loop (S (S e) + m) buf (Z.of_nat (length pre)) 0 x
  = ((packet_lines p ++.)
     <$> dump_loop m buf (Z.of_nat (length (pre ++ packet_bytes p))) 0
           (Z.land (pk_header0 p) 0xFFFF)).
Proof.
  intros (H0 & H1 & Hlen) buf e.
  set (ez := Z.land (pk_header0 p) 0xFFFF) in *.
  assert (Hez : 0 <= ez) by (apply Z.land_nonneg; lia).
  assert (Hplen : Z.of_nat (length (packet_bytes p)) = 16 + 8 * ez).
  { unfold packet_bytes. rewrite length_app, header_bytes_length. lia. }
  assert (Hblen : Z.of_nat (length pre) + 16 + 8 * ez
                  <= Z.of_nat (length buf)).
  { unfold buf. rewrite !length_app. lia. }
  assert (Hw0 : load64 buf (Z.of_nat (length pre)) = pk_header0 p).
  { unfold buf, packet_bytes, header_bytes. rewrite <- !app_assoc.
    rewrite <- (Z.add_0_r (Z.of_nat (length pre))).
    rewrite load64_inside by (cbn; lia). now apply load64_le_bytes. }
  assert (Hw1 : load64 buf (Z.of_nat (length pre) + 8) = pk_header1 p).
  { unfold buf, packet_bytes, header_bytes. rewrite <- !app_assoc.
    rewrite (app_assoc pre).
    replace (Z.of_nat (length pre) + 8)
      with (Z.of_nat (length (pre ++ le_bytes 8 (pk_header0 p))) + 0)
      by (rewrite length_app; cbn; lia).
    rewrite load64_inside by (cbn; lia). now apply load64_le_bytes. }
  assert (Hwk : forall k : nat, (k < e)%nat ->
            load64 buf (Z.of_nat (length pre) + 16 + 8 * Z.of_nat k)
            = load64 (pk_data p) (8 * Z.of_nat k)).
  { intros k Hk. unfold buf, packet_bytes. rewrite <- !app_assoc.
    rewrite (app_assoc pre).
    replace (Z.of_nat (length pre) + 16 + 8 * Z.of_nat k)
      with (Z.of_nat (length (pre ++ header_bytes (pk_header0 p) (pk_header1 p)))
            + 8 * Z.of_nat k)
      by (rewrite length_app, header_bytes_length; lia).
    apply load64_inside; lia. }
  assert (Hwords : words (pk_data p)
                   = (fun k : nat => load64 buf (Z.of_nat (length pre) + 16
                                                 + 8 * Z.of_nat k))
                     <$> seq 0 e).
  { unfold words.
    replace (length (pk_data p) / 8)%nat with e.
    - apply list_eq_Forall2, Forall2_fmap, Forall2_same_length_lookup.
      split; [done|]. intros i a b Ha Hb.
      rewrite lookup_seq in Ha, Hb. destruct Ha as [-> Hi], Hb as [-> _].
      symmetry. now apply Hwk.
    - unfold e. apply Nat2Z.inj. rewrite Nat2Z.inj_div, Hlen.
      rewrite Z2Nat.id by done. change (Z.of_nat 8) with 8.
      rewrite Z.mul_comm, Z.div_mul by lia. reflexivity. }
  change (S (S e) + m)%nat with (S (S (e + m))).
  rewrite dump_loop_step by lia. cbv zeta. rewrite Hw0. cbn [Z.eqb]. fold ez.
  rewrite (proj2 (Z.eqb_neq (0 + 1) (ez + 2))) by lia.
  rewrite dump_loop_step by lia. cbv zeta.
  change (0 + 1 =? 0) with false. change (0 + 1 =? 1) with true. cbv iota.
  rewrite Hw1. unfold packet_lines. fold ez.
  rewrite length_app, Nat2Z.inj_add, Hplen.
  destruct e as [|r] eqn:Ee.
  - assert (ez = 0) by lia.
    rewrite (proj2 (Z.eqb_eq (0 + 1 + 1) (ez + 2))) by lia.
    rewrite Hwords. cbn [seq fmap list_fmap app Nat.add].
    replace (Z.of_nat (length pre) + 8 + 8)
      with (Z.of_nat (length pre) + (16 + 8 * ez)) by lia.
    now destruct (dump_loop m buf _ 0 ez).
  - assert (Z.of_nat (S r) = ez) by lia.
    rewrite (proj2 (Z.eqb_neq (0 + 1 + 1) (ez + 2))) by lia.
    rewrite dump_entries by lia.
    rewrite Hwords.
    replace (Z.of_nat (length pre) + 8 + 8 + 8 * Z.of_nat (S r))
      with (Z.of_nat (length pre) + (16 + 8 * ez)) by lia.
    assert (E : (fun k : nat => load64 buf (Z.of_nat (length pre) + 8 + 8
                                            + 8 * Z.of_nat k))
                <$> seq 0 (S r)
                = (fun k : nat => load64 buf (Z.of_nat (length pre) + 16
                                              + 8 * Z.of_nat k))
                  <$> seq 0 (S r)).
    { apply list_fmap_ext. intros i k _. f_equal. lia. }
    rewrite E.
    now destruct (dump_loop m buf _ 0 ez).
Qed.

(** The rounds the loop makes over the packets. *)
Lemma packet_bytes_length p :
  well_formed p ->
  length (packet_bytes p)
  = (8 * S (S (Z.to_nat (Z.land (pk_header0 p) 0xFFFF))))%nat.
Proof.
  intros (_ & _ & Hlen). unfold packet_bytes.
  rewrite length_app, header_bytes_length.
  assert (0 <= Z.land (pk_header0 p) 0xFFFF) by (apply Z.land_nonneg; lia).
  lia.
Qed.

Lemma dump_packets ps : forall pre x,
  Forall well_formed ps ->
  dump_loop (length (concat (packet_bytes <$> ps)) / 8)
    (pre ++ concat (packet_bytes <$> ps)) (Z.of_nat (length pre)) 0 x
  = Some (concat (packet_lines <$> ps)).
Proof.
  induction ps as [|p ps IH]; intros pre x Hwf; [reflexivity|].
  apply Forall_cons in Hwf as [Hp Hps].
  cbn [fmap list_fmap concat]. rewrite length_app, packet_bytes_length by done.
  rewrite Nat.mul_comm, Nat.div_add_l by lia.
  pose proof (dump_packet pre (concat (packet_bytes <$> ps)) p
                (length (concat (packet_bytes <$> ps)) / 8) x Hp) as H.
  cbv zeta in H. rewrite H.
  rewrite (app_assoc pre). now rewrite (IH _ _ Hps).
Qed.

Lemma dump_one_packet p :
  well_formed p ->
  Z.of_nat (length (packet_bytes p)) < 2 ^ 64 ->
  cxl_hmu_dump (packet_bytes p) (Z.of_nat (length (packet_bytes p)))
  = Some (Size (Z.of_nat (length (packet_bytes p))) :: packet_lines p).
Proof.
  intros Hwf Hlen. unfold cxl_hmu_dump.
  rewrite round_down8_multiple;
    [|lia|rewrite packet_bytes_length, Nat2Z.inj_mul, Z.mul_comm by done;
          now apply Z.mod_mul].
  replace (Z.to_nat (Z.of_nat (length (packet_bytes p)) / 8))
    with (length (packet_bytes p) / 8)%nat
    by (rewrite <- (Nat2Z.id (length (packet_bytes p) / 8)), Nat2Z.inj_div;
        reflexivity).
  pose proof (dump_packets [p] [] 0) as H.
  cbn [fmap list_fmap concat app length] in H.
  rewrite !app_nil_r in H. change (Z.of_nat 0) with 0 in H.
  rewrite H by now apply Forall_singleton.
  reflexivity.
Qed.

(** X29: [cxl_hmu_dump] takes data made of packets apart at the packet
    borders, without a read outside the data: it prints the size, and for
    each packet in turn the entry count and the counter width of its first
    header word, its second header word, and as many entries as the count
    says. *)
Theorem dump_shows_every_packet ps :
  let data := concat (packet_bytes <$> ps) in
  let len := Z.of_nat (length data) in
  Forall well_formed ps ->
  len < 2 ^ 64 ->
  cxl_hmu_dump data len = Some (Size len :: concat (packet_lines <$> ps)).
Proof.
  intros data len Hwf Hlen.
  assert (Hm : len mod 8 = 0).
  { unfold len, data. clear Hlen len data.
    induction Hwf as [|p ps Hp _ IH]; [reflexivity|].
    cbn [fmap list_fmap concat].
    rewrite length_app, packet_bytes_length, Nat2Z.inj_add, Nat2Z.inj_mul by done.
    rewrite Z.add_comm, Z.mul_comm, Z.mod_add by done. exact IH. }
  unfold cxl_hmu_dump. rewrite round_down8_multiple by lia.
  replace (Z.to_nat (len / 8)) with (length data / 8)%nat
    by (unfold len; rewrite <- (Nat2Z.id (length data / 8)), Nat2Z.inj_div;
        reflexivity).
  pose proof (dump_packets ps [] 0 Hwf) as H. cbn [app length] in H.
  change (Z.of_nat 0) with 0 in H. fold data in H. now rewrite H.
Qed.

Lemma dump_shows_every_packet_witness :
  let p1 := mk_packet 0x100002 0xDEADBEEF (le_bytes 8 7 ++ le_bytes 8 9) in
  let p2 := mk_packet 0x100001 0xDEADBEEF (le_bytes 8 11) in
  cxl_hmu_dump (packet_bytes p1 ++ packet_bytes p2) 56
  = Some [Size 56; Header0 2 16; Header1 0xDEADBEEF; Entry 7; Entry 9;
          Header0 1 16; Header1 0xDEADBEEF; Entry 11].
Proof.
  intros p1 p2.
  pose proof (dump_shows_every_packet [p1; p2]) as H. cbv zeta in H.
  cbn [fmap list_fmap concat] in H. rewrite app_nil_r in H.
  apply H.
  - repeat constructor; vm_compute; congruence.
  - reflexivity.
Defined.

(** *** From the driver to the tool *)

Lemma header0_units a b :
  0 <= a < 2 ^ 16 ->
  Z.land (Z.lor (FIELD_PREP CHMU_HEADER0_SIZE_MASK a)
                (FIELD_PREP CHMU_HEADER0_COUNT_WIDTH b)) 0xFFFF = a.
Proof.
  intros Ha. apply Z.bits_inj'. intros j Hj.
  change 0xFFFF with (Z.ones 16).
  rewrite Z.land_spec, Z.lor_spec, !FIELD_PREP_bit by (cbn; lia).
  rewrite Z.testbit_ones_nonneg by lia.
  cbn [lo hi CHMU_HEADER0_SIZE_MASK CHMU_HEADER0_COUNT_WIDTH].
  destruct (Z.ltb_spec j 16).
  - rewrite (proj2 (Z.leb_le 0 j)), (proj2 (Z.leb_le j 15)) by lia.
    rewrite (proj2 (Z.leb_gt 16 j)) by lia. cbn [andb].
    rewrite Z.sub_0_r. now rewrite orb_false_r, andb_true_r.
  - rewrite andb_false_r. symmetry. apply (bit_above a 16); lia.
Qed.

Lemma header0_width a b :
  0 <= b < 2 ^ 8 ->
  Z.land (Z.shiftr (Z.lor (FIELD_PREP CHMU_HEADER0_SIZE_MASK a)
                          (FIELD_PREP CHMU_HEADER0_COUNT_WIDTH b)) 16) 0xFF
  = b.
Proof.
  intros Hb. apply Z.bits_inj'. intros j Hj.
  change 0xFF with (Z.ones 8).
  rewrite Z.land_spec, Z.shiftr_spec, Z.lor_spec, !FIELD_PREP_bit
    by (cbn; lia).
  rewrite Z.testbit_ones_nonneg by lia.
  cbn [lo hi CHMU_HEADER0_SIZE_MASK CHMU_HEADER0_COUNT_WIDTH].
  destruct (Z.ltb_spec j 8).
  - rewrite (proj2 (Z.leb_gt (j + 16) 15)) by lia.
    rewrite (proj2 (Z.leb_le 16 (j + 16))), (proj2 (Z.leb_le (j + 16) 23))
      by lia.
    rewrite andb_false_r. cbn [andb orb].
    replace (j + 16 - 16) with j by lia. now rewrite andb_true_r.
  - rewrite andb_false_r. symmetry. apply (bit_above b 8); lia.
Qed.

Lemma header0_range a b :
  0 <= Z.lor (FIELD_PREP CHMU_HEADER0_SIZE_MASK a)
             (FIELD_PREP CHMU_HEADER0_COUNT_WIDTH b) < 2 ^ 64.
Proof.
  set (h := Z.lor _ _).
  assert (E : h = Z.land h (Z.ones 24)).
  { apply Z.bits_inj'. intros j Hj. unfold h.
    rewrite Z.land_spec, Z.lor_spec, !FIELD_PREP_bit by (cbn; lia).
    rewrite Z.testbit_ones_nonneg by lia.
    cbn [lo hi CHMU_HEADER0_SIZE_MASK CHMU_HEADER0_COUNT_WIDTH].
    destruct (Z.ltb_spec j 24); [now rewrite andb_true_r|].
    rewrite (proj2 (Z.leb_gt j 15)), (proj2 (Z.leb_gt j 23)) by lia.
    now rewrite !andb_false_r. }
  rewrite E, Z.land_ones by lia.
  pose proof (Z.mod_pos_bound h (2 ^ 24)). lia.
Qed.

Lemma staged_back (p : nat) (src mem : list Z) :
  (p <= length mem)%nat ->
  take (length src) (drop p (poke p src mem)) = src.
Proof.
  intros Hp. unfold poke.
  rewrite drop_app_length' by (rewrite length_take; lia).
  now rewrite take_app_length.
Qed.

(** X30: the tool reads a packet the way the driver wrote it.  When one
    drain stages entries, a whole number of them, [cxl_hmu_dump] of the
    bytes staged reads nothing outside them and prints the number of
    entries drained, the counter width the unit reported, the second header
    word, and the drained entries, oldest first. *)
Theorem dump_of_drained_packet stop w :
  let n := drained w in
  drainable w ->
  n <> 0 ->
  n mod 8 = 0 ->
  exists r w',
    cxl_hmu_update_aux stop w = Ret r w' /\
    let staged := take (Z.to_nat (sizeof_header + n))
                    (drop (Z.to_nat (buf_pos (buf w)))
                       (buf_base (buf w'))) in
    cxl_hmu_dump staged (sizeof_header + n)
    = Some (Size (sizeof_header + n)
            :: Header0 (n / 8) (next_width (dev w))
            :: Header1 0xDEADBEEF
            :: (Entry <$> words (take (Z.to_nat n) (pending (dev w))))).
Proof.
  intros n Hd Hn Hm.
  destruct (drain_returns stop w Hd) as (r & w' & Hrun & Hpost).
  exists r, w'. split; [exact Hrun|]. cbv zeta.
  destruct Hpost as (_ & Hbase & _).
  destruct (packet_length w Hd) as (Hplen & Hn0 & Hfit).
  apply Z.eqb_neq in Hn. fold n in Hplen, Hn0. rewrite Hn in Hplen.
  pose proof Hd as (Hh & Ht & Hmem & Hlen & Hpos & Hroom).
  rewrite Hbase. unfold sizeof_header in *.
  replace (Z.to_nat (16 + n)) with (length (packet w)) by lia.
  rewrite staged_back by lia.
  set (h0 := Z.lor (FIELD_PREP CHMU_HEADER0_SIZE_MASK (n / 8))
               (FIELD_PREP CHMU_HEADER0_COUNT_WIDTH (next_width (dev w)))).
  set (p := mk_packet h0 0xDEADBEEF (take (Z.to_nat n) (pending (dev w)))).
  assert (Hpk : packet w = packet_bytes p).
  { unfold packet. fold n. now rewrite Hn. }
  assert (Hpend : n <= Z.of_nat (length (pending (dev w)))).
  { unfold n, drained. lia. }
  assert (Hn8 : 0 <= n / 8 < 2 ^ 16).
  { pose proof (pending_length (dev w) Hh Ht Hmem) as Hpl.
    pose proof (list_top_range (dev w)).
    pose proof (u16_range (regs (dev w) !!! CHMU_INST0_HEAD_REG)) as H1.
    pose proof (u16_range (regs (dev w) !!! CHMU_INST0_TAIL_REG)) as H2.
    fold (list_head (dev w)) in H1. fold (list_tail (dev w)) in H2.
    split; [apply Z.div_pos; lia|]. apply Z.div_lt_upper_bound; [lia|].
    revert Hpl.
    destruct (list_head (dev w) <? list_tail (dev w));
      [|destruct (Z.ltb_spec (list_tail (dev w)) (list_head (dev w)))];
      intros Hpl; lia. }
  assert (Hw : 0 <= next_width (dev w) < 2 ^ 8).
  { apply (FIELD_GET_range CHMU_INST0_STATUS_COUNTER_WIDTH_MSK). cbn. lia. }
  assert (Hu : Z.land h0 0xFFFF = n / 8) by now apply header0_units.
  assert (Hwf : well_formed p).
  { split; [apply header0_range|]. split; [cbn; lia|].
    cbn [pk_data pk_header0 p]. rewrite Hu, length_take.
    pose proof (Z.div_mod n 8). lia. }
  assert (Hdump : cxl_hmu_dump (packet_bytes p) (16 + n)
                  = Some (Size (16 + n) :: packet_lines p)).
  { pose proof (dump_one_packet p Hwf) as H.
    rewrite <- Hpk, Hplen in H. rewrite Hpk in H. apply H. lia. }
  rewrite Hpk, Hdump. unfold packet_lines. cbn [pk_header0 pk_header1 pk_data p].
  rewrite Hu. unfold h0. now rewrite header0_width.
Qed.

Lemma dump_of_drained_packet_witness :
  let w := demo_world (demo_device 8 2 5) 4096 0 in
  exists r w',
    cxl_hmu_update_aux false w = Ret r w' /\
    cxl_hmu_dump (take 40 (buf_base (buf w'))) 40
    = Some [Size 40; Header0 3 16; Header1 0xDEADBEEF;
            Entry 0x20005; Entry 0x30005; Entry 0x40005].
Proof.
  intros w.
  destruct (dump_of_drained_packet false w) as (r & w' & Hrun & H).
  - vm_compute. repeat split; try reflexivity; discriminate.
  - vm_compute. discriminate.
  - reflexivity.
  - exists r, w'. split; [exact Hrun|].
    etransitivity; [exact H|]. vm_compute. reflexivity.
Defined.

End PerfToolFacts.
